(* ===== verification/_CoqProject ===== *)
-Q . S2P
Prelude.v
GoLib.v
GoStrings.v
GoUtf.v
Jni.v
Waitlist.v
Mail.v
KgUsers.v
GoBase64.v
GoJson.v
GoJsonText.v
GoNet.v
Resources.v
Reconcilers.v
Headscale.v
HeadscaleTheorems.v
GoPath.v
MembershipsStore.v
MembershipsGraph.v
MembershipsInv.v
MembershipsCorrect.v
MembershipsTheorems.v
MembershipsServer.v
AuthProxy.v
DnsApi.v
DnsSolver.v
UrlShortener.v
RepoIO.v
OldApps.v
Events.v
EventsTheorems.v
SchemaApi.v
SchemaTheorems.v
PortAllocator.v
Transport.v
InstallerTypes.v
AppManager.v
AppManagerTheorems.v
InfraManager.v
InfraManagerTheorems.v
Footprints.v
Leftovers.v
Simulations.v
Derived.v
Rendering.v
CueApps.v
CueText.v
CueTextTheorems.v
Catalogue.v
CatalogueTheorems.v
EnvNetwork.v
EnvServer.v
Welcome.v
AppServer.v
AuthUi.v
AuthUiTheorems.v
Accounts.v
Tasks.v
TasksConcurrent.v
Releases.v
SoftClient.v
Rewrite.v
RewriteTheorems.v
EnvTasks.v
EnvTasksTheorems.v
EnvDns.v
Bootstrapper.v
BootstrapperTheorems.v
NebulaCert.v
NebulaKube.v
NebulaApi.v
NebulaController.v
NebulaWorld.v
NebulaTheorems.v
NebulaApiTheorems.v
VpnClient.v
VpnTheorems.v
Android.v
AndroidRefs.v
AndroidStorage.v
