(* ===== verification/Prelude.v ===== *)
(** * PCloud: a verified model of its services

    PCloud runs a personal cloud of many environments on Kubernetes.  This
    library models the Go services that hold its core logic and proves what
    makes them correct, or where they are not.  It follows the source: one file
    (or a few) per component, one definition per function or method with the
    source's name, guards and early returns, composed as the source composes
    them.

    ** How Go is modelled

    - A call gives an [outcome]: [Ok], [Err] (a Go error, with the class callers
      test for), [Panic], or [Diverge] when the fuel of a loop ran out.
    - Code that calls the outside is a [go] program: a tree of calls whose
      answers come from a [handler].  Databases, Git repositories, HTTP services
      and generators of names are effects; a handler is the world a theorem is
      about.  Faults are answers too: the SQL driver and the repository take a
      function that says which call fails.
    - Concurrency is a schedule that picks whose next call is served
      ([run_sched], and [reaches] for building them); Tasks.v uses a
      step relation over goroutines instead.
    - Interfaces of the source are classes: [Store], [UrlStore], [RepoIO],
      [client] of the port allocator, [NamespaceCreator], [HttpPost],
      [EnvServices].  [AuthStore] is the law a store must satisfy for the
      memberships server; its instance for SQLite discharges it.
    - JSON and YAML texts are exchanged as the values they denote ([json] in
      GoLib, [content] in RepoIO), with encoders and decoders per struct.
      Integers are Z; where the width matters (SOA serials, address bytes) the
      wrap-around is written out.

    ** Files

    Foundations
    - Prelude (this file): outcomes, programs, runs, footprints, triples,
      schedules and how to build a race, automation.
    - GoLib, GoStrings, GoUtf, GoPath, GoBase64, GoJson, GoJsonText, GoNet: what
      the source uses of strings, strconv, unicode, net/http, encoding/json
      (values, and texts where the source handles them), path/filepath,
      encoding/base64 and net, with laws.

    Users and access
    - Memberships*: core/auth/memberships.  MembershipsStore has the tables, the
      SQL statements and the methods of SQLiteStore; MembershipsGraph the pure
      search behind getAllParentGroupsRecursive; MembershipsInv and
      MembershipsCorrect the invariant and its preservation; MembershipsTheorems
      the theorems on the store; MembershipsServer the HTTP handlers.
    - AuthProxy: core/auth/proxy, in front of any service and in front of the
      memberships server.  AuthUi, AuthUiTheorems: core/auth/ui, between Kratos
      and Hydra.  Accounts: the welcome server in front of the accounts API.
    - KgUsers: the users of core/kg, in a heap of shared objects.

    Repositories and apps
    - RepoIO: core/installer/soft/repoio.go and io/kustomization.go, the
      repository interface, its implementation over a work tree, local commits
      and a remote.  Leftovers: what failed operations leave there.
      PortAllocator: core/port-allocator over that interface.  Transport:
      core/tcp-udp-transport, which opened ports before it did.
    - InstallerTypes, Derived, Rendering, CueApps: core/installer/derived.go,
      schema.go, app.go and app_repository.go: configurations, input values,
      rendering, kinds of apps and where they are found.  CueText,
      CueTextTheorems: the CUE text compiled into the binary, which every app is
      read with, up to the templates of the charts it uses.  Catalogue,
      CatalogueTheorems: apps/app-repository, the catalogue such apps come from.
    - AppManager, InfraManager (with their Theorems): core/installer/
      app_manager.go.  Footprints and Simulations: what their programs call, and
      that they do the same over any implementation of the repository.
    - Rewrite, RewriteTheorems: core/installer/cmd/rewrite.go.  Releases: core/installer/kube.go,
      namespace.go, name.go, tasks/release.go.  SoftClient: soft/client.go, how
      commands and clones reach the Git server.

    Environments
    - EnvNetwork: the addresses of environments (app.go, welcome/env.go);
      EnvServer: the handlers of core/installer/welcome/env.go.
    - Tasks, TasksConcurrent: core/installer/tasks/tasks.go.  EnvTasks,
      EnvTasksTheorems, EnvDns: the tasks that create an environment (the rest
      of core/installer/tasks, soft/client.go).
    - Welcome, AppServer: the other servers of core/installer/welcome,
      the creation of accounts, the application manager's pages and the launcher.
    - Bootstrapper, BootstrapperTheorems: core/installer/bootstrapper.go and
      cmd/bootstrap.go, against the same interfaces as the tasks.

    Networks
    - DnsApi: core/dns-api, zone records, store, first start and restart,
      handlers.  DnsSolver: core/dns-challenge-solver, run against DnsApi.
    - Nebula*: core/nebula.  NebulaCert certificates, NebulaKube the objects in
      Kubernetes, NebulaApi the API, NebulaController the controller,
      NebulaWorld the cluster around it, NebulaTheorems and NebulaApiTheorems.
      VpnClient, VpnTheorems: core/client/cmd/pcloud, the devices.  Jni:
      core/client/jni; Android, AndroidRefs, AndroidStorage: the application on
      Android over it, the references it holds, what its preferences keep.
    - Resources: what the reconcilers ask of Kubernetes.  Headscale,
      HeadscaleTheorems: core/headscale and its controller.  Reconcilers:
      core/fluxcd-reconciler, core/resource-renderer, tasks/reconciler.go.

    Data and small apps
    - SchemaApi, SchemaTheorems: core/api and the importer of apps/minio.
      Events, EventsTheorems: core/events.  OldApps: core/appmanager.
    - UrlShortener: apps/url-shortener.  Waitlist: apps/dodo.  Mail: apps/maddy.

    ** What is proved

    - Memberships: over any sequence of store calls with any driver the tables
      stay well-formed (acyclic parents, owned groups), provided users are
      removed from the tables the server names; the groups of a user are
      exactly the transitive ones; AddChildGroup and Init on every branch; two
      races that break the invariant.  The server changes the store only for
      owners, but for its initialisation, once, by whoever asks first; it
      answers its API exactly.
    - Proxy: a request goes upstream exactly when the session and the groups
      allow it; under whose name services see it, including the spoofing of the
      user header; together with the memberships server it admits the transitive
      members.  Auth UI: nothing is accepted at Hydra but in the name of whom
      Kratos confirmed, and what the texts, which escape nothing, say of such a
      name.  Accounts: none without an identity.
    - Repositories: what a failed operation wrote is published by the next one; a
      pull of a clean checkout is a fresh clone to every program.
      Port allocator: one request refines a step on a map of ports; allocations
      stay; overlapping ones can be lost.  A service transport gets its port and
      moves no other; one whose status was not written never does.
    - Application manager: the chain of kustomizations (and that its loop never
      ends on a relative path); Install, Update and Remove change what
      FindInstance answers for one instance only; a refused port leaves the app
      installed; an update with bad values wipes it; rewriting all instances
      publishes all of them in one commit, or nothing.  Input values survive being
      stored and derive to the same input again; array fields do not.
    - Apps: an app that asks for authentication is behind the proxy whatever its
      text says; it has one Ingress; what the catalogue publishes is what its
      client unpacks.
    - Environments: which range the n-th environment gets and when they run out;
      when addresses collide; overlapping requests share a range, overlapping
      zones lose one.  Creating one never uses a pointer before it is set; its
      first commits make the repository the other services expect; waiting for
      DNS ends with the first right answer.  Bootstrapping leaves an
      installation that can create environments, but can lock out its
      administrator.
    - Git server: whatever fails, no connection or session stays open; the client
      is there at the first answer.
    - Tasks: a sequential parent runs its subtasks in order, stops at the first
      error and leaves no goroutine behind; a concurrent parent ends and hears of
      the first failure.  Waiting for a Helm release ends when it is ready.
    - DNS: the record operations refine insert and remove of (name, text) pairs;
      the deletion loop with duplicates; serial arithmetic; restarts; the
      challenge solver publishes, and cleans up what it published; challenges
      for the apex of a zone.
    - Mesh: credentials behind every object the controller reports ready, whatever
      users make, edit and delete meanwhile (they are those made for the version
      the controller read); as deployed no authority is ever made; a join needs the signature of the
      authority; invitations and approvals carried between devices as codes.
      Android: over any virtual machine no reference is used after its end or
      given back twice, and those alive are the ones in use and those of
      disconnections, which nobody takes; a stored configuration is read back.
      Private network: a user headscale takes gets its key; a half-made one never
      does.
    - Data: an object that is added or updated gets an event, or the rewriting
      panics for want of an event type; a query arrives at Dgraph; every event is
      processed once.
    - URL shortener: who may change what, names are never rebound, the drawing
      loop ends, a shortened address is followed.  Mail: who is logged in, and
      what a half-made account does.

    ** Fuel

    Loops that are not structural take fuel, and a theorem says how much is
    enough: the number of groups for the walk over parents, the names of the
    path for the kustomization chain, the nesting of the schema for derived
    values, the number of taken names (or ports) in a row for the loops that
    draw one, the exceptions thrown while describing an exception, the rounds
    until the answer comes for the loops that wait.  A loop that does not end in
    Go diverges for every fuel.

    ** What is not modelled

    - Third-party code is a parameter, used through named hypotheses: templates
      and pages beyond their data, the CUE parser and evaluator (CueText has the
      meaning of the text of this repository, not the language), zone-file
      syntax and DNSSEC keys, certificates and curves, GraphQL parsing, the
      clients of Kubernetes.  Numbers in JSON are integers.
    - TLS, SSH sessions, contexts and log output.  The mutex of a repository is
      not a call of its own: no schedule used here interleaves what it
      separates.  Commits are their trees.
    - The functions of JNI and of Android themselves, under the wrappers of
      core/client/jni; core/tcp-udp-transport does not build (a package is not
      imported) and is read as what it says.
    - Generated clientsets, informers and deep copies; the main functions, which parse
      flags and start servers; the gRPC service, configuration and logging of
      core/kg; the front ends and the other languages of the repository.

*)
From stdpp Require Export base tactics option list strings gmap sets relations.
From Stdlib Require Export ZArith Lia.

#[export] Set Default Proof Using "Type".

Declare Scope go_scope.
Delimit Scope go_scope with go.

(** ** Go errors and outcomes *)

(** The error classes the sources test for ([errors.Is], [errors.As], an
    extended SQLite code, a [==] with a sentinel).  Everything else is [KPlain]. *)
Inductive errkind :=
  | KPlain
  | KNotExist            (* fs.ErrNotExist *)
  | KUnique              (* SQLite extended code 2067 *)
  | KPrimaryKey          (* SQLite extended code 1555 *)
  | KNoRows              (* sql.ErrNoRows *)
  | KNameTaken           (* url-shortener NameAlreadyTaken *)
  | KNotFound            (* installer.ErrorNotFound / kubernetes IsNotFound *)
  | KAlreadyExists       (* kubernetes IsAlreadyExists *)
  | KEOF                 (* io.EOF *)
  | KNotLoggedIn.        (* ErrNotLoggedIn of the auth UI *)

#[export] Instance errkind_eq_dec : EqDecision errkind.
Proof. solve_decision. Defined.

Record error := MkErr { ekind : errkind; emsg : string }.

#[export] Instance error_eq_dec : EqDecision error.
Proof. solve_decision. Defined.

(** [fmt.Errorf] and [errors.New]: an error no caller can classify. *)
Definition errorf (msg : string) : error := MkErr KPlain msg.

(** What a Go call gives back: a value, a non-nil error, a panic, or nothing
    because the fuel of a loop ran out ([Diverge]: the Go code still runs). *)
Inductive outcome (A : Type) : Type :=
  | Ok (a : A)
  | Err (e : error)
  | Panic (why : string)
  | Diverge.
Arguments Ok {A} _.
Arguments Err {A} _.
Arguments Panic {A} _.
Arguments Diverge {A}.

#[export] Instance outcome_eq_dec `{EqDecision A} : EqDecision (outcome A).
Proof. solve_decision. Defined.

Definition outcome_map {A B} (f : A -> B) (o : outcome A) : outcome B :=
  match o with
  | Ok a => Ok (f a)
  | Err e => Err e
  | Panic w => Panic w
  | Diverge => Diverge
  end.

Definition is_ok {A} (o : outcome A) : bool :=
  match o with Ok _ => true | _ => false end.

#[export] Instance outcome_ret : MRet outcome := fun A a => Ok a.
#[export] Instance outcome_bind : MBind outcome := fun A B f o =>
  match o with
  | Ok a => f a
  | Err e => Err e
  | Panic w => Panic w
  | Diverge => Diverge
  end.

(** ** Programs that call the outside *)

(** A Go function body as the tree of the calls it makes to code that is not
    its own: a database, the file tree of a repository, an HTTP service.  [E X]
    are the calls answered by an [X].  A handler of [E] says what the calls do;
    it is where third-party behaviour enters a theorem, as a parameter. *)
Inductive prog (E : Type -> Type) (A : Type) : Type :=
  | Ret (a : A)
  | Vis {X : Type} (e : E X) (k : X -> prog E A).
Arguments Ret {E A} _.
Arguments Vis {E A X} _ _.

Fixpoint bindp {E A B} (p : prog E A) (f : A -> prog E B) : prog E B :=
  match p with
  | Ret a => f a
  | Vis e k => Vis e (fun x => bindp (k x) f)
  end.

Definition handler (E : Type -> Type) (S : Type) := forall X, E X -> S -> S * X.

Fixpoint run {E S A} (h : handler E S) (p : prog E A) (s : S) : S * A :=
  match p with
  | Ret a => (s, a)
  | Vis e k => let '(s', x) := h _ e s in run h (k x) s'
  end.

(** Go code in error-passing style: [go E A] may call [E] and ends in an outcome. *)
Definition go (E : Type -> Type) (A : Type) : Type := prog E (outcome A).

#[export] Instance go_ret {E} : MRet (go E) := fun A a => Ret (Ok a).
#[export] Instance go_bind {E} : MBind (go E) := fun A B f m =>
  bindp m (fun o => match o with
                    | Ok a => f a
                    | Err e => Ret (Err e)
                    | Panic w => Ret (Panic w)
                    | Diverge => Ret Diverge
                    end).

Definition fail {E A} (e : error) : go E A := Ret (Err e).
Definition panic {E A} (why : string) : go E A := Ret (Panic why).
Definition lift {E A} (o : outcome A) : go E A := Ret o.

(** A call whose answer is already an outcome. *)
Definition call {E : Type -> Type} {A} (e : E (outcome A)) : go E A := Vis e (fun o => Ret o).

(** [if x, err := m; err != nil { return h err }; k x]. *)
Definition handle {E A B} (m : go E A) (h : error -> go E B) (k : A -> go E B) : go E B :=
  bindp m (fun o => match o with
                    | Ok a => k a
                    | Err e => h e
                    | Panic w => Ret (Panic w)
                    | Diverge => Ret Diverge
                    end).

Notation "'check' x ':=' m 'onerr' e '=>' h 'in' k" :=
  (handle m (fun e => h) (fun x => k))
  (at level 10, x name, m at level 100, e name, h at level 100, k at level 200,
   format "'[v' 'check'  x  ':='  m  'onerr'  e  '=>'  h  'in' '/' k ']'") : go_scope.
Open Scope go_scope.

(** [for _, x := range l { if err := f x; err != nil { return err } }]. *)
Fixpoint foreach {E A} (f : A -> go E unit) (l : list A) : go E unit :=
  match l with
  | [] => mret tt
  | x :: l' => f x ≫= fun _ => foreach f l'
  end.

(** [defer c]: [c] is called whatever way the body ends; its answer is dropped. *)
Definition deferred {E A X} (c : E X) (m : go E A) : go E A :=
  bindp m (fun o => Vis c (fun _ => Ret o)).

(** ** Laws of [run] *)

Lemma run_bindp {E S A B} (h : handler E S) (p : prog E A) (f : A -> prog E B) s :
  run h (bindp p f) s = let '(s', a) := run h p s in run h (f a) s'.
Proof.
  revert s. induction p as [a|X e k IH]; intros s; simpl; [done|].
  destruct (h X e s) as [s' x]. apply IH.
Qed.

Lemma run_mbind {E S A B} (h : handler E S) (m : go E A) (f : A -> go E B) s :
  run h (m ≫= f) s =
  match run h m s with
  | (s', Ok a) => run h (f a) s'
  | (s', Err e) => (s', Err e)
  | (s', Panic w) => (s', Panic w)
  | (s', Diverge) => (s', Diverge)
  end.
Proof.
  unfold mbind, go_bind. rewrite run_bindp.
  by destruct (run h m s) as [s' []].
Qed.

Lemma run_handle {E S A B} (h : handler E S) (m : go E A) (c : error -> go E B) (k : A -> go E B) s :
  run h (handle m c k) s =
  match run h m s with
  | (s', Ok a) => run h (k a) s'
  | (s', Err e) => run h (c e) s'
  | (s', Panic w) => (s', Panic w)
  | (s', Diverge) => (s', Diverge)
  end.
Proof.
  unfold handle. rewrite run_bindp.
  by destruct (run h m s) as [s' []].
Qed.

Lemma run_deferred {E S A X} (h : handler E S) (c : E X) (m : go E A) s :
  run h (deferred c m) s = let '(s', o) := run h m s in ((h _ c s').1, o).
Proof.
  unfold deferred. rewrite run_bindp. destruct (run h m s) as [s' o]; simpl.
  by destruct (h X c s').
Qed.

Lemma run_call {E S A} (h : handler E S) (e : E (outcome A)) s :
  run h (call e) s = h _ e s.
Proof. simpl. by destruct (h _ e s). Qed.

(** ** Footprints: which calls a program can make *)

(** [calls P p]: whatever the answers, [p] makes only calls that satisfy [P]. *)
Fixpoint calls {E A} (P : forall X, E X -> Prop) (p : prog E A) : Prop :=
  match p with
  | Ret _ => True
  | Vis e k => P _ e /\ forall x, calls P (k x)
  end.

Lemma calls_bindp {E A B} (P : forall X, E X -> Prop) (p : prog E A) (f : A -> prog E B) :
  calls P p -> (forall a, calls P (f a)) -> calls P (bindp p f).
Proof.
  intros Hp Hf. induction p as [a|X e k IH]; simpl in *; [apply Hf|].
  destruct Hp as [He Hk]. split; [done|]. intros x. by apply IH.
Qed.

Lemma calls_mbind {E A B} (P : forall X, E X -> Prop) (m : go E A) (f : A -> go E B) :
  calls P m -> (forall a, calls P (f a)) -> calls P (m ≫= f).
Proof. intros Hm Hf. apply calls_bindp; [done|]. by intros []; simpl. Qed.

Lemma calls_handle {E A B} (P : forall X, E X -> Prop) (m : go E A)
    (c : error -> go E B) (k : A -> go E B) :
  calls P m -> (forall e, calls P (c e)) -> (forall a, calls P (k a)) -> calls P (handle m c k).
Proof. intros Hm Hc Hk. apply calls_bindp; [done|]. by intros []; simpl. Qed.

Lemma calls_call {E A} (P : forall X, E X -> Prop) (e : E (outcome A)) :
  P _ e -> calls P (call e).
Proof. by simpl. Qed.

Lemma calls_weaken {E A} (P Q : forall X, E X -> Prop) (p : prog E A) :
  (forall X e, P X e -> Q X e) -> calls P p -> calls Q p.
Proof.
  intros HPQ. induction p as [a|X e k IH]; simpl; [done|].
  intros [He Hk]. split; [by apply HPQ|]. intros x. by apply IH.
Qed.

Lemma calls_foreach {E A} (P : forall X, E X -> Prop) (f : A -> go E unit) l :
  (forall a, calls P (f a)) -> calls P (foreach f l).
Proof.
  intros Hf. induction l as [|a l IH]; simpl; [done|].
  apply calls_mbind; [apply Hf|]. by intros _.
Qed.

Lemma calls_deferred {E A X} (P : forall X, E X -> Prop) (c : E X) (m : go E A) :
  P _ c -> calls P m -> calls P (deferred c m).
Proof. intros Hc Hm. apply calls_bindp; [done|]. by intros o; simpl. Qed.

(** A reflexive and transitive relation that every call of the footprint
    respects relates the states before and after the program. *)
Lemma run_calls_rel {E S A} (h : handler E S) (P : forall X, E X -> Prop)
    (R : S -> S -> Prop) (p : prog E A) :
  (forall s, R s s) -> (forall a b c, R a b -> R b c -> R a c) ->
  (forall X e s, P X e -> R s (h X e s).1) ->
  calls P p -> forall s, R s (run h p s).1.
Proof.
  intros Hrefl Htrans Hh. induction p as [a|X e k IH]; intros Hp s; simpl in *; [done|].
  destruct Hp as [He Hk]. specialize (Hh X e s He).
  destruct (h X e s) as [s' x]. eapply Htrans; [exact Hh|]. by apply IH.
Qed.

(** A state predicate that every call of the footprint keeps. *)
Lemma run_calls_inv {E S A} (h : handler E S) (P : forall X, E X -> Prop)
    (I : S -> Prop) (p : prog E A) :
  (forall X e s, P X e -> I s -> I (h X e s).1) ->
  calls P p -> forall s, I s -> I (run h p s).1.
Proof.
  intros Hh Hp s. revert s.
  apply (run_calls_rel h P (fun s s' => I s -> I s')); [done|auto|auto|done].
Qed.

(** ** Triples: a precondition on the state, a postcondition on answer and state *)

Definition hoare {E S A} (h : handler E S) (P : S -> Prop) (p : prog E A) (Q : A -> S -> Prop) : Prop :=
  forall s, P s -> Q (run h p s).2 (run h p s).1.

Lemma hoare_ret {E S A} (h : handler E S) (P : S -> Prop) (Q : A -> S -> Prop) a :
  (forall s, P s -> Q a s) -> hoare h P (Ret a) Q.
Proof. intros HQ s Hs. by apply HQ. Qed.

Lemma hoare_conseq {E S A} (h : handler E S) (P P' : S -> Prop) (p : prog E A) (Q Q' : A -> S -> Prop) :
  hoare h P' p Q' -> (forall s, P s -> P' s) -> (forall a s, Q' a s -> Q a s) -> hoare h P p Q.
Proof. intros Hp HP HQ s Hs. by apply HQ, Hp, HP. Qed.

(** What the other outcomes of the first part owe to the postcondition. *)
Definition or_else {A B S} (R : A -> S -> Prop) (Q : outcome B -> S -> Prop) (o : outcome A) (s : S) : Prop :=
  match o with
  | Ok a => R a s
  | Err e => Q (Err e) s
  | Panic w => Q (Panic w) s
  | Diverge => Q Diverge s
  end.

Definition or_catch {A B S} (R : A -> S -> Prop) (Re : error -> S -> Prop)
    (Q : outcome B -> S -> Prop) (o : outcome A) (s : S) : Prop :=
  match o with
  | Ok a => R a s
  | Err e => Re e s
  | Panic w => Q (Panic w) s
  | Diverge => Q Diverge s
  end.

Lemma hoare_mbind {E S A B} (h : handler E S) (P : S -> Prop) (m : go E A) (f : A -> go E B)
    (R : A -> S -> Prop) (Q : outcome B -> S -> Prop) :
  hoare h P m (or_else R Q) -> (forall a, hoare h (R a) (f a) Q) -> hoare h P (m ≫= f) Q.
Proof.
  intros Hm Hf s Hs. specialize (Hm s Hs). rewrite run_mbind.
  destruct (run h m s) as [s' [a|e|w|]]; simpl in *; [by apply Hf|done..].
Qed.

Lemma hoare_handle {E S A B} (h : handler E S) (P : S -> Prop) (m : go E A)
    (c : error -> go E B) (k : A -> go E B)
    (R : A -> S -> Prop) (Re : error -> S -> Prop) (Q : outcome B -> S -> Prop) :
  hoare h P m (or_catch R Re Q) -> (forall e, hoare h (Re e) (c e) Q) ->
  (forall a, hoare h (R a) (k a) Q) -> hoare h P (handle m c k) Q.
Proof.
  intros Hm Hc Hk s Hs. specialize (Hm s Hs). rewrite run_handle.
  destruct (run h m s) as [s' [a|e|w|]]; simpl in *; [by apply Hk|by apply Hc|done..].
Qed.

(** A predicate that each iteration re-establishes holds after the loop. *)
Lemma hoare_foreach {E S A} (h : handler E S) (I : S -> Prop) (f : A -> go E unit)
    (Q : outcome unit -> S -> Prop) l :
  (forall a, hoare h I (f a) (or_else (fun _ => I) Q)) -> (forall s, I s -> Q (Ok tt) s) ->
  hoare h I (foreach f l) Q.
Proof.
  intros Hf HQ. induction l as [|a l IH]; simpl.
  - intros s Hs. by apply HQ.
  - eapply hoare_mbind; [apply Hf|]. intros u. exact IH.
Qed.

(** ** Concurrency: a schedule picks whose next call is served *)

Definition step_prog {E S A} (h : handler E S) (p : prog E A) (s : S) : prog E A * S :=
  match p with
  | Ret a => (Ret a, s)
  | Vis e k => let '(s', x) := h _ e s in (k x, s')
  end.

Fixpoint run_sched {E S A} (h : handler E S) (sched : list nat)
    (pool : list (prog E A)) (s : S) : list (prog E A) * S :=
  match sched with
  | [] => (pool, s)
  | i :: sched' =>
      match pool !! i with
      | None => run_sched h sched' pool s
      | Some p => let '(p', s') := step_prog h p s in run_sched h sched' (<[i := p']> pool) s'
      end
  end.

(** The answers of the programs of a pool that have ended. *)
Definition pool_results {E A} (pool : list (prog E A)) : list (option A) :=
  map (fun p => match p with Ret a => Some a | Vis _ _ => None end) pool.

Lemma run_sched_app {E S A} (h : handler E S) a b (pool : list (prog E A)) s :
  run_sched h (a ++ b) pool s = let '(pool', s') := run_sched h a pool s in run_sched h b pool' s'.
Proof.
  revert pool s. induction a as [|i a IH]; intros pool s; cbn [app run_sched]; [done|].
  destruct (pool !! i) as [p|]; [|apply IH]. destruct (step_prog h p s). apply IH.
Qed.

(** Serving one program alone up to the end of its first part. *)
Lemma run_sched_bindp {E S A B} (h : handler E S) i (p : prog E A) (f : A -> prog E B) pool s :
  pool !! i = Some (bindp p f) ->
  exists n, run_sched h (replicate n i) pool s = (<[i := f (run h p s).2]> pool, (run h p s).1).
Proof.
  revert pool s. induction p as [a|X e k IH]; intros pool s Hi.
  - exists 0. cbn [replicate run_sched run fst snd]. f_equal. symmetry. by apply list_insert_id.
  - cbn [run]. destruct (h X e s) as [s1 x] eqn:Hh.
    destruct (IH x (<[i := bindp (k x) f]> pool) s1) as [n Hn].
    { apply list_lookup_insert_eq. by eapply lookup_lt_Some. }
    exists (Datatypes.S n). cbn [replicate run_sched]. rewrite Hi. cbn [bindp step_prog]. rewrite Hh, Hn.
    by rewrite list_insert_insert_eq.
Qed.

(** Serving one program alone to its end. *)
Lemma run_sched_run {E S A} (h : handler E S) i (p : prog E A) pool s :
  pool !! i = Some p ->
  exists n, run_sched h (replicate n i) pool s = (<[i := Ret (run h p s).2]> pool, (run h p s).1).
Proof.
  revert pool s. induction p as [a|X e k IH]; intros pool s Hi.
  - exists 0. cbn [replicate run_sched run fst snd]. f_equal. symmetry. by apply list_insert_id.
  - cbn [run]. destruct (h X e s) as [s1 x] eqn:Hh.
    destruct (IH x (<[i := k x]> pool) s1) as [n Hn].
    { apply list_lookup_insert_eq. by eapply lookup_lt_Some. }
    exists (Datatypes.S n). cbn [replicate run_sched]. rewrite Hi. cbn [step_prog]. rewrite Hh, Hn.
    by rewrite list_insert_insert_eq.
Qed.

(** ** Schedules: a program of a pool advances alone to a point of its text while
    the others wait *)

Lemma run_sched_trans {E S A} (h : handler E S) a b (pool pool' : list (prog E A)) s s' r :
  run_sched h a pool s = (pool', s') -> run_sched h b pool' s' = r -> run_sched h (a ++ b) pool s = r.
Proof. intros Ha Hb. by rewrite run_sched_app, Ha. Qed.

(** Alone, [p] gets from state [s] to [p'] in state [s']. *)
Definition reaches {E S A} (h : handler E S) (p : prog E A) (s : S) (p' : prog E A) (s' : S) : Prop :=
  forall i pool, pool !! i = Some p -> exists n, run_sched h (replicate n i) pool s = (<[i := p']> pool, s').

Section Reaches.
Context {E : Type -> Type} {S : Type} (h : handler E S).

Lemma reaches_refl {A} (p : prog E A) s : reaches h p s p s.
Proof. intros i pool Hi. exists 0. cbn [replicate run_sched]. by rewrite list_insert_id. Qed.

Lemma reaches_trans {A} (p p' p'' : prog E A) s s' s'' :
  reaches h p s p' s' -> reaches h p' s' p'' s'' -> reaches h p s p'' s''.
Proof.
  intros H1 H2 i pool Hi. destruct (H1 i pool Hi) as [n Hn].
  destruct (H2 i (<[i := p']> pool)) as [m Hm]; [apply list_lookup_insert_eq; by eapply lookup_lt_Some|].
  exists (n + m). rewrite replicate_add. eapply run_sched_trans; [exact Hn|]. by rewrite Hm, list_insert_insert_eq.
Qed.

Lemma reaches_bindp {A B} (p : prog E A) (f : A -> prog E B) s :
  reaches h (bindp p f) s (f (run h p s).2) (run h p s).1.
Proof. intros i pool Hi. by apply run_sched_bindp. Qed.

Lemma reaches_handle {A B} (m : go E A) (c : error -> go E B) (k : A -> go E B) s a s' :
  run h m s = (s', Ok a) -> reaches h (handle m c k) s (k a) s'.
Proof.
  intros Hm. pose proof (reaches_bindp m (fun o => match o with Ok a => k a | Err e => c e | Panic w => Ret (Panic w)
    | Diverge => Ret Diverge end) s) as H. rewrite Hm in H. exact H.
Qed.

Lemma reaches_end {A} (p : prog E A) s : reaches h p s (Ret (run h p s).2) (run h p s).1.
Proof. intros i pool Hi. by apply run_sched_run. Qed.

(** A program that has got somewhere ends as it ends from there. *)
Lemma reaches_run {A} (p p' : prog E A) s s' : reaches h p s p' s' -> run h p s = run h p' s'.
Proof.
  intros H. destruct (H 0 [p] eq_refl) as [n Hn]. destruct (reaches_end p' s' 0 [p'] eq_refl) as [m Hm].
  pose proof (run_sched_trans h _ _ _ _ _ _ _ Hn Hm) as Hall. rewrite <- replicate_add in Hall. clear Hn Hm H.
  assert (Hgen : forall k (q : prog E A) t a t', run_sched h (replicate k 0) [q] t = ([Ret a], t') -> run h q t = (t', a)).
  { clear. induction k as [|k IH]; intros q t a t'; [by intros [= -> ->]|]. cbn [replicate run_sched].
    cbn [lookup list_lookup]. destruct q as [x|X e c]; cbn [step_prog run].
    - intros Hr. cbn [insert list_insert] in Hr. by apply IH in Hr.
    - destruct (h X e t) as [t1 x]. cbn [insert list_insert]. apply IH. }
  rewrite (Hgen _ _ _ _ _ Hall). by destruct (run h p' s').
Qed.

(** The first program waits at [p1'] while the second one runs to its end. *)
Lemma overtaken {A} (p1 p1' p2 : prog E A) s s1 :
  reaches h p1 s p1' s1 ->
  let s2 := (run h p2 s1).1 in
  exists sched, run_sched h sched [p1; p2] s =
    ([Ret (run h p1' s2).2; Ret (run h p2 s1).2], (run h p1' s2).1).
Proof.
  intros H1 s2. destruct (H1 0 [p1; p2] eq_refl) as [n1 Hn1].
  destruct (reaches_end p2 s1 1 [p1'; p2] eq_refl) as [n2 Hn2].
  destruct (reaches_end p1' s2 0 [p1'; Ret (run h p2 s1).2] eq_refl) as [n3 Hn3].
  exists (replicate n1 0 ++ replicate n2 1 ++ replicate n3 0).
  eapply run_sched_trans; [exact Hn1|]. eapply run_sched_trans; [exact Hn2|]. exact Hn3.
Qed.
End Reaches.

(** ** Lists *)

Lemma filter_all {A} (P : A -> Prop) `{!forall x, Decision (P x)} (l : list A) :
  (forall x, x ∈ l -> P x) -> filter P l = l.
Proof.
  intros Hall. induction l as [|x l IH]; [done|].
  rewrite filter_cons_True by (apply Hall; by left). f_equal. apply IH. intros y Hy. apply Hall. by right.
Qed.

(** ** Automation *)

Create HintDb go_calls.
#[export] Hint Resolve calls_mbind calls_handle calls_call calls_foreach calls_deferred : go_calls.

(** Walk through the binds, tests and matches of a program; leaves the calls it
    does not know how to justify. *)
Ltac calls_step :=
  match goal with
  | |- forall _, _ => intro
  | |- calls _ (Ret _) => exact I
  | |- calls _ (mret _) => exact I
  | |- calls _ (fail _) => exact I
  | |- calls _ (panic _) => exact I
  | |- calls _ (lift _) => exact I
  | |- calls _ (_ ≫= _) => apply calls_mbind
  | |- calls _ (handle _ _ _) => apply calls_handle
  | |- calls _ (call _) => apply calls_call
  | |- calls _ (foreach _ _) => apply calls_foreach
  | |- calls _ (deferred _ _) => apply calls_deferred
  | |- calls _ (if ?b then _ else _) => destruct b
  | |- calls _ (match ?x with _ => _ end) => destruct x
  | |- True => exact I
  end.
Ltac solve_calls := repeat (first [ calls_step | solve [eauto with go_calls] ]).

(** Rewrite a run of a compound program into the runs of its parts. *)
Ltac run_simp :=
  repeat first
    [ rewrite run_mbind | rewrite run_handle | rewrite run_call | rewrite run_deferred ].

Ltac invc H := inversion H; subst; clear H.
