(* ===== verification/GoLib.v ===== *)
(** * The Go standard library, as far as the modelled sources use it

    Byte strings ([strings], [strconv], [path/filepath]) and the shapes of
    [net/http] requests and replies.  Case mapping and white space are those of
    ASCII, on which Go's UTF-8 functions agree with the ones below. *)
From S2P Require Import Prelude.
From Stdlib Require Import Ascii String.
Open Scope string_scope.

(** ** Characters *)

Definition ascii_code (c : ascii) : nat := nat_of_ascii c.

Definition is_space (c : ascii) : bool :=
  let n := ascii_code c in ((n =? 32) || ((9 <=? n) && (n <=? 13)))%nat.

Definition is_lower (c : ascii) : bool := ((97 <=? ascii_code c) && (ascii_code c <=? 122))%nat.
Definition is_upper (c : ascii) : bool := ((65 <=? ascii_code c) && (ascii_code c <=? 90))%nat.
Definition is_digit (c : ascii) : bool := ((48 <=? ascii_code c) && (ascii_code c <=? 57))%nat.

Definition lower_char (c : ascii) : ascii :=
  if is_upper c then ascii_of_nat (ascii_code c + 32) else c.

(** ** Package strings *)

Fixpoint str_map (f : ascii -> ascii) (s : string) : string :=
  match s with
  | "" => ""
  | String c s' => String (f c) (str_map f s')
  end.

Definition ToLower (s : string) : string := str_map lower_char s.

Fixpoint forall_char (p : ascii -> bool) (s : string) : bool :=
  match s with
  | "" => true
  | String c s' => p c && forall_char p s'
  end.

Fixpoint trim_left (s : string) : string :=
  match s with
  | "" => ""
  | String c s' => if is_space c then trim_left s' else s
  end.

Fixpoint trim_right (s : string) : string :=
  match s with
  | "" => ""
  | String c s' =>
      match trim_right s' with
      | "" => if is_space c then "" else String c ""
      | t => String c t
      end
  end.

Definition TrimSpace (s : string) : string := trim_right (trim_left s).

Fixpoint HasPrefix (s pre : string) : bool :=
  match pre, s with
  | "", _ => true
  | String c pre', String d s' => Ascii.eqb c d && HasPrefix s' pre'
  | _, _ => false
  end.

(** [s] without its first [n] bytes. *)
Fixpoint str_drop (n : nat) (s : string) : string :=
  match n, s with
  | S n', String _ s' => str_drop n' s'
  | _, _ => s
  end.

Fixpoint str_take (n : nat) (s : string) : string :=
  match n, s with
  | S n', String c s' => String c (str_take n' s')
  | _, _ => ""
  end.

Definition TrimPrefix (s pre : string) : string :=
  if HasPrefix s pre then str_drop (String.length pre) s else s.

Definition HasSuffix (s suf : string) : bool :=
  (String.length suf <=? String.length s)%nat &&
  String.eqb (str_drop (String.length s - String.length suf) s) suf.

Definition TrimSuffix (s suf : string) : string :=
  if HasSuffix s suf then str_take (String.length s - String.length suf) s else s.

(** [strings.Split] with a one-byte separator. *)
Fixpoint Split (s : string) (sep : ascii) : list string :=
  match s with
  | "" => [""]
  | String c s' =>
      if Ascii.eqb c sep then "" :: Split s' sep
      else match Split s' sep with
           | [] => [String c ""]
           | x :: xs => String c x :: xs
           end
  end.

Fixpoint Join (l : list string) (sep : string) : string :=
  match l with
  | [] => ""
  | [x] => x
  | x :: l' => x +:+ sep +:+ Join l' sep
  end.

(** [strings.ReplaceAll] of a one-byte pattern. *)
Fixpoint ReplaceAll (s : string) (old : ascii) (new : string) : string :=
  match s with
  | "" => ""
  | String c s' => (if Ascii.eqb c old then new else String c "") +:+ ReplaceAll s' old new
  end.

(** ** Package strconv: [Itoa] and [%d] *)

Definition digit_char (d : nat) : ascii := ascii_of_nat (48 + d).

Fixpoint itoa_fuel (fuel n : nat) (acc : string) : string :=
  match fuel with
  | 0 => acc
  | S f =>
      let acc' := String (digit_char (n mod 10)) acc in
      if (n <? 10)%nat then acc' else itoa_fuel f (n / 10) acc'
  end.

Definition itoa_nat (n : nat) : string := itoa_fuel (S n) n "".

Definition Itoa (z : Z) : string :=
  if (z <? 0)%Z then "-" +:+ itoa_nat (Z.to_nat (- z)) else itoa_nat (Z.to_nat z).

(** ** url.QueryEscape, byte by byte *)

Definition hex_char (d : nat) : ascii := if (d <? 10)%nat then digit_char d else ascii_of_nat (55 + d).

Definition unreserved (c : ascii) : bool :=
  is_lower c || is_upper c || is_digit c ||
  existsb (fun d => Ascii.eqb c d) ["-"; "_"; "."; "~"]%char%list.

Fixpoint QueryEscape (s : string) : string :=
  match s with
  | "" => ""
  | String c s' =>
      (if Ascii.eqb c " " then "+"
       else if unreserved c then String c ""
       else String "%" (String (hex_char (ascii_code c / 16)) (String (hex_char (ascii_code c mod 16)) "")))
      +:+ QueryEscape s'
  end.

(** ** net/http *)

Record request := MkRequest {
  rmethod : string;
  rpath : string;
  rheader : gmap string (list string);   (* canonical keys *)
  rvars : gmap string string;            (* mux.Vars *)
  rquery : gmap string (list string);    (* the URL query *)
  rpost : gmap string (list string);     (* the form fields of the body *)
  rform_err : option error;              (* ParseForm fails on a malformed body *)
  rbody : string;
}.

Definition first_value (m : gmap string (list string)) (k : string) : string :=
  match m !! k with
  | Some (v :: _) => v
  | _ => ""
  end.

(** [r.Header.Get]: the first value under a key. *)
Definition HeaderGet (r : request) (k : string) : string := first_value (rheader r) k.

(** [h.Add]: append a value under a key. *)
Definition HeaderAdd (h : gmap string (list string)) (k v : string) : gmap string (list string) :=
  <[k := (default [] (h !! k) ++ [v])%list]> h.

Definition Var (r : request) (k : string) : string := default "" (rvars r !! k).
Definition PostFormValue (r : request) (k : string) : string := first_value (rpost r) k.

(** [r.FormValue]: body fields come before those of the URL query. *)
Definition FormValue (r : request) (k : string) : string :=
  match (default [] (rpost r !! k) ++ default [] (rquery r !! k))%list with
  | v :: _ => v
  | [] => ""
  end.

Definition MethodGet := "GET".
Definition MethodPost := "POST".

Definition StatusOK := 200%Z.
Definition StatusFound := 302%Z.
Definition StatusSeeOther := 303%Z.
Definition StatusBadRequest := 400%Z.
Definition StatusUnauthorized := 401%Z.
Definition StatusNotFound := 404%Z.
Definition StatusMethodNotAllowed := 405%Z.
Definition StatusConflict := 409%Z.
Definition StatusInternalServerError := 500%Z.

(** What a handler that writes once sends back; [P] is the data of its pages. *)
Inductive reply (P : Type) : Type :=
  | HttpError (msg : string) (code : Z)
  | Redirect (url : string) (code : Z)
  | Page (data : P)
  | Empty.                                (* 200 with an empty body *)
Arguments HttpError {P} _ _.
Arguments Redirect {P} _ _.
Arguments Page {P} _.
Arguments Empty {P}.

Definition status_of {P} (r : reply P) : Z :=
  match r with
  | HttpError _ c | Redirect _ c => c
  | Page _ | Empty => StatusOK
  end.

(** ** encoding/json

    Texts are exchanged as the values they denote.  Keys of an object are taken
    to be distinct up to case, so that decoding does not depend on their order. *)
Inductive json :=
  | JNull
  | JBool (b : bool)
  | JNum (n : Z)
  | JStr (s : string)
  | JArr (l : list json)
  | JObj (fields : list (string * json)).

#[export] Instance json_eq_dec : EqDecision json.
Proof.
  unfold EqDecision. fix go 1. intros a b.
  destruct a as [|x|x|x|l|l], b as [|y|y|y|m|m]; try (right; discriminate).
  - by left.
  - destruct (decide (x = y)); [left|right]; congruence.
  - destruct (decide (x = y)); [left|right]; congruence.
  - destruct (decide (x = y)); [left|right]; congruence.
  - assert (Decision (l = m)) as [->|Hn]; [|by left|right; congruence].
    revert m. induction l as [|x l IH]; intros [|y m]; [by left|by right|by right|].
    destruct (go x y) as [->|Hn]; [|right; congruence]. destruct (IH m) as [->|Hn]; [by left|right; congruence].
  - assert (Decision (l = m)) as [->|Hn]; [|by left|right; congruence].
    revert m. induction l as [|[k x] l IH]; intros [|[k' y] m]; [by left|by right|by right|].
    destruct (decide (k = k')) as [->|Hn]; [|right; congruence].
    destruct (go x y) as [->|Hn]; [|right; congruence]. destruct (IH m) as [->|Hn]; [by left|right; congruence].
Defined.

Definition err_json : error := errorf "json: cannot unmarshal".

(** Field of a struct: absent and null leave the zero value. *)
Definition json_field {A} (k : string) (dec : json -> outcome A) (zero : A) (v : json) : outcome A :=
  match v with
  | JNull => Ok zero
  | JObj fs =>
      match list_find (fun kv => ToLower kv.1 = ToLower k) fs with
      | Some (_, (_, JNull)) | None => Ok zero
      | Some (_, (_, x)) => dec x
      end
  | _ => Err err_json
  end.

Definition json_string (v : json) : outcome string :=
  match v with JStr s => Ok s | JNull => Ok "" | _ => Err err_json end.

Fixpoint json_list {A} (dec : json -> outcome A) (l : list json) : outcome (list A) :=
  match l with
  | [] => Ok []
  | x :: l' =>
      match dec x, json_list dec l' with
      | Ok a, Ok l'' => Ok (a :: l'')
      | Ok _, o => o
      | Err e, _ => Err e
      | Panic w, _ => Panic w
      | Diverge, _ => Diverge
      end
  end.

Definition json_array {A} (dec : json -> outcome A) (v : json) : outcome (list A) :=
  match v with
  | JArr l => json_list dec l
  | JNull => Ok []
  | _ => Err err_json
  end.

(** A field with omitempty. *)
Definition omit_str (k v : string) : list (string * json) :=
  if String.eqb v "" then [] else [(k, JStr v)].

(** http.Post of a JSON body, with the status and the decoded body of the answer. *)
Class PostReply (E : Type -> Type) := post_reply : string -> string -> json -> go E (Z * outcome json).

(** ** Objects without a type: map[string]interface{} *)

(** [m[k] = v] *)
Fixpoint set_field (k : string) (v : json) (fs : list (string * json)) : list (string * json) :=
  match fs with
  | [] => [(k, v)]
  | (k', v') :: fs' => if String.eqb k' k then (k, v) :: fs' else (k', v') :: set_field k v fs'
  end.

Definition get_field (k : string) (fs : list (string * json)) : option json :=
  match list_find (fun kv => kv.1 = k) fs with Some (_, (_, v)) => Some v | None => None end.

Definition object_fields (v : option json) : option (list (string * json)) :=
  match v with Some (JObj fs) => Some fs | _ => None end.
