(* ===== verification/GoStrings.v ===== *)
(** * Laws of the string functions of [GoLib] *)
From S2P Require Import Prelude GoLib.
From Stdlib Require Import Ascii String.
Open Scope string_scope.
#[local] Arguments String.append !_ _ : simpl nomatch.

Lemma str_app_nil s : s +:+ "" = s.
Proof. induction s as [|c s IH]; [done|]. cbn. by rewrite IH. Qed.

Lemma str_app_l_nil s : "" +:+ s = s.
Proof. done. Qed.

Lemma str_app_assoc a b c : a +:+ (b +:+ c) = (a +:+ b) +:+ c.
Proof. induction a as [|x a IH]; [done|]. cbn. by rewrite IH. Qed.

Lemma str_app_cons x a b : String x a +:+ b = String x (a +:+ b).
Proof. done. Qed.

Lemma str_length_app a b : String.length (a +:+ b) = (String.length a + String.length b)%nat.
Proof. induction a as [|x a IH]; [done|]. cbn. by rewrite IH. Qed.

Lemma str_app_inj_l a b c : a +:+ b = a +:+ c -> b = c.
Proof. induction a as [|x a IH]; [done|]. cbn. intros [= H]. auto. Qed.

Lemma str_app_inj_r a b c : a +:+ c = b +:+ c -> a = b.
Proof.
  revert b. induction a as [|x a IH]; intros [|y b]; cbn; intros H; [done| | |].
  - apply (f_equal String.length) in H. cbn in H. rewrite str_length_app in H. lia.
  - apply (f_equal String.length) in H. cbn in H. rewrite str_length_app in H. lia.
  - injection H as -> H. f_equal. auto.
Qed.

Lemma str_drop_app a b : str_drop (String.length a) (a +:+ b) = b.
Proof. induction a as [|x a IH]; [by destruct b|done]. Qed.

Lemma str_take_app a b : str_take (String.length a) (a +:+ b) = a.
Proof. induction a as [|x a IH]; [by destruct b|]. cbn. by rewrite IH. Qed.

Lemma str_take_drop n s : str_take n s +:+ str_drop n s = s.
Proof. revert s. induction n as [|n IH]; intros [|c s]; cbn; try done. by rewrite IH. Qed.

(** ** Prefixes and suffixes *)

Lemma HasPrefix_app a b : HasPrefix (a +:+ b) a = true.
Proof. induction a as [|x a IH]; [by destruct b|]. cbn. by rewrite Ascii.eqb_refl. Qed.

Lemma HasPrefix_spec s p : HasPrefix s p = true <-> exists t, s = p +:+ t.
Proof.
  split; [|by intros [t ->]; apply HasPrefix_app].
  revert s. induction p as [|c p IH]; intros s; [by exists s|].
  destruct s as [|d s]; cbn; [done|]. intros [Hc H]%andb_true_iff. apply Ascii.eqb_eq in Hc as ->.
  destruct (IH s H) as [t ->]. by exists t.
Qed.

Lemma TrimPrefix_app a b : TrimPrefix (a +:+ b) a = b.
Proof. unfold TrimPrefix. by rewrite HasPrefix_app, str_drop_app. Qed.

Lemma HasSuffix_app a b : HasSuffix (a +:+ b) b = true.
Proof.
  unfold HasSuffix. rewrite str_length_app.
  replace (String.length a + String.length b - String.length b)%nat with (String.length a) by lia.
  rewrite str_drop_app, String.eqb_refl, andb_true_r. apply Nat.leb_le. lia.
Qed.

Lemma HasSuffix_spec s p : HasSuffix s p = true <-> exists t, s = t +:+ p.
Proof.
  split; [|by intros [t ->]; apply HasSuffix_app].
  unfold HasSuffix. intros [_ H]%andb_true_iff. apply String.eqb_eq in H.
  exists (str_take (String.length s - String.length p) s). rewrite <- H at 2. by rewrite str_take_drop.
Qed.

Lemma TrimSuffix_app a b : TrimSuffix (a +:+ b) b = a.
Proof.
  unfold TrimSuffix. rewrite HasSuffix_app, str_length_app.
  replace (String.length a + String.length b - String.length b)%nat with (String.length a) by lia.
  apply str_take_app.
Qed.

Lemma TrimSuffix_none s p : (forall t, s <> t +:+ p) -> TrimSuffix s p = s.
Proof.
  intros H. unfold TrimSuffix. destruct (HasSuffix s p) eqn:Hs; [|done].
  apply HasSuffix_spec in Hs as [t ->]. by destruct (H t).
Qed.

(** ** Split and Join *)

(** [s] has no byte [c]. *)
Definition no_char (c : ascii) (s : string) : Prop := forall_char (fun d => negb (Ascii.eqb d c)) s = true.

Lemma no_char_cons c d s : no_char c (String d s) <-> d <> c /\ no_char c s.
Proof.
  unfold no_char. cbn. rewrite andb_true_iff, negb_true_iff, Ascii.eqb_neq. done.
Qed.

Lemma no_char_app c a b : no_char c (a +:+ b) <-> no_char c a /\ no_char c b.
Proof.
  induction a as [|d a IH]; [by cbn; intuition|].
  rewrite str_app_cons, !no_char_cons, IH. tauto.
Qed.

Lemma Split_nonempty s sep : Split s sep <> [].
Proof. destruct s as [|c s]; cbn; [done|]. destruct (Ascii.eqb c sep); [done|]. by destruct (Split s sep). Qed.

Lemma Split_none s sep : no_char sep s -> Split s sep = [s].
Proof.
  induction s as [|c s IH]; [done|]. intros [Hc Hs]%no_char_cons. cbn.
  apply Ascii.eqb_neq in Hc. by rewrite Hc, (IH Hs).
Qed.

Lemma Split_app a b sep : no_char sep a -> Split (a +:+ String sep b) sep = a :: Split b sep.
Proof.
  induction a as [|c a IH]; [cbn; by rewrite Ascii.eqb_refl|].
  intros [Hc Ha]%no_char_cons. cbn. apply Ascii.eqb_neq in Hc. by rewrite Hc, (IH Ha).
Qed.

Lemma Join_cons x l sep : l <> [] -> Join (x :: l) sep = x +:+ sep +:+ Join l sep.
Proof. by destruct l. Qed.

Lemma Join_Split s sep : Join (Split s sep) (String sep "") = s.
Proof.
  induction s as [|c s IH]; [done|]. cbn [Split]. destruct (Ascii.eqb_spec c sep) as [->|Hc].
  - rewrite Join_cons by apply Split_nonempty. by rewrite IH.
  - pose proof (Split_nonempty s sep) as Hn. destruct (Split s sep) as [|x [|y l]] eqn:Hs; [done| |].
    + cbn in *. by rewrite IH.
    + rewrite Join_cons in IH |- * by done. cbn. by rewrite <- IH.
Qed.

Lemma Split_no_sep s sep : Forall (no_char sep) (Split s sep).
Proof.
  induction s as [|c s IH]; cbn; [by repeat constructor|].
  destruct (Ascii.eqb_spec c sep) as [->|Hc]; [by constructor|].
  destruct (Split s sep) as [|x l]; [by repeat constructor; apply no_char_cons|].
  inversion IH; subst. constructor; [|done]. by apply no_char_cons.
Qed.

(** ** Case mapping and numbers *)

Lemma lower_char_idem c : lower_char (lower_char c) = lower_char c.
Proof. destruct c as [[] [] [] [] [] [] [] []]; reflexivity. Qed.

Lemma ToLower_idem s : ToLower (ToLower s) = ToLower s.
Proof. induction s as [|c s IH]; [done|]. unfold ToLower in *. cbn. by rewrite lower_char_idem, IH. Qed.

(** [Itoa] can be read back. *)
Definition digit_val (c : ascii) : nat := nat_of_ascii c - 48.

Fixpoint dec_val (s : string) (acc : nat) : nat :=
  match s with
  | "" => acc
  | String c s' => dec_val s' (acc * 10 + digit_val c)
  end.

Lemma digit_val_char d : (d < 10)%nat -> digit_val (digit_char d) = d.
Proof. intros Hd. unfold digit_val, digit_char. rewrite nat_ascii_embedding; lia. Qed.

Lemma dec_val_itoa fuel n acc k :
  (n < fuel)%nat -> exists m, (1 <= m)%nat /\ dec_val (itoa_fuel fuel n acc) k = dec_val acc (k * 10 ^ m + n).
Proof.
  revert n acc k. induction fuel as [|fuel IH]; intros n acc k Hn; [lia|]. cbn [itoa_fuel].
  destruct (Nat.ltb_spec n 10) as [Hlt|Hge].
  - exists 1. split; [lia|]. cbn [dec_val]. rewrite Nat.mod_small, digit_val_char by done. by rewrite Nat.pow_1_r.
  - destruct (IH (n / 10)%nat (String (digit_char (n mod 10)) acc) k) as (m & Hm & ->).
    { apply Nat.Div0.div_lt_upper_bound; lia. }
    exists (S m). split; [lia|]. cbn [dec_val]. rewrite digit_val_char by (apply Nat.mod_upper_bound; lia).
    f_equal. rewrite Nat.pow_succ_r'. pose proof (Nat.div_mod_eq n 10). lia.
Qed.

Lemma itoa_nat_val n : dec_val (itoa_nat n) 0 = n.
Proof. unfold itoa_nat. by destruct (dec_val_itoa (S n) n "" 0 (Nat.lt_succ_diag_r n)) as (m & _ & ->). Qed.

Lemma itoa_nat_inj n m : itoa_nat n = itoa_nat m -> n = m.
Proof. intros H. by rewrite <- (itoa_nat_val n), H, itoa_nat_val. Qed.

(** The first byte of a number is a digit, so it is not a minus sign. *)
Lemma itoa_fuel_head fuel n acc :
  (n < fuel)%nat -> exists d s, (d < 10)%nat /\ itoa_fuel fuel n acc = String (digit_char d) s.
Proof.
  revert n acc. induction fuel as [|fuel IH]; intros n acc Hn; [lia|]. cbn [itoa_fuel].
  destruct (Nat.ltb_spec n 10) as [Hlt|Hge].
  - exists (n mod 10)%nat, acc. split; [apply Nat.mod_upper_bound; lia|done].
  - apply IH. apply Nat.Div0.div_lt_upper_bound; lia.
Qed.

Lemma itoa_nat_not_minus n s : itoa_nat n <> "-" +:+ s.
Proof.
  unfold itoa_nat. destruct (itoa_fuel_head (S n) n "" (Nat.lt_succ_diag_r n)) as (d & t & Hd & ->).
  intros H. rewrite str_app_cons in H. injection H as H _. apply (f_equal nat_of_ascii) in H.
  unfold digit_char in H. rewrite nat_ascii_embedding in H by lia. change (nat_of_ascii "-") with 45%nat in H. lia.
Qed.

Lemma Itoa_inj a b : Itoa a = Itoa b -> a = b.
Proof.
  unfold Itoa. destruct (Z.ltb_spec a 0), (Z.ltb_spec b 0); intros H'.
  - apply str_app_inj_l, itoa_nat_inj in H'. lia.
  - symmetry in H'. by apply itoa_nat_not_minus in H'.
  - by apply itoa_nat_not_minus in H'.
  - apply itoa_nat_inj in H'. lia.
Qed.

(** ** Fields of decoded objects *)

Lemma json_field_nil {A} k (dec : json -> outcome A) zero : json_field k dec zero (JObj []) = Ok zero.
Proof. done. Qed.

Lemma json_field_hit {A} k (dec : json -> outcome A) zero x fs :
  x <> JNull -> json_field k dec zero (JObj ((k, x) :: fs)) = dec x.
Proof. intros Hx. unfold json_field. cbn [list_find fst]. rewrite decide_True by done. by destruct x. Qed.

Lemma json_field_miss {A} k k' (dec : json -> outcome A) zero x fs :
  ToLower k' <> ToLower k -> json_field k dec zero (JObj ((k', x) :: fs)) = json_field k dec zero (JObj fs).
Proof.
  intros Hk. unfold json_field. cbn [list_find fst]. rewrite decide_False by done.
  by destruct (list_find _ fs) as [[? [? []]]|].
Qed.

(** Walk a decoder over an object whose keys are constants. *)
Ltac json_simp :=
  repeat first
    [ rewrite json_field_hit by done
    | rewrite json_field_miss by (vm_compute; discriminate)
    | rewrite json_field_nil
    | progress cbn [app mbind outcome_bind] ].

(** ** TrimSpace *)

Lemma trim_right_idem s : trim_right (trim_right s) = trim_right s.
Proof.
  induction s as [|c s IH]; [done|]. cbn [trim_right]. destruct (trim_right s) as [|d t] eqn:Ht.
  - destruct (is_space c) eqn:Hc; [done|]. cbn [trim_right]. by rewrite Hc.
  - cbn [trim_right] in IH |- *. by rewrite IH.
Qed.

Lemma trim_left_right s : trim_left (trim_right (trim_left s)) = trim_right (trim_left s).
Proof.
  induction s as [|c s IH]; [done|]. cbn [trim_left]. destruct (is_space c) eqn:Hc; [done|].
  cbn [trim_right]. destruct (trim_right s); [rewrite Hc|]; cbn [trim_left]; by rewrite Hc.
Qed.

Lemma TrimSpace_idem s : TrimSpace (TrimSpace s) = TrimSpace s.
Proof. unfold TrimSpace. by rewrite trim_left_right, trim_right_idem. Qed.

(** ** Splitting at the last separator *)

Lemma Split_app_any a b sep : Split (a +:+ String sep b) sep = (Split a sep ++ Split b sep)%list.
Proof.
  induction a as [|c a IH]; [rewrite str_app_l_nil; cbn [Split]; by rewrite Ascii.eqb_refl|].
  rewrite str_app_cons. cbn [Split]. rewrite IH. destruct (Ascii.eqb c sep); [done|].
  destruct (Split a sep) as [|x xs] eqn:Ha; [by apply Split_nonempty in Ha|done].
Qed.

Lemma app_sep_inj a b c d sep : no_char sep b -> no_char sep d -> a +:+ String sep b = c +:+ String sep d -> a = c /\ b = d.
Proof.
  intros Hb Hd He. assert (Hs : (Split a sep ++ [b] = Split c sep ++ [d])%list).
  { rewrite <- (Split_none b sep Hb), <- (Split_none d sep Hd), <- !Split_app_any. by rewrite He. }
  apply app_inj_2 in Hs as [Hs [= ->]]; [|done]. split; [|done]. rewrite <- (Join_Split a sep), <- (Join_Split c sep). by rewrite Hs.
Qed.

(** ** strconv.Atoi *)

Fixpoint dec_z (s : string) (acc : Z) : Z :=
  match s with
  | "" => acc
  | String c s' => dec_z s' (10 * acc + Z.of_nat (ascii_code c - 48))%Z
  end.

Definition Atoi (s : string) : outcome Z :=
  let '(sign, digits) :=
    match s with String "-"%char t => (-1, t)%Z | String "+"%char t => (1, t)%Z | _ => (1, s)%Z end in
  if String.eqb digits "" || negb (forall_char is_digit digits) then Err (errorf "invalid syntax")
  else
    let n := (sign * dec_z digits 0)%Z in
    if decide (- 2 ^ 63 <= n < 2 ^ 63)%Z then Ok n else Err (errorf "value out of range").
