(* ===== verification/GoUtf.v ===== *)
(** * unicode/utf8 and unicode/utf16

    The texts of Go are bytes in UTF-8, those of Java are units of UTF-16: the
    conversions of the Go standard library between both and code points. *)
From S2P Require Import Prelude GoLib.
From Stdlib Require Import Ascii.
Open Scope Z_scope.
Open Scope list_scope.

Definition RuneError : Z := 65533.

(** A code point that has a UTF-8 form: no surrogate. *)
Definition scalar (r : Z) : Prop := 0 <= r < 55296 \/ 57344 <= r < 1114112.

#[export] Instance scalar_dec r : Decision (scalar r).
Proof. unfold scalar. apply _. Defined.

(** ** Bytes *)

Definition byte_of (c : ascii) : Z := Z.of_nat (ascii_code c).
Definition char_of (b : Z) : ascii := ascii_of_nat (Z.to_nat b).

Fixpoint bytes_of (s : string) : list Z :=
  match s with "" => [] | String c s' => byte_of c :: bytes_of s' end%string.

Definition string_of (bs : list Z) : string := foldr (fun b s => String (char_of b) s) ""%string bs.

Definition is_byte (b : Z) : Prop := 0 <= b < 256.

Lemma byte_of_range c : is_byte (byte_of c).
Proof. unfold is_byte, byte_of, ascii_code. pose proof (nat_ascii_bounded c). lia. Qed.

Lemma char_of_byte c : char_of (byte_of c) = c.
Proof. unfold char_of, byte_of, ascii_code. rewrite Nat2Z.id. apply ascii_nat_embedding. Qed.

Lemma byte_of_char b : is_byte b -> byte_of (char_of b) = b.
Proof. unfold is_byte, byte_of, char_of, ascii_code. intros Hb. rewrite nat_ascii_embedding by lia. lia. Qed.

Lemma string_of_bytes s : string_of (bytes_of s) = s.
Proof. induction s as [|c s IH]; [done|]. cbn [bytes_of string_of foldr]. rewrite char_of_byte. f_equal. exact IH. Qed.

Lemma bytes_of_string bs : Forall is_byte bs -> bytes_of (string_of bs) = bs.
Proof.
  induction 1 as [|b bs Hb _ IH]; [done|]. cbn [string_of foldr bytes_of]. rewrite byte_of_char by done. f_equal. exact IH.
Qed.

(** ** UTF-8 *)

Definition within (lo hi b : Z) : bool := (lo <=? b) && (b <=? hi).
Abbreviation tail_byte := (within 128 191).

(** The second byte of a form of three or four bytes: no longer form than needed,
    no surrogate, nothing beyond the last code point. *)
Definition second_byte (b0 b1 : Z) : bool :=
  if b0 =? 224 then within 160 191 b1
  else if b0 =? 237 then within 128 159 b1
  else if b0 =? 240 then within 144 191 b1
  else if b0 =? 244 then within 128 143 b1
  else tail_byte b1.

(** []rune(s): a byte that starts no form becomes the replacement character. *)
Fixpoint runes (bs : list Z) : list Z :=
  match bs with
  | [] => []
  | b0 :: t =>
      let bad := RuneError :: runes t in
      if b0 <? 128 then b0 :: runes t
      else if within 194 223 b0 then
        match t with
        | b1 :: t1 => if tail_byte b1 then ((b0 - 192) * 64 + (b1 - 128)) :: runes t1 else bad
        | _ => bad
        end
      else if within 224 239 b0 then
        match t with
        | b1 :: b2 :: t2 =>
            if second_byte b0 b1 && tail_byte b2
            then ((b0 - 224) * 4096 + (b1 - 128) * 64 + (b2 - 128)) :: runes t2 else bad
        | _ => bad
        end
      else if within 240 244 b0 then
        match t with
        | b1 :: b2 :: b3 :: t3 =>
            if second_byte b0 b1 && tail_byte b2 && tail_byte b3
            then ((b0 - 240) * 262144 + (b1 - 128) * 4096 + (b2 - 128) * 64 + (b3 - 128)) :: runes t3 else bad
        | _ => bad
        end
      else bad
  end.

Definition rune_bytes (r : Z) : list Z :=
  let r := if decide (scalar r) then r else RuneError in
  if r <? 128 then [r]
  else if r <? 2048 then [192 + r / 64; 128 + r mod 64]
  else if r <? 65536 then [224 + r / 4096; 128 + r / 64 mod 64; 128 + r mod 64]
  else [240 + r / 262144; 128 + r / 4096 mod 64; 128 + r / 64 mod 64; 128 + r mod 64].

(** string(rs) *)
Definition text_of_runes (rs : list Z) : string := string_of (concat (map rune_bytes rs)).
Definition runes_of (s : string) : list Z := runes (bytes_of s).

(** ** UTF-16 *)

Module utf16.
Definition encode_rune (r : Z) : list Z :=
  if within 0 55295 r || within 57344 65535 r then [r]
  else if within 65536 1114111 r then [55296 + (r - 65536) / 1024; 56320 + (r - 65536) mod 1024]
  else [RuneError].

Definition Encode (rs : list Z) : list Z := concat (map encode_rune rs).

Fixpoint Decode (us : list Z) : list Z :=
  match us with
  | [] => []
  | u :: t =>
      if (u <? 55296) || (57344 <=? u) then u :: Decode t
      else match t with
           | v :: t' =>
               if (u <? 56320) && within 56320 57343 v
               then ((u - 55296) * 1024 + (v - 56320) + 65536) :: Decode t' else RuneError :: Decode t
           | [] => [RuneError]
           end
  end.
End utf16.

(** * Proofs *)

Ltac tests := repeat match goal with
  | |- context[?a <? ?b] => destruct (Z.ltb_spec a b)
  | |- context[?a <=? ?b] => destruct (Z.leb_spec a b)
  | |- context[?a =? ?b] => destruct (Z.eqb_spec a b)
  end; cbn [andb orb].

(** The same, without the cases that cannot be. *)
Ltac decide_tests := repeat (match goal with
  | |- context[?a <? ?b] => destruct (Z.ltb_spec a b)
  | |- context[?a <=? ?b] => destruct (Z.leb_spec a b)
  | |- context[?a =? ?b] => destruct (Z.eqb_spec a b)
  end; try (exfalso; lia); cbn [andb orb]).

Lemma rune_bytes_bytes r : Forall is_byte (rune_bytes r).
Proof.
  unfold rune_bytes. assert (Hs : scalar (if decide (scalar r) then r else RuneError)).
  { case_decide; [done|]. unfold scalar, RuneError. lia. }
  revert Hs. generalize (if decide (scalar r) then r else RuneError). unfold scalar. intros x Hx.
  assert (Htail : forall y, is_byte (128 + y mod 64)) by (intros y; pose proof (Z.mod_pos_bound y 64); unfold is_byte; lia).
  assert (Hlead : forall a q, 0 <= a -> 0 < q -> x < (256 - a) * q -> is_byte (a + x / q)).
  { intros a q Ha Hq Hlt. pose proof (Z.div_pos x q). pose proof (Z.div_lt_upper_bound x q (256 - a)). unfold is_byte. nia. }
  tests; repeat constructor; try apply Htail; try (unfold is_byte; lia); apply Hlead; lia.
Qed.

(** The digits of a code point to base 64. *)
Lemma digits64 r : exists n m, r mod 64 = m /\ r / 64 mod 64 = n /\ r = 64 * (64 * (r / 4096) + n) + m /\ 0 <= n < 64 /\ 0 <= m < 64.
Proof.
  exists (r / 64 mod 64), (r mod 64). pose proof (Z.div_mod r 64). pose proof (Z.div_mod (r / 64) 64) as Hd.
  rewrite Z.div_div in Hd by lia. change (64 * 64) with 4096 in Hd. pose proof (Z.mod_pos_bound r 64). pose proof (Z.mod_pos_bound (r / 64) 64). lia.
Qed.

Lemma runes_rune r t : scalar r -> runes (rune_bytes r ++ t) = r :: runes t.
Proof.
  intros Hs. unfold rune_bytes. rewrite decide_True by done. unfold scalar in Hs.
  destruct (Z.ltb_spec r 128) as [H1|H1].
  { cbn [app runes]. by decide_tests. }
  destruct (Z.ltb_spec r 2048) as [H2|H2].
  { cbn [app runes]. unfold within. set (b0 := 192 + r / 64). set (b1 := 128 + r mod 64).
    assert (Hb : 194 <= b0 <= 223 /\ 128 <= b1 <= 191 /\ (b0 - 192) * 64 + (b1 - 128) = r).
    { unfold b0, b1. pose proof (Z.div_mod r 64). pose proof (Z.mod_pos_bound r 64). lia. }
    clearbody b0 b1. destruct Hb as (? & ? & Hr). decide_tests; by f_equal. }
  destruct (Z.ltb_spec r 65536) as [H3|H3]; cbn [app runes]; unfold second_byte, within.
  - set (b0 := 224 + r / 4096). set (b1 := 128 + r / 64 mod 64). set (b2 := 128 + r mod 64).
    assert (Hb : 224 <= b0 <= 239 /\ 128 <= b1 <= 191 /\ 128 <= b2 <= 191 /\
      (b0 - 224) * 4096 + (b1 - 128) * 64 + (b2 - 128) = r /\ (b0 = 224 -> 160 <= b1) /\ (b0 = 237 -> b1 <= 159)).
    { unfold b0, b1, b2. destruct (digits64 r) as (n & m & -> & -> & ? & ? & ?). lia. }
    clearbody b0 b1 b2. destruct Hb as (? & ? & ? & Hr & ? & ?). decide_tests; by f_equal.
  - set (b0 := 240 + r / 262144). set (b1 := 128 + r / 4096 mod 64). set (b2 := 128 + r / 64 mod 64). set (b3 := 128 + r mod 64).
    assert (Hb : 240 <= b0 <= 244 /\ 128 <= b1 <= 191 /\ 128 <= b2 <= 191 /\ 128 <= b3 <= 191 /\
      (b0 - 240) * 262144 + (b1 - 128) * 4096 + (b2 - 128) * 64 + (b3 - 128) = r /\ (b0 = 240 -> 144 <= b1) /\ (b0 = 244 -> b1 <= 143)).
    { unfold b0, b1, b2, b3. destruct (digits64 r) as (n & m & -> & -> & ? & ? & ?).
      pose proof (Z.div_mod (r / 4096) 64) as Hd. rewrite Z.div_div in Hd by lia. change (4096 * 64) with 262144 in Hd.
      pose proof (Z.mod_pos_bound (r / 4096) 64). lia. }
    clearbody b0 b1 b2 b3. destruct Hb as (? & ? & ? & ? & Hr & ? & ?). decide_tests; by f_equal.
Qed.

Lemma runes_of_text rs : Forall scalar rs -> runes_of (text_of_runes rs) = rs.
Proof.
  intros Hrs. unfold runes_of, text_of_runes. rewrite bytes_of_string.
  - induction Hrs as [|r rs Hr _ IH]; [done|]. cbn [map concat]. rewrite runes_rune by done. f_equal. exact IH.
  - clear Hrs. induction rs as [|r rs IH]; [constructor|]. cbn [map concat]. apply Forall_app. split; [apply rune_bytes_bytes|exact IH].
Qed.

Lemma decode_rune r us : scalar r -> utf16.Decode (utf16.encode_rune r ++ us) = r :: utf16.Decode us.
Proof.
  intros Hs. unfold utf16.encode_rune, within, scalar in *. tests; try lia; cbn [app utf16.Decode]; unfold within.
  - tests; done || lia.
  - tests; done || lia.
  - tests; try (Z.to_euclidean_division_equations; lia). f_equal. Z.to_euclidean_division_equations; lia.
Qed.

Lemma utf16_Decode_Encode rs : Forall scalar rs -> utf16.Decode (utf16.Encode rs) = rs.
Proof.
  unfold utf16.Encode. induction 1 as [|r rs Hr _ IH]; [done|]. cbn [map concat]. rewrite decode_rune by done. by f_equal.
Qed.

(** What is read from bytes are code points. *)
Lemma runes_scalar_aux n bs : (length bs <= n)%nat -> Forall is_byte bs -> Forall scalar (runes bs).
Proof.
  revert bs. induction n as [|n IH]; intros bs Hn Hbs; (destruct bs as [|b0 t]; [constructor|]); cbn [length] in Hn; [lia|].
  invc Hbs. assert (Herr : scalar RuneError) by (unfold scalar, RuneError; lia).
  assert (Hbad : Forall scalar (RuneError :: runes t)) by (constructor; [done|apply IH; [lia|done]]).
  cbn [runes]. destruct (Z.ltb_spec b0 128) as [H0|H0].
  { constructor; [unfold scalar, is_byte in *; lia|apply IH; [lia|done]]. }
  repeat match goal with
  | |- Forall scalar (match ?t with [] => _ | _ => _ end) => destruct t; [exact Hbad|]
  | H : Forall is_byte (_ :: _) |- _ => inversion_clear H
  | |- Forall scalar (if ?b then _ else _) => destruct b eqn:?; try exact Hbad
  end; try exact Hbad; (constructor; [|apply IH; [cbn [length] in *; lia|done]]);
    unfold second_byte, within, scalar, is_byte in *; rewrite ?andb_true_iff in *; repeat (case_match; rewrite ?Z.eqb_eq, ?Z.eqb_neq in * ); lia.
Qed.

Lemma runes_of_scalar s : Forall scalar (runes_of s).
Proof.
  apply (runes_scalar_aux (length (bytes_of s))); [done|]. induction s; constructor; [apply byte_of_range|done].
Qed.

(** A text as it comes back from its code points: what is no UTF-8 is replaced. *)
Definition clean (s : string) : string := text_of_runes (runes_of s).

Lemma utf16_text s : text_of_runes (utf16.Decode (utf16.Encode (runes_of s))) = clean s.
Proof. by rewrite (utf16_Decode_Encode _ (runes_of_scalar s)). Qed.

Lemma clean_runes rs : Forall scalar rs -> clean (text_of_runes rs) = text_of_runes rs.
Proof. intros Hrs. unfold clean. by rewrite runes_of_text. Qed.

Definition ascii_text (s : string) : Prop := forall_char (fun c => ascii_code c <? 128)%nat s = true.

Lemma clean_ascii s : ascii_text s -> clean s = s.
Proof.
  unfold ascii_text, clean, text_of_runes, runes_of. intros Hs. rewrite <- (string_of_bytes s) at 2. f_equal.
  induction s as [|c s IH]; [done|]. cbn [forall_char] in Hs. apply andb_true_iff in Hs as [Hc Hs]. apply Nat.ltb_lt in Hc.
  pose proof (byte_of_range c) as Hr. unfold is_byte in Hr. assert (Hb : byte_of c < 128) by (unfold byte_of; lia).
  cbn [bytes_of runes]. rewrite (proj2 (Z.ltb_lt _ _) Hb). cbn [map concat]. rewrite IH by done. unfold rune_bytes.
  rewrite decide_True by (unfold scalar; lia). by rewrite (proj2 (Z.ltb_lt _ _) Hb).
Qed.
