(* ===== verification/Jni.v ===== *)
(** * Calls of the Java virtual machine (core/client/jni/jni_android.go)

    The functions of JNI are effects, references are numbers and 0 is null.
    [exception] asks the exception for its text, which can throw again: the
    recursion is bounded by fuel. *)
From S2P Require Import Prelude GoLib GoUtf.
From Stdlib Require Import Ascii.
Open Scope string_scope.
Open Scope list_scope.
Open Scope Z_scope.

Definition JNI_OK : Z := 0.
Definition JNI_EDETACHED : Z := -2.

Inductive returns := RVoid | RInt | RBoolean | RObject.
Inductive elements := EByte | EBoolean | EInt | ELong.

Inductive jniE : Type -> Type :=
  | GetEnv : jniE Z
  | AttachCurrentThread : jniE Z
  | DetachCurrentThread : jniE Z
  | FindClass (name : string) : jniE Z                (* this and the last one: no caller *)
  | ExceptionOccurred : jniE Z
  | ExceptionClear : jniE unit
  | RawObjectClass (o : Z) : jniE Z
  | RawMethodID (static : bool) (cls : Z) (name signature : string) : jniE Z
  | RawCall (static : bool) (r : returns) (o method : Z) (args : list Z) : jniE Z   (* 0 for void *)
  | RawNewGlobalRef (o : Z) : jniE Z
  | RawDeleteGlobalRef (o : Z) : jniE unit
  | DeleteLocalRef (o : Z) : jniE unit
  | RawIsSameObject (a b : Z) : jniE bool
  | NewString (units : list Z) : jniE Z
  | GetStringChars (s : Z) : jniE (list Z)           (* as many as GetStringLength says *)
  | RawNewByteArray (n : Z) : jniE Z
  | GetArrayLength (a : Z) : jniE Z
  | GetElements (k : elements) (a : Z) : jniE (list Z)
  | ReleaseElements (k : elements) (a : Z) (contents : list Z) : jniE unit
  | GetObjectArrayElement (a i : Z) : jniE Z
  | IsInstanceOf (o cls : Z) : jniE bool.

(** Where the calls go to. *)
Class JniIO (E : Type -> Type) := in_jvm : forall X, jniE X -> E X.
Arguments in_jvm {E _ X} _.

#[export] Instance jni_alone : JniIO jniE := fun X e => e.

Section Jni.
Context {E : Type -> Type} `{!JniIO E}.

Definition jvm {X} (e : jniE X) : go E X := Vis (in_jvm e) (fun x => Ret (Ok x)).

(** A function with an environment; the thread is attached for it if need be. *)
Definition Do {A} (f : go E A) : go E A :=
  res ← jvm GetEnv;
  if res =? JNI_OK then f
  else if negb (res =? JNI_EDETACHED) then panic ("JNI GetEnv failed with error " +:+ Itoa res)
  else
    r ← jvm AttachCurrentThread;
    if negb (r =? JNI_OK) then panic "runInJVM: AttachCurrentThread failed"
    else deferred (in_jvm DetachCurrentThread) f.

Definition JniBool (b : bool) : Z := if b then 1 else 0.

Definition IsSameObject (ref1 ref2 : Z) : go E bool := jvm (RawIsSameObject ref1 ref2).
Definition NewGlobalRef (obj : Z) : go E Z := jvm (RawNewGlobalRef obj).
Definition DeleteGlobalRef (obj : Z) : go E unit := jvm (RawDeleteGlobalRef obj).

(** ** Texts *)

Definition JavaString (str : string) : go E Z :=
  if String.eqb str "" then mret 0 else jvm (NewString (utf16.Encode (runes_of str))).

(** The characters are not released. *)
Definition GoString (str : Z) : go E string :=
  if str =? 0 then mret ""
  else utf16Chars ← jvm (GetStringChars str); mret (text_of_runes (utf16.Decode utf16Chars)).

(** ** Exceptions and classes *)

(** A result that comes with an error: [return res, exception(e)]. *)
Definition with_error (exc : go E unit) (res : Z) : go E (Z * option error) :=
  check _u := exc onerr err => mret (res, Some err) in mret (res, None).

(** [res, err := m; if err != nil { return err }] *)
Definition must (m : go E (Z * option error)) : go E Z :=
  r ← m; match r.2 with Some err => fail err | None => mret r.1 end.

(** [if err := exception(e); err != nil { panic(err) }] *)
Definition or_panic (exc : go E unit) (res : Z) : go E Z :=
  check _u := exc onerr err => panic (emsg err) in mret res.

(** The functions that look at exceptions, for the [exception] they call. *)
Definition object_class (exc : go E unit) (obj : Z) : go E Z :=
  if obj =? 0 then panic "null object" else cls ← jvm (RawObjectClass obj); or_panic exc cls.

Definition method_id (exc : go E unit) (static : bool) (cls : Z) (name signature : string) : go E Z :=
  m ← jvm (RawMethodID static cls name signature); or_panic exc m.

Definition call_method (exc : go E unit) (static : bool) (r : returns) (o m : Z) (args : list Z) : go E (Z * option error) :=
  res ← jvm (RawCall static r o m args); with_error exc res.

Definition toString_signature : string := "()Ljava/lang/String;".

(** The pending exception as an error; it is cleared first. *)
Fixpoint exception (fuel : nat) : go E unit :=
  match fuel with
  | O => Ret Diverge
  | S n =>
      thr ← jvm ExceptionOccurred;
      if thr =? 0 then mret tt
      else
        _ ← jvm ExceptionClear;
        cls ← object_class (exception n) thr;
        toString ← method_id (exception n) false cls "toString" toString_signature;
        msg ← must (call_method (exception n) false RObject thr toString []);
        text ← GoString msg;
        fail (errorf text)
  end.

Context (fuel : nat).

Definition GetObjectClass (obj : Z) : go E Z := object_class (exception fuel) obj.
Definition GetMethodID (cls : Z) (name signature : string) : go E Z := method_id (exception fuel) false cls name signature.
Definition GetStaticMethodID (cls : Z) (name signature : string) : go E Z := method_id (exception fuel) true cls name signature.

Definition CallStaticIntMethod (cls m : Z) (args : list Z) := call_method (exception fuel) true RInt cls m args.
Definition CallStaticVoidMethod (cls m : Z) (args : list Z) : go E unit :=
  _ ← must (call_method (exception fuel) true RVoid cls m args); mret tt.
Definition CallVoidMethod (obj m : Z) (args : list Z) : go E unit :=
  _ ← must (call_method (exception fuel) false RVoid obj m args); mret tt.
Definition CallStaticObjectMethod (cls m : Z) (args : list Z) := call_method (exception fuel) true RObject cls m args.
Definition CallObjectMethod (obj m : Z) (args : list Z) := call_method (exception fuel) false RObject obj m args.
Definition CallIntMethod (obj m : Z) (args : list Z) := call_method (exception fuel) false RInt obj m args.
Definition CallBooleanMethod (obj m : Z) (args : list Z) : go E (bool * option error) :=
  r ← call_method (exception fuel) false RBoolean obj m args; mret (r.1 =? 1, r.2).

Definition ClassLoaderFor (obj : Z) : go E Z :=
  cls ← GetObjectClass obj;
  getClassLoader ← GetMethodID cls "getClassLoader" "()Ljava/lang/ClassLoader;";
  r ← CallObjectMethod obj getClassLoader [];
  match r.2 with Some err => panic (emsg err) | None => mret r.1 end.

Definition LoadClass (loader : Z) (class : string) : go E (Z * option error) :=
  cls ← GetObjectClass loader;
  loadClass ← GetMethodID cls "loadClass" "(Ljava/lang/String;)Ljava/lang/Class;";
  name ← JavaString class;
  loaded ← must (CallObjectMethod loader loadClass [name]);
  with_error (exception fuel) loaded.

(** ** Arrays *)

Definition byte_limit : Z := 1073741824.       (* 1 << 30 *)
Definition word_limit : Z := 134217728.        (* 1 << 27 *)

(** The elements of a Java array, for the type the memory is seen as: an array of
    [limit] elements, cut at the size. *)
Definition array_elements {A} (k : elements) (limit : Z) (f : Z -> A) (jarr : Z) : go E (list A) :=
  if jarr =? 0 then mret []
  else
    size ← jvm (GetArrayLength jarr);
    elems ← jvm (GetElements k jarr);
    deferred (in_jvm (ReleaseElements k jarr elems))
      (if limit <? size then panic "slice bounds out of range" else mret (map f (take (Z.to_nat size) elems))).

Definition GetByteArrayElements (jarr : Z) : go E (list Z) := array_elements EByte byte_limit (fun b => b mod 256) jarr.
Definition GetBooleanArrayElements (jarr : Z) : go E (list bool) := array_elements EBoolean byte_limit (fun b => b =? 1) jarr.
Definition GetIntArrayElements (jarr : Z) : go E (list Z) := array_elements EInt word_limit id jarr.
Definition GetLongArrayElements (jarr : Z) : go E (list Z) := array_elements ELong word_limit id jarr.

(** What [f] makes of the elements from index [i] on, [n] of them. *)
Fixpoint iterate_from {A} (n : nat) (i : Z) (jarr : Z) (f : Z -> Z -> go E A) : go E (list A) :=
  match n with
  | O => mret []
  | S n' =>
      item ← jvm (GetObjectArrayElement jarr i);
      a ← f i item;
      _ ← jvm (DeleteLocalRef item);
      rest ← iterate_from n' (i + 1) jarr f;
      mret (a :: rest)
  end.

Definition iterateObjectArray {A} (jarr : Z) (f : Z -> Z -> go E A) : go E (list A) :=
  if jarr =? 0 then mret [] else size ← jvm (GetArrayLength jarr); iterate_from (Z.to_nat size) 0 jarr f.

Definition GetStringArrayElements (jarr : Z) : go E (list string) := iterateObjectArray jarr (fun _ item => GoString item).

(** The contents are written back when the memory is released. *)
Definition NewByteArray (content : list Z) : go E Z :=
  let n := Z.of_nat (length content) in
  jarr ← jvm (RawNewByteArray n);
  if jarr =? 0 then panic ("jni: NewByteArray(" +:+ Itoa n +:+ ") failed")
  else
    elems ← jvm (GetElements EByte jarr);
    if byte_limit <? n
    then deferred (in_jvm (ReleaseElements EByte jarr elems)) (panic "slice bounds out of range")
    else deferred (in_jvm (ReleaseElements EByte jarr content)) (mret jarr).
End Jni.
