(* ===== verification/Waitlist.v ===== *)
(** * The waiting list (apps/dodo) *)
From S2P Require Import Prelude GoLib GoStrings.
From Stdlib Require Import Ascii.
Open Scope string_scope.
Open Scope list_scope.

Section Waitlist.
(** strconv.ParseFloat and the numbers it gives. *)
Context {float : Type} (ParseFloat : string -> outcome float).

Record entry := MkEntry {
  Email : string;
  InstallationType : string;
  NumMembers : Z;
  Apps : list string;
  PayPerMonth : float;
  PrepayFullYear : bool;
  Thoughts : string;
}.

Definition form := gmap string (list string).

Definition getFormValues (f : form) (name : string) : outcome (list string) := Ok (default [] (f !! name)).

Definition getFormValue (f : form) (name : string) : outcome string :=
  match f !! name with
  | Some [] => Err (errorf (name +:+ " is required"))
  | Some [v] => Ok v
  | Some _ => Err (errorf (name +:+ " too many values"))
  | None => Err (errorf (name +:+ " is required"))
  end.

Definition getFormValueInt (f : form) (name : string) : outcome Z := v ← getFormValue f name; Atoi v.

(** strconv.ParseBool *)
Definition ParseBool (s : string) : outcome bool :=
  if existsb (String.eqb s) ["1"; "t"; "T"; "true"; "TRUE"; "True"] then Ok true
  else if existsb (String.eqb s) ["0"; "f"; "F"; "false"; "FALSE"; "False"] then Ok false
  else Err (errorf "invalid syntax").

Definition getFormValueBool (f : form) (name : string) : outcome bool := v ← getFormValue f name; ParseBool v.
Definition getFormValueFloat64 (f : form) (name : string) : outcome float := v ← getFormValue f name; ParseFloat v.

Definition NewEntry (f : form) : outcome entry :=
  email ← getFormValue f "email";
  installation ← getFormValue f "installation_type";
  members ← getFormValueInt f "num_members";
  apps ← getFormValues f "apps";
  pay ← getFormValueFloat64 f "pay_per_month";
  full ← getFormValueBool f "pay_full_year";
  thoughts ← getFormValue f "thoughts";
  Ok (MkEntry email installation members apps pay full thoughts).

(** A row of the table: the columns in the order of the statement. *)
Record row := MkRow {
  email : string;
  installation_type : string;
  num_members : Z;
  apps : string;
  pay_per_month : float;
  prepay_full_year : bool;
  thoughts : string;
}.

Definition entry_row (e : entry) : row :=
  MkRow (Email e) (InstallationType e) (NumMembers e) (Join (Apps e) ",") (PayPerMonth e) (PrepayFullYear e) (Thoughts e).

Inductive waitE : Type -> Type :=
  | Begin : waitE (outcome unit)
  | Prepare : waitE (outcome unit)
  | CloseStmt : waitE (outcome unit)
  | Insert (r : row) : waitE (outcome unit)
  | Commit : waitE (outcome unit).

(** Nothing rolls a transaction back. *)
Definition addToWaitlist (e : entry) : go waitE unit :=
  _ ← call Begin;
  _ ← call Prepare;
  deferred CloseStmt (_ ← call (Insert (entry_row e)); call Commit).

(** The pages are the embedded files; writes that fail are not looked at here. *)
Definition waitlist (r : request) : go waitE (reply string) :=
  if negb (String.eqb (rmethod r) MethodPost) then mret (HttpError "Invalid request" StatusBadRequest)
  else
    match rform_err r with
    | Some _ => mret (HttpError "Invalid request" StatusBadRequest)
    | None =>
        check e := lift (NewEntry (rpost r)) onerr e => mret (HttpError ("Invalid request: " +:+ emsg e) StatusBadRequest) in
        check _u := addToWaitlist e onerr e => mret (HttpError (emsg e) StatusInternalServerError) in
        mret (Page "ok.html")
    end.

Definition serve_dodo (r : request) : go waitE (reply string) :=
  if String.eqb (rpath r) "/waitlist" then waitlist r else mret (Page "index.html").

(** * Proofs *)

(** ** A database: rows, and the transactions nobody has ended *)

Record wait_db := MkWaitDb { rows : list row; pending : list (list row) }.

(** Which calls fail; [Insert] and [Commit] work on the last transaction begun. *)
Definition wait_step (fails : forall X, waitE X -> option error) : handler waitE wait_db := fun X e db =>
  match e in waitE X return wait_db * X with
  | Begin => match fails _ Begin with Some e => (db, Err e) | None => (MkWaitDb (rows db) ([] :: pending db), Ok tt) end
  | Prepare => match fails _ Prepare with Some e => (db, Err e) | None => (db, Ok tt) end
  | CloseStmt => (db, Ok tt)
  | Insert r =>
      match fails _ (Insert r), pending db with
      | None, t :: ts => (MkWaitDb (rows db) ((t ++ [r]) :: ts), Ok tt)
      | Some e, _ => (db, Err e)
      | None, [] => (db, Err (errorf "sql: transaction has already been committed or rolled back"))
      end
  | Commit =>
      match fails _ Commit, pending db with
      | None, t :: ts => (MkWaitDb (rows db ++ t) ts, Ok tt)
      | Some e, ts => (MkWaitDb (rows db) (tail ts), Err e)
      | None, [] => (db, Err (errorf "sql: transaction has already been committed or rolled back"))
      end
  end.

(** An entry that was added is a row, and its transaction has ended; one that was
    not is no row, and when preparing or running the statement failed its
    transaction stays open. *)
Theorem waitlist_adds (fails : forall X, waitE X -> option error) (e : entry) (db : wait_db) :
  let '(db', r) := run (wait_step fails) (addToWaitlist e) db in
  rows db' = rows db ++ (if is_ok r then [entry_row e] else []) /\
  pending db' = (if decide (fails _ Begin = None /\ (fails _ Prepare <> None \/ fails _ (Insert (entry_row e)) <> None)) then [[]] else []) ++ pending db.
Proof.
  unfold addToWaitlist. rewrite run_mbind, run_call. cbn [wait_step]. destruct (fails _ Begin) eqn:H1.
  { cbn. rewrite app_nil_r. split; [done|]. case_decide as Hd; [by destruct Hd|done]. }
  rewrite run_mbind, run_call. cbn [wait_step]. destruct (fails _ Prepare) eqn:H2.
  { cbn. rewrite app_nil_r. split; [done|]. case_decide as Hd; [done|]. destruct Hd. split; [done|by left]. }
  rewrite run_deferred, run_mbind, run_call. cbn [wait_step pending]. destruct (fails _ (Insert (entry_row e))) eqn:H3.
  { cbn. rewrite app_nil_r. split; [done|]. case_decide as Hd; [done|]. destruct Hd. split; [done|by right]. }
  rewrite run_call. cbn [wait_step pending]. destruct (fails _ Commit) eqn:H4; cbn; rewrite ?app_nil_r; (split; [done|]);
    (case_decide as Hd; [by destruct Hd as [_ [Hd|Hd]]|done]).
Qed.
End Waitlist.
