(* ===== verification/Mail.v ===== *)
(** * Mail accounts (apps/maddy/auth/main.go, apps/maddy/web/main.go)

    The program that checks a user against other mail servers, and the pages
    that list and create accounts with the maddyctl command. *)
From S2P Require Import Prelude GoLib GoStrings.
From Stdlib Require Import Ascii.
Open Scope string_scope.
Open Scope list_scope.

(** ** auth/main.go *)

Inductive smtpE : Type -> Type :=
  | ReadLine : smtpE (outcome string)                (* up to and with the line end *)
  | ConfigLines : smtpE (outcome (list string))      (* the whole file, read by a Scanner *)
  | DialSmtp (server : string) : smtpE (outcome unit)
  | StartTLS (server : string) : smtpE (outcome unit)
  | PlainAuth (server username password : string) : smtpE (outcome unit).

Definition readConfig : go smtpE (list string) := call ConfigLines.

Definition check_server (server username password : string) : go smtpE bool :=
  _ ← call (DialSmtp server);
  _ ← call (StartTLS server);
  _ ← call (PlainAuth server username password);
  mret true.

(** username[:len(username)-1] *)
Fixpoint but_last (s : string) : string :=
  match s with "" => "" | String c "" => "" | String c s' => String c (but_last s') end.

(** os.Exit with 0 at the first server that accepts. *)
Fixpoint try_servers (servers : list string) (username password : string) : go smtpE Z :=
  match servers with
  | [] => mret 1%Z
  | s :: servers' =>
      check ok := check_server s username password onerr _e => try_servers servers' username password in
      if ok : bool then mret 0%Z else try_servers servers' username password
  end.

(** The status the program exits with. *)
Definition mail_auth : go smtpE Z :=
  check username := call ReadLine onerr _e => mret 2%Z in
  check password := call ReadLine onerr _e => mret 2%Z in
  check servers := readConfig onerr _e => mret 2%Z in
  try_servers servers (but_last username) (but_last password).

(** ** web/main.go *)

Inductive maddyE : Type -> Type :=
  | StartLines (args : list string) : maddyE (outcome (list string))            (* what it prints; its exit is not awaited *)
  | RunWith (args : list string) (stdin : string) : maddyE (outcome unit)
  | ReadDKIM : maddyE (outcome string).

Section Web.
Context (configPath exportDKIM : string).

Definition maddyctl (args : list string) : list string := ["maddyctl"; "-config"; configPath] ++ args.

Definition ListAccounts : go maddyE (list string) :=
  lines ← call (StartLines (maddyctl ["creds"; "list"]));
  mret (List.filter (fun l => negb (String.eqb l "")) lines).

Definition CreateMailAccount (username password : string) : go maddyE unit :=
  _ ← call (RunWith (maddyctl ["creds"; "create"; username]) password);
  call (RunWith (maddyctl ["imap-acct"; "create"; username]) "").

Definition handleListAccounts : go maddyE (reply (list string)) :=
  check accts := ListAccounts onerr e => mret (HttpError (emsg e) StatusInternalServerError) in
  mret (Page accts).

Definition handleCreateAccount (r : request) : go maddyE (reply (list string)) :=
  match rform_err r with
  | Some e => mret (HttpError (emsg e) StatusBadRequest)
  | None =>
      check _u := CreateMailAccount (FormValue r "username") (FormValue r "password")
        onerr e => mret (HttpError (emsg e) StatusInternalServerError) in
      mret (Redirect "/" StatusSeeOther)
  end.

Definition handleDKIM : go maddyE (reply (list string)) :=
  check d := call ReadDKIM onerr e => mret (HttpError (emsg e) StatusInternalServerError) in
  mret (Page [d]).

(** The routes; "/" takes every other path. *)
Definition serve_maddy (r : request) : go maddyE (reply (list string)) :=
  if String.eqb (rpath r) "/create" then handleCreateAccount r
  else if negb (String.eqb exportDKIM "") && String.eqb (rpath r) "/dkim" then handleDKIM
  else handleListAccounts.
End Web.

(** * Proofs *)

(** ** Which users are let in *)

(** The servers that accept a user, and what is asked of each. *)
Record smtp_world := MkSmtp {
  sm_input : list string;
  sm_config : outcome (list string);
  sm_asked : list string;
}.

Section Servers.
Context (dial tls : string -> option error) (plain : string -> string -> string -> option error).

Definition answer (o : option error) : outcome unit := match o with None => Ok tt | Some e => Err e end.

Definition smtp_step : handler smtpE smtp_world := fun X e w =>
  match e in smtpE X return smtp_world * X with
  | ReadLine =>
      match sm_input w with
      | l :: rest => (MkSmtp rest (sm_config w) (sm_asked w), Ok l)
      | [] => (w, Err (errorf "EOF"))
      end
  | ConfigLines => (w, sm_config w)
  | DialSmtp s => (MkSmtp (sm_input w) (sm_config w) (sm_asked w ++ [s]), answer (dial s))
  | StartTLS s => (w, answer (tls s))
  | PlainAuth s u p => (w, answer (plain s u p))
  end.

Definition accepts (username password s : string) : Prop := dial s = None /\ tls s = None /\ plain s username password = None.

#[export] Instance accepts_dec u p s : Decision (accepts u p s).
Proof.
  unfold accepts. destruct (dial s), (tls s), (plain s u p); [right; by intros (? & ? & ?)..|by left].
Defined.

Definition line_of (s : string) : string := s +:+ String (ascii_of_nat 10) "".

Lemma but_last_line s : but_last (line_of s) = s.
Proof.
  unfold line_of. induction s as [|c s IH]; [done|]. rewrite str_app_cons. cbn [but_last].
  destruct (s +:+ String (ascii_of_nat 10) "") eqn:Hs; [by destruct s|]. by rewrite IH.
Qed.

Lemma run_check s u p w : exists r,
  run smtp_step (check_server s u p) w = (MkSmtp (sm_input w) (sm_config w) (sm_asked w ++ [s]), r) /\
  if decide (accepts u p s) then r = Ok true else exists e, r = Err e.
Proof.
  unfold check_server. rewrite run_mbind, run_call. cbn [smtp_step].
  destruct (decide (accepts u p s)) as [(Hd & Ht & Hp)|Hn].
  - rewrite Hd. cbn [answer]. rewrite run_mbind, run_call. cbn [smtp_step]. rewrite Ht. cbn [answer].
    rewrite run_mbind, run_call. cbn [smtp_step]. rewrite Hp. by eexists.
  - destruct (dial s) eqn:Hd; [by eexists; split; [|eexists]|]. cbn [answer]. rewrite run_mbind, run_call. cbn [smtp_step].
    destruct (tls s) eqn:Ht; [by eexists; split; [|eexists]|]. cbn [answer]. rewrite run_mbind, run_call. cbn [smtp_step].
    destruct (plain s u p) eqn:Hp; [by eexists; split; [|eexists]|]. by destruct Hn.
Qed.

Lemma run_servers servers u p w : exists asked,
  run smtp_step (try_servers servers u p) w =
    (MkSmtp (sm_input w) (sm_config w) (sm_asked w ++ asked), Ok (if decide (Exists (accepts u p) servers) then 0%Z else 1%Z)) /\
  asked `prefix_of` servers.
Proof.
  revert w. induction servers as [|s servers IH]; intros w; cbn [try_servers].
  - exists []. rewrite decide_False by (by inversion 1). split; [cbn; by rewrite app_nil_r; destruct w|apply prefix_nil].
  - rewrite run_handle. destruct (run_check s u p w) as (r & -> & Hr). destruct (decide (accepts u p s)) as [Ha|Hn].
    + subst r. exists [s]. rewrite decide_True by (by left). split; [done|]. by apply prefix_cons, prefix_nil.
    + destruct Hr as [e ->]. destruct (IH (MkSmtp (sm_input w) (sm_config w) (sm_asked w ++ [s]))) as (asked & Hrun & Hpre). cbn [sm_input sm_config sm_asked] in Hrun.
      exists (s :: asked). split; [|by apply prefix_cons].
      rewrite Hrun, <- (assoc_L (++)). f_equal.
      destruct (decide (Exists (accepts u p) servers)) as [Hs|Hs], (decide (Exists (accepts u p) (s :: servers))) as [Hx|Hx]; try done.
      * destruct Hx. by apply Exists_cons_tl.
      * by apply Exists_cons in Hx as [?|?].
Qed.

(** A user is let in exactly when one of the configured servers takes the name
    and the password as they were typed, without the line end; the servers are
    asked in order, and none after the one that accepts. *)
Theorem mail_login (username password : string) (rest servers : list string) :
  exists asked, asked `prefix_of` servers /\
    run smtp_step mail_auth (MkSmtp (line_of username :: line_of password :: rest) (Ok servers) []) =
      (MkSmtp rest (Ok servers) asked, Ok (if decide (Exists (accepts username password) servers) then 0%Z else 1%Z)).
Proof.
  unfold mail_auth. rewrite run_handle, run_call. cbn [smtp_step sm_input sm_config sm_asked]. rewrite run_handle, run_call. cbn [smtp_step sm_input sm_config sm_asked].
  unfold readConfig. rewrite run_handle, run_call. cbn [smtp_step sm_input sm_config sm_asked]. rewrite !but_last_line.
  destruct (run_servers servers username password (MkSmtp rest (Ok servers) [])) as (asked & -> & Hp). by exists asked.
Qed.
End Servers.

(** ** Accounts *)

(** Names with credentials, and those with a mailbox. *)
Record maddy := MkMaddy { creds : gset string; mailboxes : gset string }.

(** maddyctl refuses names that are there; [broken] mailboxes cannot be made. *)
Definition maddy_step (configPath : string) (broken : string -> bool) : handler maddyE maddy := fun X e m =>
  match e in maddyE X return maddy * X with
  | StartLines _ => (m, Ok (elements (creds m)))
  | ReadDKIM => (m, Err (errorf "not here"))
  | RunWith args _ =>
      match args with
      | [_; _; _; "creds"; "create"; n] =>
          if decide (n ∈ creds m) then (m, Err (errorf "exists")) else (MkMaddy ({[n]} ∪ creds m) (mailboxes m), Ok tt)
      | [_; _; _; "imap-acct"; "create"; n] =>
          if broken n then (m, Err (errorf "failed"))
          else if decide (n ∈ mailboxes m) then (m, Err (errorf "exists")) else (MkMaddy (creds m) ({[n]} ∪ mailboxes m), Ok tt)
      | _ => (m, Err (errorf "usage"))
      end
  end.

(** An account whose mailbox could not be made stays without one: the credentials
    are there, so creating the account again fails before the mailbox. *)
Theorem half_made_account (configPath username password password' : string) (broken broken' : string -> bool) (m : maddy)
    (Hnew : username ∉ creds m) (Hbroken : broken username = true) :
  let m' := (run (maddy_step configPath broken) (CreateMailAccount configPath username password) m).1 in
  username ∈ creds m' /\
  run (maddy_step configPath broken') (CreateMailAccount configPath username password') m' = (m', Err (errorf "exists")).
Proof.
  unfold CreateMailAccount, maddyctl. rewrite run_mbind, run_call. cbn [maddy_step app]. rewrite decide_False by done.
  rewrite run_call. cbn [maddy_step]. rewrite Hbroken. cbn [fst creds]. split; [set_solver|].
  rewrite run_mbind, run_call. cbn [maddy_step creds]. rewrite decide_True by set_solver. done.
Qed.
