(* ===== verification/GoBase64.v ===== *)
(** * encoding/base64 and bytes in JSON

    StdEncoding of the Go standard library, on the bits of characters, and the
    JSON form of a []byte. *)
From S2P Require Import Prelude GoLib.
From Stdlib Require Import Ascii.
Open Scope string_scope.
Open Scope list_scope.

(** Six bits, the least significant first. *)
Record sextet := MkSextet { s0 : bool; s1 : bool; s2 : bool; s3 : bool; s4 : bool; s5 : bool }.

Definition sextet_index (s : sextet) : nat :=
  let b (x : bool) (n : nat) := if x then n else 0 in
  b (s0 s) 1 + b (s1 s) 2 + b (s2 s) 4 + b (s3 s) 8 + b (s4 s) 16 + b (s5 s) 32.

Definition sextet_of (n : nat) : sextet :=
  MkSextet (Nat.testbit n 0) (Nat.testbit n 1) (Nat.testbit n 2) (Nat.testbit n 3) (Nat.testbit n 4) (Nat.testbit n 5).

Definition alphabet : string := "ABCDEFGHIJKLMNOPQRSTUVWXYZabcdefghijklmnopqrstuvwxyz0123456789+/".

Definition encode_sextet (s : sextet) : ascii := default "A"%char (String.get (sextet_index s) alphabet).

Definition decode_sextet (c : ascii) : option sextet :=
  let n := ascii_code c in
  let in_range (a b : nat) := ((a <=? n) && (n <=? b))%nat in
  if in_range 65 90 then Some (sextet_of (n - 65))
  else if in_range 97 122 then Some (sextet_of (n - 71))
  else if in_range 48 57 then Some (sextet_of (n + 4))
  else if (n =? 43)%nat then Some (sextet_of 62)
  else if (n =? 47)%nat then Some (sextet_of 63)
  else None.

Lemma decode_encode_sextet s : decode_sextet (encode_sextet s) = Some s.
Proof. by destruct s as [[] [] [] [] [] []]. Qed.

(** The four sextets of three bytes; missing bytes count as zero. *)
Definition sextet1 (x : ascii) : sextet :=
  let '(Ascii _ _ x2 x3 x4 x5 x6 x7) := x in MkSextet x2 x3 x4 x5 x6 x7.
Definition sextet2 (x y : ascii) : sextet :=
  let '(Ascii x0 x1 _ _ _ _ _ _) := x in
  let '(Ascii _ _ _ _ y4 y5 y6 y7) := y in MkSextet y4 y5 y6 y7 x0 x1.
Definition sextet3 (y z : ascii) : sextet :=
  let '(Ascii y0 y1 y2 y3 _ _ _ _) := y in
  let '(Ascii _ _ _ _ _ _ z6 z7) := z in MkSextet z6 z7 y0 y1 y2 y3.
Definition sextet4 (z : ascii) : sextet :=
  let '(Ascii z0 z1 z2 z3 z4 z5 _ _) := z in MkSextet z0 z1 z2 z3 z4 z5.

Definition byte1 (a b : sextet) : ascii := Ascii (s4 b) (s5 b) (s0 a) (s1 a) (s2 a) (s3 a) (s4 a) (s5 a).
Definition byte2 (b c : sextet) : ascii := Ascii (s2 c) (s3 c) (s4 c) (s5 c) (s0 b) (s1 b) (s2 b) (s3 b).
Definition byte3 (c d : sextet) : ascii := Ascii (s0 d) (s1 d) (s2 d) (s3 d) (s4 d) (s5 d) (s0 c) (s1 c).

Definition pad : ascii := "="%char.

Fixpoint EncodeToString (s : string) : string :=
  let e := encode_sextet in
  match s with
  | "" => ""
  | String x "" => String (e (sextet1 x)) (String (e (sextet2 x zero)) (String pad (String pad "")))
  | String x (String y "") =>
      String (e (sextet1 x)) (String (e (sextet2 x y)) (String (e (sextet3 y zero)) (String pad "")))
  | String x (String y (String z s')) =>
      String (e (sextet1 x)) (String (e (sextet2 x y)) (String (e (sextet3 y z)) (String (e (sextet4 z)) (EncodeToString s'))))
  end.

Definition corrupt : error := errorf "illegal base64 data".

(** Groups of four; only the last one is padded.  Line ends are dropped first. *)
Fixpoint decode_quanta (s : string) : outcome string :=
  match s with
  | "" => Ok ""
  | String a (String b (String c (String d s'))) =>
      match decode_sextet a, decode_sextet b with
      | Some sa, Some sb =>
          match decode_sextet c with
          | Some sc =>
              match decode_sextet d with
              | Some sd =>
                  rest ← decode_quanta s';
                  Ok (String (byte1 sa sb) (String (byte2 sb sc) (String (byte3 sc sd) rest)))
              | None =>
                  if Ascii.eqb d pad && String.eqb s' ""
                  then Ok (String (byte1 sa sb) (String (byte2 sb sc) "")) else Err corrupt
              end
          | None =>
              if Ascii.eqb c pad && Ascii.eqb d pad && String.eqb s' "" then Ok (String (byte1 sa sb) "") else Err corrupt
          end
      | _, _ => Err corrupt
      end
  | _ => Err corrupt
  end.

Fixpoint drop_line_ends (s : string) : string :=
  match s with
  | "" => ""
  | String c s' =>
      let n := ascii_code c in
      if ((n =? 10) || (n =? 13))%nat then drop_line_ends s' else String c (drop_line_ends s')
  end.

Definition DecodeString (s : string) : outcome string := decode_quanta (drop_line_ends s).

Lemma byte1_sextets x y : byte1 (sextet1 x) (sextet2 x y) = x.
Proof. by destruct x, y. Qed.
Lemma byte2_sextets x y z : byte2 (sextet2 x y) (sextet3 y z) = y.
Proof. by destruct x, y, z. Qed.
Lemma byte3_sextets y z : byte3 (sextet3 y z) (sextet4 z) = z.
Proof. by destruct y, z. Qed.

(** Induction by groups of three characters. *)
Lemma string_ind3 (P : string -> Prop) :
  P "" -> (forall x, P (String x "")) -> (forall x y, P (String x (String y ""))) ->
  (forall x y z s, P s -> P (String x (String y (String z s)))) -> forall s, P s.
Proof.
  intros H0 H1 H2 H3. enough (H : forall s, P s /\ (forall x, P (String x s)) /\ (forall x y, P (String x (String y s)))) by apply H.
  induction s as [|c s (IH0 & IH1 & IH2)]; [done|]. split_and!; auto.
Qed.

Lemma drop_encode s : drop_line_ends (EncodeToString s) = EncodeToString s.
Proof.
  assert (Hc : forall t s', drop_line_ends (String (encode_sextet t) s') = String (encode_sextet t) (drop_line_ends s')).
  { intros [[] [] [] [] [] []] s'; reflexivity. }
  induction s as [|x|x y|x y z s IH] using string_ind3; cbn [EncodeToString]; rewrite ?Hc; [done..|]. by rewrite IH.
Qed.

(** Decoding gives back what was encoded. *)
Lemma DecodeString_EncodeToString s : DecodeString (EncodeToString s) = Ok s.
Proof.
  unfold DecodeString. rewrite drop_encode.
  induction s as [|x|x y|x y z s IH] using string_ind3; cbn [EncodeToString decode_quanta];
    rewrite ?decode_encode_sextet; [done|..].
  - cbn. by rewrite byte1_sextets.
  - cbn -[byte1 byte2 sextet1 sextet2 sextet3]. by rewrite byte1_sextets, byte2_sextets.
  - rewrite IH. cbn [mbind outcome_bind]. by rewrite byte1_sextets, byte2_sextets, byte3_sextets.
Qed.

(** A []byte field: nil for null, a base64 text, or an array of numbers. *)
Definition json_byte (v : json) : outcome ascii :=
  match v with
  | JNum n => if (0 <=? n)%Z && (n <=? 255)%Z then Ok (ascii_of_nat (Z.to_nat n)) else Err err_json
  | JNull => Ok zero
  | _ => Err err_json
  end.

Definition json_bytes (v : json) : outcome (option string) :=
  match v with
  | JNull => Ok None
  | JStr s => b ← DecodeString s; Ok (Some b)
  | JArr l => b ← json_list json_byte l; Ok (Some (foldr String "" b))
  | _ => Err err_json
  end.

(** The text of a []byte, nil being the empty one. *)
Definition bytes_text (b : option string) : string := default "" b.

Definition bytes_json (b : option string) : json :=
  match b with None => JNull | Some s => JStr (EncodeToString s) end.

Lemma json_bytes_text s : json_bytes (JStr (EncodeToString s)) = Ok (Some s).
Proof. cbn [json_bytes]. by rewrite DecodeString_EncodeToString. Qed.

(** ** RawStdEncoding: no padding *)

Fixpoint RawEncodeToString (s : string) : string :=
  let e := encode_sextet in
  match s with
  | "" => ""
  | String x "" => String (e (sextet1 x)) (String (e (sextet2 x zero)) "")
  | String x (String y "") => String (e (sextet1 x)) (String (e (sextet2 x y)) (String (e (sextet3 y zero)) ""))
  | String x (String y (String z s')) =>
      String (e (sextet1 x)) (String (e (sextet2 x y)) (String (e (sextet3 y z)) (String (e (sextet4 z)) (RawEncodeToString s'))))
  end.

(** The bytes of the groups before the first one that is wrong come with the error. *)
Fixpoint raw_quanta (s : string) : string * option error :=
  match s with
  | "" => ("", None)
  | String a (String b "") =>
      match decode_sextet a, decode_sextet b with
      | Some sa, Some sb => (String (byte1 sa sb) "", None)
      | _, _ => ("", Some corrupt)
      end
  | String a (String b (String c "")) =>
      match decode_sextet a, decode_sextet b, decode_sextet c with
      | Some sa, Some sb, Some sc => (String (byte1 sa sb) (String (byte2 sb sc) ""), None)
      | _, _, _ => ("", Some corrupt)
      end
  | String a (String b (String c (String d s'))) =>
      match decode_sextet a, decode_sextet b, decode_sextet c, decode_sextet d with
      | Some sa, Some sb, Some sc, Some sd =>
          let '(rest, err) := raw_quanta s' in (String (byte1 sa sb) (String (byte2 sb sc) (String (byte3 sc sd) rest)), err)
      | _, _, _, _ => ("", Some corrupt)
      end
  | _ => ("", Some corrupt)
  end.

Definition RawDecodeString (s : string) : string * option error := raw_quanta (drop_line_ends s).

Lemma RawDecode_Encode s : RawDecodeString (RawEncodeToString s) = (s, None).
Proof.
  unfold RawDecodeString. assert (Hc : forall t s', drop_line_ends (String (encode_sextet t) s') = String (encode_sextet t) (drop_line_ends s')).
  { intros [[] [] [] [] [] []] s'; reflexivity. }
  induction s as [|x|x y|x y z s IH] using string_ind3; cbn [RawEncodeToString]; rewrite ?Hc; cbn [drop_line_ends raw_quanta];
    rewrite ?decode_encode_sextet; [done|..].
  - by rewrite byte1_sextets.
  - by rewrite byte1_sextets, byte2_sextets.
  - rewrite IH. destruct (RawEncodeToString s); by rewrite byte1_sextets, byte2_sextets, byte3_sextets.
Qed.
