(* ===== verification/GoJson.v ===== *)
(** * JSON texts

    encoding/json on texts: a tokenizer and a parser with a stack, both by
    recursion on their input, for the requests the sources build with Sprintf.
    Numbers are integers; of the \u escapes those of ASCII are read. *)
From S2P Require Import Prelude GoLib GoStrings.
From Stdlib Require Import Ascii.
Open Scope string_scope.
Open Scope list_scope.

Inductive token :=
  | TOpen | TClose              (* braces *)
  | TOpenArr | TCloseArr
  | TColon | TComma
  | TStr (s : string)
  | TVal (v : json).            (* null, true, false and numbers *)

Definition quote : ascii := ascii_of_nat 34.
Definition backslash : ascii := ascii_of_nat 92.

Definition json_space (c : ascii) : bool :=
  let n := ascii_code c in ((n =? 32) || (n =? 9) || (n =? 10) || (n =? 13))%nat.

Definition hex_val (c : ascii) : option nat :=
  let n := ascii_code c in
  if is_digit c then Some (n - 48)
  else if ((97 <=? n) && (n <=? 102))%nat then Some (n - 87)
  else if ((65 <=? n) && (n <=? 70))%nat then Some (n - 55) else None.

Definition escape_char (c : ascii) : option ascii :=
  match c with
  | "b"%char => Some (ascii_of_nat 8)
  | "f"%char => Some (ascii_of_nat 12)
  | "n"%char => Some (ascii_of_nat 10)
  | "r"%char => Some (ascii_of_nat 13)
  | "t"%char => Some (ascii_of_nat 9)
  | "/"%char => Some "/"%char
  | _ => if Ascii.eqb c quote then Some quote else if Ascii.eqb c backslash then Some backslash else None
  end.

(** The UTF-8 form of a code point below 2^16; surrogates are not combined, each
    becomes the replacement character. *)
Definition utf8 (n : nat) : string :=
  let n := if (N.leb 55296 (N.of_nat n) && N.leb (N.of_nat n) 57343)%N then N.to_nat 65533 else n in
  let ch k := ascii_of_nat k in
  if (n <? 128)%nat then String (ch n) ""
  else if (n <? 2048)%nat then String (ch (192 + n / 64)) (String (ch (128 + n mod 64)) "")
  else String (ch (224 + n / 4096)) (String (ch (128 + n / 64 mod 64)) (String (ch (128 + n mod 64)) "")).

(** What a word that is not a string stands for. *)
Definition word_value (w : string) : outcome json :=
  if String.eqb w "null" then Ok JNull
  else if String.eqb w "true" then Ok (JBool true)
  else if String.eqb w "false" then Ok (JBool false)
  else
    let '(neg, digits) := match w with String "-" d => (true, d) | _ => (false, w) end in
    let n := dec_val digits 0 in
    if negb (String.eqb digits "") && forall_char is_digit digits && String.eqb (itoa_nat n) digits
    then Ok (JNum (if neg then - Z.of_nat n else Z.of_nat n)) else Err err_json.

Definition word_char (c : ascii) : bool := is_lower c || is_upper c || is_digit c || Ascii.eqb c "-"%char || Ascii.eqb c "+"%char || Ascii.eqb c "."%char.

Definition end_word (w : string) : outcome (list token) :=
  if String.eqb w "" then Ok [] else v ← word_value w; Ok [TVal v].

Definition punctuation (c : ascii) : option token :=
  match c with
  | "{"%char => Some TOpen
  | "}"%char => Some TClose
  | "["%char => Some TOpenArr
  | "]"%char => Some TCloseArr
  | ":"%char => Some TColon
  | ","%char => Some TComma
  | _ => None
  end.

(** Where the tokenizer is: in a word read so far, in a string literal, after a
    backslash, or among the digits of a \u escape. *)
Inductive mode :=
  | InWord (w : string)
  | InString (s : string)
  | InEscape (s : string)
  | InUnicode (s : string) (todo acc : nat).

Definition tok_step (m : mode) (c : ascii) : outcome (list token * mode) :=
  match m with
  | InString t =>
      if Ascii.eqb c quote then Ok ([TStr t], InWord "")
      else if (ascii_code c <? 32)%nat then Err err_json
      else if Ascii.eqb c backslash then Ok ([], InEscape t)
      else Ok ([], InString (t +:+ String c ""))
  | InEscape t =>
      if Ascii.eqb c "u"%char then Ok ([], InUnicode t 4 0)
      else match escape_char c with
           | Some c' => Ok ([], InString (t +:+ String c' ""))
           | None => Err err_json
           end
  | InUnicode t todo acc =>
      match hex_val c, todo with
      | Some d, S (S todo') => Ok ([], InUnicode t (S todo') (acc * 16 + d))
      | Some d, _ => Ok ([], InString (t +:+ utf8 (acc * 16 + d)))
      | None, _ => Err err_json
      end
  | InWord w =>
      if word_char c then Ok ([], InWord (w +:+ String c ""))
      else
        pre ← end_word w;
        if json_space c then Ok (pre, InWord "")
        else if Ascii.eqb c quote then Ok (pre, InString "")
        else match punctuation c with
             | Some t => Ok (pre ++ [t], InWord "")
             | None => Err err_json
             end
  end.

Fixpoint scan (m : mode) (s : string) : outcome (list token * mode) :=
  match s with
  | "" => Ok ([], m)
  | String c s' =>
      r ← tok_step m c;
      r' ← scan r.2 s';
      Ok (r.1 ++ r'.1, r'.2)
  end.

Definition tokenize (s : string) : outcome (list token) :=
  r ← scan (InWord "") s;
  match r.2 with
  | InWord w => e ← end_word w; Ok (r.1 ++ e)
  | _ => Err err_json
  end.

(** Values that are not closed yet, the innermost first. *)
Inductive frame :=
  | FArr (before : list json)
  | FObj (before : list (string * json)) (key : string).

Inductive expected :=
  | Value (or_close : bool)
  | Key (or_close : bool)
  | Colon
  | Next.                       (* a comma or the end of the innermost value *)

Fixpoint parse_tokens (st : list frame) (ex : expected) (ts : list token) : outcome json :=
  match ts with
  | [] => Err err_json
  | t :: ts' =>
      let put (st : list frame) (v : json) : outcome json :=
        match st with
        | [] => match ts' with [] => Ok v | _ => Err err_json end
        | FArr l :: st' => parse_tokens (FArr (l ++ [v]) :: st') Next ts'
        | FObj l k :: st' => parse_tokens (FObj (l ++ [(k, v)]) "" :: st') Next ts'
        end in
      match ex, t, st with
      | Value _, TStr s, _ => put st (JStr s)
      | Value _, TVal v, _ => put st v
      | Value _, TOpen, _ => parse_tokens (FObj [] "" :: st) (Key true) ts'
      | Value _, TOpenArr, _ => parse_tokens (FArr [] :: st) (Value true) ts'
      | Value true, TCloseArr, FArr l :: st' => put st' (JArr l)
      | Key _, TStr k, FObj l _ :: st' => parse_tokens (FObj l k :: st') Colon ts'
      | Key true, TClose, FObj l _ :: st' => put st' (JObj l)
      | Colon, TColon, _ => parse_tokens st (Value false) ts'
      | Next, TComma, FArr _ :: _ => parse_tokens st (Value false) ts'
      | Next, TComma, FObj _ _ :: _ => parse_tokens st (Key false) ts'
      | Next, TCloseArr, FArr l :: st' => put st' (JArr l)
      | Next, TClose, FObj l _ :: st' => put st' (JObj l)
      | _, _, _ => Err err_json
      end
  end.

Definition parse_json (text : string) : outcome json :=
  ts ← tokenize text; parse_tokens [] (Value false) ts.

(** ** Texts with a hole *)

(** A text that stands for itself between quotes. *)
Definition plain_char (c : ascii) : bool :=
  negb (Ascii.eqb c quote) && negb (Ascii.eqb c backslash) && negb (ascii_code c <? 32)%nat.

Definition plain (s : string) : Prop := forall_char plain_char s = true.

#[export] Instance plain_dec s : Decision (plain s).
Proof. unfold plain. apply _. Defined.

Lemma scan_app m a b :
  scan m (a +:+ b) = (r ← scan m a; r' ← scan r.2 b; Ok (r.1 ++ r'.1, r'.2)).
Proof.
  revert m. induction a as [|c a IH]; intros m; cbn [scan mbind outcome_bind].
  { rewrite str_app_l_nil. cbn [fst snd]. by destruct (scan m b) as [[ts m']| | |]. }
  rewrite str_app_cons. cbn [scan]. destruct (tok_step m c) as [[ts m']| | |]; cbn [mbind outcome_bind fst snd]; [|done..].
  rewrite IH. destruct (scan m' a) as [[ts1 m1]| | |]; cbn [mbind outcome_bind fst snd]; [|done..].
  destruct (scan m1 b) as [[ts2 m2]| | |]; cbn [mbind outcome_bind fst snd]; [|done..]. by rewrite app_assoc.
Qed.

Lemma scan_plain t s : plain s -> scan (InString t) s = Ok ([], InString (t +:+ s)).
Proof.
  revert t. induction s as [|c s IH]; intros t; [by rewrite str_app_nil|].
  unfold plain. cbn [forall_char]. intros [Hc Hs]%andb_true_iff.
  unfold plain_char in Hc. rewrite !andb_true_iff, !negb_true_iff in Hc. destruct Hc as [[Hq Hb] Hn].
  cbn [scan tok_step]. rewrite Hq, Hn, Hb. cbn [mbind outcome_bind fst snd]. rewrite IH by done.
  cbn [mbind outcome_bind fst snd app]. by rewrite <- str_app_assoc.
Qed.

(** A text in pieces: what is before a string, the string, and what follows its
    closing quote. *)
Lemma scan_hole pre s post ts :
  scan (InWord "") pre = Ok (ts, InString "") -> plain s ->
  scan (InWord "") (pre +:+ s +:+ String quote post) =
    (r ← scan (InWord "") post; Ok (ts ++ TStr s :: r.1, r.2)).
Proof.
  intros Hpre Hs. rewrite scan_app, Hpre. cbn [mbind outcome_bind fst snd]. rewrite scan_app, scan_plain by done.
  cbn [mbind outcome_bind fst snd scan tok_step]. rewrite Ascii.eqb_refl. rewrite str_app_l_nil. cbn [mbind outcome_bind fst snd].
  by destruct (scan (InWord "") post) as [[ts' m']| | |].
Qed.

Lemma parse_json_scan text ts :
  scan (InWord "") text = Ok (ts, InWord "") -> parse_json text = parse_tokens [] (Value false) ts.
Proof.
  intros Hs. unfold parse_json, tokenize. rewrite Hs. cbn [mbind outcome_bind fst snd end_word String.eqb].
  by rewrite app_nil_r.
Qed.

Example parse_object : parse_json (String quote (String "a"%char (String quote ""))) = Ok (JStr "a").
Proof. reflexivity. Qed.

Example parse_nested : parse_json "[1, [], {}, [true, null, -12]]" =
  Ok (JArr [JNum 1; JArr []; JObj []; JArr [JBool true; JNull; JNum (-12)]]).
Proof. reflexivity. Qed.

(** ** fmt.Sprintf with %s verbs *)

Fixpoint Sprintf (fmt : string) (args : list string) : string :=
  match fmt with
  | String "%" (String "s" fmt') =>
      match args with
      | a :: args' => a +:+ Sprintf fmt' args'
      | [] => "%!s(MISSING)" +:+ Sprintf fmt' []
      end
  | String c fmt' => String c (Sprintf fmt' args)
  | "" => ""
  end.

(** Literals with quotes in them are written with ' for the quote. *)
Definition quotes (s : string) : string := str_map (fun c => if Ascii.eqb c "'"%char then quote else c) s.

Example Sprintf_example : Sprintf "%s/flows?id=%s" ["a"; "b"] = "a/flows?id=b".
Proof. reflexivity. Qed.

(** ** json.Decoder: the first value of a text

    The shortest prefix that is a value; what follows it is not looked at.  This
    is what a Decoder reads when the value is an object, an array or a string; of
    a number it would read more digits. *)
Fixpoint Decode_from (read rest : string) : outcome json :=
  match parse_json read with
  | Ok v => Ok v
  | _ =>
      match rest with
      | "" => Err err_json
      | String c rest' => Decode_from (read +:+ String c "") rest'
      end
  end.

Definition Decode (text : string) : outcome json := Decode_from "" text.

(** No value ends within [t], read after [read]. *)
Fixpoint no_value (read t : string) : bool :=
  negb (is_ok (parse_json read)) &&
  match t with "" => true | String c t' => no_value (read +:+ String c "") t' end.

Lemma Decode_skip read t c rest : no_value read t = true ->
  Decode_from read (t +:+ String c rest) = Decode_from (read +:+ t +:+ String c "") rest.
Proof.
  revert read. induction t as [|d t IH]; intros read; cbn [no_value]; intros [Hn Ht]%andb_true_iff.
  - rewrite !str_app_l_nil. cbn [Decode_from]. by destruct (parse_json read).
  - rewrite !str_app_cons. cbn [Decode_from].
    rewrite (IH (read +:+ String d "") Ht), !str_app_assoc, <- !(str_app_assoc read), !str_app_cons, !str_app_l_nil.
    by destruct (parse_json read).
Qed.

Lemma Decode_done read rest v : parse_json read = Ok v -> Decode_from read rest = Ok v.
Proof. intros Hv. destruct rest; cbn [Decode_from]; by rewrite Hv. Qed.

Lemma in_string_no_value pre ts t s : scan (InWord "") pre = Ok (ts, InString t) -> plain s -> no_value pre s = true.
Proof.
  revert pre t. induction s as [|c s IH]; intros pre t Hpre Hs; cbn [no_value];
    (assert (Hn : is_ok (parse_json pre) = false) by (unfold parse_json, tokenize; by rewrite Hpre)); rewrite Hn; [done|].
  unfold plain in Hs. cbn [forall_char] in Hs. apply andb_true_iff in Hs as [Hc Hs]. cbn [negb andb].
  apply (IH _ (t +:+ String c "")); [|done].
  rewrite scan_app, Hpre. cbn [mbind outcome_bind fst snd].
  rewrite scan_plain by (unfold plain; cbn [forall_char]; by rewrite Hc). cbn [mbind outcome_bind fst snd]. by rewrite app_nil_r.
Qed.
