(* ===== verification/GoJsonText.v ===== *)
(** * Writing JSON texts

    What an encoder of encoding/json writes for a value, and that the parser and
    the decoder of GoJson read it back.  Texts of strings are taken to be UTF-8;
    the separators U+2028 and U+2029, which Go escapes as well, are left out. *)
From S2P Require Import Prelude GoLib GoStrings GoJson.
From Stdlib Require Import Ascii.
Open Scope string_scope.
Open Scope list_scope.

Definition hex_digit (d : nat) : ascii := if (d <? 10)%nat then digit_char d else ascii_of_nat (87 + d).

(** A backslash and a letter for five characters, \u00xx for the other control
    characters and for those that mean something in HTML. *)
Definition escape_of (c : ascii) : string :=
  let n := ascii_code c in
  let short (l : ascii) := String backslash (String l "") in
  if Ascii.eqb c quote || Ascii.eqb c backslash then short c
  else if (n =? 10)%nat then short "n"%char
  else if (n =? 13)%nat then short "r"%char
  else if (n =? 9)%nat then short "t"%char
  else if ((n <? 32) || (n =? 38) || (n =? 60) || (n =? 62))%nat then
    String backslash ("u00" +:+ String (hex_digit (n / 16)) (String (hex_digit (n mod 16)) ""))
  else String c "".

Fixpoint escape (s : string) : string :=
  match s with "" => "" | String c s' => escape_of c +:+ escape s' end.

Definition string_text (s : string) : string := String quote (escape s +:+ String quote "").

Fixpoint Marshal (v : json) : string :=
  match v with
  | JNull => "null"
  | JBool true => "true"
  | JBool false => "false"
  | JNum n => Itoa n
  | JStr s => string_text s
  | JArr l => "[" +:+ Join (map Marshal l) "," +:+ "]"
  | JObj fs => "{" +:+ Join (map (fun kv => string_text kv.1 +:+ ":" +:+ Marshal kv.2) fs) "," +:+ "}"
  end.

(** json.NewEncoder(w).Encode(v): the value and a line end. *)
Definition Encode (v : json) : string := Marshal v +:+ String (ascii_of_nat 10) "".

Example Marshal_example : Marshal (JObj [("a", JArr [JNum (-1); JNull]); ("b<", JStr "x&y")]) =
  quotes "{'a':[-1,null],'b\u003c':'x\u0026y'}".
Proof. reflexivity. Qed.

(** ** Reading the characters back *)

Lemma scan_escape_of t c : scan (InString t) (escape_of c) = Ok ([], InString (t +:+ String c "")).
Proof. destruct c as [[] [] [] [] [] [] [] []]; reflexivity. Qed.

Lemma scan_escape t s : scan (InString t) (escape s) = Ok ([], InString (t +:+ s)).
Proof.
  revert t. induction s as [|c s IH]; intros t; cbn [escape]; [by rewrite str_app_nil|].
  rewrite scan_app, scan_escape_of. cbn [mbind outcome_bind fst snd]. rewrite IH. cbn [mbind outcome_bind fst snd app].
  by rewrite <- str_app_assoc.
Qed.

(** [s] is read as the tokens [T]; the last may be a word that waits for what
    comes after it. *)
Definition scanned (s : string) (T : list token) : Prop :=
  exists ts w te, scan (InWord "") s = Ok (ts, InWord w) /\ end_word w = Ok te /\ T = ts ++ te.

Lemma scanned_exact s ts : scan (InWord "") s = Ok (ts, InWord "") -> scanned s ts.
Proof. intros H. exists ts, "", []. by rewrite app_nil_r. Qed.

Lemma scanned_string s : scan (InWord "") (string_text s) = Ok ([TStr s], InWord "").
Proof.
  unfold string_text. change (String quote (escape s +:+ String quote "")) with (String quote "" +:+ (escape s +:+ String quote "")).
  rewrite scan_app. change (scan (InWord "") (String quote "")) with (Ok ([] : list token, InString "")).
  cbn [mbind outcome_bind fst snd]. rewrite scan_app, scan_escape.
  cbn [mbind outcome_bind fst snd scan tok_step]. rewrite Ascii.eqb_refl, str_app_l_nil. done.
Qed.

Lemma punctuation_alone c t : punctuation c = Some t ->
  word_char c = false /\ json_space c = false /\ Ascii.eqb c quote = false.
Proof. destruct c as [[] [] [] [] [] [] [] []]; done. Qed.

(** A token ends with the punctuation after it. *)
Lemma scanned_app a T c t b : scanned a T -> punctuation c = Some t ->
  scan (InWord "") (a +:+ String c b) = (r ← scan (InWord "") b; Ok (T ++ t :: r.1, r.2)).
Proof.
  intros (ts & w & te & Ha & Hw & ->) Ht. destruct (punctuation_alone c t Ht) as (H1 & H2 & H3).
  rewrite scan_app, Ha. cbn [mbind outcome_bind fst snd scan tok_step]. rewrite H1, Hw. cbn [mbind outcome_bind].
  rewrite H2, H3, Ht. cbn [mbind outcome_bind fst snd]. destruct (scan (InWord "") b) as [[r m]| | |]; cbn [mbind outcome_bind fst snd]; [|done..].
  by rewrite <- !app_assoc.
Qed.

Lemma word_read m w : forall_char word_char w = true -> scan (InWord m) w = Ok ([], InWord (m +:+ w)).
Proof.
  revert m. induction w as [|c w IH]; intros m; cbn [forall_char scan tok_step]; [by rewrite str_app_nil|].
  intros [-> Hw]%andb_true_iff. cbn [mbind outcome_bind fst snd]. rewrite IH by done. cbn [mbind outcome_bind fst snd app].
  by rewrite <- str_app_assoc.
Qed.

Lemma scanned_word w v : forall_char word_char w = true -> w <> "" -> word_value w = Ok v -> scanned w [TVal v].
Proof.
  intros Hw Hne Hv. exists [], w, [TVal v]. rewrite word_read by done. split; [done|]. split; [|done].
  unfold end_word. apply String.eqb_neq in Hne. by rewrite Hne, Hv.
Qed.

Lemma digit_char_digit d : (d < 10)%nat -> is_digit (digit_char d) = true.
Proof. intros Hd. do 10 (destruct d as [|d]; [reflexivity|]). lia. Qed.

Lemma itoa_digits fuel n acc : forall_char is_digit acc = true -> forall_char is_digit (itoa_fuel fuel n acc) = true.
Proof.
  revert n acc. induction fuel as [|fuel IH]; intros n acc Hacc; cbn [itoa_fuel]; [done|].
  assert (H : forall_char is_digit (String (digit_char (n mod 10)) acc) = true).
  { cbn [forall_char]. rewrite digit_char_digit by (apply Nat.mod_upper_bound; lia). done. }
  destruct (n <? 10)%nat; [done|by apply IH].
Qed.

Lemma itoa_nat_digits n : forall_char is_digit (itoa_nat n) = true.
Proof. by apply itoa_digits. Qed.

Lemma digits_word s : forall_char is_digit s = true -> forall_char word_char s = true.
Proof.
  induction s as [|c s IH]; [done|]. cbn [forall_char]. intros [Hc Hs]%andb_true_iff. rewrite IH by done.
  unfold word_char. by rewrite Hc, !orb_true_r.
Qed.

Lemma itoa_nat_head n : exists d s, (d < 10)%nat /\ itoa_nat n = String (digit_char d) s.
Proof. apply itoa_fuel_head. lia. Qed.

Lemma word_value_digits n : (let s := itoa_nat n in word_value s = Ok (JNum (Z.of_nat n)) /\ word_value (String "-" s) = Ok (JNum (- Z.of_nat n))).
Proof.
  destruct (itoa_nat_head n) as (d & s & Hd & Hs). pose proof (itoa_nat_digits n) as Hdig. pose proof (itoa_nat_val n) as Hval.
  cbv zeta. rewrite Hs in *. unfold word_value.
  assert (Hminus : match String (digit_char d) s with String "-" d' => (true, d') | _ => (false, String (digit_char d) s) end = (false, String (digit_char d) s)).
  { do 10 (destruct d as [|d]; [reflexivity|]). lia. }
  assert (Hno : forall w, (w = "null" \/ w = "true" \/ w = "false") -> String.eqb (String (digit_char d) s) w = false).
  { intros w Hw. apply String.eqb_neq. intros H. rewrite H in Hdig. destruct Hw as [-> | [-> | ->]]; discriminate Hdig. }
  rewrite (Hno "null"), (Hno "true"), (Hno "false"), Hminus by tauto. cbn [String.eqb Ascii.eqb eqb negb andb].
  rewrite Hval, Hs, Hdig, String.eqb_refl. split; reflexivity.
Qed.

Lemma scanned_number z : scanned (Itoa z) [TVal (JNum z)].
Proof.
  unfold Itoa. destruct (Z.ltb_spec z 0) as [Hz|Hz].
  - destruct (word_value_digits (Z.to_nat (- z))) as [_ Hv]. apply scanned_word.
    + change (forall_char word_char (itoa_nat (Z.to_nat (- z))) = true). by apply digits_word, itoa_nat_digits.
    + by rewrite str_app_cons.
    + change ("-" +:+ itoa_nat (Z.to_nat (- z))) with (String "-" (itoa_nat (Z.to_nat (- z)))). rewrite Hv. do 2 f_equal. lia.
  - destruct (word_value_digits (Z.to_nat z)) as [Hv _]. apply scanned_word.
    + by apply digits_word, itoa_nat_digits.
    + by destruct (itoa_nat_head (Z.to_nat z)) as (d & s & _ & ->).
    + rewrite Hv. do 2 f_equal. lia.
Qed.

(** ** Reading the values back *)

Definition separated (l : list (list token)) : list token :=
  match l with [] => [] | x :: l' => x ++ concat (map (cons TComma) l') end.

Fixpoint tokens_of (v : json) : list token :=
  match v with
  | JStr s => [TStr s]
  | JArr l => TOpenArr :: separated (map tokens_of l) ++ [TCloseArr]
  | JObj fs => TOpen :: separated (map (fun kv => TStr kv.1 :: TColon :: tokens_of kv.2) fs) ++ [TClose]
  | _ => [TVal v]
  end.

(** Induction that reaches the values inside. *)
Lemma json_nested_ind (P : json -> Prop) :
  P JNull -> (forall b, P (JBool b)) -> (forall n, P (JNum n)) -> (forall s, P (JStr s)) ->
  (forall l, Forall P l -> P (JArr l)) -> (forall fs, Forall (fun kv => P kv.2) fs -> P (JObj fs)) -> forall v, P v.
Proof.
  intros H1 H2 H3 H4 H5 H6. fix go 1. intros [|b|n|s|l|fs]; [done|done|done|done|apply H5|apply H6].
  - induction l as [|x l IH]; constructor; [apply go|exact IH].
  - induction fs as [|[k x] fs IH]; constructor; [apply go|exact IH].
Qed.

(** Pieces with commas between and a closing mark. *)
Lemma scanned_list texts toks close t :
  Forall2 scanned texts toks -> punctuation close = Some t ->
  scan (InWord "") (Join texts "," +:+ String close "") = Ok (separated toks ++ [t], InWord "").
Proof.
  intros Hall Ht. destruct Hall as [|s T texts toks Hs Hall].
  { cbn [Join separated app]. rewrite (scanned_app "" [] close t ""); [done|by apply scanned_exact|done]. }
  revert s T Hs. induction Hall as [|s' T' texts toks Hs' _ IH]; intros s T Hs.
  - cbn [Join separated map concat]. rewrite (scanned_app s T close t "") by done. by rewrite app_nil_r.
  - rewrite Join_cons by done. rewrite <- !str_app_assoc.
    change ("," +:+ (Join (s' :: texts) "," +:+ String close "")) with (String "," (Join (s' :: texts) "," +:+ String close "")).
    rewrite (scanned_app s T _ TComma) by done. rewrite (IH s' T' Hs'). cbn [mbind outcome_bind fst snd separated map concat].
    by rewrite <- !app_assoc.
Qed.

Lemma scan_open c t b : punctuation c = Some t -> scan (InWord "") (String c b) = (r ← scan (InWord "") b; Ok (t :: r.1, r.2)).
Proof. intros Ht. change (String c b) with ("" +:+ String c b). rewrite (scanned_app "" [] c t b); [done|by apply scanned_exact|done]. Qed.

Lemma scanned_map {A} (f : A -> string) (g : A -> list token) l :
  Forall (fun x => scanned (f x) (g x)) l -> Forall2 scanned (map f l) (map g l).
Proof. induction 1; constructor; done. Qed.

Lemma scanned_Marshal v : scanned (Marshal v) (tokens_of v).
Proof.
  induction v as [|b|n|s|l Hl|fs Hfs] using json_nested_ind; cbn [Marshal tokens_of].
  - by apply scanned_word.
  - destruct b; by apply scanned_word.
  - apply scanned_number.
  - apply scanned_exact, scanned_string.
  - apply scanned_exact. rewrite str_app_cons, str_app_l_nil, (scan_open _ TOpenArr) by done.
    rewrite (scanned_list _ (map tokens_of l) _ TCloseArr) by (done || by apply scanned_map). done.
  - apply scanned_exact. rewrite str_app_cons, str_app_l_nil, (scan_open _ TOpen) by done.
    rewrite (scanned_list _ (map (fun kv => TStr kv.1 :: TColon :: tokens_of kv.2) fs) _ TClose); [done| |done].
    apply scanned_map. eapply Forall_impl; [exact Hfs|]. intros [k x] (ts & w & te & Hs & Hw & Ht); cbn [fst snd] in *.
    exists (TStr k :: TColon :: ts), w, te. rewrite Ht. split; [|done].
    cbn [fst snd]. change (":" +:+ Marshal x) with (String ":" (Marshal x)).
    rewrite (scanned_app _ [TStr k] _ TColon) by (done || apply scanned_exact, scanned_string). by rewrite Hs.
Qed.

(** What the parser does with a value that is complete. *)
Definition put (st : list frame) (v : json) (ts : list token) : outcome json :=
  match st with
  | [] => match ts with [] => Ok v | _ => Err err_json end
  | FArr l :: st' => parse_tokens (FArr (l ++ [v]) :: st') Next ts
  | FObj l k :: st' => parse_tokens (FObj (l ++ [(k, v)]) "" :: st') Next ts
  end.

Definition reads (v : json) : Prop := forall st b ts, parse_tokens st (Value b) (tokens_of v ++ ts) = put st v ts.

Lemma read_items st l done ts : Forall reads l -> done <> [] ->
  parse_tokens (FArr done :: st) Next (concat (map (cons TComma) (map tokens_of l)) ++ TCloseArr :: ts) = put st (JArr (done ++ l)) ts.
Proof.
  intros Hl. revert done. induction Hl as [|v l Hv _ IH]; intros done Hne.
  - cbn [map concat app parse_tokens]. rewrite app_nil_r. by destruct st as [|[] ?].
  - cbn [map concat]. rewrite <- app_assoc. cbn [app parse_tokens]. rewrite Hv. cbn [put].
    rewrite IH by (by destruct done). by rewrite <- app_assoc.
Qed.

Lemma read_fields st fs done ts : Forall (fun kv => reads kv.2) fs ->
  parse_tokens (FObj done "" :: st) Next
    (concat (map (cons TComma) (map (fun kv => TStr kv.1 :: TColon :: tokens_of kv.2) fs)) ++ TClose :: ts) = put st (JObj (done ++ fs)) ts.
Proof.
  intros Hfs. revert done. induction Hfs as [|[k v] fs Hv _ IH]; intros done.
  - cbn [map concat app parse_tokens]. rewrite app_nil_r. by destruct st as [|[] ?].
  - cbn [map concat fst snd]. rewrite <- app_assoc. cbn [app parse_tokens]. cbn [snd] in Hv. rewrite Hv. cbn [put].
    rewrite IH. by rewrite <- app_assoc.
Qed.

Lemma read_value v : reads v.
Proof.
  induction v as [|b|n|s|l Hl|fs Hfs] using json_nested_ind; intros st b' ts; try (destruct st as [|[] ?], b'; reflexivity).
  - cbn [tokens_of app parse_tokens]. rewrite <- app_assoc. cbn [app]. destruct Hl as [|v l Hv Hl].
    + cbn [map separated app parse_tokens]. by destruct b', st as [|[] ?].
    + cbn [map separated]. rewrite <- app_assoc, Hv. cbn [put app]. rewrite read_items by done. by destruct b'.
  - cbn [tokens_of app parse_tokens]. rewrite <- app_assoc. cbn [app]. destruct Hfs as [|[k v] fs Hv Hfs].
    + cbn [map separated app parse_tokens]. by destruct b', st as [|[] ?].
    + cbn [map separated fst snd]. rewrite <- app_assoc. cbn [app parse_tokens]. cbn [snd] in Hv. rewrite Hv. cbn [put app].
      rewrite read_fields by done. by destruct b'.
Qed.

Lemma parse_Marshal v : parse_json (Marshal v) = Ok v.
Proof.
  unfold parse_json, tokenize. destruct (scanned_Marshal v) as (ts & w & te & -> & Hw & Hv). cbn [mbind outcome_bind fst snd].
  rewrite Hw. cbn [mbind outcome_bind]. pose proof (read_value v [] false []) as Hr. rewrite app_nil_r, Hv in Hr. exact Hr.
Qed.

(** ** The decoder stops where the value ends *)

Lemma parse_more st ex ts v ts' : parse_tokens st ex ts = Ok v -> ts' <> [] -> forall v', parse_tokens st ex (ts ++ ts') <> Ok v'.
Proof.
  revert st ex. induction ts as [|t ts IH]; intros st ex Hp Hne v'; [done|]. cbn [app parse_tokens] in *.
  repeat (case_match; simplify_eq; try done); try (by eapply IH); by destruct ts.
Qed.

(** A closing token ends what is open. *)
Definition closes (t : token) : Prop := t = TClose \/ t = TCloseArr.

Lemma parse_last st ex ts v : st <> [] -> parse_tokens st ex ts = Ok v -> exists ts0 t, ts = ts0 ++ [t] /\ closes t.
Proof.
  revert st ex. induction ts as [|t ts IH]; intros st ex Hne Hp; [done|]. cbn [parse_tokens] in Hp.
  assert (Hgo : forall st' ex', st' <> [] -> parse_tokens st' ex' ts = Ok v -> exists ts0 t', t :: ts = ts0 ++ [t'] /\ closes t').
  { intros st' ex' Hne' Hp'. destruct (IH st' ex' Hne' Hp') as (ts0 & t' & -> & Ht). by exists (t :: ts0), t'. }
  unfold closes in *. repeat (case_match; simplify_eq; try done);
    first [by eapply Hgo; [|exact Hp] | exists []; eexists; split; [reflexivity|tauto]].
Qed.

Lemma step_close w : tok_step (InWord w) "}"%char = (pre ← end_word w; Ok (pre ++ [TClose], InWord "")).
Proof. reflexivity. Qed.

Lemma scan_object fs : scan (InWord "") (Marshal (JObj fs)) = Ok (tokens_of (JObj fs), InWord "").
Proof.
  destruct (scanned_Marshal (JObj fs)) as (ts & w & te & Hs & Hw & HT). rewrite Hs, HT.
  cbn [Marshal] in Hs. rewrite str_app_assoc, scan_app in Hs.
  destruct (scan (InWord "") _) as [[ts1 m]| | |]; cbn [mbind outcome_bind fst snd] in Hs; try discriminate Hs.
  cbn [scan mbind outcome_bind] in Hs. destruct (tok_step m "}"%char) as [[ts2 m2]| | |] eqn:Hm; cbn [mbind outcome_bind fst snd] in Hs; try discriminate Hs.
  injection Hs as <- ->. assert (w = "") as ->.
  { destruct m as [w'|t|t|t todo acc]; [|discriminate Hm|discriminate Hm|destruct todo as [|[]]; discriminate Hm].
    rewrite step_close in Hm. destruct (end_word w'); cbn [mbind outcome_bind] in Hm; [by injection Hm|done..]. }
  cbn in Hw. injection Hw as <-. by rewrite !app_nil_r.
Qed.

Lemma scan_close m a ts w : scan m (a +:+ "}") = Ok (ts, InWord w) -> ts <> [].
Proof.
  rewrite scan_app. destruct (scan m a) as [[ts1 m1]| | |]; cbn [mbind outcome_bind fst snd]; [|done..].
  cbn [scan]. destruct m1 as [w'|t|t|t todo acc]; [|discriminate|discriminate|destruct todo as [|[]]; discriminate].
  rewrite step_close. destruct (end_word w') as [pre| | |]; cbn [mbind outcome_bind fst snd]; [|done..].
  intros [= <- _]. by destruct ts1, pre.
Qed.

Lemma str_split_end a b x c y : a +:+ String c "" = x +:+ String b y -> exists z, String b y = z +:+ String c "".
Proof.
  revert x. induction a as [|d a IH]; intros [|e x] H; rewrite ?str_app_cons, ?str_app_l_nil in H.
  - by exists "".
  - injection H as _ H. by destruct x.
  - exists (String d a). symmetry. exact H.
  - injection H as _ H. exact (IH x H).
Qed.

(** No part of the text of an object is a value. *)
Lemma object_prefix fs x c y : Marshal (JObj fs) = x +:+ String c y -> is_ok (parse_json x) = false.
Proof.
  intros Hx. pose proof (scan_object fs) as Hs. rewrite Hx, scan_app in Hs.
  destruct (parse_json x) as [v| | |] eqn:Hp; [|done..]. exfalso. unfold parse_json, tokenize in Hp.
  destruct (scan (InWord "") x) as [[ts1 [w|t|t|t todo acc]]| | |] eqn:Hsx; cbn [mbind outcome_bind fst snd] in Hp; try discriminate Hp.
  cbn [mbind outcome_bind fst snd] in Hs. destruct (end_word w) as [te| | |] eqn:Hw; cbn [mbind outcome_bind] in Hp; try discriminate Hp.
  assert (Hy : exists z, String c y = z +:+ "}") by (cbn [Marshal] in Hx; rewrite str_app_assoc in Hx; by eapply str_split_end).
  destruct Hy as [z Hz]. destruct (scan (InWord w) (String c y)) as [[ts2 m]| | |] eqn:Hsy; cbn [mbind outcome_bind fst snd] in Hs; try discriminate Hs.
  injection Hs as HT ->. rewrite Hz in Hsy. apply scan_close in Hsy. unfold end_word in Hw.
  destruct (String.eqb_spec w "") as [->|Hne].
  - injection Hw as <-. rewrite app_nil_r in Hp. apply (parse_more _ _ _ _ ts2 Hp Hsy (JObj fs)). rewrite HT.
    pose proof (read_value (JObj fs) [] false []) as Hr. by rewrite app_nil_r in Hr.
  - destruct (word_value w) as [u| | |]; cbn [mbind outcome_bind] in Hw; try discriminate Hw. injection Hw as <-.
    destruct ts1 as [|t ts1].
    + destruct x as [|d x]; [by injection Hsx as <-|]. cbn [Marshal] in Hx. injection Hx as <- _.
      rewrite (scan_open _ TOpen) in Hsx by done. by destruct (scan (InWord "") x) as [[]| | |].
    + cbn [tokens_of app] in HT. injection HT as -> _. cbn [app parse_tokens] in Hp. apply parse_last in Hp as (ts0 & t & Ht & Hc); [|done].
      apply app_inj_2 in Ht as [_ [= <-]]; [|done]. by destruct Hc.
Qed.

Lemma Decode_from_exact a b rest v : (forall x c y, a +:+ b = x +:+ String c y -> is_ok (parse_json x) = false) ->
  parse_json (a +:+ b) = Ok v -> Decode_from a (b +:+ rest) = Ok v.
Proof.
  revert a. induction b as [|c b IH]; intros a Hpre Hv.
  - rewrite str_app_nil in Hv. by apply Decode_done.
  - rewrite str_app_cons. cbn [Decode_from]. pose proof (Hpre a c b eq_refl) as Ha.
    assert (Hsplit : (a +:+ String c "") +:+ b = a +:+ String c b) by (by rewrite <- str_app_assoc).
    assert (Hgo : Decode_from (a +:+ String c "") (b +:+ rest) = Ok v).
    { apply IH; [|by rewrite Hsplit]. intros x d y Hxy. apply (Hpre x d y). by rewrite <- Hsplit. }
    by destruct (parse_json a).
Qed.

(** A decoder reads from a stream the object that was encoded, and only it. *)
Lemma Decode_Marshal fs rest : Decode (Marshal (JObj fs) +:+ rest) = Ok (JObj fs).
Proof. apply (Decode_from_exact ""); [exact (object_prefix fs)|apply parse_Marshal]. Qed.

Lemma Decode_Encode fs : Decode (Encode (JObj fs)) = Ok (JObj fs).
Proof. apply Decode_Marshal. Qed.
