(* ===== verification/GoNet.v ===== *)
(** * Package net

    IPv4 addresses and networks as texts and bytes. *)
From S2P Require Import Prelude GoLib GoStrings.
From Stdlib Require Import Ascii.
Open Scope string_scope.
Open Scope list_scope.

Abbreviation bytes := (list Z).

(** The bytes 00..00 ff ff before an IPv4 address in its 16-byte form. *)
Definition v4_prefix : bytes := replicate 10 0%Z ++ [255; 255]%Z.

(** [netip.ParseAddr(ip.String())]: 4-byte and mapped addresses are IPv4. *)
Definition addr_of_ip (ip : bytes) : outcome bytes :=
  if (length ip =? 4)%nat then Ok ip
  else if (length ip =? 16)%nat then Ok (if decide (take 12 ip = v4_prefix) then drop 12 ip else ip)
  else Err (errorf "unable to parse IP").

(** [net.ParseIP(a.String())]: the 16-byte form. *)
Definition ip_of_addr (a : bytes) : bytes := if (length a =? 4)%nat then v4_prefix ++ a else a.

Definition Is4 (a : bytes) : bool := (length a =? 4)%nat.

(** The text of an IPv4 address. *)
Definition dotted (a : bytes) : string := Join (map Itoa a) ".".

Definition octet_ok (s : string) : bool :=
  negb (String.eqb s "") && forall_char is_digit s && (dec_val s 0 <=? 255)%nat && String.eqb (itoa_nat (dec_val s 0)) s.

(** [net.ParseIP] on IPv4 texts. *)
Definition ParseIP4 (s : string) : outcome bytes :=
  match Split s "."%char with
  | [a; b; c; d] =>
      if forallb octet_ok [a; b; c; d] then Ok (ip_of_addr (map (fun o => Z.of_nat (dec_val o 0)) [a; b; c; d]))
      else Err (errorf "invalid IP address")
  | _ => Err (errorf "invalid IP address")
  end.

(** net.IPNet *)
Record IPNet := MkIPNet { netIP : bytes; netMask : bytes }.

(** [net.CIDRMask(n, 32)] *)
Definition CIDRMask (n : nat) : bytes :=
  map (fun i => (256 - 2 ^ (8 - Z.of_nat (Nat.min 8 (n - 8 * i))))%Z) [0; 1; 2; 3]%nat.

Definition mask_ip (a mask : bytes) : bytes := zip_with Z.land a mask.

(** [net.ParseCIDR] on IPv4 texts: the address, and the network it lies in. *)
Definition ParseCIDR (s : string) : outcome (bytes * IPNet) :=
  match Split s "/"%char with
  | [a; m] =>
      ip ← ParseIP4 a;
      if negb (String.eqb m "") && forall_char is_digit m && (dec_val m 0 <=? 32)%nat then
        let mask := CIDRMask (dec_val m 0) in Ok (ip, MkIPNet (mask_ip (drop 12 ip) mask) mask)
      else Err (errorf "invalid CIDR address")
  | _ => Err (errorf "invalid CIDR address")
  end.

Example parse_cidr : ParseCIDR "111.0.0.14/24" =
  Ok (ip_of_addr [111; 0; 0; 14]%Z, MkIPNet [111; 0; 0; 0]%Z [255; 255; 255; 0]%Z).
Proof. reflexivity. Qed.

(** ** Numbers and addresses as texts *)

Lemma digit_not_char c d : is_digit c = false -> (d < 10)%nat -> digit_char d <> c.
Proof.
  intros Hc Hd <-. unfold is_digit, ascii_code, digit_char in Hc. rewrite nat_ascii_embedding in Hc by lia.
  apply andb_false_iff in Hc. rewrite !Nat.leb_gt in Hc. lia.
Qed.

Lemma itoa_no_char c fuel n acc : is_digit c = false -> no_char c acc -> no_char c (itoa_fuel fuel n acc).
Proof.
  intros Hc. revert n acc. induction fuel as [|fuel IH]; intros n acc Ha; [done|]. cbn [itoa_fuel].
  assert (no_char c (String (digit_char (n mod 10)) acc)).
  { apply no_char_cons. split; [|done]. apply digit_not_char; [done|]. apply Nat.mod_upper_bound. lia. }
  destruct (n <? 10)%nat; [done|by apply IH].
Qed.

Lemma Itoa_no_char c z : is_digit c = false -> (0 <= z)%Z -> no_char c (Itoa z).
Proof. intros Hc Hz. unfold Itoa. rewrite (proj2 (Z.ltb_ge z 0)) by done. by apply itoa_no_char. Qed.

Lemma Itoa_no_dot z : (0 <= z)%Z -> no_char "."%char (Itoa z).
Proof. by apply Itoa_no_char. Qed.

Lemma itoa_octet n : (n <= 255)%nat -> octet_ok (itoa_nat n) = true.
Proof.
  intros Hn. unfold octet_ok. rewrite itoa_nat_val. rewrite String.eqb_refl, (proj2 (Nat.leb_le n 255) Hn).
  rewrite !andb_true_r. do 256 (destruct n as [|n]; [reflexivity|]). lia.
Qed.

Lemma Itoa_nat z : (0 <= z)%Z -> Itoa z = itoa_nat (Z.to_nat z).
Proof. intros Hz. unfold Itoa. by rewrite (proj2 (Z.ltb_ge z 0)). Qed.

Lemma Split_dotted a b c d : Forall (fun x => 0 <= x <= 255)%Z [a; b; c; d] ->
  Split (dotted [a; b; c; d]) "."%char = map Itoa [a; b; c; d].
Proof.
  rewrite !Forall_cons. intros (Ha & Hb & Hc & Hd & _).
  change (dotted [a; b; c; d]) with (Itoa a +:+ String "."%char (Itoa b +:+ String "."%char (Itoa c +:+ String "."%char (Itoa d)))).
  rewrite !Split_app by by (apply Itoa_no_dot; lia). by rewrite Split_none by by (apply Itoa_no_dot; lia).
Qed.

Definition octets (a : bytes) : Prop := Forall (fun x => 0 <= x <= 255)%Z a.

Lemma ParseIP4_dotted a b c d : octets [a; b; c; d] -> ParseIP4 (dotted [a; b; c; d]) = Ok (ip_of_addr [a; b; c; d]).
Proof.
  intros Hr. unfold ParseIP4. rewrite Split_dotted by done.
  unfold octets in Hr. rewrite !Forall_cons in Hr. destruct Hr as (Ha & Hb & Hc & Hd & _).
  cbn [map forallb]. by rewrite !Itoa_nat, !itoa_octet, !itoa_nat_val, !Z2Nat.id by lia.
Qed.
