(* ===== verification/Resources.v ===== *)
(** * Custom resources of a cluster (the client of controller-runtime)

    What the reconcilers of the repository ask of Kubernetes: read one resource,
    create one object, write back a status.  A reconciler answers every error
    with [Result{RequeueAfter: time.Minute}, err] and success with
    [Result{}, nil]; the library requeues on the error whatever the result says,
    so the answer is the outcome. *)
From S2P Require Import Prelude.
Open Scope list_scope.

Abbreviation object_key := (string * string)%type (only parsing).

(** [R]: the resource, as it is read; [St]: the status a reconciler writes;
    [O]: the objects it creates. *)
Inductive clusterE (R St O : Type) : Type -> Type :=
  | GetResource (key : object_key) : clusterE R St O (outcome R)
  | UpdateStatus (key : object_key) (status : St) : clusterE R St O (outcome unit)
  | CreateObject (o : O) : clusterE R St O (outcome unit).
Arguments GetResource {R St O} _.
Arguments UpdateStatus {R St O} _ _.
Arguments CreateObject {R St O} _.

(** ** A cluster with faults *)

(** A call works, fails without effect, or takes effect and its answer is lost. *)
Inductive fault := Works | Refused (e : error) | Unanswered (e : error).

Record cluster (R O : Type) := MkCluster {
  resources : gmap object_key R;
  objects : gmap object_key O;
  faults : list fault;           (* of the calls to come; all later ones work *)
}.
Arguments MkCluster {R O} _ _ _.
Arguments resources {R O} _.
Arguments objects {R O} _.
Arguments faults {R O} _.

Section Cluster.
Context {R St O : Type} (set_status : St -> R -> R) (okey : O -> object_key).

Definition next_fault (c : cluster R O) : fault := default Works (head (faults c)).

Definition not_found : error := MkErr KNotFound "not found".
Definition already_exists : error := MkErr KAlreadyExists "already exists".

(** What a call that would answer [r] with the state [c'] does under a fault. *)
Definition under_fault {X} (c c' : cluster R O) (r : outcome X) : cluster R O * outcome X :=
  let later c := MkCluster (resources c) (objects c) (tail (faults c)) in
  match next_fault c with
  | Works => (later c', r)
  | Refused e => (later c, Err e)
  | Unanswered e => (later c', Err e)
  end.

Definition cluster_step : handler (clusterE R St O) (cluster R O) := fun X e c =>
  match e in clusterE _ _ _ X return cluster R O * X with
  | GetResource key => under_fault c c (match resources c !! key with Some r => Ok r | None => Err not_found end)
  | UpdateStatus key status =>
      match resources c !! key with
      | Some r => under_fault c (MkCluster (<[key := set_status status r]> (resources c)) (objects c) (faults c)) (Ok tt)
      | None => under_fault c c (Err not_found)
      end
  | CreateObject o =>
      match objects c !! okey o with
      | Some _ => under_fault c c (Err already_exists)
      | None => under_fault c (MkCluster (resources c) (<[okey o := o]> (objects c)) (faults c)) (Ok tt)
      end
  end.

(** ** What calls leave alone *)

Lemma read_resource key c :
  let '(c', r) := cluster_step _ (GetResource key) c in
  resources c' = resources c /\ objects c' = objects c /\
  match r with Ok v => resources c !! key = Some v | Err _ => True | _ => False end.
Proof.
  cbn [cluster_step]. unfold under_fault. destruct (next_fault c); cbn [resources objects]; [|done..].
  by destruct (resources c !! key) eqn:?.
Qed.

Lemma create_object o c :
  let '(c', r) := cluster_step _ (CreateObject o) c in
  resources c' = resources c /\ (forall key o', objects c !! key = Some o' -> objects c' !! key = Some o') /\
  match r with Ok _ => objects c !! okey o = None /\ objects c' !! okey o = Some o | Err _ => True | _ => False end.
Proof.
  cbn [cluster_step]. destruct (objects c !! okey o) eqn:Ho; unfold under_fault; destruct (next_fault c);
    cbn [resources objects]; split_and!; try done; try (intros key o' Hk; rewrite lookup_insert_ne; congruence).
  by rewrite lookup_insert_eq.
Qed.

Lemma update_status key st c :
  let '(c', r) := cluster_step _ (UpdateStatus key st) c in
  objects c' = objects c /\ (forall key', key' <> key -> resources c' !! key' = resources c !! key') /\
  match r with Ok _ => exists v, resources c !! key = Some v /\ resources c' !! key = Some (set_status st v) | Err _ => True | _ => False end.
Proof.
  cbn [cluster_step]. destruct (resources c !! key) as [v|] eqn:Hv; unfold under_fault; destruct (next_fault c);
    cbn [resources objects]; split_and!; try done; try (intros key' Hk; by rewrite lookup_insert_ne).
  exists v. split; [done|]. by rewrite lookup_insert_eq.
Qed.

(** With no faults to come. *)
Lemma read_works key c v : faults c = [] -> resources c !! key = Some v -> cluster_step _ (GetResource key) c = (c, Ok v).
Proof. intros Hf Hv. cbn [cluster_step]. unfold under_fault, next_fault. rewrite Hf, Hv. destruct c. cbn in *. by subst. Qed.

Lemma update_works key st c v : faults c = [] -> resources c !! key = Some v ->
  cluster_step _ (UpdateStatus key st) c = (MkCluster (<[key := set_status st v]> (resources c)) (objects c) [], Ok tt).
Proof. intros Hf Hv. cbn [cluster_step]. rewrite Hv. unfold under_fault, next_fault. cbn [faults]. by rewrite Hf. Qed.

Lemma create_works o c : faults c = [] -> objects c !! okey o = None ->
  cluster_step _ (CreateObject o) c = (MkCluster (resources c) (<[okey o := o]> (objects c)) [], Ok tt).
Proof. intros Hf Ho. cbn [cluster_step]. rewrite Ho. unfold under_fault, next_fault. cbn [faults]. by rewrite Hf. Qed.
End Cluster.
