(* ===== verification/Reconcilers.v ===== *)
(** * Reconcilers (core/fluxcd-reconciler, core/resource-renderer)

    The HTTP service that makes Flux reconcile a source or a kustomization and
    waits for it, and the controller that renders a secret into a config map. *)
From S2P Require Import Prelude GoLib GoStrings Resources.
From Stdlib Require Import Ascii.
Open Scope string_scope.
Open Scope list_scope.

(** ** fluxcd-reconciler/main.go *)

Record flux_resource := MkFluxResource { Group : string; FVersion : string; Resource : string }.

Definition reconcileAnnotation : string := "reconcile.fluxcd.io/requestedAt".

(** Objects are unstructured; times are nanoseconds. *)
Inductive fluxE : Type -> Type :=
  | GetObject (res : flux_resource) (ns name : string) : fluxE (outcome json)
  | UpdateObject (res : flux_resource) (ns name : string) (o : json) : fluxE (outcome json)
  | Now : fluxE Z.

Definition field (k : string) (v : json) : option json :=
  match v with JObj fs => get_field k fs | _ => None end.

Definition getReconciledAt (obj : json) : outcome string :=
  match field "status" obj with
  | None => Err (errorf "status not found")
  | Some (JObj fs) =>
      match get_field "lastHandledReconcileAt" fs with
      | None => Err (errorf "lastHandledReconcileAt not found in status")
      | Some (JStr s) => Ok s
      | Some _ => Err (errorf "lastHandledReconcileAt not string")
      end
  | Some _ => Err (errorf "status not map")
  end.

Definition all_strings (fs : list (string * json)) : bool := forallb (fun kv => match kv.2 with JStr _ => true | _ => false end) fs.

(** [unstr.GetAnnotations()]: nil unless there is a map of texts. *)
Definition GetAnnotations (obj : json) : option (list (string * json)) :=
  match field "metadata" obj with
  | Some (JObj m) =>
      match get_field "annotations" m with
      | Some (JObj a) => if all_strings a then Some a else None
      | _ => None
      end
  | _ => None
  end.

(** [unstr.SetAnnotations(a)] of an object that has metadata. *)
Definition SetAnnotations (a : list (string * json)) (obj : json) : json :=
  match obj with
  | JObj fs =>
      let m := match get_field "metadata" fs with Some (JObj m) => m | _ => [] end in
      JObj (set_field "metadata" (JObj (set_field "annotations" (JObj a) m)) fs)
  | _ => obj
  end.

Definition hour : Z := (3600 * 10 ^ 9)%Z.

Section Flux.
(** time.Format and time.Parse with RFC3339Nano in the zone of the process. *)
Context (Format : Z -> string) (Parse : string -> outcome Z).

(** The loop asks again at once; [n]: the answers it is followed for. *)
Fixpoint wait_reconciled (n : nat) (res : flux_resource) (ns name : string) (timeNow : Z) : go fluxE unit :=
  match n with
  | 0 => Ret Diverge
  | S n' =>
      unstr ← call (GetObject res ns name);
      reconciledAt ← lift (getReconciledAt unstr);
      reconciledAtTime ← lift (Parse reconciledAt);
      if (timeNow <? reconciledAtTime + 3 * hour)%Z then mret tt else wait_reconciled n' res ns name timeNow
  end.

Definition reconcile (n : nat) (res : flux_resource) (ns name : string) : go fluxE unit :=
  unstr ← call (GetObject res ns name);
  Vis Now (fun timeNow =>
    match GetAnnotations unstr with
    | None => panic "assignment to entry in nil map"
    | Some annotations =>
        let annotations := set_field reconcileAnnotation (JStr (Format timeNow)) annotations in
        _ ← call (UpdateObject res ns name (SetAnnotations annotations unstr));
        wait_reconciled n res ns name timeNow
    end).

Definition git_source : flux_resource := MkFluxResource "source.toolkit.fluxcd.io" "v1" "gitrepositories".
Definition kustomization : flux_resource := MkFluxResource "kustomize.toolkit.fluxcd.io" "v1" "kustomizations".

Definition flux_handler (n : nat) (res : flux_resource) (namespace name : option string) : go fluxE (reply unit) :=
  match namespace, name with
  | None, _ => mret (HttpError "namespace missing" StatusBadRequest)
  | Some _, None => mret (HttpError "name missing" StatusBadRequest)
  | Some ns, Some name =>
      check _u := reconcile n res ns name onerr _e => mret (HttpError "error" StatusInternalServerError) in mret Empty
  end.

Definition sourceGitReconcile (n : nat) := flux_handler n git_source.
Definition kustomizationReconcile (n : nat) := flux_handler n kustomization.

(** The routes /source/git/{namespace}/{name}/reconcile and /kustomization/... *)
Definition serve_flux (n : nat) (method path : string) : go fluxE (reply unit) :=
  match Split path "/"%char with
  | [""; "source"; "git"; ns; name; "reconcile"] =>
      if String.eqb method MethodGet then sourceGitReconcile n (Some ns) (Some name) else mret (HttpError "" StatusMethodNotAllowed)
  | [""; "kustomization"; ns; name; "reconcile"] =>
      if String.eqb method MethodGet then kustomizationReconcile n (Some ns) (Some name) else mret (HttpError "" StatusMethodNotAllowed)
  | _ => mret (HttpError "404 page not found" StatusNotFound)
  end.
End Flux.

(** ** core/installer/tasks/reconciler.go: the client of the service *)

Definition NewFluxcdReconciler (addr name : string) : list string :=
  [addr +:+ "/source/git/" +:+ name +:+ "/" +:+ name +:+ "/reconcile"; addr +:+ "/kustomization/" +:+ name +:+ "/" +:+ name +:+ "/reconcile"].

(** Three seconds, or the end of the context; http.Get, whatever it answers. *)
Inductive tickE : Type -> Type :=
  | AfterOrDone : tickE bool
  | GetAndForget (url : string) : tickE unit.

(** The first [n] turns of Reconcile. *)
Fixpoint ReconcileLoop (n : nat) (resources : list string) : go tickE unit :=
  match n with
  | 0 => Ret Diverge
  | S n' =>
      Vis AfterOrDone (fun done : bool =>
        if done then Ret (Ok tt)
        else _ ← foreach (fun url => Vis (GetAndForget url) (fun _ => Ret (Ok tt))) resources; ReconcileLoop n' resources)
  end.

(** ** resource-renderer/controllers/resourcerenderer_controller.go *)

Record ResourceRenderer := MkRenderer {
  SecretName : string;
  SecretNamespace : string;
  ResourceTemplate : string;
  rrReady : bool;
}.

Definition set_rendered (b : bool) (r : ResourceRenderer) : ResourceRenderer :=
  MkRenderer (SecretName r) (SecretNamespace r) (ResourceTemplate r) b.

(** A config map, as it is decoded. *)
Record ConfigMap := MkConfigMap { cmKey : object_key; cmData : json }.

Inductive renderE : Type -> Type :=
  | OnCluster {X} (e : clusterE ResourceRenderer bool ConfigMap X) : renderE X
  | GetSecret (key : object_key) : renderE (outcome (gmap string string)).

Section Renderer.
(** text/template with the functions of sprig, and the YAML decoder. *)
Context (Execute : string -> gmap string string -> outcome string).
Context (Unmarshal : string -> outcome ConfigMap).

Definition RenderResource (key : object_key) : go renderE unit :=
  resource ← call (OnCluster (GetResource key));
  if rrReady resource then mret tt
  else
    let ns := if (String.length (SecretNamespace resource) =? 0)%nat then key.1 else SecretNamespace resource in
    data ← call (GetSecret (ns, SecretName resource));
    rendered ← lift (Execute (ResourceTemplate resource) data);
    config ← lift (Unmarshal rendered);
    _ ← call (OnCluster (CreateObject config));
    call (OnCluster (UpdateStatus key true)).
End Renderer.

(** * Proofs *)

(** ** Waiting for Flux *)

Lemma get_set_field_same k v fs : get_field k (set_field k v fs) = Some v.
Proof.
  unfold get_field. induction fs as [|[k' v'] fs IH]; cbn [set_field].
  - cbn [list_find]. by rewrite decide_True by done.
  - destruct (String.eqb_spec k' k) as [->|Hne]; cbn [list_find fst]; [by rewrite decide_True by done|].
    rewrite decide_False by done. destruct (list_find _ (set_field k v fs)) as [[i [k'' v'']]|]; done.
Qed.

Lemma get_set_other k k' v fs : k <> k' -> get_field k (set_field k' v fs) = get_field k fs.
Proof.
  intros Hk. unfold get_field. induction fs as [|[k2 v2] fs IH]; cbn [set_field].
  - cbn [list_find fst]. by rewrite decide_False by congruence.
  - destruct (String.eqb_spec k2 k') as [->|Hne]; cbn [list_find fst].
    + by rewrite !decide_False by congruence.
    + destruct (decide (k2 = k)) as [->|]; [done|].
      destruct (list_find (fun kv => kv.1 = k) (set_field k' v fs)) as [[i [a b]]|], (list_find (fun kv => kv.1 = k) fs) as [[i' [a' b']]|]; done.
Qed.

(** The cluster while Flux does nothing: the object is what was last written. *)
Definition idle_step (now : Z) : handler fluxE json := fun X e o =>
  match e in fluxE X return json * X with
  | GetObject _ _ _ => (o, Ok o)
  | UpdateObject _ _ _ o' => (o', Ok o')
  | Now => (o, now)
  end.

Lemma reconciled_annotated a fs : getReconciledAt (SetAnnotations a (JObj fs)) = getReconciledAt (JObj fs).
Proof. unfold getReconciledAt, SetAnnotations, field. by rewrite get_set_other. Qed.

Lemma annotations_set a fs : all_strings a = true -> GetAnnotations (SetAnnotations a (JObj fs)) = Some a.
Proof. intros Ha. unfold GetAnnotations, SetAnnotations, field. by rewrite get_set_field_same, get_set_field_same, Ha. Qed.

Lemma set_all_strings k s a : all_strings a = true -> all_strings (set_field k (JStr s) a) = true.
Proof.
  unfold all_strings. induction a as [|[k' v] a IH]; [done|]. cbn [set_field forallb snd]. intros [Hv Ha]%andb_true_iff.
  destruct (String.eqb k' k); cbn [forallb snd]; [done|]. rewrite Hv. by apply IH.
Qed.

(** What the wait is worth: with Flux doing nothing at all, the service writes
    the request into the annotations and then reports success at once if the
    object was reconciled in the last three hours, before the request was made;
    otherwise it asks for ever. *)
Theorem idle_flux (Format : Z -> string) (Parse : string -> outcome Z) (res : flux_resource) (ns name : string)
    (fs a : list (string * json)) (t now : Z) (n : nat)
    (Htimes : forall t, Parse (Format t) = Ok t) (Hlast : getReconciledAt (JObj fs) = Ok (Format t))
    (Hann : GetAnnotations (JObj fs) = Some a) :
  let '(o, r) := run (idle_step now) (reconcile Format Parse (S n) res ns name) (JObj fs) in
  GetAnnotations o = Some (set_field reconcileAnnotation (JStr (Format now)) a) /\
  r = if (now <? t + 3 * hour)%Z then Ok tt else Diverge.
Proof.
  assert (Ha : all_strings a = true).
  { unfold GetAnnotations in Hann. destruct (field "metadata" (JObj fs)) as [[]|]; try done. destruct (get_field "annotations" _) as [[]|]; try done.
    destruct (all_strings fields0) eqn:Hs; [|done]. by injection Hann as <-. }
  unfold reconcile. rewrite run_mbind, run_call. cbn [idle_step run]. rewrite Hann, run_mbind, run_call. cbn [idle_step].
  set (a' := set_field _ _ a). assert (Ha' : all_strings a' = true) by by apply set_all_strings.
  assert (Hwait : forall m, run (idle_step now) (wait_reconciled Parse (S m) res ns name now) (SetAnnotations a' (JObj fs)) =
    (SetAnnotations a' (JObj fs), if (now <? t + 3 * hour)%Z then Ok tt else Diverge)).
  { induction m as [|m IH]; cbn [wait_reconciled] in *; rewrite run_mbind, run_call; cbn [idle_step]; rewrite run_mbind; cbn [run lift];
      rewrite reconciled_annotated, Hlast, run_mbind; cbn [run lift]; rewrite Htimes; destruct (now <? t + 3 * hour)%Z eqn:Hn; try done; apply IH. }
  rewrite Hwait. split; [by apply annotations_set|done].
Qed.

(** ** A rendered resource that is not marked *)

Section RendererWorld.
Context (Execute : string -> gmap string string -> outcome string) (Unmarshal : string -> outcome ConfigMap).
Context (secrets : gmap object_key (gmap string string)).

Definition render_step : handler renderE (cluster ResourceRenderer ConfigMap) := fun X e c =>
  match e in renderE X return cluster ResourceRenderer ConfigMap * X with
  | OnCluster e => cluster_step set_rendered cmKey _ e c
  | GetSecret key => (c, match secrets !! key with Some d => Ok d | None => Err not_found end)
  end.

Definition secret_of (key : object_key) (r : ResourceRenderer) : object_key :=
  (if (String.length (SecretNamespace r) =? 0)%nat then key.1 else SecretNamespace r, SecretName r).

(** When the config map is there already - because the status could not be
    written after it was created - the resource never becomes ready. *)
Theorem rendered_twice_refused (key : object_key) (r : ResourceRenderer) (d : gmap string string) (text : string) (config : ConfigMap)
    (c : cluster ResourceRenderer ConfigMap)
    (Hr : resources c !! key = Some r) (Hready : rrReady r = false) (Hd : secrets !! secret_of key r = Some d)
    (Ht : Execute (ResourceTemplate r) d = Ok text) (Hc : Unmarshal text = Ok config) (Hthere : is_Some (objects c !! cmKey config)) :
  let '(c', o) := run render_step (RenderResource Execute Unmarshal key) c in
  resources c' !! key = Some r /\ is_Some (objects c' !! cmKey config) /\ exists e, o = Err e.
Proof.
  unfold RenderResource. rewrite run_mbind, run_call. cbn [render_step].
  pose proof (read_resource set_rendered cmKey key c) as Hread. destruct (cluster_step _ _ _ (GetResource key) c) as [c1 x].
  destruct Hread as (Hres & Hobj & Hx). rewrite <- Hres in Hr. rewrite <- Hobj in Hthere.
  destruct x as [v|e| |]; [|by split_and!; try done; eexists|done|done].
  assert (v = r) as -> by congruence. rewrite Hready, run_mbind, run_call. cbn [render_step]. fold (secret_of key r). rewrite Hd, run_mbind. cbn [run lift].
  rewrite Ht, run_mbind. cbn [run lift]. rewrite Hc, run_mbind, run_call. cbn [render_step].
  pose proof (create_object set_rendered cmKey config c1) as Hcreate. destruct (cluster_step _ _ _ (CreateObject config) c1) as [c2 x].
  destruct Hcreate as (Hres2 & Hobj2 & Hx2). rewrite <- Hres2 in Hr. destruct Hthere as [o Ho]. pose proof (Hobj2 _ _ Ho) as Ho2.
  destruct x as [u|e| |]; [destruct Hx2; congruence|by split_and!; try done; eexists|done|done].
Qed.
End RendererWorld.

(** What the tasks of an environment ask for is served: their two requests reach
    the handlers of its Git source and of its kustomization. *)
Lemma reconciler_requests_served Format Parse n addr name : no_char "/"%char name ->
  exists git kust, NewFluxcdReconciler addr name = [addr +:+ git; addr +:+ kust] /\
    serve_flux Format Parse n MethodGet git = sourceGitReconcile Format Parse n (Some name) (Some name) /\
    serve_flux Format Parse n MethodGet kust = kustomizationReconcile Format Parse n (Some name) (Some name).
Proof.
  intros Hn. eexists _, _. split; [reflexivity|]. unfold serve_flux.
  assert (Hs : forall rest, Split (name +:+ "/" +:+ rest) "/"%char = name :: Split rest "/"%char) by (intros rest; by apply (Split_app name rest)).
  assert (Hl : Split (name +:+ "/reconcile") "/"%char = [name; "reconcile"]) by by apply (Split_app name "reconcile").
  split.
  - change (Split ("/source/git/" +:+ ?x) ?c) with ("" :: "source" :: "git" :: Split x c). by rewrite Hs, Hl.
  - change (Split ("/kustomization/" +:+ ?x) ?c) with ("" :: "kustomization" :: Split x c). by rewrite Hs, Hl.
Qed.

(** ** The theorems at concrete inputs *)

Definition demo_source : list (string * json) :=
  [("metadata", JObj [("name", JStr "config"); ("annotations", JObj [("a", JStr "b")])]);
   ("status", JObj [("lastHandledReconcileAt", JStr "60")])].

Definition demo_parse (s : string) : outcome Z :=
  match s with String "-" d => Ok (- Z.of_nat (dec_val d 0))%Z | _ => Ok (Z.of_nat (dec_val s 0)) end.

Lemma demo_times t : demo_parse (Itoa t) = Ok t.
Proof.
  unfold demo_parse, Itoa. destruct (Z.ltb_spec t 0).
  - rewrite str_app_cons, str_app_l_nil. rewrite itoa_nat_val. f_equal. lia.
  - destruct (itoa_nat (Z.to_nat t)) as [|ch s] eqn:Hs.
    { pose proof (itoa_nat_val (Z.to_nat t)) as Hv. rewrite Hs in Hv. cbn in Hv. cbn. f_equal. lia. }
    destruct (Ascii.eqb_spec ch "-"%char) as [->|Hc]; [by destruct (itoa_nat_not_minus (Z.to_nat t) s)|].
    pose proof (itoa_nat_val (Z.to_nat t)) as Hv. rewrite Hs in Hv.
    destruct ch as [[] [] [] [] [] [] [] []]; try (by destruct Hc); rewrite Hv; f_equal; lia.
Qed.

Lemma idle_flux_witness :
  let '(o, r) := run (idle_step 3600) (reconcile Itoa demo_parse 5 git_source "env" "config") (JObj demo_source) in
  GetAnnotations o = Some [("a", JStr "b"); (reconcileAnnotation, JStr "3600")] /\ r = Ok tt.
Proof. exact (idle_flux Itoa demo_parse git_source "env" "config" demo_source [("a", JStr "b")] 60 3600 4 demo_times eq_refl eq_refl). Defined.
