(* ===== verification/Headscale.v ===== *)
(** * Users of the private network (core/headscale: main.go, client.go; core/headscale/controller)

    The HTTP service that runs the headscale command line, and the controller
    that makes a user and a key for every HeadscaleUser resource by asking it. *)
From S2P Require Import Prelude GoLib GoStrings GoJson GoNet Resources.
From Stdlib Require Import Ascii.
Open Scope string_scope.
Open Scope list_scope.

(** ** client.go: the headscale command *)

(** [exec.Command(...).Output()]; the arguments with the name of the program. *)
Inductive execE : Type -> Type :=
  | Output (args : list string) : execE (outcome string)
  | CreateFile (path : string) : execE (outcome unit)
  | WriteFile (path text : string) : execE (outcome unit).

Definition newClient (config : string) : string := "--config=" +:+ config.

Definition createUser (c name : string) : go execE unit :=
  _ ← call (Output ["headscale"; c; "users"; "create"; name]); mret tt.

Fixpoint last_line (items : list string) : outcome string :=
  match items with
  | [] => Err (errorf "All lines are empty")
  | x :: items' => let t := TrimSpace x in if negb (String.eqb t "") then Ok t else last_line items'
  end.

Definition line_end : ascii := ascii_of_nat 10.

(** The loop runs from the last line to the first. *)
Definition extractLastLine (s : string) : outcome string := last_line (reverse (Split s line_end)).

Definition createPreAuthKey (c user : string) : go execE string :=
  out ← call (Output ["headscale"; c; "--user"; user; "preauthkeys"; "create"; "--reusable"; "--expiration"; "365d"]);
  lift (extractLastLine out).

Definition enableRoute (c id : string) : go execE unit :=
  _ ← call (Output ["headscale"; c; "routes"; "enable"; "-r"; id]); mret tt.

(** ** main.go: the routes *)

Inductive hs_route := RCreateUser | RPreAuthKey (user : string) | REnableRoute (id : string).

Definition hs_route_of (path : string) : option hs_route :=
  match Split path "/"%char with
  | [""; "user"] => Some RCreateUser
  | [""; "user"; u; "preauthkey"] => Some (RPreAuthKey u)
  | [""; "routes"; i; "enable"] => Some (REnableRoute i)
  | _ => None
  end.

Definition handleCreateUser (c body : string) : go execE string :=
  req ← lift (v ← Decode body; json_field "name" json_string "" v);
  _ ← createUser c req; mret "".

Definition createReusablePreAuthKey (c user : string) : go execE string := createPreAuthKey c user.

Definition handleEnableRoute (c id : string) : go execE string := _ ← enableRoute c id; mret "".

(** What echo sends for an error of a handler and for a path without one. *)
Definition internal_error : string := quotes "{'message':'Internal Server Error'}".
Definition no_route : string := quotes "{'message':'Not Found'}".

Definition serve_headscale (c path body : string) : go execE (Z * string) :=
  match hs_route_of path with
  | None => mret (StatusNotFound, no_route)
  | Some r =>
      check text := (match r with
                     | RCreateUser => handleCreateUser c body
                     | RPreAuthKey u => createReusablePreAuthKey c u
                     | REnableRoute i => handleEnableRoute c i
                     end) onerr _e => mret (StatusInternalServerError, internal_error) in
      mret (StatusOK, text)
  end.

(** ** main.go: the access rules *)

Definition newline_ : string := String line_end "".

Definition acl_lines (before : list string) (each : string -> list string) (cidrs : list string) : list string :=
  before ++ concat (map each cidrs).

(** The template defaultACLs; its actions take the space before them away. *)
Definition acls_text (cidrs : list string) : string :=
  quotes (Join (acl_lines [""; "{"; "  'autoApprovers': {"; "    'routes': {"] (fun c => ["      '" +:+ c +:+ "': ['*'],"]) cidrs ++
    acl_lines ["    },"; "  },"; "  'acls': ["]
      (fun c => ["    { // Everyone has passthough access to private-network-proxy node"; "      'action': 'accept',"; "      'src': ['*'],";
                 "      'dst': ['" +:+ c +:+ ":*', 'private-network-proxy:0'],"; "    },"]) cidrs ++
    ["  ],"; "}"; ""]) newline_).

Definition updateACLs (cidrs : list string) (aclsPath : string) : go execE unit :=
  _ ← call (CreateFile aclsPath); call (WriteFile aclsPath (acls_text cidrs)).

(** [cidr.String()] of a network that ParseCIDR made. *)
Fixpoint mask_ones (m : bytes) : nat :=
  match m with [] => 0 | b :: m' => (if (b =? 255)%Z then 8 else Z.to_nat (8 - Z.log2_up (256 - b))) + mask_ones m' end.

Definition net_string (n : IPNet) : string := dotted (netIP n) +:+ "/" +:+ itoa_nat (mask_ones (netMask n)).

Fixpoint subnets (l : list string) : outcome (list string) :=
  match l with
  | [] => Ok []
  | ips :: l' =>
      match ParseCIDR ips with
      | Ok (_, cidr) => rest ← subnets l'; Ok (net_string cidr :: rest)
      | Err e => Panic (emsg e)
      | Panic w => Panic w
      | Diverge => Diverge
      end
  end.

(** main, up to the start of the server; the error of updateACLs is dropped. *)
Definition start_headscale (ipSubnet acls config : string) : go execE string :=
  cidrs ← lift (subnets (Split ipSubnet ","%char));
  check _u := updateACLs cidrs acls onerr _e => mret (newClient config) in
  mret (newClient config).

(** ** controllers/headscaleuser_controller.go *)

Record PreAuthKey := MkPreAuthKey { Enabled : bool; SecretName : string }.

Record HeadscaleUser := MkHeadscaleUser {
  HeadscaleAddress : string;
  Name : string;
  preAuthKey : PreAuthKey;
  Ready : bool;
}.

Definition set_ready (b : bool) (r : HeadscaleUser) : HeadscaleUser :=
  MkHeadscaleUser (HeadscaleAddress r) (Name r) (preAuthKey r) b.

Record auth_secret := MkAuthSecret { sNamespace : string; sName : string; authkey : string }.

Definition secret_key (s : auth_secret) : object_key := (sNamespace s, sName s).

Inductive headE : Type -> Type :=
  | InCluster {X} (e : clusterE HeadscaleUser bool auth_secret X) : headE X
  | PostText (base path body : string) : headE (outcome (Z * outcome string)).

Section Controller.
(** url.Parse, as the address without its path. *)
Context (url_Parse : string -> outcome string).

Definition create_user_body (name : string) : string :=
  Sprintf (quotes (Join [""; "{"; "    'name': '%s'"; "}"] newline_)) [name].

Definition CreateUser (base name : string) : go headE unit :=
  resp ← call (PostText base "/user" (create_user_body name));
  if negb (resp.1 =? StatusOK)%Z then fail (errorf "Could not create user") else mret tt.

Definition CreateReusablePreAuthKey (base user : string) : go headE string :=
  resp ← call (PostText base (Sprintf "/user/%s/preauthkey" [user]) "");
  if negb (resp.1 =? StatusOK)%Z then fail (errorf "Could not create pre-authenticated key") else lift resp.2.

Definition Reconcile (key : object_key) : go headE unit :=
  resource ← call (InCluster (GetResource key));
  if Ready resource then mret tt
  else
    baseAddr ← lift (url_Parse (HeadscaleAddress resource));
    _ ← CreateUser baseAddr (Name resource);
    _ ← (if Enabled (preAuthKey resource) then
           k ← CreateReusablePreAuthKey baseAddr (Name resource);
           call (InCluster (CreateObject (MkAuthSecret key.1 (SecretName (preAuthKey resource)) (TrimSpace k))))
         else mret tt);
    call (InCluster (UpdateStatus key true)).
End Controller.
