(* ===== verification/HeadscaleTheorems.v ===== *)
(** * Theorems on the users of the private network

    The controller's requests run the handlers of the service, which run a
    headscale command that behaves as documented. *)
From S2P Require Import Prelude GoLib GoStrings GoJson Resources Headscale.
From Stdlib Require Import Ascii.
Open Scope string_scope.
Open Scope list_scope.

(** ** The last line *)

Lemma last_line_spec l t :
  last_line l = Ok t <->
  t <> "" /\ exists pre line post, reverse l = pre ++ line :: post /\ t = TrimSpace line /\ Forall (fun l => TrimSpace l = "") post.
Proof.
  induction l as [|x l IH]; cbn [last_line].
  - split; [done|]. intros (_ & pre & line & post & He & _). cbn in He. by destruct pre.
  - rewrite reverse_cons. destruct (String.eqb_spec (TrimSpace x) "") as [Hx|Hx]; cbn [negb].
    + rewrite IH. split; intros (Ht & pre & line & post & He & -> & Hp); (split; [done|]).
      * exists pre, line, (post ++ [x]). rewrite He. split; [by rewrite <- (assoc_L (++)), <- app_comm_cons|].
        split; [done|]. apply Forall_app. split; [done|]. by apply Forall_singleton.
      * destruct (exists_last (l := line :: post)) as (front & y & Hf); [done|].
        rewrite Hf, (assoc_L (++)) in He. apply app_inj_2 in He as [He Hy]; [|done]. injection Hy as <-.
        destruct front as [|z front]; [by injection Hf as ->|]. injection Hf as -> ->.
        exists pre, z, front. split; [done|]. split; [done|]. by apply Forall_app in Hp as [Hp _].
    + split.
      * intros [= <-]. split; [done|]. by exists (reverse l), x, [].
      * intros (Ht & pre & line & post & He & -> & Hp). destruct (exists_last (l := line :: post)) as (front & y & Hf); [done|].
        rewrite Hf, (assoc_L (++)) in He. apply app_inj_2 in He as [_ [= <-]]; [|done].
        destruct front as [|z front]; [by injection Hf as -> ->|]. injection Hf as -> ->.
        apply Forall_app in Hp as [_ Hp]. by rewrite Forall_singleton in Hp.
Qed.

(** The last line that is not blank, without the space around it. *)
Lemma extractLastLine_spec s t :
  extractLastLine s = Ok t <->
  t <> "" /\ exists pre line post, Split s line_end = pre ++ line :: post /\ t = TrimSpace line /\ Forall (fun l => TrimSpace l = "") post.
Proof.
  unfold extractLastLine. rewrite last_line_spec. by setoid_rewrite reverse_involutive.
Qed.

Lemma last_line_trimmed s t : extractLastLine s = Ok t -> TrimSpace t = t.
Proof. intros (_ & _ & line & _ & _ & -> & _)%extractLastLine_spec. apply TrimSpace_idem. Qed.

(** ** The request for a user *)

Definition body_before : string := quotes (Join [""; "{"; "    'name': '"] newline_).
Definition body_after : string := newline_ +:+ "}".

Lemma create_user_body_eq name : create_user_body name = body_before +:+ name +:+ String quote body_after.
Proof. reflexivity. Qed.

Lemma scan_before : scan (InWord "") body_before = Ok ([TOpen; TStr "name"; TColon], InString "").
Proof. reflexivity. Qed.

(** A plain name arrives. *)
Lemma decode_create_user name : plain name ->
  (v ← Decode (create_user_body name); json_field "name" json_string "" v) = Ok name.
Proof.
  intros Hname. unfold Decode. rewrite create_user_body_eq.
  assert (Hv : forall post ts, scan (InWord "") post = Ok (ts, InWord "") ->
    parse_json (body_before +:+ name +:+ String quote post) = parse_tokens [] (Value false) ([TOpen; TStr "name"; TColon] ++ TStr name :: ts)).
  { intros post ts Hpost. apply parse_json_scan. rewrite (scan_hole _ _ _ _ scan_before Hname), Hpost. reflexivity. }
  change body_before with (quotes (Join [""; "{"; "    'name': "] newline_) +:+ String quote "") at 1.
  rewrite <- str_app_assoc, str_app_cons, str_app_l_nil, Decode_skip by (vm_compute; reflexivity). rewrite str_app_l_nil.
  fold body_before. change (quotes _ +:+ String quote "") with body_before.
  rewrite Decode_skip by exact (in_string_no_value _ _ _ _ scan_before Hname).
  unfold body_after. change (newline_ +:+ "}") with (newline_ +:+ String "}"%char "").
  rewrite Decode_skip.
  2: { unfold newline_. cbn [no_value]. rewrite (Hv "" []) by reflexivity.
       rewrite <- !str_app_assoc, str_app_cons, str_app_l_nil. rewrite (Hv (String line_end "") []) by reflexivity. reflexivity. }
  rewrite (Decode_done _ _ (JObj [("name", JStr name)])); [reflexivity|].
  rewrite <- !str_app_assoc, str_app_cons, str_app_l_nil. by rewrite (Hv _ [TClose]).
Qed.

(** ** The headscale command, as documented *)

Record headscale_cmd (S : Type) := MkHsCmd {
  hs_exec : list string -> S -> S * outcome string;
  hs_user : S -> string -> Prop;
}.
Arguments hs_exec {S} _ _ _.
Arguments hs_user {S} _ _ _.

(** The commands the service runs. *)
Inductive api_command (c : string) : list string -> Prop :=
  | CmdCreate name : api_command c ["headscale"; c; "users"; "create"; name]
  | CmdKey user : api_command c ["headscale"; c; "--user"; user; "preauthkeys"; "create"; "--reusable"; "--expiration"; "365d"]
  | CmdEnable id : api_command c ["headscale"; c; "routes"; "enable"; "-r"; id].

Section World.
Context {S : Type} (cmd : headscale_cmd S).
Context (config addr : string) (url_Parse : string -> outcome string).

(** None of the commands takes a user away, and a name can be used once. *)
Definition users_stay : Prop := forall args st u,
  api_command config args -> hs_user cmd st u -> hs_user cmd (hs_exec cmd args st).1 u.
Definition names_unique : Prop := forall name st,
  hs_user cmd st name -> exists e, (hs_exec cmd ["headscale"; config; "users"; "create"; name] st).2 = Err e.

Definition exec_step : handler execE S := fun X e st =>
  match e in execE X return S * X with
  | Output args => hs_exec cmd args st
  | CreateFile _ | WriteFile _ _ => (st, Ok tt)
  end.

Record hs_world := MkHsWorld { hw_cluster : cluster HeadscaleUser auth_secret; hw_state : S }.

Definition on_cluster {X} (w : hs_world) (r : cluster HeadscaleUser auth_secret * X) : hs_world * X :=
  (MkHsWorld r.1 (hw_state w), r.2).

(** The service answers at [addr], nothing else does. *)
Definition head_step : handler headE hs_world := fun X e w =>
  match e in headE X return hs_world * X with
  | InCluster e => on_cluster w (cluster_step set_ready secret_key _ e (hw_cluster w))
  | PostText base path body =>
      if String.eqb base addr then
        let '(st, r) := run exec_step (serve_headscale config path body) (hw_state w) in
        (MkHsWorld (hw_cluster w) st, match r with
                                      | Ok (status, text) => Ok (status, Ok text)
                                      | Err e => Err e
                                      | Panic w => Err (errorf "EOF")
                                      | Diverge => Diverge
                                      end)
      else (w, Err (errorf "no such host"))
  end.

Abbreviation step := head_step.
Abbreviation reconcile := (Reconcile url_Parse).

Definition runs_api (X : Type) (e : execE X) : Prop :=
  match e with Output args => api_command config args | _ => True end.

Lemma calls_createUser name : calls runs_api (createUser config name).
Proof. unfold createUser. solve_calls. apply CmdCreate. Qed.

Lemma calls_serve path body :
  calls runs_api (serve_headscale config path body).
Proof.
  unfold serve_headscale. destruct (hs_route_of path) as [[|u|i]|]; [..|done]; apply calls_handle; try done.
  - unfold handleCreateUser. apply calls_mbind; [done|]. intros n. apply calls_mbind; [apply calls_createUser|done].
  - unfold createReusablePreAuthKey, createPreAuthKey. solve_calls. apply CmdKey.
  - unfold handleEnableRoute, enableRoute. solve_calls. apply CmdEnable.
Qed.

(** A request to the service keeps the users. *)
Lemma post_keeps_users base path body w u : users_stay ->
  hs_user cmd (hw_state w) u -> hs_user cmd (hw_state (step _ (PostText base path body) w).1) u.
Proof.
  intros Hstay Hu. cbn [head_step]. destruct (String.eqb base addr); [|done].
  pose proof (run_calls_inv exec_step runs_api (fun st => hs_user cmd st u) (serve_headscale config path body)) as Hinv.
  specialize (Hinv ltac:(intros X [args|p|p t] st He Hst; cbn [exec_step fst]; [by apply Hstay|done..])).
  specialize (Hinv (calls_serve path body) (hw_state w) Hu).
  by destruct (run exec_step (serve_headscale config path body) (hw_state w)) as [st r].
Qed.

(** A name that is taken is refused. *)
Lemma taken_name_refused name w : names_unique -> plain name -> hs_user cmd (hw_state w) name ->
  forall base, exists e, (run step (CreateUser base name) w).2 = Err e.
Proof.
  intros Huniq Hplain Hu base. unfold CreateUser. rewrite run_mbind, run_call. cbn [head_step].
  destruct (String.eqb base addr); [|by eexists]. unfold serve_headscale. cbn [hs_route_of Split Ascii.eqb Bool.eqb].
  change (hs_route_of "/user") with (Some RCreateUser). cbn iota. rewrite run_handle. unfold handleCreateUser. rewrite run_mbind. cbn [run lift].
  rewrite decode_create_user by done. unfold createUser. rewrite !run_mbind, run_call. cbn [exec_step].
  destruct (Huniq name (hw_state w) Hu) as [e He]. destruct (hs_exec cmd _ _) as [st r]. cbn [snd] in He. subst r.
  cbn [run mret go_ret fst snd Z.eqb StatusOK StatusInternalServerError negb Pos.eqb]; by eexists.
Qed.

(** A resource that is not ready, with a name the service has a user of. *)
Definition half_made (key : object_key) (r : HeadscaleUser) (w : hs_world) : Prop :=
  resources (hw_cluster w) !! key = Some r /\ hs_user cmd (hw_state w) (Name r).

Definition spares (key : object_key) (X : Type) (e : headE X) : Prop :=
  match e with InCluster (UpdateStatus key' _) => key' <> key | _ => True end.

Lemma step_half_made key r X (e : headE X) w : users_stay -> spares key X e -> half_made key r w -> half_made key r (step _ e w).1.
Proof.
  intros Hstay He [Hr Hu]. destruct e as [X e|base path body].
  - cbn [head_step on_cluster fst hw_cluster hw_state]. split; [|done]. cbn [hw_cluster]. destruct e as [k|k st|o].
    + pose proof (read_resource set_ready secret_key k (hw_cluster w)) as H.
      destruct (cluster_step _ _ _ _ _) as [c' x]. destruct H as (H & _). cbn [fst]. by rewrite H.
    + pose proof (update_status set_ready secret_key k st (hw_cluster w)) as H.
      destruct (cluster_step _ _ _ _ _) as [c' x]. destruct H as (_ & H & _). cbn [fst spares] in *. by rewrite H by congruence.
    + pose proof (create_object set_ready secret_key o (hw_cluster w)) as H.
      destruct (cluster_step _ _ _ _ _) as [c' x]. destruct H as (H & _). cbn [fst]. by rewrite H.
  - split; [|by apply post_keeps_users]. cbn [head_step]. destruct (String.eqb base addr); [|done]. by destruct (run exec_step _ _).
Qed.

Lemma calls_create_user key base name : calls (spares key) (CreateUser base name).
Proof. unfold CreateUser. by solve_calls. Qed.

Lemma calls_reconcile key k : k <> key -> calls (spares key) (reconcile k).
Proof.
  intros Hk. unfold Reconcile. apply calls_mbind; [done|]. intros r. destruct (Ready r); [done|].
  apply calls_mbind; [done|]. intros base. apply calls_mbind; [apply calls_create_user|]. intros u.
  apply calls_mbind; [|done]. destruct (Enabled _); [|done]. apply calls_mbind; [by unfold CreateReusablePreAuthKey; solve_calls|done].
Qed.

(** The resource itself is reconciled: the user is refused. *)
Lemma reconcile_half_made key r w : users_stay -> names_unique -> plain (Name r) -> Ready r = false -> half_made key r w ->
  half_made key r (run step (reconcile key) w).1 /\ (run step (reconcile key) w).2 <> Ok tt.
Proof.
  intros Hstay Huniq Hplain Hready Hw. unfold Reconcile. rewrite run_mbind, run_call.
  pose proof (step_half_made key r _ (InCluster (GetResource key)) w Hstay I Hw) as Hw1.
  pose proof (read_resource set_ready secret_key key (hw_cluster w)) as Hread. revert Hw1. cbn [head_step on_cluster].
  destruct (cluster_step _ _ _ _ _) as [c x]. cbn [fst snd]. destruct Hread as (_ & _ & Hx). intros Hw1.
  destruct x as [v|e| |]; [|done..].
  assert (v = r) as -> by (destruct Hw; congruence). rewrite Hready, run_mbind. cbn [run lift].
  destruct (url_Parse (HeadscaleAddress r)) as [base|e| |]; [|done..]. rewrite run_mbind.
  pose proof (run_calls_inv step (spares key) (half_made key r) (CreateUser base (Name r))) as Hinv.
  specialize (Hinv ltac:(intros X e s; by apply step_half_made) (calls_create_user key base (Name r)) _ Hw1).
  destruct (taken_name_refused (Name r) (MkHsWorld c (hw_state w)) Huniq Hplain (proj2 Hw1) base) as [e He].
  destruct (run step (CreateUser base (Name r)) _) as [w2 x]. cbn [fst snd] in *. by subst x.
Qed.

(** A user that was made stays a pending resource for ever: once headscale has
    a user of the name of a resource that is not ready - because the key, the
    secret or the status failed after the user was made - every later
    reconciliation asks for the user again and is refused, whatever is
    reconciled in between and whatever faults come. *)
Theorem half_made_user_stuck (w : hs_world) (key : object_key) (r : HeadscaleUser) (requests : list object_key)
    (Hstay : users_stay) (Huniq : names_unique) (Hplain : plain (Name r))
    (Hr : resources (hw_cluster w) !! key = Some r) (Hready : Ready r = false) (Huser : hs_user cmd (hw_state w) (Name r)) :
  let w' := foldl (fun w k => (run step (reconcile k) w).1) w requests in
  resources (hw_cluster w') !! key = Some r /\ (run step (reconcile key) w').2 <> Ok tt.
Proof.
  assert (H : half_made key r (foldl (fun w k => (run step (reconcile k) w).1) w requests)).
  { assert (Hw : half_made key r w) by done. clear Hr Huser. revert w Hw.
    induction requests as [|k l IH]; intros w Hw; [done|]. cbn [foldl]. apply IH. destruct (decide (k = key)) as [->|Hk].
    - by apply reconcile_half_made.
    - apply (run_calls_inv step (spares key) (half_made key r)); [|by apply calls_reconcile|done].
      intros X e s. by apply step_half_made. }
  split; [apply H|]. by apply (reconcile_half_made key r).
Qed.

(** ** A reconciliation that works *)

(** Headscale, as it is now, takes the name for a new user. *)
Definition user_created (name : string) (st st' : S) : Prop :=
  exists out, hs_exec cmd ["headscale"; config; "users"; "create"; name] st = (st', Ok out).

(** Headscale, as it is now, makes the key [k] for the user and prints it last. *)
Definition key_created (user k : string) (st st' : S) : Prop :=
  exists out, hs_exec cmd ["headscale"; config; "--user"; user; "preauthkeys"; "create"; "--reusable"; "--expiration"; "365d"] st = (st', Ok out) /\
    extractLastLine out = Ok k.

Lemma run_create_new name w st : plain name -> user_created name (hw_state w) st ->
  run step (CreateUser addr name) w = (MkHsWorld (hw_cluster w) st, Ok tt).
Proof.
  intros Hplain (out & He). unfold CreateUser. rewrite run_mbind, run_call. cbn [head_step]. rewrite String.eqb_refl. unfold serve_headscale.
  change (hs_route_of "/user") with (Some RCreateUser). cbn iota. rewrite run_handle. unfold handleCreateUser. rewrite run_mbind. cbn [run lift].
  rewrite decode_create_user by done. unfold createUser. by rewrite !run_mbind, run_call; cbn [exec_step]; rewrite He.
Qed.

Lemma run_key user k w st : no_char "/"%char user -> key_created user k (hw_state w) st ->
  run step (CreateReusablePreAuthKey addr user) w = (MkHsWorld (hw_cluster w) st, Ok k).
Proof.
  intros Hn (out & He & Hk). unfold CreateReusablePreAuthKey. rewrite run_mbind, run_call. cbn [head_step]. rewrite String.eqb_refl.
  change (Sprintf "/user/%s/preauthkey" [user]) with (String "/" ("user" +:+ String "/" (user +:+ "/preauthkey"))).
  unfold serve_headscale, hs_route_of.
  change (Split (String "/" ("user" +:+ String "/" (user +:+ "/preauthkey"))) "/"%char) with ("" :: "user" :: Split (user +:+ String "/" "preauthkey") "/"%char).
  rewrite Split_app by done. change (Split "preauthkey" "/"%char) with ["preauthkey"]. cbn iota.
  rewrite run_handle. unfold createReusablePreAuthKey, createPreAuthKey. rewrite run_mbind, run_call. cbn [exec_step]. rewrite He. cbn [run lift].
  by rewrite Hk.
Qed.

(** C35. A new user gets what the resource asks for: where headscale takes the
    name of the resource (which has nothing JSON escapes and no slash) for a new
    user, and then, if the resource asks for one, makes a key, and the cluster
    refuses nothing, a reconciliation runs headscale once for the user and once for
    the key, stores the key - the last line headscale prints, without the space
    around it - in the secret the resource names, in the namespace of the resource,
    and marks the resource ready; a second reconciliation runs nothing and changes
    nothing. *)
Theorem user_provisioned (w : hs_world) (key : object_key) (r : HeadscaleUser) (k : string)
    (st1 st2 : S) (Hplain : plain (Name r)) (Hsegment : no_char "/"%char (Name r))
    (Hr : resources (hw_cluster w) !! key = Some r) (Hready : Ready r = false) (Hfaults : faults (hw_cluster w) = [])
    (Haddr : url_Parse (HeadscaleAddress r) = Ok addr) (Hcreated : user_created (Name r) (hw_state w) st1)
    (Hkey : if Enabled (preAuthKey r) then key_created (Name r) k st1 st2 else st2 = st1)
    (Hfree : objects (hw_cluster w) !! (key.1, SecretName (preAuthKey r)) = None) :
  let secret := MkAuthSecret key.1 (SecretName (preAuthKey r)) k in
  let made := if Enabled (preAuthKey r) then <[secret_key secret := secret]> (objects (hw_cluster w)) else objects (hw_cluster w) in
  let w' := MkHsWorld (MkCluster (<[key := set_ready true r]> (resources (hw_cluster w))) made []) st2 in
  run step (reconcile key) w = (w', Ok tt) /\ run step (reconcile key) w' = (w', Ok tt).
Proof.
  intros secret made w'.
  assert (Hagain : run step (reconcile key) w' = (w', Ok tt)).
  { unfold Reconcile. rewrite run_mbind, run_call. cbn [head_step w' hw_cluster].
    by rewrite (read_works set_ready secret_key key _ (set_ready true r)) by (cbn [resources]; by rewrite ?lookup_insert_eq). }
  split; [|done]. unfold Reconcile. pose proof (run_create_new (Name r) w st1 Hplain Hcreated) as Hst.
  assert (Hend : forall st c, faults c = [] -> resources c = resources (hw_cluster w) -> objects c = made ->
    run step (call (InCluster (UpdateStatus key true))) (MkHsWorld c st) =
      (MkHsWorld (MkCluster (<[key := set_ready true r]> (resources (hw_cluster w))) made []) st, Ok tt)).
  { intros st0 c Hf Hres Hobj. rewrite run_call. cbn [head_step hw_cluster].
    rewrite (update_works set_ready secret_key key true c r) by congruence. unfold on_cluster. cbn [fst snd hw_state]. by rewrite Hres, Hobj. }
  assert (Hread : run step (call (InCluster (GetResource key))) w = (w, Ok r)).
  { rewrite run_call. cbn [head_step]. rewrite (read_works set_ready secret_key key _ r) by done. by destruct w. }
  rewrite run_mbind, Hread, Hready, run_mbind. cbn [run lift]. rewrite Haddr, run_mbind, Hst, run_mbind.
  unfold w', made in *. destruct (Enabled (preAuthKey r)).
  - rewrite run_mbind, (run_key (Name r) k (MkHsWorld (hw_cluster w) st1) st2 Hsegment Hkey), run_call. cbn [head_step hw_cluster].
    destruct Hkey as (out & _ & Hout). rewrite (last_line_trimmed out k Hout).
    rewrite (create_works set_ready secret_key) by done. cbn [on_cluster fst snd]. by apply Hend.
  - cbn [run mret go_ret]. subst st2. by apply Hend.
Qed.
End World.

(** ** The theorems at concrete inputs *)

(** Its users and how many keys it has made: every key is another one, and names
    with capitals are refused. *)
Definition demo_cmd : headscale_cmd (list string * nat) := {|
  hs_exec args st :=
    match args with
    | ["headscale"; _; "users"; "create"; name] =>
        if existsb (String.eqb name) st.1 || negb (String.eqb (ToLower name) name) then (st, Err (errorf "exit status 1"))
        else ((name :: st.1, st.2), Ok "User created")
    | ["headscale"; _; "--user"; user; "preauthkeys"; "create"; "--reusable"; "--expiration"; "365d"] =>
        if existsb (String.eqb user) st.1
        then ((st.1, Nat.succ st.2), Ok ("An updated version has been found" +:+ newline_ +:+ "4f1c" +:+ Itoa (Z.of_nat st.2) +:+ " " +:+ newline_))
        else (st, Err (errorf "exit status 1"))
    | _ => (st, Ok "")
    end;
  hs_user st name := existsb (String.eqb name) st.1 = true |}.

Lemma demo_stay c : users_stay demo_cmd c.
Proof.
  intros args st u Hc Hu. destruct Hc; cbn [hs_exec demo_cmd].
  - destruct (existsb (String.eqb name) st.1 || _); [done|]. cbn [fst hs_user demo_cmd existsb] in *. by rewrite Hu, orb_true_r.
  - by destruct (existsb (String.eqb user) st.1).
  - done.
Qed.

Lemma demo_unique c : names_unique demo_cmd c.
Proof. intros name st Hu. cbn [hs_exec demo_cmd hs_user] in *. rewrite Hu. by eexists. Qed.

Definition demo_user : HeadscaleUser := MkHeadscaleUser "http://headscale-api.app-headscale" "gio" (MkPreAuthKey true "gio-key") false.

Definition demo_net (fs : list fault) (st : list string * nat) : hs_world :=
  MkHsWorld (MkCluster {[("env", "gio") := demo_user]} ∅ fs) st.

(** The status could not be written: the user is left half made. *)
Definition demo_half : hs_world :=
  (run (head_step demo_cmd "--config=c" "http://headscale-api.app-headscale") (Reconcile Ok ("env", "gio"))
    (demo_net [Works; Works; Refused (errorf "conflict")] ([], 0))).1.

Lemma half_made_user_stuck_witness :
  let w' := foldl (fun w k => (run (head_step demo_cmd "--config=c" "http://headscale-api.app-headscale") (Reconcile Ok k) w).1) demo_half
    [("env", "gio"); ("env", "nina"); ("env", "gio")] in
  resources (hw_cluster w') !! ("env", "gio") = Some demo_user /\
  (run (head_step demo_cmd "--config=c" "http://headscale-api.app-headscale") (Reconcile Ok ("env", "gio")) w').2 <> Ok tt.
Proof.
  apply (half_made_user_stuck demo_cmd "--config=c" "http://headscale-api.app-headscale" Ok demo_half ("env", "gio") demo_user
    [("env", "gio"); ("env", "nina"); ("env", "gio")] (demo_stay _) (demo_unique _)).
  - reflexivity.
  - vm_compute. reflexivity.
  - reflexivity.
  - vm_compute. reflexivity.
Defined.

Lemma user_provisioned_witness :
  let w' := MkHsWorld (MkCluster {[("env", "gio") := set_ready true demo_user]} {[("env", "gio-key") := MkAuthSecret "env" "gio-key" "4f1c7"]} []) (["gio"; "nina"], 8) in
  run (head_step demo_cmd "--config=c" "http://headscale-api.app-headscale") (Reconcile Ok ("env", "gio")) (demo_net [] (["nina"], 7)) = (w', Ok tt) /\
  run (head_step demo_cmd "--config=c" "http://headscale-api.app-headscale") (Reconcile Ok ("env", "gio")) w' = (w', Ok tt).
Proof.
  refine (user_provisioned demo_cmd "--config=c" "http://headscale-api.app-headscale" Ok (demo_net [] (["nina"], 7)) ("env", "gio") demo_user "4f1c7"
    (["gio"; "nina"], 7) (["gio"; "nina"], 8) _ _ _ _ _ _ _ _ _); try reflexivity.
  - by eexists.
  - eexists. by split.
Defined.
