(* ===== verification/GoPath.v ===== *)
(** * Package path/filepath on slash-separated paths *)
From S2P Require Import Prelude GoLib GoStrings.
From Stdlib Require Import Ascii.
Open Scope string_scope.
Open Scope list_scope.

Definition slash : ascii := "/"%char.

(** One element of a path against the reversed elements kept so far. *)
Definition clean_step (rooted : bool) (out : list string) (seg : string) : list string :=
  if String.eqb seg "" || String.eqb seg "." then out
  else if String.eqb seg ".." then
    match out with
    | x :: out' => if String.eqb x ".." then ".." :: out else out'
    | [] => if rooted then [] else [".."]
    end
  else seg :: out.

Definition clean_segs (rooted : bool) (segs : list string) : list string :=
  rev (foldl (clean_step rooted) [] segs).

Definition IsAbs (p : string) : bool := HasPrefix p "/".

Definition Clean (p : string) : string :=
  let segs := clean_segs (IsAbs p) (Split p slash) in
  if IsAbs p then "/" +:+ Join segs "/"
  else match segs with [] => "." | _ => Join segs "/" end.

(** [filepath.Join]: empty elements are dropped. *)
Definition JoinPath (elems : list string) : string :=
  match filter (fun e => e <> "") elems with
  | [] => ""
  | l => Clean (Join l "/")
  end.

(** The text up to and including the last slash, and the rest. *)
Fixpoint split_last (s : string) : string * string :=
  match s with
  | "" => ("", "")
  | String c s' =>
      let '(d, f) := split_last s' in
      if String.eqb d "" then
        if Ascii.eqb c slash then (String c "", f) else ("", String c f)
      else (String c d, f)
  end.

Definition Dir (p : string) : string := Clean (split_last p).1.

Fixpoint trim_right_slashes (s : string) : string :=
  match s with
  | "" => ""
  | String c s' =>
      match trim_right_slashes s' with
      | "" => if Ascii.eqb c slash then "" else String c ""
      | t => String c t
      end
  end.

Definition Base (p : string) : string :=
  if String.eqb p "" then "."
  else
    let p := trim_right_slashes p in
    if String.eqb p "" then "/" else (split_last p).2.

(** Shapes checked against Go. *)
Example clean_examples :
  map Clean ["/a/../b//c/."; "a/../.."; ""; "/.."; "a//b/"] = ["/b/c"; ".."; "."; "/"; "a/b"].
Proof. reflexivity. Qed.

Example dir_examples : map Dir ["/a/b"; "/a"; "/"; "a"; "a/b"; "."] = ["/a"; "/"; "/"; "."; "a"; "."].
Proof. reflexivity. Qed.

Example base_examples : map Base ["/a/b"; "/"; "a/"; ""] = ["b"; "/"; "a"; "."].
Proof. reflexivity. Qed.

Example join_examples : JoinPath ["/"; "apps"; ""; "x"] = "/apps/x" /\ JoinPath ["a"; "../b"] = "b".
Proof. split; reflexivity. Qed.

(** ** Clean absolute paths

    A path is the list of its names; [abs_path] prints it. *)

Definition seg_ok (s : string) : Prop := no_char slash s /\ s <> "" /\ s <> "." /\ s <> "..".

Definition abs_path (segs : list string) : string := "/" +:+ Join segs "/".

Lemma Split_sep a b c : Split (a +:+ String c b) c = Split a c ++ Split b c.
Proof.
  induction a as [|d a IH].
  - rewrite str_app_l_nil. cbn. by rewrite Ascii.eqb_refl.
  - rewrite str_app_cons. cbn [Split]. rewrite IH. destruct (Ascii.eqb d c); [done|].
    pose proof (Split_nonempty a c). by destruct (Split a c).
Qed.

Lemma Split_Join segs : segs <> [] -> Forall (no_char slash) segs -> Split (Join segs "/") slash = segs.
Proof.
  induction segs as [|x segs IH]; [done|]. intros _ [Hx Hs]%Forall_cons.
  destruct segs as [|y segs]; [by apply Split_none|].
  rewrite Join_cons by done. change ("/" +:+ Join (y :: segs) "/") with (String slash (Join (y :: segs) "/")).
  rewrite Split_app by done. by rewrite IH.
Qed.

Lemma clean_foldl r l out :
  Forall (fun s => s = "" \/ seg_ok s) l ->
  foldl (clean_step r) out l = rev (filter (fun s => s <> "") l) ++ out.
Proof.
  revert out. induction l as [|s l IH]; intros out; [done|]. intros [Hs Hl]%Forall_cons.
  cbn [foldl]. rewrite IH by done. destruct Hs as [->|(_ & He & Hd & Hdd)].
  - by rewrite filter_cons_False by naive_solver.
  - rewrite filter_cons_True by done. unfold clean_step.
    apply String.eqb_neq in He as ->. apply String.eqb_neq in Hd as ->. apply String.eqb_neq in Hdd as ->.
    cbn [orb rev]. by rewrite <- (assoc_L (++)).
Qed.

Lemma Clean_abs p l :
  Split p slash = "" :: l -> l <> [] -> Forall (fun s => s = "" \/ seg_ok s) l ->
  Clean p = abs_path (filter (fun s => s <> "") l).
Proof.
  intros Hp Hne Hl.
  assert (Ha : IsAbs p = true).
  { destruct p as [|c p]; [cbn in Hp; congruence|]. cbn [Split] in Hp. unfold IsAbs.
    destruct (Ascii.eqb_spec c slash) as [->|]; [by destruct p|]. by destruct (Split p slash). }
  unfold Clean. rewrite Ha, Hp. unfold clean_segs. rewrite clean_foldl by (constructor; auto).
  rewrite filter_cons_False by naive_solver. rewrite (right_id_L [] (++)). by rewrite rev_involutive.
Qed.

Lemma Split_abs segs : Forall seg_ok segs -> segs <> [] -> Split (abs_path segs) slash = "" :: segs.
Proof.
  intros Hs Hne. unfold abs_path. change ("/" +:+ Join segs "/") with (String slash (Join segs "/")).
  cbn [Split]. rewrite Ascii.eqb_refl. f_equal. apply Split_Join; [done|].
  eapply Forall_impl; [exact Hs|]. by intros s [? _].
Qed.

Lemma Split_abs' segs : Forall seg_ok segs -> exists l, Split (abs_path segs) slash = "" :: l /\ l <> [] /\
  filter (fun s => s <> "") l = segs /\ Forall (fun s => s = "" \/ seg_ok s) l.
Proof.
  intros Hs. assert (Hor : Forall (fun s => s = "" \/ seg_ok s) segs)
    by (eapply Forall_impl; [exact Hs|]; auto).
  destruct (decide (segs = [])) as [->|Hne].
  - exists [""]. split_and!; [done|done|done|]. repeat constructor; auto.
  - exists segs. split; [by apply Split_abs|]. split; [done|]. split; [|done].
    apply filter_all. intros s Hin. rewrite Forall_forall in Hs. by apply Hs in Hin as (_ & ? & _).
Qed.

Lemma Clean_abs_path segs : Forall seg_ok segs -> Clean (abs_path segs) = abs_path segs.
Proof.
  intros (l & Hl & Hln & Hf & Hor)%Split_abs'. rewrite (Clean_abs _ l Hl Hln Hor). by rewrite Hf.
Qed.

Lemma filter_ne_ok segs : Forall seg_ok segs -> filter (fun s : string => s <> "") segs = segs.
Proof.
  intros Hs. apply filter_all. intros s Hin. rewrite Forall_forall in Hs. by apply Hs in Hin as (_ & ? & _).
Qed.

Lemma Clean_abs_slash segs : Forall seg_ok segs -> Clean (abs_path segs +:+ "/") = abs_path segs.
Proof.
  intros Hs. pose proof Hs as (l & Hl & Hln & Hf & Hor)%Split_abs'.
  rewrite (Clean_abs _ (l ++ [""])).
  - rewrite filter_app, Hf. change (filter _ [""]) with (@nil string). by rewrite (right_id_L [] (++)).
  - change (abs_path segs +:+ "/") with (abs_path segs +:+ String slash ""). rewrite Split_sep, Hl. done.
  - by destruct l.
  - apply Forall_app. split; [done|]. repeat constructor; auto.
Qed.

Lemma abs_path_neq segs : Forall seg_ok segs -> segs <> [] -> abs_path segs <> "/".
Proof.
  intros Hs Hne He. pose proof (Split_abs segs Hs Hne) as H. rewrite He in H.
  change (Split "/" slash) with [""; ""] in H. injection H as <-. by inversion Hs as [|? ? (_ & ? & _)].
Qed.

Lemma JoinPath_abs segs x : Forall seg_ok (segs ++ [x]) -> JoinPath [abs_path segs; x] = abs_path (segs ++ [x]).
Proof.
  intros Hs. pose proof Hs as [Hsegs Hx]%Forall_app. apply Forall_cons in Hx as [Hx _].
  unfold JoinPath. rewrite filter_cons_True by (by unfold abs_path; destruct segs).
  rewrite filter_cons_True by apply Hx. cbn [Join].
  pose proof Hsegs as (l & Hl & Hln & Hf & Hor)%Split_abs'.
  change (filter (fun e : string => e <> "") []) with (@nil string).
  rewrite (Clean_abs _ (l ++ [x])).
  - rewrite filter_app, Hf. by rewrite filter_cons_True by apply Hx.
  - change ("/" +:+ x) with (String slash x). rewrite Split_sep, Hl. cbn [app]. f_equal. f_equal.
    apply Split_none, Hx.
  - by destruct l.
  - apply Forall_app. split; [done|]. constructor; [by right|constructor].
Qed.

Lemma split_last_none x : no_char slash x -> split_last x = ("", x).
Proof.
  induction x as [|c x IH]; [done|]. intros [Hc Hx]%no_char_cons. cbn [split_last]. rewrite (IH Hx). cbn.
  by apply Ascii.eqb_neq in Hc as ->.
Qed.

Lemma split_last_app a x : no_char slash x -> split_last (a +:+ String slash x) = (a +:+ "/", x).
Proof.
  intros Hx. induction a as [|c a IH].
  - rewrite !str_app_l_nil. cbn [split_last]. by rewrite split_last_none.
  - rewrite !str_app_cons. cbn [split_last]. rewrite IH.
    assert (String.eqb (a +:+ "/") "" = false) as ->; [|done]. apply String.eqb_neq. by destruct a.
Qed.

Lemma abs_path_snoc segs x : segs <> [] -> abs_path (segs ++ [x]) = abs_path segs +:+ String slash x.
Proof.
  intros Hne. unfold abs_path.
  assert (HJ : Join (segs ++ [x]) "/" = Join segs "/" +:+ String slash x).
  { induction segs as [|s segs IH]; [done|]. destruct segs as [|s' segs]; [done|].
    cbn [app]. rewrite Join_cons by done. cbn [app] in IH. rewrite IH by done.
    rewrite (Join_cons s (s' :: segs)) by done. by rewrite !str_app_assoc. }
  by rewrite HJ, str_app_assoc.
Qed.

(** filepath.Split of a clean absolute path, and what Clean makes of its directory. *)
Lemma split_last_abs segs x :
  Forall seg_ok (segs ++ [x]) ->
  exists parent, split_last (abs_path (segs ++ [x])) = (parent, x) /\ Clean parent = abs_path segs /\
    (segs = [] /\ parent = "/" \/ parent = abs_path segs +:+ "/").
Proof.
  intros [Hs Hx]%Forall_app. apply Forall_cons in Hx as [[Hx _] _].
  destruct (decide (segs = [])) as [->|Hne].
  - exists "/". split; [|split; [reflexivity|by left]].
    change (abs_path ([] ++ [x])) with ("" +:+ String slash x). by rewrite split_last_app.
  - exists (abs_path segs +:+ "/"). split; [|split; [by apply Clean_abs_slash|by right]].
    by rewrite abs_path_snoc, split_last_app.
Qed.

Lemma JoinPath_dir segs x parent :
  Forall seg_ok (segs ++ [x]) -> (segs = [] /\ parent = "/" \/ parent = abs_path segs +:+ "/") ->
  JoinPath [parent; x] = abs_path (segs ++ [x]).
Proof.
  intros Hs [[-> ->]| ->]; [by apply (JoinPath_abs [] x)|].
  pose proof Hs as [Hsegs Hx]%Forall_app. apply Forall_cons in Hx as [Hx _].
  unfold JoinPath. rewrite filter_cons_True by (by unfold abs_path; destruct segs).
  rewrite filter_cons_True by apply Hx. cbn [Join].
  pose proof Hsegs as (l & Hl & Hln & Hf & Hor)%Split_abs'.
  change (filter (fun e : string => e <> "") []) with (@nil string).
  rewrite (Clean_abs _ (l ++ [""; x])).
  - rewrite filter_app, Hf. rewrite filter_cons_False by naive_solver. by rewrite filter_cons_True by apply Hx.
  - rewrite <- str_app_assoc. change ("/" +:+ "/" +:+ x) with (String slash (String slash x)).
    rewrite Split_sep, Hl. cbn [Split]. rewrite Ascii.eqb_refl. cbn [app]. do 3 f_equal.
    apply Split_none, Hx.
  - by destruct l.
  - apply Forall_app. split; [done|]. constructor; [by left|]. constructor; [by right|constructor].
Qed.

Lemma JoinPath_abs2 segs x y :
  Forall seg_ok (segs ++ [x; y]) -> JoinPath [abs_path segs; x; y] = abs_path (segs ++ [x; y]).
Proof.
  intros Hs. pose proof Hs as [Hsegs Hx]%Forall_app. apply Forall_cons in Hx as [Hx Hy].
  apply Forall_cons in Hy as [Hy _].
  unfold JoinPath. rewrite filter_cons_True by (by unfold abs_path; destruct segs).
  rewrite filter_cons_True by apply Hx. rewrite filter_cons_True by apply Hy. cbn [Join].
  pose proof Hsegs as (l & Hl & Hln & Hf & Hor)%Split_abs'.
  change (filter (fun e : string => e <> "") []) with (@nil string).
  rewrite (Clean_abs _ (l ++ [x; y])).
  - rewrite filter_app, Hf. rewrite filter_cons_True by apply Hx. by rewrite filter_cons_True by apply Hy.
  - change ("/" +:+ x +:+ "/" +:+ y) with (String slash (x +:+ String slash y)).
    rewrite Split_sep, Split_app, Hl by apply Hx. cbn [app]. do 3 f_equal.
    apply Split_none, Hy.
  - by destruct l.
  - apply Forall_app. split; [done|]. constructor; [by right|]. constructor; [by right|constructor].
Qed.

Lemma abs_path_inj a b : Forall seg_ok a -> Forall seg_ok b -> abs_path a = abs_path b -> a = b.
Proof.
  intros Ha Hb He. pose proof Ha as (l & Hl & _ & Hf & _)%Split_abs'.
  pose proof Hb as (l' & Hl' & _ & Hf' & _)%Split_abs'. rewrite He, Hl' in Hl. congruence.
Qed.

(** The last name of a path. *)
Lemma last_abs_path segs x : no_char slash x -> last (Split (abs_path (segs ++ [x])) slash) = Some x.
Proof.
  intros Hx. destruct (decide (segs = [])) as [->|Hne].
  - change (abs_path ([] ++ [x])) with ("" +:+ String slash x). by rewrite Split_sep, last_app, Split_none.
  - by rewrite abs_path_snoc, Split_sep, last_app, (Split_none x).
Qed.

Lemma abs_path_last_neq a x b y : no_char slash x -> no_char slash y -> x <> y -> abs_path (a ++ [x]) <> abs_path (b ++ [y]).
Proof.
  intros Hx Hy Hne He. pose proof (last_abs_path a x Hx) as H. rewrite He, last_abs_path in H by done. congruence.
Qed.
