(* ===== verification/MembershipsStore.v ===== *)
(** * Group memberships: the store (core/auth/memberships/main.go)

    The Go interface [Store] as a class of operations, the five SQLite tables
    with the meaning of the SQL statements of the source, and the methods of
    [SQLiteStore] as programs that issue these statements. *)
From S2P Require Import Prelude GoLib.
Open Scope string_scope.
Open Scope list_scope.

Record Group := MkGroup { gName : string; gDescription : string }.

#[export] Instance Group_eq_dec : EqDecision Group.
Proof. solve_decision. Defined.

(** ** The interface the server is written against *)

Class Store (E : Type -> Type) := MkStore {
  Init : string -> list string -> go E unit;
  CreateGroup : string -> Group -> go E unit;
  AddChildGroup : string -> string -> go E unit;
  AddOwnerGroup : string -> string -> go E unit;
  DoesGroupExist : string -> go E bool;
  GetGroupsOwnedBy : string -> go E (list Group);
  GetGroupsUserBelongsTo : string -> go E (list Group);
  IsGroupOwner : string -> string -> go E bool;
  IsMemberOfOwnerGroup : string -> string -> go E bool;
  AddGroupMember : string -> string -> go E unit;
  AddGroupOwner : string -> string -> go E unit;
  GetGroupOwners : string -> go E (list string);
  GetGroupOwnerGroups : string -> go E (list Group);
  GetGroupMembers : string -> go E (list string);
  GetGroupDescription : string -> go E string;
  GetAllTransitiveGroupsForUser : string -> go E (list Group);
  GetGroupsGroupBelongsTo : string -> go E (list Group);
  GetDirectChildrenGroups : string -> go E (list Group);
  GetAllTransitiveGroupsForGroup : string -> go E (list Group);
  RemoveFromGroupToGroup : string -> string -> go E unit;
  RemoveUserFromTable : string -> string -> string -> go E unit;
  GetAllGroups : go E (list Group);
}.

(** ** The tables *)

(** The four two-column tables, columns in the order of their declaration:
    owners(username, group_name), owner_groups(owner_group, owned_group),
    group_to_group(parent_group, child_group), user_to_group(username, group_name). *)
Inductive table := TOwners | TOwnerGroups | TGroupToGroup | TUserToGroup.

#[export] Instance table_eq_dec : EqDecision table.
Proof. solve_decision. Defined.

Abbreviation pair_row := (string * string)%type.

Record tables := MkTables {
  groups : list Group;
  owners : list pair_row;
  owner_groups : list pair_row;
  group_to_group : list pair_row;
  user_to_group : list pair_row;
}.

Definition empty_tables : tables := MkTables [] [] [] [] [].

Definition rows (t : table) (ts : tables) : list pair_row :=
  match t with
  | TOwners => owners ts
  | TOwnerGroups => owner_groups ts
  | TGroupToGroup => group_to_group ts
  | TUserToGroup => user_to_group ts
  end.

Definition set_rows (t : table) (r : list pair_row) (ts : tables) : tables :=
  let '(MkTables g o og gg ug) := ts in
  match t with
  | TOwners => MkTables g r og gg ug
  | TOwnerGroups => MkTables g o r gg ug
  | TGroupToGroup => MkTables g o og r ug
  | TUserToGroup => MkTables g o og gg r
  end.

Definition set_groups (g : list Group) (ts : tables) : tables :=
  let '(MkTables _ o og gg ug) := ts in MkTables g o og gg ug.

Definition group_names (ts : tables) : list string := map gName (groups ts).

(** FOREIGN KEY ... REFERENCES groups(name): the columns that refer to a group. *)
Definition references (t : table) (r : pair_row) : list string :=
  match t with
  | TOwners | TUserToGroup => [r.2]
  | TOwnerGroups | TGroupToGroup => [r.1; r.2]
  end.

Definition fk_ok (t : table) (r : pair_row) (ts : tables) : bool :=
  forallb (fun g => bool_decide (g ∈ group_names ts)) (references t r).

(** ** SQL statements of the source *)

Inductive col := CFst | CSnd.

Definition col_of (c : col) (r : pair_row) : string :=
  match c with CFst => r.1 | CSnd => r.2 end.
Definition other_col (c : col) (r : pair_row) : string :=
  match c with CFst => r.2 | CSnd => r.1 end.

Inductive sqlE : Type -> Type :=
  | Begin : sqlE (outcome unit)
  | Commit : sqlE (outcome unit)
  | Rollback : sqlE (outcome unit)
  (* INSERT INTO groups (name, description) VALUES (?, ?) *)
  | InsertGroup (name description : string) : sqlE (outcome unit)
  (* INSERT INTO t (c1, c2) VALUES (?, ?) *)
  | InsertPair (t : table) (a b : string) : sqlE (outcome unit)
  (* DELETE FROM group_to_group WHERE parent_group = ? AND child_group = ?; rows affected *)
  | DeleteChild (parent child : string) : sqlE (outcome nat)
  (* DELETE FROM <name> WHERE username = ? AND group_name = ?; rows affected *)
  | DeleteUser (tbl username group : string) : sqlE (outcome nat)
  (* SELECT COUNT( * ) FROM groups *)
  | SelectCountGroups : sqlE (outcome nat)
  (* SELECT groups.* FROM groups JOIN t ON groups.name = t.on WHERE t.other = ? *)
  | SelectJoin (t : table) (on : col) (v : string) : sqlE (outcome (list Group))
  (* SELECT name, description FROM groups *)
  | SelectGroups : sqlE (outcome (list Group))
  (* SELECT description FROM groups WHERE name = ? *)
  | SelectDescription (name : string) : sqlE (outcome string)
  (* SELECT username FROM <name> WHERE group_name = ? *)
  | SelectUsers (tbl group : string) : sqlE (outcome (list string))
  (* SELECT EXISTS (SELECT 1 FROM owners WHERE username = ? AND group_name = ?) *)
  | ExistsOwner (user group : string) : sqlE (outcome bool)
  (* SELECT EXISTS (SELECT 1 FROM groups WHERE name = ?) *)
  | ExistsGroup (name : string) : sqlE (outcome bool)
  (* SELECT EXISTS (SELECT 1 FROM owner_groups INNER JOIN user_to_group
       ON owner_group = group_name WHERE owned_group = ? AND username = ?) *)
  | ExistsOwnerMember (group user : string) : sqlE (outcome bool).

(** A table named by a string that has the columns username and group_name:
    SQLite does not look at the case of ASCII letters in a name. *)
Definition user_table (name : string) : option table :=
  if String.eqb (ToLower name) "owners" then Some TOwners
  else if String.eqb (ToLower name) "user_to_group" then Some TUserToGroup
  else None.

(** The driver: whether it enforces foreign keys; which of its calls fail,
    counted from the start - a failing call leaves the tables as they were -;
    and what a statement does that was made with any other text in the place
    of the table: another table, a quoted name, a condition of its own. *)
Record driver := MkDriver {
  foreign_keys : bool;
  fault : nat -> option error;
  spliced_delete : string -> string -> string -> tables -> tables * outcome nat;
  spliced_select : string -> string -> tables -> outcome (list string);
}.

Record db := MkDb { tabs : tables; saved : option tables; tick : nat }.

Definition fresh_db : db := MkDb empty_tables None 0.

Definition err_unique : error := MkErr KUnique "UNIQUE constraint failed".
Definition err_primary_key : error := MkErr KPrimaryKey "UNIQUE constraint failed: groups.name".
Definition err_foreign_key : error := errorf "FOREIGN KEY constraint failed".
Definition err_no_rows : error := MkErr KNoRows "sql: no rows in result set".

(** ** Meaning of the statements on the tables *)

Definition insert_group (name desc : string) (ts : tables) : tables * outcome unit :=
  if bool_decide (name ∈ group_names ts) then (ts, Err err_primary_key)
  else (set_groups (groups ts ++ [MkGroup name desc]) ts, Ok tt).

Definition insert_pair (fk : bool) (t : table) (a b : string) (ts : tables) : tables * outcome unit :=
  if bool_decide ((a, b) ∈ rows t ts) then (ts, Err err_unique)
  else if fk && negb (fk_ok t (a, b) ts) then (ts, Err err_foreign_key)
  else (set_rows t (rows t ts ++ [(a, b)]) ts, Ok tt).

Definition delete_pair (t : table) (a b : string) (ts : tables) : tables * outcome nat :=
  let keep := filter (fun r => r <> (a, b)) (rows t ts) in
  (set_rows t keep ts, Ok (length (rows t ts) - length keep)).

Definition delete_user (drv : driver) (tbl u g : string) (ts : tables) : tables * outcome nat :=
  match user_table tbl with
  | Some t => delete_pair t u g ts
  | None => spliced_delete drv tbl u g ts
  end.

Definition select_join (t : table) (on : col) (v : string) (ts : tables) : list Group :=
  flat_map (fun g => map (fun _ => g)
    (filter (fun r => col_of on r = gName g /\ other_col on r = v) (rows t ts))) (groups ts).

Definition select_users (t : table) (g : string) (ts : tables) : list string :=
  map fst (filter (fun r : pair_row => r.2 = g) (rows t ts)).

Definition exists_owner_member (g u : string) (ts : tables) : bool :=
  existsb (fun og : pair_row =>
    bool_decide (og.2 = g) && bool_decide ((u, og.1) ∈ user_to_group ts)) (owner_groups ts).

(** Serve one call: the clock ticks, and the call fails when the driver says so. *)
Definition serve {A} (drv : driver) (d : db) (body : tables -> tables * outcome A) : db * outcome A :=
  match fault drv (tick d) with
  | Some e => (MkDb (tabs d) (saved d) (S (tick d)), Err e)
  | None => let '(ts, o) := body (tabs d) in (MkDb ts (saved d) (S (tick d)), o)
  end.

Definition query {A} (drv : driver) (d : db) (q : tables -> outcome A) : db * outcome A :=
  serve drv d (fun ts => (ts, q ts)).

(** A failed COMMIT rolls back, as does a ROLLBACK; after a COMMIT the deferred
    ROLLBACK finds no open transaction and does nothing. *)
Definition sql_step (drv : driver) : handler sqlE db := fun X e d =>
  match e in sqlE X return db * X with
  | Begin =>
      match fault drv (tick d) with
      | Some e => (MkDb (tabs d) (saved d) (S (tick d)), Err e)
      | None => (MkDb (tabs d) (Some (tabs d)) (S (tick d)), Ok tt)
      end
  | Commit =>
      match fault drv (tick d) with
      | Some e => (MkDb (default (tabs d) (saved d)) None (S (tick d)), Err e)
      | None => (MkDb (tabs d) None (S (tick d)), Ok tt)
      end
  | Rollback => (MkDb (default (tabs d) (saved d)) None (S (tick d)), Ok tt)
  | InsertGroup n ds => serve drv d (insert_group n ds)
  | InsertPair t a b => serve drv d (insert_pair (foreign_keys drv) t a b)
  | DeleteChild p c => serve drv d (delete_pair TGroupToGroup p c)
  | DeleteUser tbl u g =>
      serve drv d (delete_user drv tbl u g)
  | SelectCountGroups => query drv d (fun ts => Ok (length (groups ts)))
  | SelectJoin t on v => query drv d (fun ts => Ok (select_join t on v ts))
  | SelectGroups => query drv d (fun ts => Ok (groups ts))
  | SelectDescription n =>
      query drv d (fun ts => match filter (fun g => gName g = n) (groups ts) with
                             | g :: _ => Ok (gDescription g)
                             | [] => Err err_no_rows
                             end)
  | SelectUsers tbl g =>
      query drv d (fun ts => match user_table tbl with
                             | Some t => Ok (select_users t g ts)
                             | None => spliced_select drv tbl g ts
                             end)
  | ExistsOwner u g => query drv d (fun ts => Ok (bool_decide ((u, g) ∈ owners ts)))
  | ExistsGroup n => query drv d (fun ts => Ok (bool_decide (n ∈ group_names ts)))
  | ExistsOwnerMember g u => query drv d (fun ts => Ok (exists_owner_member g u ts))
  end.

(** ** The methods of SQLiteStore *)

(** tx, err := db.Begin(); defer tx.Rollback(); body; return tx.Commit() *)
Definition in_tx (body : go sqlE unit) : go sqlE unit :=
  _ ← call Begin;
  deferred Rollback (_ ← body; call Commit).

Definition unique_as (msg : string) (k : errkind) (m : go sqlE unit) : go sqlE unit :=
  check _u := m onerr e =>
    (if decide (ekind e = k) then fail (errorf msg) else fail e) in
  mret tt.

Module SQLiteStore.

Definition Init (owner : string) (gs : list string) : go sqlE unit :=
  in_tx (
    count ← call SelectCountGroups;
    if negb (Nat.eqb count 0) then fail (errorf "store already initialised")
    else foreach (fun g =>
      _ ← call (InsertGroup g "");
      _ ← call (InsertPair TOwners owner g);
      call (InsertPair TUserToGroup owner g)) gs).

Definition GetGroupsOwnedBy (user : string) : go sqlE (list Group) :=
  call (SelectJoin TOwners CSnd user).

Definition GetGroupsUserBelongsTo (user : string) : go sqlE (list Group) :=
  call (SelectJoin TUserToGroup CSnd user).

Definition CreateGroup (owner : string) (group : Group) : go sqlE unit :=
  in_tx (
    _ ← unique_as ("Group with the name " +:+ gName group +:+ " already exists") KPrimaryKey
          (call (InsertGroup (gName group) (gDescription group)));
    call (InsertPair TOwners owner (gName group))).

Definition IsGroupOwner (user group : string) : go sqlE bool :=
  call (ExistsOwner user group).

Definition AddGroupMember (user group : string) : go sqlE unit :=
  unique_as (user +:+ " is already a member of group " +:+ group) KUnique
    (call (InsertPair TUserToGroup user group)).

Definition AddGroupOwner (user group : string) : go sqlE unit :=
  unique_as (user +:+ " is already an owner of group " +:+ group) KUnique
    (call (InsertPair TOwners user group)).

Definition getUsersByGroup (tbl group : string) : go sqlE (list string) :=
  call (SelectUsers tbl group).

Definition GetGroupOwners (group : string) : go sqlE (list string) :=
  getUsersByGroup "owners" group.

Definition GetGroupMembers (group : string) : go sqlE (list string) :=
  getUsersByGroup "user_to_group" group.

Definition GetGroupDescription (group : string) : go sqlE string :=
  call (SelectDescription group).

Definition DoesGroupExist (group : string) : go sqlE bool :=
  call (ExistsGroup group).

Definition GetGroupsGroupBelongsTo (group : string) : go sqlE (list Group) :=
  call (SelectJoin TGroupToGroup CFst group).

Definition GetDirectChildrenGroups (group : string) : go sqlE (list Group) :=
  call (SelectJoin TGroupToGroup CSnd group).

(** The recursion over parents.  [visited] is the one Go map all the calls
    share, so it is threaded through the loop and the recursive calls.  [fuel]
    bounds the depth of the recursion, not the length of the loop. *)
Fixpoint getAllParentGroupsRecursive (fuel : nat) (gs : list Group) (visited : gset string)
    {struct fuel} : go sqlE (list Group * gset string) :=
  match fuel with
  | 0 => Ret Diverge
  | S fuel' =>
      (fix loop (gs : list Group) (visited : gset string) : go sqlE (list Group * gset string) :=
        match gs with
        | [] => mret ([], visited)
        | g :: gs' =>
            if decide (gName g ∈ visited) then loop gs' visited
            else
              p ← GetGroupsGroupBelongsTo (gName g);
              r ← getAllParentGroupsRecursive fuel' p ({[gName g]} ∪ visited);
              r' ← loop gs' r.2;
              mret (g :: r.1 ++ r'.1, r'.2)
        end) gs visited
  end.

Section Fuel.
Context (fuel : nat).

Definition GetAllTransitiveGroupsForUser (user : string) : go sqlE (list Group) :=
  gs ← GetGroupsUserBelongsTo user;
  r ← getAllParentGroupsRecursive fuel gs ∅;
  mret r.1.

Definition GetAllTransitiveGroupsForGroup (group : string) : go sqlE (list Group) :=
  p ← GetGroupsGroupBelongsTo group;
  r ← getAllParentGroupsRecursive fuel p {[group]};
  mret r.1.

Definition AddChildGroup (parent child : string) : go sqlE unit :=
  if decide (parent = child) then
    fail (errorf "parent and child groups can not have same name")
  else
  check exists_ := DoesGroupExist parent onerr e =>
    fail (errorf ("error checking parent group existence: " +:+ emsg e)) in
  if negb exists_ then
    fail (errorf ("parent group with name " +:+ parent +:+ " does not exist"))
  else
  check exists_ := DoesGroupExist child onerr e =>
    fail (errorf ("error checking child group existence: " +:+ emsg e)) in
  if negb exists_ then
    fail (errorf ("child group with name " +:+ child +:+ " does not exist"))
  else
  parentGroups ← GetAllTransitiveGroupsForGroup parent;
  if existsb (fun g => String.eqb (gName g) child) parentGroups then
    fail (errorf ("circular reference detected: group " +:+ child +:+
                  " is already a parent of group " +:+ parent))
  else
  unique_as ("child group name " +:+ child +:+ " already exists in group " +:+ parent) KUnique
    (call (InsertPair TGroupToGroup parent child)).

End Fuel.

Definition RemoveFromGroupToGroup (parent child : string) : go sqlE unit :=
  n ← call (DeleteChild parent child);
  if Nat.eqb n 0 then
    fail (errorf ("pair of parent '" +:+ parent +:+ "' and child '" +:+ child +:+ "' groups not found"))
  else mret tt.

Definition RemoveUserFromTable (username groupName tableName : string) : go sqlE unit :=
  _ ← (if String.eqb tableName "owners" then
         owners ← GetGroupOwners groupName;
         if Nat.eqb (length owners) 1 then
           fail (errorf "cannot remove the last owner of the group")
         else mret tt
       else mret tt);
  n ← call (DeleteUser tableName username groupName);
  if Nat.eqb n 0 then
    fail (errorf ("pair of group '" +:+ groupName +:+ "' and user '" +:+ username +:+ "' not found"))
  else mret tt.

Definition AddOwnerGroup (owner_group owned_group : string) : go sqlE unit :=
  if decide (owned_group = owner_group) then
    fail (errorf "group can not own itself")
  else
  check exists_ := DoesGroupExist owned_group onerr e =>
    fail (errorf ("error checking owned group existence: " +:+ emsg e)) in
  if negb exists_ then
    fail (errorf ("owned group with name " +:+ owned_group +:+ " does not exist"))
  else
  check exists_ := DoesGroupExist owner_group onerr e =>
    fail (errorf ("error checking owner group existence: " +:+ emsg e)) in
  if negb exists_ then
    fail (errorf ("owner group with name " +:+ owner_group +:+ " does not exist"))
  else
  unique_as ("group named " +:+ owner_group +:+ " is already owner of a group " +:+ owned_group) KUnique
    (call (InsertPair TOwnerGroups owner_group owned_group)).

Definition GetGroupOwnerGroups (group : string) : go sqlE (list Group) :=
  call (SelectJoin TOwnerGroups CFst group).

Definition IsMemberOfOwnerGroup (user group : string) : go sqlE bool :=
  call (ExistsOwnerMember group user).

Definition GetAllGroups : go sqlE (list Group) := call SelectGroups.

End SQLiteStore.

(** The store of [NewSQLiteStore], with the recursion bound of its graph walks. *)
Definition sqlite_store (fuel : nat) : Store sqlE := {|
  Init := SQLiteStore.Init;
  CreateGroup := SQLiteStore.CreateGroup;
  AddChildGroup := SQLiteStore.AddChildGroup fuel;
  AddOwnerGroup := SQLiteStore.AddOwnerGroup;
  DoesGroupExist := SQLiteStore.DoesGroupExist;
  GetGroupsOwnedBy := SQLiteStore.GetGroupsOwnedBy;
  GetGroupsUserBelongsTo := SQLiteStore.GetGroupsUserBelongsTo;
  IsGroupOwner := SQLiteStore.IsGroupOwner;
  IsMemberOfOwnerGroup := SQLiteStore.IsMemberOfOwnerGroup;
  AddGroupMember := SQLiteStore.AddGroupMember;
  AddGroupOwner := SQLiteStore.AddGroupOwner;
  GetGroupOwners := SQLiteStore.GetGroupOwners;
  GetGroupOwnerGroups := SQLiteStore.GetGroupOwnerGroups;
  GetGroupMembers := SQLiteStore.GetGroupMembers;
  GetGroupDescription := SQLiteStore.GetGroupDescription;
  GetAllTransitiveGroupsForUser := SQLiteStore.GetAllTransitiveGroupsForUser fuel;
  GetGroupsGroupBelongsTo := SQLiteStore.GetGroupsGroupBelongsTo;
  GetDirectChildrenGroups := SQLiteStore.GetDirectChildrenGroups;
  GetAllTransitiveGroupsForGroup := SQLiteStore.GetAllTransitiveGroupsForGroup fuel;
  RemoveFromGroupToGroup := SQLiteStore.RemoveFromGroupToGroup;
  RemoveUserFromTable := SQLiteStore.RemoveUserFromTable;
  GetAllGroups := SQLiteStore.GetAllGroups;
|}.

(** The table names the handlers pass to [RemoveUserFromTable]. *)
Definition known_table (name : string) : Prop := name = "owners" \/ name = "user_to_group".

(** A call of one of the methods of the interface, as the program makes it. *)
Inductive method {E} (st : Store E) : forall A, go E A -> Prop :=
  | m_Init o gs : method st unit (Init o gs)
  | m_CreateGroup o g : method st unit (CreateGroup o g)
  | m_AddChildGroup p c : method st unit (AddChildGroup p c)
  | m_AddOwnerGroup a b : method st unit (AddOwnerGroup a b)
  | m_DoesGroupExist g : method st bool (DoesGroupExist g)
  | m_GetGroupsOwnedBy u : method st (list Group) (GetGroupsOwnedBy u)
  | m_GetGroupsUserBelongsTo u : method st (list Group) (GetGroupsUserBelongsTo u)
  | m_IsGroupOwner u g : method st bool (IsGroupOwner u g)
  | m_IsMemberOfOwnerGroup u g : method st bool (IsMemberOfOwnerGroup u g)
  | m_AddGroupMember u g : method st unit (AddGroupMember u g)
  | m_AddGroupOwner u g : method st unit (AddGroupOwner u g)
  | m_GetGroupOwners g : method st (list string) (GetGroupOwners g)
  | m_GetGroupOwnerGroups g : method st (list Group) (GetGroupOwnerGroups g)
  | m_GetGroupMembers g : method st (list string) (GetGroupMembers g)
  | m_GetGroupDescription g : method st string (GetGroupDescription g)
  | m_GetAllTransitiveGroupsForUser u : method st (list Group) (GetAllTransitiveGroupsForUser u)
  | m_GetGroupsGroupBelongsTo g : method st (list Group) (GetGroupsGroupBelongsTo g)
  | m_GetDirectChildrenGroups g : method st (list Group) (GetDirectChildrenGroups g)
  | m_GetAllTransitiveGroupsForGroup g : method st (list Group) (GetAllTransitiveGroupsForGroup g)
  | m_RemoveFromGroupToGroup p c : method st unit (RemoveFromGroupToGroup p c)
  | m_RemoveUserFromTable u g t : known_table t -> method st unit (RemoveUserFromTable u g t)
  | m_GetAllGroups : method st (list Group) GetAllGroups.
