(* ===== verification/MembershipsGraph.v ===== *)
(** * Group memberships: the walk over parent groups

    [getAllParentGroupsRecursive] against a pure depth-first search, and the
    search against reachability in the parent relation: it returns every
    ancestor once and nothing else, and a fuel above the number of groups is
    always enough. *)
From S2P Require Import Prelude GoLib MembershipsStore.
Open Scope string_scope.
Open Scope list_scope.

Definition names (gs : list Group) : list string := map gName gs.

Lemma elem_of_names n gs : n ∈ names gs <-> exists g, g ∈ gs /\ gName g = n.
Proof. unfold names. rewrite list_elem_of_fmap. naive_solver. Qed.

Lemma names_app a b : names (a ++ b) = names a ++ names b.
Proof. apply map_app. Qed.

(** ** The search, without the database *)

Section Search.
Context (par : string -> list Group).

Definition edge (c p : string) : Prop := p ∈ names (par c).

Fixpoint dfs (fuel : nat) (gs : list Group) (visited : gset string) {struct fuel}
    : option (list Group * gset string) :=
  match fuel with
  | 0 => None
  | S fuel' =>
      (fix loop (gs : list Group) (visited : gset string) :=
        match gs with
        | [] => Some ([], visited)
        | g :: gs' =>
            if decide (gName g ∈ visited) then loop gs' visited
            else
              match dfs fuel' (par (gName g)) ({[gName g]} ∪ visited) with
              | None => None
              | Some (r, v) =>
                  match loop gs' v with
                  | None => None
                  | Some (r', v') => Some (g :: r ++ r', v')
                  end
              end
        end) gs visited
  end.

(** What a call of the search returns, relative to what was visited before. *)
Record dfs_post (gs : list Group) (vis : gset string) (res : list Group) (vis' : gset string) : Prop := {
  post_visited : vis' = vis ∪ list_to_set (names res);
  post_nodup : NoDup (names res);
  post_fresh : forall n, n ∈ names res -> n ∉ vis;
  post_start : forall n, n ∈ names gs -> n ∈ vis';
  post_closed : forall n m, n ∈ names res -> edge n m -> m ∈ vis';
  post_sound : forall g, g ∈ res -> exists s, s ∈ names gs /\ rtc edge s (gName g);
  post_rows : forall g, g ∈ res -> g ∈ gs \/ exists n, g ∈ par n;
}.

Lemma dfs_post_nil vis : dfs_post [] vis [] vis.
Proof. split; try set_solver; [by constructor]. Qed.

Lemma dfs_post_skip g gs vis res vis' :
  gName g ∈ vis -> dfs_post gs vis res vis' -> dfs_post (g :: gs) vis res vis'.
Proof.
  intros Hg [Hv Hn Hf Hs Hc Hso Hr]. split; auto.
  - intros n. simpl. rewrite elem_of_cons. intros [->|?]; [set_solver|auto].
  - intros x Hx. destruct (Hso x Hx) as (s & Hs1 & Hs2). exists s. split; [set_solver|done].
  - intros x Hx. destruct (Hr x Hx); [left; set_solver|by right].
Qed.

Lemma dfs_post_visit g gs vis r v r' v' :
  gName g ∉ vis ->
  dfs_post (par (gName g)) ({[gName g]} ∪ vis) r v ->
  dfs_post gs v r' v' ->
  dfs_post (g :: gs) vis (g :: r ++ r') v'.
Proof.
  intros Hg [Hv1 Hn1 Hf1 Hs1 Hc1 Hso1 Hr1] [Hv2 Hn2 Hf2 Hs2 Hc2 Hso2 Hr2].
  assert (Hsub : forall n, n ∈ v -> n ∈ v') by (subst v'; set_solver).
  split.
  - subst. simpl. rewrite names_app. rewrite list_to_set_app_L. set_solver.
  - simpl. rewrite names_app. apply NoDup_cons. split.
    + rewrite elem_of_app. intros [H|H]; [apply Hf1 in H|apply Hf2 in H]; set_solver.
    + apply NoDup_app. split_and!; [done| |done]. intros n H1 H2. apply Hf2 in H2. set_solver.
  - intros n. simpl. rewrite names_app, elem_of_cons, elem_of_app.
    intros [->|[H|H]]; [done|apply Hf1 in H; set_solver|apply Hf2 in H; set_solver].
  - intros n. simpl. rewrite elem_of_cons. intros [->|H]; [apply Hsub; set_solver|auto].
  - intros n m. simpl. rewrite names_app, elem_of_cons, elem_of_app.
    intros [->|[H|H]] Hm; eauto.
  - intros x. rewrite elem_of_cons, elem_of_app. intros [->|[H|H]].
    + exists (gName g). split; [set_solver|done].
    + destruct (Hso1 x H) as (s & Hs & Hsx). exists (gName g). split; [set_solver|].
      eapply rtc_l; [|exact Hsx]. exact Hs.
    + destruct (Hso2 x H) as (s & Hs & Hsx). exists s. split; [set_solver|done].
  - intros x. rewrite elem_of_cons, elem_of_app. intros [->|[H|H]].
    + left. set_solver.
    + destruct (Hr1 x H) as [?|?]; eauto.
    + destruct (Hr2 x H) as [?|?]; [left; set_solver|eauto].
Qed.

Lemma dfs_spec fuel gs vis res vis' :
  dfs fuel gs vis = Some (res, vis') -> dfs_post gs vis res vis'.
Proof.
  revert gs vis res vis'. induction fuel as [|fuel IH]; [done|].
  induction gs as [|g gs IHg]; intros vis res vis' H; simpl in H.
  - simplify_eq. apply dfs_post_nil.
  - case_decide as Hd; [apply dfs_post_skip; [done|]; by apply IHg|].
    destruct (dfs fuel _ _) as [[r v]|] eqn:Hr; [|done].
    match type of H with context [match ?l with _ => _ end] => destruct l as [[r' v']|] eqn:Hl end; [|done].
    simplify_eq. eapply dfs_post_visit; [done|by apply IH|by apply IHg].
Qed.

(** Enough fuel: the names still to visit bound the depth. *)
Lemma dfs_total (U : gset string) fuel gs vis :
  (forall n m, edge n m -> m ∈ U) -> (forall n, n ∈ names gs -> n ∈ U) ->
  size (U ∖ vis) < fuel -> is_Some (dfs fuel gs vis).
Proof.
  intros HU. revert gs vis. induction fuel as [|fuel IH]; [lia|].
  induction gs as [|g gs IHg]; intros vis Hgs Hsz; simpl; [by eexists|].
  case_decide as Hd; [apply IHg; [set_solver|done]|].
  assert (Hsz1 : size (U ∖ ({[gName g]} ∪ vis)) < fuel).
  { apply Nat.lt_le_trans with (size (U ∖ vis)); [|lia].
    apply subset_size. split; [set_solver|].
    intros Hsub. assert (gName g ∈ U ∖ ({[gName g]} ∪ vis)) by (apply Hsub; set_solver). set_solver. }
  destruct (IH (par (gName g)) ({[gName g]} ∪ vis)) as [[r v] Hr]; [intros n Hn; eapply HU, Hn|done|].
  rewrite Hr. destruct (dfs_spec _ _ _ _ _ Hr) as [Hv _ _ _ _ _ _].
  destruct (IHg v) as [[r' v'] Hl]; [set_solver| |].
  - eapply Nat.le_lt_trans; [|exact Hsz]. apply subseteq_size. set_solver.
  - simpl in Hl. rewrite Hl. by eexists.
Qed.

(** A closed set that holds the start holds everything reachable. *)
Lemma closed_reachable (v : gset string) s n :
  (forall a b, a ∈ v -> edge a b -> b ∈ v) -> s ∈ v -> rtc edge s n -> n ∈ v.
Proof. intros Hc Hs Hr. induction Hr; eauto. Qed.

(** From nothing visited: exactly what the start reaches. *)
Lemma dfs_reach fuel gs res v :
  dfs fuel gs ∅ = Some (res, v) ->
  NoDup (names res) /\
  forall n, n ∈ names res <-> exists s, s ∈ names gs /\ rtc edge s n.
Proof.
  intros H. destruct (dfs_spec _ _ _ _ _ H) as [Hv Hn _ Hs Hc Hso _]. split; [done|].
  assert (Hv' : forall n, n ∈ v <-> n ∈ names res) by (subst v; set_solver).
  intros n. split.
  - rewrite elem_of_names. intros (g & Hg & <-). eauto.
  - intros (s & Hsg & Hr). apply Hv'. eapply closed_reachable; [|by apply Hs|exact Hr].
    intros a b Ha Hab. eapply Hc; [by apply Hv'|done].
Qed.

(** With the start itself marked: its proper ancestors other than itself. *)
Lemma dfs_ancestors fuel x res v :
  dfs fuel (par x) {[x]} = Some (res, v) ->
  NoDup (names res) /\
  forall n, n ∈ names res <-> tc edge x n /\ n <> x.
Proof.
  intros H. destruct (dfs_spec _ _ _ _ _ H) as [Hv Hn Hf Hs Hc Hso _]. split; [done|].
  intros n. split.
  - intros Hin. split; [|apply Hf in Hin; set_solver].
    apply elem_of_names in Hin as (g & Hg & <-).
    destruct (Hso g Hg) as (s & Hsx & Hr). eapply tc_rtc_r; [apply tc_once, Hsx|done].
  - intros [Ht Hne]. assert (Hin : n ∈ v).
    { eapply (closed_reachable v x); [|subst v; set_solver|by apply tc_rtc].
      intros a b Ha Hab. subst v. apply elem_of_union in Ha as [Ha|Ha].
      - apply elem_of_singleton in Ha as ->. by apply Hs.
      - apply elem_of_list_to_set in Ha. by eapply Hc. }
    subst v. set_solver.
Qed.
End Search.
