(* ===== verification/MembershipsInv.v ===== *)
(** * Group memberships: what the store keeps true

    Frame lemmas for the SQL statements, the transaction wrapper, the link from
    the program of the graph walk to the pure search, and the invariant of the
    tables with its preservation by every method of [Store], under any driver:
    foreign keys on or off, any of its calls failing. *)
From S2P Require Import Prelude GoLib MembershipsStore MembershipsGraph.
Open Scope string_scope.
Open Scope list_scope.

(** ** Frames *)

(** Statements that read, and statements that leave transactions alone. *)
Definition reading {X} (e : sqlE X) : Prop :=
  match e with
  | Begin | Commit | Rollback | InsertGroup _ _ | InsertPair _ _ _
  | DeleteChild _ _ | DeleteUser _ _ _ => False
  | _ => True
  end.

Definition no_tx {X} (e : sqlE X) : Prop :=
  match e with
  | Begin | Commit | Rollback => False
  | _ => True
  end.

Definition same_db (d d' : db) : Prop := tabs d' = tabs d /\ saved d' = saved d.

#[export] Instance same_db_equiv : Equivalence same_db.
Proof. unfold same_db. split; red; intros; intuition congruence. Qed.

Section Driver.
Context (drv : driver).
Abbreviation h := (sql_step drv).

Lemma serve_cases {A} d (body : tables -> tables * outcome A) :
  (exists e, serve drv d body = (MkDb (tabs d) (saved d) (S (tick d)), Err e)) \/
  serve drv d body = (MkDb (body (tabs d)).1 (saved d) (S (tick d)), (body (tabs d)).2).
Proof.
  unfold serve. destruct (fault drv (tick d)) as [e|]; [by left; eexists|].
  right. by destruct (body (tabs d)).
Qed.

Lemma reading_same {X} (e : sqlE X) d : reading e -> same_db d (h X e d).1.
Proof.
  destruct e; simpl; try done; intros _; unfold query;
    match goal with |- same_db _ (serve _ _ ?b).1 =>
      destruct (serve_cases d b) as [[? ->]| ->]; by split end.
Qed.

Lemma no_tx_saved {X} (e : sqlE X) d : no_tx e -> saved (h X e d).1 = saved d.
Proof.
  destruct e; simpl; try done; intros _; unfold query;
    match goal with |- context [serve _ _ ?b] =>
      destruct (serve_cases d b) as [[? ->]| ->]; done end.
Qed.

Lemma run_reading {A} (p : prog sqlE A) d :
  calls (fun X e => reading e) p -> same_db d (run h p d).1.
Proof.
  intros Hp. apply (run_calls_rel h (fun X e => reading e) same_db); try done.
  - intros a b c. apply (transitivity (R:=same_db)).
  - intros X e s. apply reading_same.
Qed.

Lemma run_no_tx {A} (p : prog sqlE A) d :
  calls (fun X e => no_tx e) p -> saved (run h p d).1 = saved d.
Proof.
  intros Hp.
  apply (run_calls_rel h (fun X e => no_tx e) (fun d d' => saved d' = saved d)); try done.
  - intros; congruence.
  - intros X e s. apply no_tx_saved.
Qed.

(** ** The transaction wrapper: all of the body, or nothing *)
Lemma in_tx_cases (body : go sqlE unit) d :
  calls (fun X e => no_tx e) body -> saved d = None ->
  exists d' o, run h (in_tx body) d = (d', o) /\ saved d' = None /\
    ((tabs d' = tabs d /\ o <> Ok tt) \/
     exists d1 d2, same_db (MkDb (tabs d) (Some (tabs d)) (tick d)) d1 /\
       run h body d1 = (d2, Ok tt) /\ tabs d' = tabs d2 /\ o = Ok tt).
Proof.
  intros Hb Hs. unfold in_tx. rewrite run_mbind, run_call. simpl.
  destruct (fault drv (tick d)) as [e|]; [by do 2 eexists; split; [reflexivity|]; auto|].
  rewrite run_deferred, run_mbind.
  pose proof (run_no_tx body (MkDb (tabs d) (Some (tabs d)) (S (tick d))) Hb) as Hsv.
  destruct (run h body _) as [d2 o] eqn:Hr; simpl in Hsv.
  destruct o as [[]| | |]; simpl; rewrite ?Hsv; simpl; try by (do 2 eexists; split; [reflexivity|]; auto).
  destruct (fault drv (tick d2)); simpl; rewrite ?Hsv; simpl; try by (do 2 eexists; split; [reflexivity|]; auto).
  do 2 eexists. split; [reflexivity|]. split; [done|]. right.
  exists (MkDb (tabs d) (Some (tabs d)) (S (tick d))), d2. done.
Qed.

(** ** The walk over parents is the pure search *)

Definition parents (ts : tables) (n : string) : list Group := select_join TGroupToGroup CFst n ts.

Definition walk_result {A} (r : option A) : outcome A :=
  match r with Some a => Ok a | None => Diverge end.

(** [o] is the answer expected on the tables, or the driver failed a call. *)
Definition agrees {A} (expected : outcome A) (o : outcome A) : Prop :=
  o = expected \/ exists e n, fault drv n = Some e /\ o = Err e.

Lemma run_query {A} (q : tables -> outcome A) (e : sqlE (outcome A)) d :
  h _ e d = query drv d q ->
  exists d' o, run h (call e) d = (d', o) /\ same_db d d' /\ agrees (q (tabs d)) o.
Proof.
  intros He. rewrite run_call, He. unfold query, serve, agrees.
  destruct (fault drv (tick d)) as [er|] eqn:Hf; do 2 eexists;
    (split; [reflexivity|split; [done|]]); [right; eauto|by left].
Qed.

Ltac agree_err := do 2 eexists; split; [reflexivity|split; [done|right; eauto]].
Ltac agree_ok := do 2 eexists; split; [reflexivity|split; [done|by left]].

Lemma walk_cons fuel g gs vis :
  SQLiteStore.getAllParentGroupsRecursive (S fuel) (g :: gs) vis =
  if decide (gName g ∈ vis) then SQLiteStore.getAllParentGroupsRecursive (S fuel) gs vis
  else
    p ← SQLiteStore.GetGroupsGroupBelongsTo (gName g);
    r ← SQLiteStore.getAllParentGroupsRecursive fuel p ({[gName g]} ∪ vis);
    r' ← SQLiteStore.getAllParentGroupsRecursive (S fuel) gs r.2;
    mret (g :: r.1 ++ r'.1, r'.2).
Proof. reflexivity. Qed.

Lemma dfs_cons par fuel g gs vis :
  dfs par (S fuel) (g :: gs) vis =
  if decide (gName g ∈ vis) then dfs par (S fuel) gs vis
  else
    match dfs par fuel (par (gName g)) ({[gName g]} ∪ vis) with
    | None => None
    | Some (r, v) =>
        match dfs par (S fuel) gs v with
        | None => None
        | Some (r', v') => Some (g :: r ++ r', v')
        end
    end.
Proof. reflexivity. Qed.

Lemma walk_run fuel gs vis d :
  exists d' o, run h (SQLiteStore.getAllParentGroupsRecursive fuel gs vis) d = (d', o) /\
    same_db d d' /\ agrees (walk_result (dfs (parents (tabs d)) fuel gs vis)) o.
Proof.
  revert gs vis d. induction fuel as [|fuel IH].
  - intros. do 2 eexists. split; [reflexivity|]. split; [done|by left].
  - induction gs as [|g gs IHg]; intros vis d.
    + do 2 eexists. split; [reflexivity|]. split; [done|by left].
    + rewrite walk_cons, dfs_cons. case_decide; [apply IHg|].
      unfold SQLiteStore.GetGroupsGroupBelongsTo. rewrite run_mbind.
      destruct (run_query (fun ts => Ok (parents ts (gName g)))
                  (SelectJoin TGroupToGroup CFst (gName g)) d eq_refl)
        as (d1 & o1 & -> & Hd1 & [-> | (e & n & Hf & ->)]); [|agree_err].
      rewrite run_mbind.
      destruct (IH (parents (tabs d) (gName g)) ({[gName g]} ∪ vis) d1)
        as (d2 & o2 & -> & Hd2 & Ho2). rewrite (proj1 Hd1) in Ho2.
      assert (Hd : same_db d d2) by (etransitivity; eauto).
      destruct Ho2 as [-> | (e & n & Hf & ->)]; [|agree_err].
      destruct (dfs (parents (tabs d)) fuel _ _) as [[r v]|]; cbn [walk_result]; [|agree_ok].
      rewrite run_mbind. cbn [fst snd].
      destruct (IHg v d2) as (d3 & o3 & -> & Hd3 & Ho3).
      rewrite (proj1 Hd) in Ho3. assert (Hd' : same_db d d3) by (etransitivity; eauto).
      destruct Ho3 as [-> | (e & n & Hf & ->)]; [|agree_err].
      destruct (dfs _ (S fuel) gs v) as [[r' v']|]; agree_ok.
Qed.
End Driver.

(** ** The parent relation of the tables *)

(** [pedge ts c p]: a row says that [c] belongs to [p]. *)
Definition pedge (ts : tables) (c p : string) : Prop := (p, c) ∈ group_to_group ts.

(** As the JOIN with [groups] sees it. *)
Definition member_edge (ts : tables) (c p : string) : Prop := pedge ts c p /\ p ∈ group_names ts.

Lemma elem_of_select_join t on v ts g :
  g ∈ select_join t on v ts <->
  g ∈ groups ts /\ exists r, r ∈ rows t ts /\ col_of on r = gName g /\ other_col on r = v.
Proof.
  unfold select_join. rewrite list_elem_of_In, in_flat_map. setoid_rewrite <- list_elem_of_In.
  split.
  - intros (g' & Hg' & Hin). apply list_elem_of_fmap in Hin as (r & -> & Hr).
    apply list_elem_of_filter in Hr as [[H1 H2] H3]. eauto 10.
  - intros (Hg & r & Hr & H1 & H2). exists g. split; [done|].
    apply list_elem_of_fmap. exists r. split; [done|]. by apply list_elem_of_filter.
Qed.

Lemma edge_parents ts c p : edge (parents ts) c p <-> member_edge ts c p.
Proof.
  unfold edge, member_edge, pedge, parents, group_names. rewrite elem_of_names.
  setoid_rewrite elem_of_select_join. split.
  - intros (g & (Hg & [a b] & Hr & Ha & Hb) & <-). simpl in *. subst.
    split; [done|]. apply list_elem_of_fmap. eauto.
  - intros [He Hp]. apply list_elem_of_fmap in Hp as (g & -> & Hg).
    exists g. split; [|done]. split; [done|]. by exists (gName g, c).
Qed.

(** Adding an edge between two points not connected the other way keeps a
    relation free of cycles. *)
Lemma tc_add_edge {A} (R R' : relation A) a b x y :
  (forall u v, R' u v -> R u v \/ (u = a /\ v = b)) ->
  tc R' x y -> tc R x y \/ (rtc R x a /\ rtc R b y).
Proof.
  intros HR. induction 1 as [x y Hxy|x y z Hxy Hyz IH].
  - destruct (HR _ _ Hxy) as [?|[-> ->]]; [left; by apply tc_once|by right].
  - destruct (HR _ _ Hxy) as [Hr|[-> ->]].
    + destruct IH as [IH|[IH1 IH2]]; [left; by eapply tc_l|right].
      split; [by eapply rtc_l|done].
    + right. split; [done|]. destruct IH as [IH|[_ IH2]]; [by apply tc_rtc|done].
Qed.

Lemma acyclic_add_edge {A} (R R' : relation A) a b :
  (forall u v, R' u v -> R u v \/ (u = a /\ v = b)) ->
  (forall n, ~ tc R n n) -> ~ rtc R b a -> forall n, ~ tc R' n n.
Proof.
  intros HR Hac Hba n Hn. destruct (tc_add_edge R R' a b n n HR Hn) as [H|[H1 H2]].
  - by apply (Hac n).
  - apply Hba. by transitivity n.
Qed.

(** ** The invariant of the tables *)

Record store_inv (ts : tables) : Prop := MkInv {
  inv_names : NoDup (group_names ts);
  inv_rows : forall t, NoDup (rows t ts);
  inv_acyclic : forall n, ~ tc (pedge ts) n n;
  inv_children : forall p c, (p, c) ∈ group_to_group ts -> p ∈ group_names ts /\ c ∈ group_names ts;
  inv_owner_groups : forall a b, (a, b) ∈ owner_groups ts ->
    a <> b /\ a ∈ group_names ts /\ b ∈ group_names ts;
  inv_owned : forall g, g ∈ group_names ts -> exists u, (u, g) ∈ owners ts;
}.

Lemma store_inv_empty : store_inv empty_tables.
Proof.
  split; simpl; try (intros; set_solver).
  - constructor.
  - intros []; constructor.
  - intros n Hn. inversion Hn; unfold pedge in *; set_solver.
Qed.

Lemma rows_set_rows t t' r ts :
  rows t' (set_rows t r ts) = if decide (t = t') then r else rows t' ts.
Proof. by destruct ts, t, t'. Qed.

Lemma groups_set_rows t r ts : groups (set_rows t r ts) = groups ts.
Proof. by destruct ts, t. Qed.

Lemma group_names_set_rows t r ts : group_names (set_rows t r ts) = group_names ts.
Proof. unfold group_names. by rewrite groups_set_rows. Qed.

(** *** What each statement needs to keep the invariant *)

(** The premises under which a new row is harmless, table by table. *)
Definition row_ok (t : table) (a b : string) (ts : tables) : Prop :=
  match t with
  | TOwners | TUserToGroup => True
  | TOwnerGroups => a <> b /\ a ∈ group_names ts /\ b ∈ group_names ts
  | TGroupToGroup => a ∈ group_names ts /\ b ∈ group_names ts /\ ~ rtc (pedge ts) a b
  end.

Lemma insert_pair_inv fk t a b ts :
  row_ok t a b ts -> store_inv ts -> store_inv (insert_pair fk t a b ts).1.
Proof.
  intros Hrow Hi. unfold insert_pair. case_bool_decide as Hdup; [done|].
  destruct (fk && _); [done|]. destruct Hi as [Hn Hr Ha Hc Ho Hw].
  set (ts' := set_rows t (rows t ts ++ [(a, b)]) ts).
  assert (Hrt : forall t' r, r ∈ rows t' ts' <-> r ∈ rows t' ts \/ (t' = t /\ r = (a, b))).
  { intros t' r. unfold ts'. rewrite rows_set_rows. case_decide; subst; set_solver. }
  assert (Hgn : group_names ts' = group_names ts) by apply group_names_set_rows.
  split; simpl; rewrite ?Hgn.
  - done.
  - intros t'. unfold ts'. rewrite rows_set_rows. case_decide; [subst|done].
    apply NoDup_app. split_and!; [done|set_solver|apply NoDup_singleton].
  - destruct (decide (t = TGroupToGroup)) as [->|Hne].
    + destruct Hrow as (_ & _ & Hrow). apply (acyclic_add_edge (pedge ts) _ b a); try done.
      intros u v Huv. apply (Hrt TGroupToGroup) in Huv. unfold pedge. naive_solver.
    + intros n Hc'. apply (Ha n). eapply (tc_congruence id); [|exact Hc'].
      intros x y Hxy. apply (Hrt TGroupToGroup) in Hxy. unfold pedge. naive_solver.
  - intros p c. intros [H|[<- ?]]%(Hrt TGroupToGroup); [by apply Hc|]. naive_solver.
  - intros p c. intros [H|[<- ?]]%(Hrt TOwnerGroups); [by apply Ho|]. naive_solver.
  - intros g Hg. destruct (Hw g Hg) as [u Hu]. exists u. apply (Hrt TOwners). by left.
Qed.

Lemma delete_pair_elem t a b ts t' r :
  r ∈ rows t' (delete_pair t a b ts).1 <-> r ∈ rows t' ts /\ ~ (t' = t /\ r = (a, b)).
Proof.
  unfold delete_pair. simpl. rewrite rows_set_rows. case_decide; subst.
  - rewrite list_elem_of_filter. naive_solver.
  - naive_solver.
Qed.

(** Deleting a row is harmless unless it is the last owner of a group. *)
Lemma delete_pair_inv t a b ts :
  (t = TOwners -> b ∈ group_names ts -> exists u, u <> a /\ (u, b) ∈ owners ts) ->
  store_inv ts -> store_inv (delete_pair t a b ts).1.
Proof.
  intros Hlast [Hn Hr Ha Hc Ho Hw].
  pose proof (delete_pair_elem t a b ts) as He.
  assert (Hgn : group_names (delete_pair t a b ts).1 = group_names ts) by apply group_names_set_rows.
  split; rewrite ?Hgn.
  - done.
  - intros t'. unfold delete_pair. simpl. rewrite rows_set_rows.
    case_decide; subst; [by apply NoDup_filter|done].
  - intros n Hc'. apply (Ha n). eapply (tc_congruence id); [|exact Hc'].
    intros x y Hxy. by apply (He TGroupToGroup) in Hxy as [? _].
  - intros p c [H _]%(He TGroupToGroup). by apply Hc.
  - intros p c [H _]%(He TOwnerGroups). by apply Ho.
  - intros g Hg. destruct (decide (t = TOwners /\ g = b)) as [[-> ->]|Hne].
    + destruct (Hlast eq_refl Hg) as (u & Hu & Hin). exists u.
      apply (He TOwners). naive_solver.
    + destruct (Hw g Hg) as [u Hu]. exists u. apply (He TOwners). naive_solver.
Qed.

(** A second owner exists when the list of owners is not a singleton. *)
Lemma two_owners ts a g :
  store_inv ts -> g ∈ group_names ts -> length (select_users TOwners g ts) <> 1 ->
  exists u, u <> a /\ (u, g) ∈ owners ts.
Proof.
  intros [_ Hr _ _ _ Hw] Hg Hlen. destruct (Hw g Hg) as [u0 Hu0].
  assert (Hsel : forall u, u ∈ select_users TOwners g ts <-> (u, g) ∈ owners ts).
  { intros u. unfold select_users. rewrite list_elem_of_fmap. split.
    - intros ([u' g'] & -> & Hf). apply list_elem_of_filter in Hf as [<- ?]. done.
    - intros Hin. exists (u, g). split; [done|]. by apply list_elem_of_filter. }
  assert (Hnd : NoDup (select_users TOwners g ts)).
  { unfold select_users. apply NoDup_fmap_2_strong; [|by apply NoDup_filter, (Hr TOwners)].
    intros [x1 y1] [x2 y2] H1 H2. apply list_elem_of_filter in H1 as [H1 _].
    apply list_elem_of_filter in H2 as [H2 _]. simpl in *. by intros ->; subst. }
  destruct (select_users TOwners g ts) as [|x [|y l]] eqn:Hl; simpl in *; [|lia|].
  - apply Hsel in Hu0. set_solver.
  - apply NoDup_cons in Hnd as [Hxy _].
    destruct (decide (x = a)) as [->|Hxa]; [exists y|exists x]; rewrite <- Hsel; set_solver.
Qed.
