(* ===== verification/MembershipsCorrect.v ===== *)
(** * Group memberships: correctness of the store

    The invariant of [MembershipsInv] is kept by every method under any driver,
    and the graph walks compute the transitive parents. *)
From S2P Require Import Prelude GoLib MembershipsStore MembershipsGraph MembershipsInv.
Open Scope string_scope.
Open Scope list_scope.

(** A predicate of the tables, with no transaction open. *)
Definition on (P : tables -> Prop) (d : db) : Prop := saved d = None /\ P (tabs d).

Section Driver.
Context (drv : driver).
Abbreviation h := (sql_step drv).

Lemma triple_query {A} (e : sqlE (outcome A)) (q : tables -> outcome A) P :
  (forall d, h _ e d = query drv d q) ->
  hoare h (on P) (call e) (fun o => on (fun ts => P ts /\ agrees drv (q ts) o)).
Proof.
  intros He d [Hs HP].
  destruct (run_query drv q e d (He d)) as (d' & o & -> & [Ht Hsv] & Ho). simpl.
  split; [congruence|]. by rewrite Ht.
Qed.

Lemma triple_write {A} (e : sqlE (outcome A)) (body : tables -> tables * outcome A) P
    (Q : outcome A -> tables -> Prop) :
  (forall d, h _ e d = serve drv d body) ->
  (forall ts, P ts -> Q (body ts).2 (body ts).1) -> (forall ts er, P ts -> Q (Err er) ts) ->
  hoare h (on P) (call e) (fun o => on (Q o)).
Proof.
  intros He Hb Hf d [Hs HP]. rewrite run_call, He.
  destruct (serve_cases drv d body) as [[er ->]| ->]; split; simpl; auto.
Qed.

Lemma triple_reading {A} (p : prog sqlE A) P :
  calls (fun X e => reading e) p -> hoare h (on P) p (fun _ => on P).
Proof.
  intros Hp d [Hs HP]. destruct (run_reading drv p d Hp) as [Ht Hsv].
  split; [congruence|by rewrite Ht].
Qed.

Lemma triple_walk fuel gs vis P :
  hoare h (on P) (SQLiteStore.getAllParentGroupsRecursive fuel gs vis)
    (fun o => on (fun ts => P ts /\ agrees drv (walk_result (dfs (parents ts) fuel gs vis)) o)).
Proof.
  intros d [Hs HP].
  destruct (walk_run drv fuel gs vis d) as (d' & o & -> & [Ht Hsv] & Ho). simpl.
  split; [congruence|]. by rewrite Ht.
Qed.

(** A body run in a transaction: if its success establishes [I] from [I], the
    transaction keeps [I] whatever fails. *)
Lemma triple_in_tx (body : go sqlE unit) I :
  calls (fun X e => no_tx e) body ->
  (forall d, I (tabs d) -> forall d', run h body d = (d', Ok tt) -> I (tabs d')) ->
  hoare h (on I) (in_tx body) (fun _ => on I).
Proof.
  intros Hb Hok d [Hs HI].
  destruct (in_tx_cases drv body d Hb Hs) as (d' & o & -> & Hsv & [[Ht _] | Hd]); simpl.
  - split; [done|by rewrite Ht].
  - destruct Hd as (d1 & d2 & [Ht1 _] & Hr & Ht2 & ->). simpl in Ht1.
    split; [done|]. rewrite Ht2. eapply Hok; [|exact Hr]. by rewrite Ht1.
Qed.

Lemma triple_unique_as msg k (m : go sqlE unit) P (Q : outcome unit -> db -> Prop) :
  hoare h P m Q -> (forall s er er', Q (Err er) s -> Q (Err er') s) ->
  hoare h P (unique_as msg k m) Q.
Proof.
  intros Hm HQ. eapply hoare_handle with (R := fun _ => Q (Ok tt)) (Re := fun e => Q (Err e)).
  - eapply hoare_conseq; [exact Hm|auto|]. by intros [[]| | |].
  - intros e. case_decide; apply hoare_ret; eauto.
  - intros []. by apply hoare_ret.
Qed.

(** ** Preservation, method by method *)

Definition keeps {A} (p : go sqlE A) : Prop :=
  hoare h (on store_inv) p (fun _ => on store_inv).

Lemma keeps_insert t a b :
  (forall ts, store_inv ts -> row_ok t a b ts) -> keeps (call (InsertPair t a b)).
Proof.
  intros Hok. apply (triple_write _ (insert_pair (foreign_keys drv) t a b) _ (fun _ => store_inv)); auto.
  intros ts Hts. apply insert_pair_inv; auto.
Qed.

Lemma keeps_unique_as msg k (m : go sqlE unit) : keeps m -> keeps (unique_as msg k m).
Proof. intros Hm. by apply triple_unique_as. Qed.

Lemma keeps_AddGroupMember u g : keeps (SQLiteStore.AddGroupMember u g).
Proof. by apply keeps_unique_as, keeps_insert. Qed.

Lemma keeps_AddGroupOwner u g : keeps (SQLiteStore.AddGroupOwner u g).
Proof. by apply keeps_unique_as, keeps_insert. Qed.

Lemma keeps_RemoveFromGroupToGroup p c : keeps (SQLiteStore.RemoveFromGroupToGroup p c).
Proof.
  eapply (hoare_mbind _ _ _ _ (fun _ => on store_inv)).
  - eapply hoare_conseq;
      [apply (triple_write _ (delete_pair TGroupToGroup p c) store_inv (fun _ => store_inv))|auto|].
    + done.
    + intros ts Hts. by apply delete_pair_inv.
    + done.
    + by intros [].
  - intros n. destruct (Nat.eqb n 0); by apply hoare_ret.
Qed.

(** The group either is not in the table or keeps another owner. *)
Definition removal_ok (tbl u g : string) (ts : tables) : Prop :=
  forall t, user_table tbl = Some t -> t = TOwners -> g ∈ group_names ts ->
    exists u', u' <> u /\ (u', g) ∈ owners ts.

Lemma owners_guard u g tbl :
  known_table tbl ->
  hoare h (on store_inv)
    ((if String.eqb tbl "owners" then
        owners ← SQLiteStore.GetGroupOwners g;
        if Nat.eqb (length owners) 1 then fail (errorf "cannot remove the last owner of the group")
        else mret tt
      else mret tt) : go sqlE unit)
    (or_else (fun _ => on (fun ts => store_inv ts /\ removal_ok tbl u g ts))
       (fun (_ : outcome unit) => on store_inv)).
Proof.
  intros Hk. destruct (String.eqb_spec tbl "owners") as [->|Hne].
  - eapply (hoare_mbind _ _ _ _
      (fun l => on (fun ts => store_inv ts /\ l = select_users TOwners g ts))).
    + eapply hoare_conseq; [apply (triple_query _ (fun ts => Ok (select_users TOwners g ts)) store_inv)|auto|].
      * done.
      * intros [l|e|w|] s [Hs [HI [Ho|(e' & n & _ & Ho)]]]; simplify_eq; by split.
    + intros l. destruct (Nat.eqb_spec (length l) 1) as [Hl|Hl]; apply hoare_ret; intros s [Hs [HI ->]].
      * by split.
      * split; [done|]. split; [done|]. intros t _ _ Hg. by apply two_owners.
  - apply hoare_ret. intros s [Hs HI]. split; [done|]. split; [done|].
    intros t Ht -> _. by destruct Hk as [-> | ->].
Qed.

Lemma keeps_RemoveUserFromTable u g tbl : known_table tbl -> keeps (SQLiteStore.RemoveUserFromTable u g tbl).
Proof.
  intros Hk. eapply hoare_mbind; [by apply owners_guard|]. intros a; cbv beta.
  eapply (hoare_mbind _ _ _ _ (fun _ => on store_inv)).
  - eapply hoare_conseq;
      [apply (triple_write _ (delete_user drv tbl u g)
               (fun ts => store_inv ts /\ removal_ok tbl u g ts) (fun _ => store_inv))|by intros|].
    + done.
    + intros ts [HI Hok]. unfold removal_ok in Hok. unfold delete_user.
      destruct (user_table tbl) as [t|] eqn:Ht; [|by destruct Hk as [-> | ->]].
      apply delete_pair_inv; [|done]. intros -> Hg. by apply (Hok TOwners).
    + by intros ts er [HI _].
    + by intros [].
  - intros n. destruct (Nat.eqb n 0); by apply hoare_ret.
Qed.

(** *** Group creation and initialisation: a group enters with an owner *)

Lemma insert_group_names n ds ts ts' :
  insert_group n ds ts = (ts', Ok tt) ->
  (n ∉ group_names ts) /\ group_names ts' = group_names ts ++ [n] /\ (forall t, rows t ts' = rows t ts).
Proof.
  unfold insert_group. case_bool_decide as Hn; [done|]. intros [= <-]. split; [done|].
  split; [|by intros []; destruct ts].
  unfold group_names. destruct ts; simpl. by rewrite map_app.
Qed.

(** A group whose name is new, followed by a row that gives it an owner. *)
Lemma group_with_owner_inv fk n ds o ts ts1 ts2 :
  store_inv ts -> insert_group n ds ts = (ts1, Ok tt) ->
  insert_pair fk TOwners o n ts1 = (ts2, Ok tt) -> store_inv ts2.
Proof.
  intros [Hn Hr Ha Hc Ho Hw] (Hnew & Hgn & Hrows)%insert_group_names H2.
  unfold insert_pair in H2. case_bool_decide as Hdup; [done|]. destruct (fk && _); [done|].
  injection H2 as <-.
  assert (Hrt : forall t r, r ∈ rows t (set_rows TOwners (rows TOwners ts1 ++ [(o, n)]) ts1) <->
                 r ∈ rows t ts \/ (t = TOwners /\ r = (o, n))).
  { intros t r. rewrite rows_set_rows. case_decide; subst; rewrite Hrows; set_solver. }
  set (ts2 := set_rows _ _ ts1) in *.
  assert (Hgn2 : group_names ts2 = group_names ts ++ [n]) by (unfold ts2; by rewrite group_names_set_rows).
  split; rewrite ?Hgn2.
  - apply NoDup_app. split_and!; [done|set_solver|apply NoDup_singleton].
  - intros t. unfold ts2. rewrite rows_set_rows. case_decide; [|by rewrite Hrows].
    rewrite Hrows in Hdup |- *. apply NoDup_app. split_and!; [done|set_solver|apply NoDup_singleton].
  - intros x Hx. apply (Ha x). eapply (tc_congruence id); [|exact Hx].
    intros a b Hab. apply (Hrt TGroupToGroup) in Hab. unfold pedge. naive_solver.
  - intros p c [H|[? ?]]%(Hrt TGroupToGroup); [|done]. apply Hc in H. set_solver.
  - intros p c [H|[? ?]]%(Hrt TOwnerGroups); [|done]. apply Ho in H. set_solver.
  - intros g. rewrite elem_of_app. intros [Hg|Hg].
    + destruct (Hw g Hg) as [u Hu]. exists u. apply (Hrt TOwners). by left.
    + exists o. apply (Hrt TOwners). set_solver.
Qed.

(** A run that ends well went well at each step. *)
Lemma run_bind_ok {A B} (m : go sqlE A) (f : A -> go sqlE B) d d' b :
  run h (m ≫= f) d = (d', Ok b) ->
  exists d1 a, run h m d = (d1, Ok a) /\ run h (f a) d1 = (d', Ok b).
Proof. rewrite run_mbind. destruct (run h m d) as [d1 [a| | |]]; naive_solver. Qed.

Lemma run_write_ok {A} (e : sqlE (outcome A)) (body : tables -> tables * outcome A) d d' a :
  h _ e d = serve drv d body -> run h (call e) d = (d', Ok a) -> body (tabs d) = (tabs d', Ok a).
Proof.
  intros He. rewrite run_call, He. unfold serve.
  destruct (fault drv (tick d)); [done|]. destruct (body (tabs d)). naive_solver.
Qed.

Lemma run_unique_ok msg k (m : go sqlE unit) d d' :
  run h (unique_as msg k m) d = (d', Ok tt) -> run h m d = (d', Ok tt).
Proof.
  unfold unique_as. rewrite run_handle. destruct (run h m d) as [d1 [[]|e| |]]; simpl; try naive_solver.
  by case_decide.
Qed.

Lemma keeps_CreateGroup o g : keeps (SQLiteStore.CreateGroup o g).
Proof.
  apply triple_in_tx; [unfold unique_as; solve_calls; done|].
  intros d HI d' (d1 & [] & H1 & H2)%run_bind_ok. apply run_unique_ok in H1.
  apply (run_write_ok _ (insert_group (gName g) (gDescription g))) in H1; [|done].
  apply (run_write_ok _ (insert_pair (foreign_keys drv) TOwners o (gName g))) in H2; [|done].
  by eapply group_with_owner_inv.
Qed.

Lemma init_loop_inv o gs d d' :
  store_inv (tabs d) ->
  run h (foreach (fun g => _ ← call (InsertGroup g "");
                           _ ← call (InsertPair TOwners o g);
                           call (InsertPair TUserToGroup o g)) gs) d = (d', Ok tt) ->
  store_inv (tabs d').
Proof.
  revert d. induction gs as [|g gs IH]; intros d HI; [by intros [= <-]|].
  intros (d3 & [] & H & Hrest)%run_bind_ok. eapply IH; [|exact Hrest].
  apply run_bind_ok in H as (d1 & [] & H1 & H).
  apply run_bind_ok in H as (d2 & [] & H2 & H3).
  apply (run_write_ok _ (insert_group g "")) in H1; [|done].
  apply (run_write_ok _ (insert_pair (foreign_keys drv) TOwners o g)) in H2; [|done].
  apply (run_write_ok _ (insert_pair (foreign_keys drv) TUserToGroup o g)) in H3; [|done].
  replace (tabs d3) with (insert_pair (foreign_keys drv) TUserToGroup o g (tabs d2)).1 by (by rewrite H3).
  apply insert_pair_inv; [done|]. by eapply group_with_owner_inv.
Qed.

Lemma keeps_Init o gs : keeps (SQLiteStore.Init o gs).
Proof.
  apply triple_in_tx; [solve_calls; done|].
  intros d HI d' (d1 & n & H1 & H2)%run_bind_ok.
  apply (run_write_ok _ (fun ts => (ts, Ok (length (groups ts))))) in H1; [|done].
  injection H1 as Ht _. destruct (negb _); [done|].
  eapply init_loop_inv; [|exact H2]. by rewrite <- Ht.
Qed.

(** *** The guarded edges *)

Lemma triple_exists {B} g P (Q : outcome B -> db -> Prop) :
  hoare h (on P) (SQLiteStore.DoesGroupExist g)
    (or_catch (fun b => on (fun ts => P ts /\ (b = true -> g ∈ group_names ts)))
       (fun _ => on P) Q).
Proof.
  eapply hoare_conseq;
    [apply (triple_query _ (fun ts => Ok (bool_decide (g ∈ group_names ts))) P)|by intros|].
  - done.
  - intros o s [Hs [HP [->|(e & n & _ & ->)]]]; simpl; (split; [done|]); [|done].
    split; [done|]. apply bool_decide_eq_true_1.
Qed.

Lemma triple_transitive (first : go sqlE (list Group)) (q : tables -> list Group) fuel vis P :
  hoare h (on P) first (fun o => on (fun ts => P ts /\ agrees drv (Ok (q ts)) o)) ->
  hoare h (on P) (gs ← first; r ← SQLiteStore.getAllParentGroupsRecursive fuel gs vis; mret r.1)
    (fun o => on (fun ts => P ts /\
       agrees drv (outcome_map fst (walk_result (dfs (parents ts) fuel (q ts) vis))) o)).
Proof.
  intros Hfirst.
  eapply hoare_mbind with (R := fun gs => on (fun ts => P ts /\ gs = q ts)).
  - eapply hoare_conseq; [exact Hfirst|by intros|].
    intros o s [Hs [HP [->|(e & n & Hf & ->)]]]; (split; [done|]); (split; [done|]); [done|].
    right; eauto.
  - intros gs. cbv beta.
    eapply hoare_mbind with (R := fun r => on (fun ts => P ts /\
      walk_result (dfs (parents ts) fuel (q ts) vis) = Ok r)).
    + eapply hoare_conseq; [apply triple_walk|by intros|].
      intros o s [Hs [[HP ->] [->|(e & n & Hf & ->)]]].
      * destruct (dfs _ _ _ _) as [r|] eqn:Hd; (split; [done|]); (split; [done|]); rewrite ?Hd; by try left.
      * split; [done|]. split; [done|]. right; eauto.
    + intros r. apply hoare_ret. intros s [Hs [HP Hr]]. split; [done|]. split; [done|].
      left. by rewrite Hr.
Qed.

Lemma triple_transitive_group fuel g P :
  hoare h (on P) (SQLiteStore.GetAllTransitiveGroupsForGroup fuel g)
    (fun o => on (fun ts => P ts /\
       agrees drv (outcome_map fst (walk_result (dfs (parents ts) fuel (parents ts g) {[g]}))) o)).
Proof.
  apply (triple_transitive _ (fun ts => parents ts g)).
  by apply (triple_query _ (fun ts => Ok (parents ts g)) P).
Qed.

Definition direct_groups (ts : tables) (user : string) : list Group := select_join TUserToGroup CSnd user ts.

Lemma triple_transitive_user fuel u P :
  hoare h (on P) (SQLiteStore.GetAllTransitiveGroupsForUser fuel u)
    (fun o => on (fun ts => P ts /\
       agrees drv (outcome_map fst (walk_result (dfs (parents ts) fuel (direct_groups ts u) ∅))) o)).
Proof.
  apply (triple_transitive _ (fun ts => direct_groups ts u)).
  by apply (triple_query _ (fun ts => Ok (direct_groups ts u)) P).
Qed.

(** With the invariant, the JOIN sees every edge. *)
Lemma member_edge_inv ts c p : store_inv ts -> member_edge ts c p <-> pedge ts c p.
Proof.
  intros HI. split; [by intros []|]. intros Hp. split; [done|]. by apply (inv_children ts HI p c).
Qed.

(** The names the walk from a group returns: its ancestors. *)
Lemma ancestors_names ts fuel g res v :
  store_inv ts -> dfs (parents ts) fuel (parents ts g) {[g]} = Some (res, v) ->
  forall n, n ∈ names res <-> tc (pedge ts) g n.
Proof.
  intros HI Hd n. destruct (dfs_ancestors _ _ _ _ _ Hd) as [_ Hn]. rewrite Hn. split.
  - intros [Ht _]. eapply (tc_congruence id); [|exact Ht]. intros x y Hxy.
    by apply edge_parents in Hxy as [? _].
  - intros Ht. split; [|intros ->; by apply (inv_acyclic ts HI g)].
    eapply (tc_congruence id); [|exact Ht]. intros x y Hxy. by apply edge_parents, member_edge_inv.
Qed.

Lemma not_ancestor_no_path ts fuel p c res v :
  store_inv ts -> p <> c -> dfs (parents ts) fuel (parents ts p) {[p]} = Some (res, v) ->
  existsb (fun g => String.eqb (gName g) c) res = false -> ~ rtc (pedge ts) p c.
Proof.
  intros HI Hne Hd He Hr. apply rtc_inv in Hr as [|(y & Hy & Hr)]; [done|].
  assert (Hc : c ∈ names res).
  { apply (ancestors_names ts fuel p res v HI Hd). eapply tc_rtc_r; [apply tc_once, Hy|done]. }
  apply elem_of_names in Hc as (g & Hg & <-).
  enough (existsb (fun g0 => String.eqb (gName g0) (gName g)) res = true) by congruence.
  apply existsb_exists. exists g. split; [by apply list_elem_of_In|]. by apply String.eqb_refl.
Qed.

Lemma guarded_insert t a b msg P :
  (forall ts, P ts -> store_inv ts /\ row_ok t a b ts) ->
  hoare h (on P) (unique_as msg KUnique (call (InsertPair t a b))) (fun _ => on store_inv).
Proof.
  intros HP. apply triple_unique_as; [|done].
  apply (triple_write _ (insert_pair (foreign_keys drv) t a b) _ (fun _ => store_inv)); [done| |].
  - intros ts Hts. apply HP in Hts as [? ?]. by apply insert_pair_inv.
  - intros ts _ Hts. by apply HP in Hts as [? ?].
Qed.

Lemma keeps_AddOwnerGroup a b : keeps (SQLiteStore.AddOwnerGroup a b).
Proof.
  unfold SQLiteStore.AddOwnerGroup. case_decide as Hne; [by apply hoare_ret|].
  eapply hoare_handle; [apply (triple_exists b store_inv)|intros e; by apply hoare_ret|intros e1].
  destruct e1; cbn [negb]; [|apply hoare_ret; by intros s (? & ? & ?)].
  eapply hoare_handle; [apply triple_exists|intros e; apply hoare_ret; by intros s (? & ? & ?)|intros e2].
  destruct e2; cbn [negb]; [|apply hoare_ret; by intros s (? & [? ?] & ?)].
  apply guarded_insert. intros ts [[HI H1] H2]. split; [done|]. split_and!; auto.
Qed.

Lemma keeps_AddChildGroup fuel p c : keeps (SQLiteStore.AddChildGroup fuel p c).
Proof.
  unfold SQLiteStore.AddChildGroup. case_decide as Hne; [by apply hoare_ret|].
  eapply hoare_handle; [apply (triple_exists p store_inv)|intros e; by apply hoare_ret|intros e1].
  destruct e1; cbn [negb]; [|apply hoare_ret; by intros s (? & ? & ?)].
  eapply hoare_handle; [apply triple_exists|intros e; apply hoare_ret; by intros s (? & ? & ?)|intros e2].
  destruct e2; cbn [negb]; [|apply hoare_ret; by intros s (? & [? ?] & ?)].
  eapply hoare_mbind with (R := fun gs => on (fun ts =>
    (store_inv ts /\ p ∈ group_names ts /\ c ∈ group_names ts) /\
    exists v, dfs (parents ts) fuel (parents ts p) {[p]} = Some (gs, v))).
  { eapply hoare_conseq; [apply triple_transitive_group|intros s Hs; exact Hs|].
    intros o s [Hs [[[HI H1] H2] [->|(e & n & Hf & ->)]]]; [|by split].
    destruct (dfs _ _ _ _) as [[gs v]|] eqn:Hd; simpl; (split; [done|]); [|done].
    split; [by auto|]. by exists v. }
  intros gs. cbv beta. destruct (existsb _ gs) eqn:He.
  { apply hoare_ret. by intros s (? & (? & ?) & ?). }
  apply guarded_insert. intros ts [(HI & H1 & H2) [v Hd]]. split; [done|].
  split_and!; [done|done|]. by eapply not_ancestor_no_path.
Qed.

(** *** All methods *)

Lemma keeps_reading {A} (p : go sqlE A) : calls (fun X e => reading e) p -> keeps p.
Proof. intros Hp. by apply triple_reading. Qed.

Lemma reading_walk fuel gs vis :
  calls (fun X e => reading e) (SQLiteStore.getAllParentGroupsRecursive fuel gs vis).
Proof.
  revert gs vis. induction fuel as [|fuel IH]; [done|].
  induction gs as [|g gs IHg]; intros vis; [done|].
  rewrite walk_cons. case_decide; [apply IHg|].
  apply calls_mbind; [by apply calls_call|]. intros p.
  apply calls_mbind; [apply IH|]. intros r.
  apply calls_mbind; [apply IHg|]. done.
Qed.

Lemma keeps_method fuel A (p : go sqlE A) : method (sqlite_store fuel) A p -> keeps p.
Proof.
  intros [];
    first [ apply keeps_Init | apply keeps_CreateGroup | apply keeps_AddChildGroup
          | apply keeps_AddOwnerGroup | apply keeps_AddGroupMember | apply keeps_AddGroupOwner
          | apply keeps_RemoveFromGroupToGroup | by apply keeps_RemoveUserFromTable
          | apply keeps_reading; by apply calls_call
          | apply keeps_reading; apply calls_mbind; [by apply calls_call|]; intros gs;
            apply calls_mbind; [apply reading_walk|done] ].
Qed.

Lemma reach_inv fuel d :
  saved d = None -> store_inv (tabs d) ->
  forall A (p : go sqlE A), method (sqlite_store fuel) A p ->
  saved (run h p d).1 = None /\ store_inv (tabs (run h p d).1).
Proof. intros Hs HI A p Hp. by apply (keeps_method fuel A p Hp d). Qed.
End Driver.
