(* ===== verification/MembershipsTheorems.v ===== *)
(** * Group memberships: the theorems of the store *)
From S2P Require Import Prelude GoLib MembershipsStore MembershipsGraph MembershipsInv MembershipsCorrect.
Open Scope string_scope.
Open Scope list_scope.

(** The databases a sequence of method calls can produce from the empty one,
    under a driver that may fail any call. *)
Inductive reachable (drv : driver) : db -> Prop :=
  | reach_new : reachable drv fresh_db
  | reach_call fuel A (p : go sqlE A) d :
      reachable drv d -> method (sqlite_store fuel) A p ->
      reachable drv (run (sql_step drv) p d).1.

Lemma reachable_inv drv d : reachable drv d -> saved d = None /\ store_inv (tabs d).
Proof.
  induction 1 as [|fuel A p d _ [Hs HI] Hp]; [split; [done|apply store_inv_empty]|].
  by apply (reach_inv drv fuel).
Qed.

(** A driver whose calls succeed. *)
Definition quiet (drv : driver) : Prop := forall n, fault drv n = None.

Definition quiet_driver (fk : bool) : driver :=
  MkDriver fk (fun _ => None) (fun _ _ _ ts => (ts, Err (errorf "no such table")))
    (fun _ _ _ => Err (errorf "no such table")).

Lemma quiet_agrees drv {A} (x o : outcome A) : quiet drv -> agrees drv x o -> o = x.
Proof. intros Hq [->|(e & n & Hf & _)]; [done|]. by rewrite Hq in Hf. Qed.

Lemma quiet_serve drv {A} (e : sqlE (outcome A)) body d :
  quiet drv -> sql_step drv _ e d = serve drv d body ->
  run (sql_step drv) (call e) d = (MkDb (body (tabs d)).1 (saved d) (S (tick d)), (body (tabs d)).2).
Proof.
  intros Hq He. rewrite run_call, He. unfold serve. rewrite Hq. by destruct (body (tabs d)).
Qed.

Lemma size_names ts : size (list_to_set (C:=gset string) (group_names ts)) <= length (groups ts).
Proof.
  unfold group_names. rewrite <- (length_map gName). induction (map gName (groups ts)) as [|n l IH]; [done|].
  cbn [list_to_set length foldr]. rewrite size_union_alt, size_singleton.
  assert (size (list_to_set l ∖ {[n]} : gset string) <= size (list_to_set l : gset string))
    by (apply subseteq_size; set_solver). lia.
Qed.

(** More fuel than groups is enough for a walk from rows of the groups table. *)
Lemma walk_total ts fuel gs vis :
  length (groups ts) < fuel -> (forall g, g ∈ gs -> g ∈ groups ts) ->
  is_Some (dfs (parents ts) fuel gs vis).
Proof.
  intros Hf Hgs. apply (dfs_total _ (list_to_set (group_names ts))).
  - intros n m [_ Hm]%edge_parents. by apply elem_of_list_to_set.
  - intros n (g & Hg & <-)%elem_of_names. apply elem_of_list_to_set, list_elem_of_fmap. eauto.
  - eapply Nat.le_lt_trans; [|exact Hf]. etransitivity; [|apply size_names].
    apply subseteq_size. set_solver.
Qed.

Lemma select_join_rows t on v ts g : g ∈ select_join t on v ts -> g ∈ groups ts.
Proof. by intros [? _]%elem_of_select_join. Qed.

Lemma direct_groups_names ts u n :
  n ∈ names (direct_groups ts u) <-> (u, n) ∈ user_to_group ts /\ n ∈ group_names ts.
Proof.
  unfold direct_groups. rewrite elem_of_names. setoid_rewrite elem_of_select_join. split.
  - intros (g & (Hg & [a b] & Hr & Ha & Hb) & <-). simpl in *. subst.
    split; [done|]. apply list_elem_of_fmap. eauto.
  - intros [Hr (g & -> & Hg)%list_elem_of_fmap]. exists g. split; [|done].
    split; [done|]. by exists (u, gName g).
Qed.

Lemma run_transitive_user drv fuel u d :
  quiet drv -> saved d = None ->
  exists d', run (sql_step drv) (SQLiteStore.GetAllTransitiveGroupsForUser fuel u) d =
    (d', outcome_map fst (walk_result (dfs (parents (tabs d)) fuel (direct_groups (tabs d) u) ∅)))
    /\ same_db d d'.
Proof.
  intros Hq Hs.
  destruct (triple_transitive_user drv fuel u (eq (tabs d)) d) as [Hs' [Ht Ha]]; [by split|].
  destruct (run _ _ d) as [d' o]; simpl in *. apply (quiet_agrees drv) in Ha; [|done].
  exists d'. rewrite <- Ht in Ha. subst o. split; [done|]. split; congruence.
Qed.

Lemma run_transitive_group drv fuel g d :
  quiet drv -> saved d = None ->
  exists d', run (sql_step drv) (SQLiteStore.GetAllTransitiveGroupsForGroup fuel g) d =
    (d', outcome_map fst (walk_result (dfs (parents (tabs d)) fuel (parents (tabs d) g) {[g]})))
    /\ same_db d d'.
Proof.
  intros Hq Hs.
  destruct (triple_transitive_group drv fuel g (eq (tabs d)) d) as [Hs' [Ht Ha]]; [by split|].
  destruct (run _ _ d) as [d' o]; simpl in *. apply (quiet_agrees drv) in Ha; [|done].
  exists d'. rewrite <- Ht in Ha. subst o. split; [done|]. split; congruence.
Qed.

Lemma rtc_member_edge ts n m : store_inv ts -> rtc (edge (parents ts)) n m <-> rtc (pedge ts) n m.
Proof.
  intros HI. split; intros H; eapply (rtc_congruence id); try exact H;
    intros x y Hxy; [by apply edge_parents in Hxy as [? _]|].
  by apply edge_parents, member_edge_inv.
Qed.

(** ** The functional behaviour of AddChildGroup *)

(** When a new edge is accepted. *)
Definition child_ok (p c : string) (ts : tables) : Prop :=
  p <> c /\ p ∈ group_names ts /\ c ∈ group_names ts /\ ~ tc (pedge ts) p c /\ (p, c) ∉ group_to_group ts.

Lemma existsb_names c gs : existsb (fun g => String.eqb (gName g) c) gs = true <-> c ∈ names gs.
Proof.
  rewrite existsb_exists, elem_of_names. setoid_rewrite <- list_elem_of_In.
  by setoid_rewrite String.eqb_eq.
Qed.

Lemma insert_child_fresh fk p c ts :
  p ∈ group_names ts -> c ∈ group_names ts -> (p, c) ∉ group_to_group ts ->
  insert_pair fk TGroupToGroup p c ts =
    (set_rows TGroupToGroup (group_to_group ts ++ [(p, c)]) ts, Ok tt).
Proof.
  intros Hp Hc Hn. unfold insert_pair, fk_ok; cbn [references forallb fst snd rows].
  rewrite !(bool_decide_eq_true_2 (_ ∈ group_names _)) by done.
  by rewrite andb_false_r, bool_decide_eq_false_2.
Qed.

Lemma run_insert_child drv p c msg d :
  quiet drv -> p ∈ group_names (tabs d) -> c ∈ group_names (tabs d) ->
  exists o, run (sql_step drv) (unique_as msg KUnique (call (InsertPair TGroupToGroup p c))) d =
    (MkDb (if decide ((p, c) ∈ group_to_group (tabs d)) then tabs d
           else set_rows TGroupToGroup (group_to_group (tabs d) ++ [(p, c)]) (tabs d))
       (saved d) (S (tick d)), o) /\
    (((p, c) ∈ group_to_group (tabs d) /\ (exists e, o = Err e)) \/
     (((p, c) ∉ group_to_group (tabs d)) /\ o = Ok tt)).
Proof.
  intros Hq Hp Hc. unfold unique_as. rewrite run_handle.
  rewrite (quiet_serve drv _ (insert_pair (foreign_keys drv) TGroupToGroup p c)) by done.
  destruct (decide ((p, c) ∈ group_to_group (tabs d))) as [Hin|Hin].
  - unfold insert_pair. rewrite bool_decide_eq_true_2 by done. cbn -[decide].
    eexists. split; [reflexivity|]. left. split; [done|]. by eexists.
  - rewrite insert_child_fresh by done. eexists. split; [reflexivity|]. by right.
Qed.

Lemma run_child_checked drv fuel p c d :
  quiet drv -> saved d = None -> store_inv (tabs d) -> length (groups (tabs d)) < fuel ->
  p <> c -> p ∈ group_names (tabs d) -> c ∈ group_names (tabs d) ->
  exists gs d', run (sql_step drv) (SQLiteStore.GetAllTransitiveGroupsForGroup fuel p) d = (d', Ok gs)
    /\ same_db d d' /\ (c ∈ names gs <-> tc (pedge (tabs d)) p c).
Proof.
  intros Hq Hs HI Hf Hne Hp Hc.
  destruct (run_transitive_group drv fuel p d Hq Hs) as (d' & Hr & Hd).
  destruct (walk_total (tabs d) fuel (parents (tabs d) p) {[p]} Hf) as [[gs v] Hw];
    [intros g; apply select_join_rows|].
  rewrite Hw in Hr. exists gs, d'. split; [done|]. split; [done|].
  by apply (ancestors_names _ fuel p gs v).
Qed.

(** A call of a method on a quiet driver that reads one fact. *)
Lemma run_exists drv g d :
  quiet drv ->
  run (sql_step drv) (SQLiteStore.DoesGroupExist g) d =
    (MkDb (tabs d) (saved d) (S (tick d)), Ok (bool_decide (g ∈ group_names (tabs d)))).
Proof.
  intros Hq. unfold SQLiteStore.DoesGroupExist.
  by rewrite (quiet_serve drv _ (fun ts => (ts, Ok (bool_decide (g ∈ group_names ts))))).
Qed.

Definition child_done (p c : string) (d d' : db) (o : outcome unit) : Prop :=
  (child_ok p c (tabs d) /\ o = Ok tt /\
    tabs d' = set_rows TGroupToGroup (group_to_group (tabs d) ++ [(p, c)]) (tabs d)) \/
  (~ child_ok p c (tabs d) /\ (exists e, o = Err e) /\ tabs d' = tabs d).

Lemma child_done_err p c d d' e : ~ child_ok p c (tabs d) -> tabs d' = tabs d -> child_done p c d d' (Err e).
Proof. right. eauto. Qed.

Lemma run_AddChildGroup drv fuel p c d :
  quiet drv -> saved d = None -> store_inv (tabs d) -> length (groups (tabs d)) < fuel ->
  exists d' o, run (sql_step drv) (SQLiteStore.AddChildGroup fuel p c) d = (d', o) /\ child_done p c d d' o.
Proof.
  intros Hq Hs HI Hf. unfold SQLiteStore.AddChildGroup.
  case_decide as Hne; [do 2 eexists; split; [reflexivity|by apply child_done_err; [intros []|]]|].
  rewrite run_handle, run_exists by done. case_bool_decide as Hp; cbn [negb];
    [|do 2 eexists; split; [reflexivity|by apply child_done_err; [intros (? & ? & ?)|]]].
  rewrite run_handle, run_exists by done. cbn [tabs]. case_bool_decide as Hc; cbn [negb];
    [|do 2 eexists; split; [reflexivity|by apply child_done_err; [intros (? & ? & ? & ?)|]]].
  rewrite run_mbind. cbn [tabs saved tick].
  match goal with |- context [run _ (SQLiteStore.GetAllTransitiveGroupsForGroup _ _) ?d1] => set (d1' := d1) end.
  destruct (run_child_checked drv fuel p c d1' Hq Hs HI Hf Hne Hp Hc) as (gs & d2 & -> & [Ht2 Hs2] & Hgs).
  simpl in Ht2, Hs2, Hgs. destruct (existsb _ gs) eqn:He.
  - apply existsb_names, Hgs in He. do 2 eexists; split; [reflexivity|].
    by apply child_done_err; [intros (? & ? & ? & ? & ?)|].
  - assert (Hno : ~ tc (pedge (tabs d)) p c).
    { intros Hn%Hgs%existsb_names. congruence. }
    edestruct (run_insert_child drv p c) with (d := d2) as (o & -> & Ho); [done|by rewrite Ht2..|].
    do 2 eexists; split; [reflexivity|]. rewrite Ht2 in Ho |- *.
    destruct Ho as [[Hin [e ->]]|[Hnin ->]].
    + rewrite decide_True by done. by apply child_done_err; [intros (? & ? & ? & ? & ?)|].
    + rewrite decide_False by done. left. done.
Qed.

(** ** Initialisation *)

Definition init_tables (owner : string) (gs : list string) (ts : tables) : tables :=
  MkTables (groups ts ++ map (fun g => MkGroup g "") gs) (owners ts ++ map (pair owner) gs)
    (owner_groups ts) (group_to_group ts) (user_to_group ts ++ map (pair owner) gs).

Lemma init_tables_cons o g gs ts :
  init_tables o (g :: gs) ts = init_tables o gs (init_tables o [g] ts).
Proof. unfold init_tables; simpl. by rewrite <- !(assoc_L (++)). Qed.

Lemma run_init_loop drv o gs d d' :
  run (sql_step drv) (foreach (fun g => _ ← call (InsertGroup g "");
                           _ ← call (InsertPair TOwners o g);
                           call (InsertPair TUserToGroup o g)) gs) d = (d', Ok tt) ->
  tabs d' = init_tables o gs (tabs d).
Proof.
  revert d. induction gs as [|g gs IH]; intros d.
  { intros [= <-]. unfold init_tables. simpl. rewrite !(right_id_L [] (++)). by destruct (tabs d). }
  intros (d3 & [] & H & Hrest)%run_bind_ok. rewrite (IH _ Hrest), init_tables_cons. f_equal.
  apply run_bind_ok in H as (d1 & [] & H1 & H).
  apply run_bind_ok in H as (d2 & [] & H2 & H3).
  apply (run_write_ok _ _ (insert_group g "")) in H1; [|done].
  apply (run_write_ok _ _ (insert_pair (foreign_keys drv) TOwners o g)) in H2; [|done].
  apply (run_write_ok _ _ (insert_pair (foreign_keys drv) TUserToGroup o g)) in H3; [|done].
  unfold insert_group in H1. unfold insert_pair in H2, H3.
  repeat case_bool_decide; try done.
  destruct (_ && _) in H2; [done|]. destruct (_ && _) in H3; [done|].
  injection H1 as H1. injection H2 as H2. injection H3 as H3.
  rewrite <- H3, <- H2, <- H1. by destruct (tabs d).
Qed.

Lemma transitive_user_names drv fuel u d :
  quiet drv -> reachable drv d -> length (groups (tabs d)) < fuel ->
  exists d' gs, run (sql_step drv) (SQLiteStore.GetAllTransitiveGroupsForUser fuel u) d = (d', Ok gs) /\
    same_db d d' /\ NoDup (names gs) /\
    forall n, n ∈ names gs <->
      exists g, (u, g) ∈ user_to_group (tabs d) /\ g ∈ group_names (tabs d) /\ rtc (pedge (tabs d)) g n.
Proof.
  intros Hq [Hs HI]%reachable_inv Hf.
  destruct (run_transitive_user drv fuel u d Hq Hs) as (d' & Hr & Hd).
  destruct (walk_total (tabs d) fuel (direct_groups (tabs d) u) ∅ Hf) as [[gs v] Hw];
    [intros g; apply select_join_rows|].
  rewrite Hw in Hr. exists d', gs. split; [done|]. split; [done|].
  destruct (dfs_reach _ _ _ _ _ Hw) as [Hn He]. split; [done|].
  intros n. rewrite He. setoid_rewrite direct_groups_names.
  setoid_rewrite (rtc_member_edge _ _ _ HI). naive_solver.
Qed.

(** ** The properties *)

(** C1. whatever methods of the store are called, in whatever order, with
    whatever arguments - the table of [RemoveUserFromTable] being one of the two
    the handlers name - and whichever of the driver's calls fail, no transaction
    stays open, no row or group is duplicated, the group graph is acyclic, rows
    of the two group relations name existing groups, no group owns itself, and
    every group keeps an owner. *)
Theorem store_invariant drv d :
  reachable drv d ->
  saved d = None /\ NoDup (group_names (tabs d)) /\ (forall t, NoDup (rows t (tabs d))) /\
  (forall n, ~ tc (pedge (tabs d)) n n) /\
  (forall p c, (p, c) ∈ group_to_group (tabs d) -> p ∈ group_names (tabs d) /\ c ∈ group_names (tabs d)) /\
  (forall a b, (a, b) ∈ owner_groups (tabs d) ->
     a <> b /\ a ∈ group_names (tabs d) /\ b ∈ group_names (tabs d)) /\
  (forall g, g ∈ group_names (tabs d) -> exists u, (u, g) ∈ owners (tabs d)).
Proof. by intros [Hs []]%reachable_inv. Qed.

(** C2. the groups of a user: the walk over the parents ends, lists no group
    twice, and lists exactly the groups the user was put in and all their
    ancestors. *)
Theorem transitive_groups_exact drv fuel u d :
  quiet drv -> reachable drv d -> length (groups (tabs d)) < fuel ->
  exists d' gs, run (sql_step drv) (SQLiteStore.GetAllTransitiveGroupsForUser fuel u) d = (d', Ok gs) /\
    same_db d d' /\ NoDup (names gs) /\
    forall n, n ∈ names gs <->
      exists g, (u, g) ∈ user_to_group (tabs d) /\ g ∈ group_names (tabs d) /\ rtc (pedge (tabs d)) g n.
Proof. apply transitive_user_names. Qed.

(** C3. [AddChildGroup] for two different names, on a database it can be in,
    with a driver that does not fail: it succeeds exactly when both groups
    exist, the edge is new, and it closes no cycle; then the edge is the only
    change, and in every other case nothing changes and the caller gets an
    error. *)
Theorem AddChildGroup_spec drv fuel p c d :
  p <> c -> quiet drv -> reachable drv d -> length (groups (tabs d)) < fuel ->
  exists d' o, run (sql_step drv) (SQLiteStore.AddChildGroup fuel p c) d = (d', o) /\ child_done p c d d' o.
Proof. intros _ Hq [Hs HI]%reachable_inv Hf. by apply run_AddChildGroup. Qed.

(** A group is not put below itself, whatever the database and the driver. *)
Theorem AddChildGroup_self drv fuel g d :
  exists e, run (sql_step drv) (SQLiteStore.AddChildGroup fuel g g) d = (d, Err e).
Proof. unfold SQLiteStore.AddChildGroup. rewrite decide_True by done. by eexists. Qed.

(** The last owner goes when the table is named in other letters: the guard
    compares the text, SQLite the name. *)
Theorem other_letters_orphan drv u g d :
  quiet drv -> (u, g) ∈ owners (tabs d) ->
  exists d', run (sql_step drv) (SQLiteStore.RemoveUserFromTable u g "OWNERS") d = (d', Ok tt) /\
    owners (tabs d') = filter (fun r => r <> (u, g)) (owners (tabs d)).
Proof.
  intros Hq Hu. unfold SQLiteStore.RemoveUserFromTable. rewrite run_mbind.
  cbn [String.eqb Ascii.eqb Bool.eqb].
  change (run (sql_step drv) (mret tt) d) with (d, Ok tt : outcome unit). cbv iota beta.
  rewrite run_mbind, (quiet_serve drv _ (delete_user drv "OWNERS" u g)) by done.
  change (delete_user drv "OWNERS" u g (tabs d)) with (delete_pair TOwners u g (tabs d)).
  unfold delete_pair. cbn [fst snd rows].
  assert (length (filter (fun r => r <> (u, g)) (owners (tabs d))) < length (owners (tabs d))) as Hl.
  { apply (length_filter_lt _ (owners (tabs d)) (u, g)); [done|]. by intros []. }
  destruct (Nat.eqb_spec (length (owners (tabs d)) - length (filter (fun r => r <> (u, g)) (owners (tabs d)))) 0); [lia|].
  eexists. split; [reflexivity|]. by destruct (tabs d).
Qed.

(** [Init] is all or nothing under any driver: success means that there
    were no groups and that exactly the named ones were created, owned by and
    containing the given user; any other answer leaves the tables unchanged. *)
Theorem Init_all_or_nothing drv fuel o gs d :
  reachable drv d ->
  exists d' r, run (sql_step drv) (Init (Store := sqlite_store fuel) o gs) d = (d', r) /\
    ((r = Ok tt /\ groups (tabs d) = [] /\ tabs d' = init_tables o gs (tabs d)) \/
     (r <> Ok tt /\ tabs d' = tabs d)).
Proof.
  intros [Hs HI]%reachable_inv. change (Init o gs) with (SQLiteStore.Init o gs). unfold SQLiteStore.Init.
  match goal with |- context [in_tx ?b] => pose proof (in_tx_cases drv b d) as Htx end.
  destruct Htx as (d' & r & -> & _ & [[Ht Hr] | H]); [solve_calls; done|done| |].
  - exists d', r. by split; [|right].
  - destruct H as (d1 & d2 & [Ht1 _] & H & Ht2 & ->). exists d', (Ok tt). split; [done|]. left. split; [done|].
    apply run_bind_ok in H as (d3 & n & H1 & H2). simpl in Ht1.
    apply (run_write_ok _ _ (fun ts => (ts, Ok (length (groups ts))))) in H1; [|done].
    injection H1 as Ht3 Hn. destruct (Nat.eqb_spec n 0) as [->|]; [|done]. simpl in H2.
    apply run_init_loop in H2. rewrite Ht2, H2, <- Ht3, Ht1. split; [|done].
    rewrite Ht1 in Hn. by destruct (groups (tabs d)).
Qed.

(** ** Interleaved calls

    The methods check first and write later, outside a transaction; the two
    theorems below give schedules of two calls that break what [store_invariant]
    shows for calls that do not overlap. *)

Lemma quiet_query drv {A} d (q : tables -> outcome A) :
  quiet drv -> query drv d q = (MkDb (tabs d) (saved d) (S (tick d)), q (tabs d)).
Proof. intros Hq. unfold query, serve. by rewrite Hq. Qed.

Lemma quiet_write drv {A} d (body : tables -> tables * outcome A) :
  quiet drv -> serve drv d body = (MkDb (body (tabs d)).1 (saved d) (S (tick d)), (body (tabs d)).2).
Proof. intros Hq. unfold serve. rewrite Hq. by destruct (body (tabs d)). Qed.

Lemma run_sched_cons {E S A} (h : handler E S) i sched (pool : list (prog E A)) p s :
  pool !! i = Some p ->
  run_sched h (i :: sched) pool s =
    let '(p', s') := step_prog h p s in run_sched h sched (<[i := p']> pool) s'.
Proof. intros Hi. simpl. by rewrite Hi. Qed.

Lemma select_join_nil t on v ts : rows t ts = [] -> select_join t on v ts = [].
Proof. intros Hr. unfold select_join. rewrite Hr. by induction (groups ts). Qed.

Lemma run_sched_vis {E S A X} (h : handler E S) i sched (pool : list (prog E A)) (e : E X) k s s' x :
  pool !! i = Some (Vis e k) -> h X e s = (s', x) ->
  run_sched h (i :: sched) pool s = run_sched h sched (<[i := k x]> pool) s'.
Proof. intros Hi He. simpl. by rewrite Hi; simpl; rewrite He. Qed.

(** Steps of a schedule on a quiet driver; [norm] decides the tests in between. *)
Ltac sched_step Hq norm :=
  erewrite run_sched_vis; [ | reflexivity
    | simpl; first [rewrite (quiet_query _ _ _ Hq) | rewrite (quiet_write _ _ _ Hq)]; reflexivity ];
  cbn [insert list_insert tabs saved tick]; norm.

(** C4. two interleaved calls of [AddChildGroup] build a cycle of two groups,
    and both report success. *)
Theorem concurrent_AddChildGroup_cycle drv fuel p c d :
  quiet drv -> 0 < fuel -> p <> c -> p ∈ group_names (tabs d) -> c ∈ group_names (tabs d) ->
  group_to_group (tabs d) = [] ->
  exists pool d', run_sched (sql_step drv) [0; 0; 0; 1; 1; 1; 0; 1]
    [SQLiteStore.AddChildGroup fuel p c; SQLiteStore.AddChildGroup fuel c p] d = (pool, d') /\
    pool_results pool = [Some (Ok tt); Some (Ok tt)] /\ tc (pedge (tabs d')) p p.
Proof.
  intros Hq Hf Hne Hp Hc Hg. destruct fuel as [|fuel]; [lia|].
  assert (Hpar : forall n, select_join TGroupToGroup CFst n (tabs d) = []) by (intros; by apply select_join_nil).
  unfold SQLiteStore.AddChildGroup. rewrite !decide_False by congruence.
  do 6 sched_step Hq ltac:(rewrite ?Hpar, ?(bool_decide_eq_true_2 _ Hp), ?(bool_decide_eq_true_2 _ Hc); cbn [negb]).
  sched_step Hq idtac. rewrite insert_child_fresh by (done || rewrite Hg; set_solver). cbn [fst snd].
  sched_step Hq idtac.
  rewrite insert_child_fresh
    by (rewrite ?group_names_set_rows; try done; destruct (tabs d); simpl in *; rewrite Hg; set_solver).
  do 2 eexists. split; [reflexivity|]. split; [done|]. cbn [tabs fst].
  eapply tc_l with c; [|apply tc_once]; unfold pedge; destruct (tabs d); simpl in *; rewrite Hg; set_solver.
Qed.

(** two owners leave a group at the same time: each call sees the other
    owner, both succeed, and the group is left without an owner. *)
Theorem concurrent_RemoveUserFromTable_orphans drv g u v d :
  quiet drv -> u <> v -> owners (tabs d) = [(u, g); (v, g)] ->
  exists pool d', run_sched (sql_step drv) [0; 1; 0; 1]
    [SQLiteStore.RemoveUserFromTable u g "owners"; SQLiteStore.RemoveUserFromTable v g "owners"] d = (pool, d') /\
    pool_results pool = [Some (Ok tt); Some (Ok tt)] /\ owners (tabs d') = [].
Proof.
  intros Hq Hne Ho.
  assert (Hsel : select_users TOwners g (tabs d) = [u; v]).
  { unfold select_users; simpl. rewrite Ho. rewrite !filter_cons_True by done. done. }
  do 2 sched_step Hq ltac:(rewrite ?Hsel; cbn [length Nat.eqb]).
  sched_step Hq idtac. unfold delete_user, delete_pair; simpl.
  rewrite !Ho. rewrite filter_cons_False, filter_cons_True by naive_solver. rewrite filter_nil. simpl.
  rewrite (quiet_write _ _ _ Hq). unfold delete_user, delete_pair; simpl. destruct (tabs d); simpl in *.
  rewrite filter_cons_False, filter_nil by naive_solver. by do 2 eexists.
Qed.

(** ** Witnesses: a small store built by calls *)

Definition demo_driver : driver := quiet_driver true.
Definition demo_step (d : db) (p : go sqlE unit) : db := (run (sql_step demo_driver) p d).1.

Lemma reach_demo fuel d p :
  reachable demo_driver d -> method (sqlite_store fuel) unit p -> reachable demo_driver (demo_step d p).
Proof. intros Hd Hp. by eapply reach_call. Qed.

(** Three groups, alice in "dev", and "dev" below "eng". *)
Definition demo_db : db :=
  foldl demo_step fresh_db
    [SQLiteStore.Init "root" ["eng"; "dev"; "ops"]; SQLiteStore.AddGroupMember "alice" "dev";
     SQLiteStore.AddChildGroup 10 "eng" "dev"].

Lemma demo_reachable : reachable demo_driver demo_db.
Proof.
  unfold demo_db; cbn [foldl].
  apply (reach_demo 10); [|apply (m_AddChildGroup (sqlite_store 10))].
  apply (reach_demo 10); [|apply (m_AddGroupMember (sqlite_store 10))].
  apply (reach_demo 10); [|apply (m_Init (sqlite_store 10))]. constructor.
Qed.

Lemma store_invariant_witness : ~ tc (pedge (tabs demo_db)) "eng" "eng".
Proof. apply (store_invariant demo_driver demo_db demo_reachable). Defined.

Lemma transitive_groups_exact_witness :
  exists d' gs, run (sql_step demo_driver) (SQLiteStore.GetAllTransitiveGroupsForUser 4 "alice") demo_db = (d', Ok gs)
    /\ "eng" ∈ names gs.
Proof.
  destruct (transitive_groups_exact demo_driver 4 "alice" demo_db) as (d' & gs & Hr & _ & _ & Hn);
    [done|exact demo_reachable|vm_compute; lia|].
  exists d', gs. split; [exact Hr|]. apply Hn. exists "dev".
  split; [by apply (bool_decide_unpack _); vm_compute|].
  split; [by apply (bool_decide_unpack _); vm_compute|].
  apply rtc_once. unfold pedge. by apply (bool_decide_unpack _); vm_compute.
Defined.

(** The edge that would close the cycle is refused. *)
Lemma AddChildGroup_spec_witness :
  exists d' o, run (sql_step demo_driver) (SQLiteStore.AddChildGroup 4 "dev" "eng") demo_db = (d', o) /\
    child_done "dev" "eng" demo_db d' o.
Proof. apply AddChildGroup_spec; [done|done|exact demo_reachable|vm_compute; lia]. Defined.

Lemma Init_all_or_nothing_witness :
  exists d' r, run (sql_step demo_driver) (Init (Store := sqlite_store 4) "root" ["x"]) demo_db = (d', r) /\
    ((r = Ok tt /\ groups (tabs demo_db) = [] /\ tabs d' = init_tables "root" ["x"] (tabs demo_db)) \/
     (r <> Ok tt /\ tabs d' = tabs demo_db)).
Proof. apply (Init_all_or_nothing demo_driver 4 _ _ demo_db), demo_reachable. Defined.

Definition flat_db : db := demo_step fresh_db (SQLiteStore.Init "root" ["a"; "b"]).

Lemma concurrent_AddChildGroup_cycle_witness :
  exists pool d', run_sched (sql_step demo_driver) [0; 0; 0; 1; 1; 1; 0; 1]
    [SQLiteStore.AddChildGroup 5 "a" "b"; SQLiteStore.AddChildGroup 5 "b" "a"] flat_db = (pool, d') /\
    pool_results pool = [Some (Ok tt); Some (Ok tt)] /\ tc (pedge (tabs d')) "a" "a".
Proof.
  apply concurrent_AddChildGroup_cycle; try done; try lia;
    by apply (bool_decide_unpack _); vm_compute.
Defined.

Definition two_owner_db : db :=
  demo_step (demo_step fresh_db (SQLiteStore.CreateGroup "u" (MkGroup "g" ""))) (SQLiteStore.AddGroupOwner "v" "g").

Lemma concurrent_RemoveUserFromTable_orphans_witness :
  exists pool d', run_sched (sql_step demo_driver) [0; 1; 0; 1]
    [SQLiteStore.RemoveUserFromTable "u" "g" "owners"; SQLiteStore.RemoveUserFromTable "v" "g" "owners"]
    two_owner_db = (pool, d') /\
    pool_results pool = [Some (Ok tt); Some (Ok tt)] /\ owners (tabs d') = [].
Proof. by apply concurrent_RemoveUserFromTable_orphans. Defined.
