(* ===== verification/MembershipsServer.v ===== *)
(** * Group memberships: the HTTP server (core/auth/memberships/main.go)

    The handlers of the two routers, written against the class [Store], and what
    they guarantee about who may change the store: proved against an interface
    that a store has to meet, which the SQLite store meets. *)
From S2P Require Import Prelude GoLib MembershipsStore MembershipsGraph MembershipsInv MembershipsCorrect MembershipsTheorems.
From Stdlib Require Import Ascii.
Open Scope string_scope.
Open Scope list_scope.

Definition getLoggedInUser (r : request) : outcome string :=
  if negb (String.eqb (HeaderGet r "X-User") "") then Ok (HeaderGet r "X-User")
  else Err (errorf "unauthenticated").

Inductive Status := Owner | Member.

Definition convertStatus (status : string) : outcome Status :=
  if String.eqb status "Owner" then Ok Owner
  else if String.eqb status "Member" then Ok Member
  else Err (errorf ("invalid status: " +:+ status)).

(** The class of the regular expression of [isValidGroupName]: [a-z0-9\-_:.\/ ]. *)
Definition group_name_char (c : ascii) : bool :=
  is_lower c || is_digit c || existsb (fun d => Ascii.eqb c d) ["-"; "_"; ":"; "."; "/"; " "]%char.

Definition isValidGroupName (group : string) : outcome unit :=
  if String.eqb (TrimSpace group) "" then
    Err (errorf "group name can't be empty or contain only whitespaces")
  else if negb (negb (String.eqb group "") && forall_char group_name_char group) then
    Err (errorf "group name should contain only lowercase letters, digits, -, _, :, ., /")
  else Ok tt.

(** The data handed to the templates, and the JSON of the API. *)
Inductive page :=
  | UserPage (OwnerGroups MembershipGroups TransitiveGroups : list Group)
      (LoggedInUserPage : bool) (CurrentUser ErrorMessage : string)
  | GroupPage (GroupName Description : string) (Owners Members : list string)
      (AllGroups TransitiveGroups ChildGroups OwnerGroups : list Group) (ErrorMessage : string)
  | UserInfo (memberOf : list string).

Abbreviation response := (reply page).

Definition internal {E} (e : error) : go E response := mret (HttpError (emsg e) StatusInternalServerError).
Definition bad_request {E} (e : error) : go E response := mret (HttpError (emsg e) StatusBadRequest).
Definition not_logged_in {E} : go E response := mret (HttpError "User Not Logged In" StatusUnauthorized).

(** fmt.Sprintf("/group/%s?errorMessage=%s", group, url.QueryEscape(err.Error())) *)
Definition back_with (kind name : string) (e : error) (code : Z) : response :=
  Redirect ("/" +:+ kind +:+ "/" +:+ name +:+ "?errorMessage=" +:+ QueryEscape (emsg e)) code.

Section Server.
Context {E : Type -> Type} (store : Store E).
(** Parsing the embedded templates and writing the page, which the handlers
    check; decoding the JSON body of the init request. *)
Context (parseTemplates : outcome unit) (Execute : page -> outcome unit).
Context (decode_init : string -> outcome (string * list string)).

Definition render (p : page) : go E response :=
  check _u := lift parseTemplates onerr e => internal e in
  check _u := lift (Execute p) onerr e => internal e in
  mret (Page p).

Definition checkIsOwner (user group : string) : go E unit :=
  isOwner ← IsGroupOwner user group;
  if (isOwner : bool) then mret tt
  else
    isMemberOfOwnerGroup ← IsMemberOfOwnerGroup user group;
    if negb isMemberOfOwnerGroup then
      fail (errorf ("you are not the owner or a member of any owner group of the group " +:+ group))
    else mret tt.

Definition homePageHandler (r : request) : go E response :=
  check loggedInUser := lift (getLoggedInUser r) onerr _e => not_logged_in in
  mret (Redirect ("/user/" +:+ loggedInUser) StatusSeeOther).

Definition userHandler (r : request) : go E response :=
  check loggedInUser := lift (getLoggedInUser r) onerr _e => not_logged_in in
  let errorMsg := first_value (rquery r) "errorMessage" in
  let user := ToLower (Var r "username") in
  let loggedInUserPage := String.eqb loggedInUser user in
  check ownerGroups := GetGroupsOwnedBy user onerr e => internal e in
  check membershipGroups := GetGroupsUserBelongsTo user onerr e => internal e in
  check transitiveGroups := GetAllTransitiveGroupsForUser user onerr e => internal e in
  render (UserPage ownerGroups membershipGroups transitiveGroups loggedInUserPage user errorMsg).

Definition createGroupHandler (r : request) : go E response :=
  check loggedInUser := lift (getLoggedInUser r) onerr _e => not_logged_in in
  if negb (String.eqb (rmethod r) MethodPost) then
    mret (HttpError "Method not allowed" StatusMethodNotAllowed)
  else match rform_err r with
  | Some e => internal e
  | None =>
      let name := PostFormValue r "group-name" in
      check _u := lift (isValidGroupName name) onerr e =>
        mret (back_with "user" loggedInUser e StatusFound) in
      check _u := CreateGroup loggedInUser (MkGroup name (PostFormValue r "description")) onerr e =>
        mret (back_with "user" loggedInUser e StatusFound) in
      mret (Redirect "/" StatusSeeOther)
  end.

Definition groupHandler (r : request) : go E response :=
  check _u := lift (getLoggedInUser r) onerr _e => not_logged_in in
  let errorMsg := first_value (rquery r) "errorMessage" in
  let groupName := Var r "group-name" in
  check exists_ := DoesGroupExist groupName onerr e => internal e in
  if negb exists_ then
    mret (HttpError ("group with the name '" +:+ groupName +:+ "' not found") StatusNotFound)
  else
  check owners := GetGroupOwners groupName onerr e => internal e in
  check members := GetGroupMembers groupName onerr e => internal e in
  check description := GetGroupDescription groupName onerr e => internal e in
  check allGroups := GetAllGroups onerr e => internal e in
  check transitiveGroups := GetAllTransitiveGroupsForGroup groupName onerr e => internal e in
  check childGroups := GetDirectChildrenGroups groupName onerr e => internal e in
  check ownerGroups := GetGroupOwnerGroups groupName onerr e => internal e in
  render (GroupPage groupName description owners members allGroups transitiveGroups childGroups ownerGroups errorMsg).

(** The tail the six editing handlers share: the logged-in user must own the
    group, then the store is changed, and the browser goes back to the group. *)
Definition owner_then (user group : string) (change : go E unit) : go E response :=
  check _u := checkIsOwner user group onerr e =>
    mret (back_with "group" group e StatusSeeOther) in
  check _u := change onerr e => mret (back_with "group" group e StatusFound) in
  mret (Redirect ("/group/" +:+ group) StatusSeeOther).

Definition removeChildGroupHandler (r : request) : go E response :=
  check loggedInUser := lift (getLoggedInUser r) onerr _e => not_logged_in in
  if String.eqb (rmethod r) MethodPost then
    let parentGroup := Var r "parent-group" in
    let childGroup := Var r "child-group" in
    check _u := lift (isValidGroupName parentGroup) onerr e => bad_request e in
    check _u := lift (isValidGroupName childGroup) onerr e => bad_request e in
    owner_then loggedInUser parentGroup (RemoveFromGroupToGroup parentGroup childGroup)
  else mret Empty.

Definition removeOwnerFromGroupHandler (r : request) : go E response :=
  check loggedInUser := lift (getLoggedInUser r) onerr _e => not_logged_in in
  if String.eqb (rmethod r) MethodPost then
    let username := Var r "username" in
    let groupName := Var r "group-name" in
    check _u := lift (isValidGroupName groupName) onerr e => bad_request e in
    owner_then loggedInUser groupName (RemoveUserFromTable username groupName "owners")
  else mret Empty.

Definition removeMemberFromGroupHandler (r : request) : go E response :=
  check loggedInUser := lift (getLoggedInUser r) onerr _e => not_logged_in in
  if String.eqb (rmethod r) MethodPost then
    let username := Var r "username" in
    let groupName := Var r "group-name" in
    check _u := lift (isValidGroupName groupName) onerr e => bad_request e in
    owner_then loggedInUser groupName (RemoveUserFromTable username groupName "user_to_group")
  else mret Empty.

Definition method_not_allowed : go E response :=
  mret (HttpError "Method not allowed" StatusMethodNotAllowed).

Definition addUserToGroupHandler (r : request) : go E response :=
  if negb (String.eqb (rmethod r) MethodPost) then method_not_allowed else
  check loggedInUser := lift (getLoggedInUser r) onerr _e => not_logged_in in
  let groupName := Var r "group-name" in
  check _u := lift (isValidGroupName groupName) onerr e => bad_request e in
  let username := ToLower (FormValue r "username") in
  if String.eqb username "" then
    mret (HttpError "Username parameter is required" StatusBadRequest)
  else
  check status := lift (convertStatus (FormValue r "status")) onerr e => bad_request e in
  owner_then loggedInUser groupName
    (match status with
     | Owner => AddGroupOwner username groupName
     | Member => AddGroupMember username groupName
     end).

Definition addChildGroupHandler (r : request) : go E response :=
  if negb (String.eqb (rmethod r) MethodPost) then method_not_allowed else
  check loggedInUser := lift (getLoggedInUser r) onerr _e => not_logged_in in
  let parentGroup := Var r "parent-group" in
  check _u := lift (isValidGroupName parentGroup) onerr e => bad_request e in
  let childGroup := FormValue r "child-group" in
  check _u := lift (isValidGroupName childGroup) onerr e => bad_request e in
  owner_then loggedInUser parentGroup (AddChildGroup parentGroup childGroup).

Definition addOwnerGroupHandler (r : request) : go E response :=
  if negb (String.eqb (rmethod r) MethodPost) then method_not_allowed else
  check loggedInUser := lift (getLoggedInUser r) onerr _e => not_logged_in in
  let ownedGroup := Var r "owned-group" in
  check _u := lift (isValidGroupName ownedGroup) onerr e => bad_request e in
  let ownerGroup := FormValue r "owner-group" in
  check _u := lift (isValidGroupName ownerGroup) onerr e => bad_request e in
  owner_then loggedInUser ownedGroup (AddOwnerGroup ownerGroup ownedGroup).

Definition apiInitHandler (r : request) : go E response :=
  check req := lift (decode_init (rbody r)) onerr e => bad_request e in
  check _u := Init req.1 req.2 onerr e => internal e in
  mret Empty.

Definition apiMemberOfHandler (r : request) : go E response :=
  if String.eqb (Var r "username") "" then
    mret (HttpError "Username parameter is required" StatusBadRequest)
  else
  let user := ToLower (Var r "username") in
  check transitiveGroups := GetAllTransitiveGroupsForUser user onerr e => internal e in
  check _u := lift (Execute (UserInfo (names transitiveGroups))) onerr e => internal e in
  mret (Page (UserInfo (names transitiveGroups))).

(** The routes of [Start]: those of the router of the user-facing port, and the
    two of the API router, which listens on a port of its own. *)
Inductive route :=
  | AddUser | AddChild | AddOwner | RemoveChild | RemoveOwner | RemoveMember
  | GroupView | UserView | Create | Home
  | ApiInit | ApiMemberOf.

Definition ServeHTTP (rt : route) : request -> go E response :=
  match rt with
  | AddUser => addUserToGroupHandler
  | AddChild => addChildGroupHandler
  | AddOwner => addOwnerGroupHandler
  | RemoveChild => removeChildGroupHandler
  | RemoveOwner => removeOwnerFromGroupHandler
  | RemoveMember => removeMemberFromGroupHandler
  | GroupView => groupHandler
  | UserView => userHandler
  | Create => createGroupHandler
  | Home => homePageHandler
  | ApiInit => apiInitHandler
  | ApiMemberOf => apiMemberOfHandler
  end.

(** The variable of the URL that names the group a route edits. *)
Definition edited_group (rt : route) (r : request) : option string :=
  match rt with
  | AddUser | RemoveOwner | RemoveMember => Some (Var r "group-name")
  | AddChild | RemoveChild => Some (Var r "parent-group")
  | AddOwner => Some (Var r "owned-group")
  | _ => None
  end.
End Server.

(** ** Who may change the store *)

(** The change a request of an editing route asks for, once its fields are valid. *)
Definition edit_of {E} (store : Store E) (rt : route) (r : request) : option (go E unit) :=
  match rt with
  | AddUser =>
      let username := ToLower (FormValue r "username") in
      match convertStatus (FormValue r "status") with
      | Ok Owner => Some (AddGroupOwner username (Var r "group-name"))
      | Ok Member => Some (AddGroupMember username (Var r "group-name"))
      | _ => None
      end
  | AddChild => Some (AddChildGroup (Var r "parent-group") (FormValue r "child-group"))
  | AddOwner => Some (AddOwnerGroup (FormValue r "owner-group") (Var r "owned-group"))
  | RemoveChild => Some (RemoveFromGroupToGroup (Var r "parent-group") (Var r "child-group"))
  | RemoveOwner => Some (RemoveUserFromTable (Var r "username") (Var r "group-name") "owners")
  | RemoveMember => Some (RemoveUserFromTable (Var r "username") (Var r "group-name") "user_to_group")
  | _ => None
  end.

(** The methods the pages only read through. *)
Inductive reader {E} (st : Store E) : forall A, go E A -> Prop :=
  | r_DoesGroupExist g : reader st bool (DoesGroupExist g)
  | r_GetGroupsOwnedBy u : reader st (list Group) (GetGroupsOwnedBy u)
  | r_GetGroupsUserBelongsTo u : reader st (list Group) (GetGroupsUserBelongsTo u)
  | r_GetGroupOwners g : reader st (list string) (GetGroupOwners g)
  | r_GetGroupMembers g : reader st (list string) (GetGroupMembers g)
  | r_GetGroupDescription g : reader st string (GetGroupDescription g)
  | r_GetAllGroups : reader st (list Group) GetAllGroups
  | r_GetDirectChildrenGroups g : reader st (list Group) (GetDirectChildrenGroups g)
  | r_GetGroupOwnerGroups g : reader st (list Group) (GetGroupOwnerGroups g)
  | r_TransitiveForUser u : reader st (list Group) (GetAllTransitiveGroupsForUser u)
  | r_TransitiveForGroup g : reader st (list Group) (GetAllTransitiveGroupsForGroup g).

(** What the server needs of a store to protect the groups: reads change
    nothing visible, and a positive answer about ownership is true. *)
Class AuthStore {E S} (st : Store E) (h : handler E S) := {
  same : relation S;
  same_equiv :: Equivalence same;
  may_edit : S -> string -> string -> Prop;
  may_edit_same s s' u g : same s s' -> may_edit s' u g -> may_edit s u g;
  reader_same A (p : go E A) s : reader st A p -> same s (run h p s).1;
  owner_asked u g s :
    same s (run h (IsGroupOwner u g) s).1 /\
    ((run h (IsGroupOwner u g) s).2 = Ok true -> may_edit s u g);
  member_asked u g s :
    same s (run h (IsMemberOfOwnerGroup u g) s).1 /\
    ((run h (IsMemberOfOwnerGroup u g) s).2 = Ok true -> may_edit s u g);
}.

Section Authorization.
Context {E : Type -> Type} {S : Type} (store : Store E) (h : handler E S) `{!AuthStore store h}.
Context (parseTemplates : outcome unit) (Execute : page -> outcome unit).
Context (decode_init : string -> outcome (string * list string)).

(** A run that leaves the visible state alone, or changes it by [change] with
    the right to do so. *)
Definition allowed (user group : string) (change : go E unit) (s s' : S) : Prop :=
  same s s' \/
  (may_edit s user group /\ exists s1, same s s1 /\ s' = (run h change s1).1).

Lemma checkIsOwner_spec user group s :
  same s (run h (checkIsOwner store user group) s).1 /\
  ((run h (checkIsOwner store user group) s).2 = Ok tt -> may_edit s user group).
Proof.
  unfold checkIsOwner. rewrite run_mbind.
  destruct (owner_asked user group s) as [Hs Hok].
  destruct (run h (IsGroupOwner user group) s) as [s1 [b|e|w|]]; simpl in *; try (by split).
  destruct b; simpl; [by auto|].
  rewrite run_mbind. destruct (member_asked user group s1) as [Hs1 Hok1].
  destruct (run h (IsMemberOfOwnerGroup user group) s1) as [s2 [[]|e|w|]]; simpl in *;
    (split; [by etransitivity|]); try done.
  intros _. eapply may_edit_same; [exact Hs|by apply Hok1].
Qed.

Lemma owner_then_spec user group change s :
  allowed user group change s (run h (owner_then store user group change) s).1.
Proof.
  unfold owner_then. rewrite run_handle.
  destruct (checkIsOwner_spec user group s) as [Hs Hok].
  destruct (run h (checkIsOwner store user group) s) as [s1 [[]|e|w|]]; simpl in *; try by left.
  right. split; [auto|]. exists s1. split; [done|]. rewrite run_handle.
  by destruct (run h change s1) as [s2 [[]|e|w|]].
Qed.

(** Programs made of reads. *)
Definition quiet_prog {A} (p : prog E A) : Prop := forall s, same s (run h p s).1.

Lemma quiet_ret {A} (a : A) : quiet_prog (Ret a).
Proof. intros s. reflexivity. Qed.

Lemma quiet_handle {A B} (m : go E A) (c : error -> go E B) (k : A -> go E B) :
  quiet_prog m -> (forall e, quiet_prog (c e)) -> (forall a, quiet_prog (k a)) -> quiet_prog (handle m c k).
Proof.
  intros Hm Hc Hk s. rewrite run_handle. specialize (Hm s).
  destruct (run h m s) as [s1 [a|e|w|]]; simpl in *; try done.
  - etransitivity; [exact Hm|apply Hk].
  - etransitivity; [exact Hm|apply Hc].
Qed.

Lemma quiet_reader {A} (p : go E A) : reader store A p -> quiet_prog p.
Proof. intros Hp s. by apply reader_same. Qed.

Ltac quiet_page :=
  repeat first
    [ apply quiet_handle; intros
    | apply quiet_ret
    | apply quiet_reader; by constructor
    | case_match ].

Lemma pages_quiet rt r :
  rt = GroupView \/ rt = UserView \/ rt = Home \/ rt = ApiMemberOf ->
  quiet_prog (ServeHTTP store parseTemplates Execute decode_init rt r).
Proof.
  intros [-> | [-> | [-> | ->]]]; simpl;
    unfold groupHandler, userHandler, homePageHandler, apiMemberOfHandler, render, internal, not_logged_in, lift; quiet_page.
Qed.

(** The guards of a handler, before the store is touched. *)
Lemma run_guard {A} (o : outcome A) (c : error -> go E response) (k : A -> go E response) (P : S -> Prop) s :
  (forall e, quiet_prog (c e)) -> (forall s', same s s' -> P s') ->
  (forall a, o = Ok a -> P (run h (k a) s).1) -> P (run h (handle (lift o) c k) s).1.
Proof.
  intros Hc Hsame Hk. rewrite run_handle. destruct o as [a|e|w|]; simpl; [by apply Hk| |by apply Hsame..].
  by apply Hsame, Hc.
Qed.

Definition edit_authorized (rt : route) (r : request) (s s' : S) : Prop :=
  exists user g change, getLoggedInUser r = Ok user /\ rmethod r = "POST" /\
    edited_group rt r = Some g /\ isValidGroupName g = Ok tt /\
    edit_of store rt r = Some change /\ may_edit s user g /\
    exists s1, same s s1 /\ s' = (run h change s1).1.

Definition create_authorized (rt : route) (r : request) (s s' : S) : Prop :=
  exists user, rt = Create /\ getLoggedInUser r = Ok user /\ rmethod r = "POST" /\
    isValidGroupName (PostFormValue r "group-name") = Ok tt /\
    s' = (run h (CreateGroup user (MkGroup (PostFormValue r "group-name") (PostFormValue r "description"))) s).1.

(** The API router asks for no user: an [Init] the body of the request names. *)
Definition init_requested (rt : route) (r : request) (s s' : S) : Prop :=
  exists owner gs, rt = ApiInit /\ decode_init (rbody r) = Ok (owner, gs) /\ s' = (run h (Init owner gs) s).1.

Definition authorized rt r s s' : Prop :=
  same s s' \/ edit_authorized rt r s s' \/ create_authorized rt r s s' \/ init_requested rt r s s'.

Lemma allowed_authorized rt r user g change s s' :
  getLoggedInUser r = Ok user -> rmethod r = "POST" -> edited_group rt r = Some g ->
  isValidGroupName g = Ok tt -> edit_of store rt r = Some change ->
  allowed user g change s s' -> authorized rt r s s'.
Proof.
  intros Hu Hm Hg Hv He [Hs|[Hok H1]]; [by left|right; left].
  exists user, g, change. by split_and!.
Qed.

Ltac srv_guard :=
  match goal with
  | |- authorized ?rt ?r ?s (run _ (handle (lift _) _ _) _).1 =>
      apply (run_guard _ _ _ (authorized rt r s)); [intros ?; apply quiet_ret|intros ? ?; by left|intros ? ?]
  | |- authorized _ _ _ (run _ (if negb (rmethod ?r =? MethodPost) then _ else _) _).1 =>
      destruct (String.eqb_spec (rmethod r) MethodPost); cbn [negb]; [|left; reflexivity]
  | |- authorized _ _ _ (run _ (if rmethod ?r =? MethodPost then _ else _) _).1 =>
      destruct (String.eqb_spec (rmethod r) MethodPost); [|left; reflexivity]
  | |- authorized _ _ _ (run _ (if ?b then _ else _) _).1 => destruct b; [left; reflexivity|]
  | a : unit |- _ => destruct a
  end.

Ltac edit_done := eapply allowed_authorized; [eassumption|assumption|reflexivity|eassumption|reflexivity|].

Lemma ServeHTTP_authorized rt r s :
  authorized rt r s (run h (ServeHTTP store parseTemplates Execute decode_init rt r) s).1.
Proof.
  destruct rt; simpl ServeHTTP; try (left; apply (pages_quiet GroupView r); by auto);
    try (left; apply (pages_quiet UserView r); by auto); try (left; apply (pages_quiet Home r); by auto);
    try (left; apply (pages_quiet ApiMemberOf r); by auto).
  - unfold addUserToGroupHandler. cbv zeta. repeat srv_guard.
    eapply allowed_authorized; try eassumption; [reflexivity| |apply owner_then_spec].
    simpl. rewrite H1. by destruct a1.
  - unfold addChildGroupHandler. cbv zeta. repeat srv_guard. edit_done. apply owner_then_spec.
  - unfold addOwnerGroupHandler. cbv zeta. repeat srv_guard. edit_done. apply owner_then_spec.
  - unfold removeChildGroupHandler. cbv zeta. repeat srv_guard. edit_done. apply owner_then_spec.
  - unfold removeOwnerFromGroupHandler. cbv zeta. repeat srv_guard. edit_done. apply owner_then_spec.
  - unfold removeMemberFromGroupHandler. cbv zeta. repeat srv_guard. edit_done. apply owner_then_spec.
  - unfold createGroupHandler. cbv zeta. repeat srv_guard.
    destruct (rform_err r); [left; reflexivity|]. repeat srv_guard.
    right; right; left. exists a. split_and!; try done.
    rewrite run_handle.
    by destruct (run h (CreateGroup _ _) s) as [s2 [[]| | |]].
  - unfold apiInitHandler. repeat srv_guard. right; right; right. exists a.1, a.2.
    rewrite <- surjective_pairing. split_and!; try done.
    rewrite run_handle. by destruct (run h (Init _ _) s) as [s2 [[]| | |]].
Qed.
End Authorization.

(** ** The SQLite store meets the interface *)

Definition db_may_edit (d : db) (u g : string) : Prop :=
  (u, g) ∈ owners (tabs d) \/
  exists og, (og, g) ∈ owner_groups (tabs d) /\ (u, og) ∈ user_to_group (tabs d).

Lemma exists_owner_member_spec g u ts :
  exists_owner_member g u ts = true <->
  exists og, (og, g) ∈ owner_groups ts /\ (u, og) ∈ user_to_group ts.
Proof.
  unfold exists_owner_member. rewrite existsb_exists. setoid_rewrite andb_true_iff.
  setoid_rewrite bool_decide_eq_true. setoid_rewrite <- list_elem_of_In. split.
  - intros ([og g'] & Hin & <- & Hu). eauto.
  - intros (og & Hin & Hu). by exists (og, g).
Qed.

Lemma asked drv (e : sqlE (outcome bool)) (q : tables -> bool) (P : db -> Prop) d :
  sql_step drv _ e d = query drv d (fun ts => Ok (q ts)) -> (q (tabs d) = true -> P d) ->
  same_db d (run (sql_step drv) (call e) d).1 /\ ((run (sql_step drv) (call e) d).2 = Ok true -> P d).
Proof.
  intros He HP. destruct (run_query drv _ e d He) as (d' & o & -> & Hd & Ho). simpl. split; [done|].
  intros ->. destruct Ho as [[= H]|(? & ? & _ & ?)]; auto. done.
Qed.

#[export] Instance sqlite_auth (fuel : nat) (drv : driver) : AuthStore (sqlite_store fuel) (sql_step drv).
Proof.
  refine {| same := same_db; may_edit := db_may_edit |}.
  - unfold db_may_edit. by intros s s' u g [-> _].
  - intros A p s Hp. apply run_reading. destruct Hp; try (by apply calls_call);
      (apply calls_mbind; [by apply calls_call|]; intros ?; apply calls_mbind; [apply reading_walk|done]).
  - intros u g d. apply (asked drv (ExistsOwner u g) (fun ts => bool_decide ((u, g) ∈ owners ts)) (fun d => db_may_edit d u g)); [done|].
    intros H%bool_decide_eq_true. by left.
  - intros u g d. apply (asked drv (ExistsOwnerMember g u) (exists_owner_member g u) (fun d => db_may_edit d u g)); [done|].
    intros H%exists_owner_member_spec. by right.
Defined.

(** *** The initialisation behind the API *)

Lemma init_not_again drv o gs d :
  saved d = None -> groups (tabs d) <> [] -> same_db d (run (sql_step drv) (SQLiteStore.Init o gs) d).1.
Proof.
  intros Hs Hg. unfold SQLiteStore.Init.
  match goal with |- context [in_tx ?b] => pose proof (in_tx_cases drv b d) as Htx end.
  destruct Htx as (d' & r & -> & Hs' & [[Ht _] | (d1 & d2 & [Ht1 _] & H & _)]);
    [solve_calls; done|done|split; simpl; congruence|].
  apply run_bind_ok in H as (d3 & n & H1 & H2). simpl in Ht1.
  apply (run_write_ok _ _ (fun ts => (ts, Ok (length (groups ts))))) in H1; [|done].
  injection H1 as _ Hn. rewrite Ht1 in Hn. destruct (groups (tabs d)); [done|]. by subst n.
Qed.

(** *** Any sequence of requests *)

(** The databases the requests of a server produce, one after the other. *)
Inductive served (drv : driver) (fuel : nat) parse exec decode : db -> Prop :=
  | served_new : served drv fuel parse exec decode fresh_db
  | served_request rt r d : served drv fuel parse exec decode d ->
      served drv fuel parse exec decode
        (run (sql_step drv) (ServeHTTP (sqlite_store fuel) parse exec decode rt r) d).1.

Lemma edit_is_method fuel rt r change :
  edit_of (sqlite_store fuel) rt r = Some change -> method (sqlite_store fuel) unit change.
Proof.
  destruct rt; cbn [edit_of]; try done; [|intros [= <-]..].
  - destruct (convertStatus _) as [[]| | |]; intros [= <-]; [apply (m_AddGroupOwner (sqlite_store fuel))|apply (m_AddGroupMember (sqlite_store fuel))].
  - apply (m_AddChildGroup (sqlite_store fuel)).
  - apply (m_AddOwnerGroup (sqlite_store fuel)).
  - apply (m_RemoveFromGroupToGroup (sqlite_store fuel)).
  - apply (m_RemoveUserFromTable (sqlite_store fuel)). by left.
  - apply (m_RemoveUserFromTable (sqlite_store fuel)). by right.
Qed.

(** What holds of a store called method by method holds behind the server too. *)
Lemma served_inv drv fuel parse exec decode d :
  served drv fuel parse exec decode d -> saved d = None /\ store_inv (tabs d).
Proof.
  induction 1 as [|rt r d _ [Hs HI]]; [split; [done|apply store_inv_empty]|].
  destruct (ServeHTTP_authorized (sqlite_store fuel) (sql_step drv) parse exec decode rt r d)
    as [[-> ->] | [(u & g & c & _ & _ & _ & _ & Hc & _ & d1 & [Ht1 Hs1] & ->) |
       [(u & _ & _ & _ & _ & ->) | (o & gs & _ & _ & ->)]]]; [done| | |].
  - apply (reach_inv drv fuel); [congruence|by rewrite Ht1|by eapply edit_is_method].
  - by apply (reach_inv drv fuel); [..|apply (m_CreateGroup (sqlite_store fuel))].
  - by apply (reach_inv drv fuel); [..|apply (m_Init (sqlite_store fuel))].
Qed.

(** ** The properties *)

(** C5. whatever request comes in on whatever route of either router, under any
    driver: the tables change only by the one edit the route asks for, in a POST
    of a logged-in user who owns the (validly named) group in the URL or belongs
    to a group that owns it; by the creation of a validly named group owned by
    the logged-in user; or, on the API router, which asks for no user, by an
    initialisation - and that only as long as there is no group. *)
Theorem edits_authorized drv fuel parse exec decode rt r d :
  saved d = None ->
  let store := sqlite_store fuel in
  let d' := (run (sql_step drv) (ServeHTTP store parse exec decode rt r) d).1 in
  same_db d d' \/
  (exists user g change, getLoggedInUser r = Ok user /\ rmethod r = "POST" /\
    edited_group rt r = Some g /\ isValidGroupName g = Ok tt /\
    edit_of store rt r = Some change /\ db_may_edit d user g /\
    exists d1, same_db d d1 /\ d' = (run (sql_step drv) change d1).1) \/
  (exists user, rt = Create /\ getLoggedInUser r = Ok user /\ rmethod r = "POST" /\
    isValidGroupName (PostFormValue r "group-name") = Ok tt /\
    d' = (run (sql_step drv) (SQLiteStore.CreateGroup user
            (MkGroup (PostFormValue r "group-name") (PostFormValue r "description"))) d).1) \/
  (exists owner gs, rt = ApiInit /\ decode (rbody r) = Ok (owner, gs) /\ groups (tabs d) = [] /\
    d' = (run (sql_step drv) (SQLiteStore.Init owner gs) d).1).
Proof.
  intros Hs store d'.
  destruct (ServeHTTP_authorized (sqlite_store fuel) (sql_step drv) parse exec decode rt r d)
    as [H | [H | [H | (o & gs & Hrt & Hd & He)]]]; [by left|right; by left|right; right; by left|].
  fold store in He. fold d' in He. destruct (groups (tabs d)) eqn:Hg.
  - right; right; right. by exists o, gs.
  - left. rewrite He. apply init_not_again; [done|]. by rewrite Hg.
Qed.

(** GET /api/user/{username}: on a quiet driver the answer lists, once each,
    exactly the groups the (lower-cased) user is in, directly or through parents. *)
Theorem apiMemberOf_exact drv fuel exec r d :
  quiet drv -> reachable drv d -> length (groups (tabs d)) < fuel ->
  Var r "username" <> "" -> (forall p, exec p = Ok tt) ->
  exists d' ns,
    run (sql_step drv) (apiMemberOfHandler (sqlite_store fuel) exec r) d = (d', Ok (Page (UserInfo ns))) /\
    same_db d d' /\ NoDup ns /\
    forall n, n ∈ ns <->
      exists g, (ToLower (Var r "username"), g) ∈ user_to_group (tabs d) /\ g ∈ group_names (tabs d) /\
        rtc (pedge (tabs d)) g n.
Proof.
  intros Hq Hr Hf Hu He.
  destruct (transitive_user_names drv fuel (ToLower (Var r "username")) d Hq Hr Hf) as (d' & gs & Hrun & Hd & Hn & Hx).
  exists d', (names gs). unfold apiMemberOfHandler.
  apply String.eqb_neq in Hu. rewrite Hu. rewrite run_handle.
  change (GetAllTransitiveGroupsForUser (ToLower (Var r "username")))
    with (SQLiteStore.GetAllTransitiveGroupsForUser fuel (ToLower (Var r "username"))).
  rewrite Hrun, run_handle. cbn [run lift]. by rewrite He.
Qed.

(** The table an add-user request writes. *)
Definition status_table (st : Status) : table :=
  match st with Owner => TOwners | Member => TUserToGroup end.

Lemma run_add_user drv fuel st u g d :
  quiet drv -> g ∈ group_names (tabs d) -> (u, g) ∉ rows (status_table st) (tabs d) ->
  run (sql_step drv) (match st with Owner => AddGroupOwner (Store := sqlite_store fuel) u g
                      | Member => AddGroupMember (Store := sqlite_store fuel) u g end) d =
  (MkDb (set_rows (status_table st) (rows (status_table st) (tabs d) ++ [(u, g)]) (tabs d))
     (saved d) (S (tick d)), Ok tt).
Proof.
  intros Hq Hg Hn.
  assert (Hrun : forall msg, run (sql_step drv) (unique_as msg KUnique (call (InsertPair (status_table st) u g))) d =
    (MkDb (set_rows (status_table st) (rows (status_table st) (tabs d) ++ [(u, g)]) (tabs d))
       (saved d) (S (tick d)), Ok tt)).
  { intros msg. unfold unique_as.
    rewrite run_handle, (quiet_serve drv _ (insert_pair (foreign_keys drv) (status_table st) u g)) by done.
    unfold insert_pair. rewrite bool_decide_eq_false_2 by done.
    assert (fk_ok (status_table st) (u, g) (tabs d) = true) as ->; [|by rewrite andb_false_r].
    unfold fk_ok. destruct st; cbn [status_table references forallb snd]; by rewrite bool_decide_eq_true_2. }
  destruct st; apply Hrun.
Qed.

Lemma run_checkIsOwner drv fuel user g d :
  quiet drv -> (user, g) ∈ owners (tabs d) ->
  run (sql_step drv) (checkIsOwner (sqlite_store fuel) user g) d =
    (MkDb (tabs d) (saved d) (S (tick d)), Ok tt).
Proof.
  intros Hq Ho. unfold checkIsOwner. rewrite run_mbind.
  change (IsGroupOwner user g) with (call (ExistsOwner user g)).
  rewrite (quiet_serve drv _ (fun ts => (ts, Ok (bool_decide ((user, g) ∈ owners ts))))) by done.
  by rewrite bool_decide_eq_true_2.
Qed.

(** an owner's request to add a user who is not yet in the table of the
    requested status adds that row and nothing else, and goes back to the group. *)
Theorem add_user_request drv fuel parse exec decode r d user st :
  let g := Var r "group-name" in
  let u := ToLower (FormValue r "username") in
  quiet drv -> rmethod r = "POST" -> getLoggedInUser r = Ok user -> isValidGroupName g = Ok tt ->
  u <> "" -> convertStatus (FormValue r "status") = Ok st ->
  (user, g) ∈ owners (tabs d) -> g ∈ group_names (tabs d) -> (u, g) ∉ rows (status_table st) (tabs d) ->
  exists d', run (sql_step drv) (ServeHTTP (sqlite_store fuel) parse exec decode AddUser r) d =
    (d', Ok (Redirect ("/group/" +:+ g) StatusSeeOther)) /\
    tabs d' = set_rows (status_table st) (rows (status_table st) (tabs d) ++ [(u, g)]) (tabs d).
Proof.
  intros g u Hq Hm Hl Hv Hu Hst Ho Hg Hn. simpl ServeHTTP. unfold addUserToGroupHandler. fold g u.
  rewrite Hm. cbn [negb String.eqb MethodPost Ascii.eqb Bool.eqb]. rewrite Hl, Hv, Hst.
  apply String.eqb_neq in Hu. rewrite !run_handle. cbn [run lift]. rewrite run_handle. cbn [run lift]. rewrite Hu.
  rewrite run_handle. cbn [run lift].
  unfold owner_then. rewrite run_handle, run_checkIsOwner by done. rewrite run_handle.
  rewrite run_add_user by done. by eexists.
Qed.

(** ** Witnesses *)

Definition demo_request (user method : string) (vars post : list (string * string)) : request :=
  MkRequest method "/" {[ "X-User" := [user] ]} (list_to_map vars) ∅
    (list_to_map (map (fun kv => (kv.1, [kv.2])) post)) None "".

Lemma apiMemberOf_exact_witness :
  exists d' ns, run (sql_step demo_driver) (apiMemberOfHandler (sqlite_store 4) (fun _ => Ok tt)
                   (demo_request "" "GET" [("username", "Alice")] [])) demo_db
    = (d', Ok (Page (UserInfo ns))) /\ "dev" ∈ ns.
Proof.
  destruct (apiMemberOf_exact demo_driver 4 (fun _ => Ok tt) (demo_request "" "GET" [("username", "Alice")] []) demo_db)
    as (d' & ns & Hr & _ & _ & Hn); [done|exact demo_reachable|vm_compute; lia|done|done|].
  exists d', ns. split; [exact Hr|]. apply Hn. exists "dev".
  split; [by apply (bool_decide_unpack _); vm_compute|].
  split; [by apply (bool_decide_unpack _); vm_compute|]. apply rtc_refl.
Defined.

Definition demo_decode (body : string) : outcome (string * list string) := Ok (body, ["admin"]).

(** A member of an owner group is let through; [Init] is refused once there are groups. *)
Lemma edits_authorized_witness :
  let d' := (run (sql_step demo_driver) (ServeHTTP (sqlite_store 4) (Ok tt) (fun _ => Ok tt) demo_decode ApiInit
               (demo_request "" "POST" [] [])) demo_db).1 in
  same_db demo_db d'.
Proof.
  destruct (edits_authorized demo_driver 4 (Ok tt) (fun _ => Ok tt) demo_decode ApiInit
    (demo_request "" "POST" [] []) demo_db) as [H | [H | [H | H]]]; [by vm_compute|exact H| | |].
  - by destruct H as (? & ? & ? & _ & _ & [=] & _).
  - by destruct H as (? & [=] & _).
  - by destruct H as (? & ? & _ & _ & [=] & _).
Defined.

Definition demo_add : request :=
  demo_request "root" "POST" [("group-name", "dev")] [("username", "Bob"); ("status", "Member")].

Lemma add_user_request_witness :
  exists d', run (sql_step demo_driver) (ServeHTTP (sqlite_store 4) (Ok tt) (fun _ => Ok tt) demo_decode AddUser demo_add) demo_db =
    (d', Ok (Redirect "/group/dev" StatusSeeOther)) /\
    tabs d' = set_rows TUserToGroup (rows TUserToGroup (tabs demo_db) ++ [("bob", "dev")]) (tabs demo_db).
Proof.
  apply (add_user_request demo_driver 4 (Ok tt) (fun _ => Ok tt) demo_decode demo_add demo_db "root" Member); try done;
    by apply (bool_decide_unpack _); vm_compute.
Defined.
