(* ===== verification/AuthProxy.v ===== *)
(** * The authenticating proxy (core/auth/proxy/main.go)

    [handle] as a program over the three services it talks to, and what it
    lets through to the upstream under whose name. *)
From Stdlib Require Import Ascii.
From S2P Require Import Prelude GoLib MembershipsStore MembershipsGraph MembershipsInv MembershipsCorrect MembershipsTheorems MembershipsServer.
Open Scope string_scope.
Open Scope list_scope.

(** The request the proxy sends upstream, and the answer it relays. *)
Record upstream_request := MkUpstream {
  uurl : string;
  umethod : string;
  uheader : gmap string (list string);
  ubody : string;
}.

Record relayed := MkRelayed {
  rsp_code : Z;
  rsp_header : gmap string (list string);
  rsp_body : string;
  rsp_copy_error : option error;   (* io.Copy stopped early *)
}.

Inductive proxyE : Type -> Type :=
  (* GET the whoami endpoint with the cookies of the request; status and JSON *)
  | WhoAmI (addr : string) (cookies : list string) : proxyE (outcome (Z * outcome json))
  (* GET of the membership API *)
  | GetJSON (url : string) : proxyE (outcome (outcome json))
  | Do (rc : upstream_request) : proxyE (outcome relayed).

(** Flags of the process. *)
Record flags := MkFlags {
  whoAmIAddr : string;
  loginAddr : string;
  membershipAddr : string;
  groupsFlag : string;
  upstream : string;
}.

Definition decode_map (v : json) : outcome json :=
  match v with
  | JNull => Ok (JObj [])
  | JObj fs => Ok (JObj fs)
  | _ => Err err_json
  end.

(** [user]: identity.traits.username. *)
Definition decode_username (v : json) : outcome string :=
  json_field "identity" (json_field "traits" (json_field "username" json_string "") "") "" v.

(** [authError]: error.status. *)
Definition decode_status (v : json) : outcome string :=
  json_field "error" (json_field "status" json_string "") "" v.

Definition decode_member_of (v : json) : outcome (list string) :=
  json_field "memberOf" (json_array json_string) [] v.

(** [r.Header[key][0]] *)
Definition header_index (r : request) (k : string) : outcome string :=
  match rheader r !! k with
  | Some (v :: _) => Ok v
  | _ => Panic "index out of range [0] with length 0"
  end.

Definition copy_headers (h : gmap string (list string)) : gmap string (list string) :=
  foldl (fun acc kv => foldl (fun acc v => HeaderAdd acc kv.1 v) acc kv.2) ∅ (map_to_list h).

Section Proxy.
Context (fl : flags).
(** [url.Parse], and the text [URL.String] prints for what it accepted. *)
Context (url_parse : string -> outcome string).

Definition getAddr (r : request) : outcome string :=
  scheme ← header_index r "X-Forwarded-Scheme";
  host ← header_index r "X-Forwarded-Host";
  url_parse (scheme +:+ "://" +:+ host +:+ rpath r).

(** [None] is the nil user of an unauthenticated session. *)
Definition queryWhoAmI (cookies : list string) : go proxyE (option string) :=
  addr ← lift (url_parse (whoAmIAddr fl));
  resp ← call (WhoAmI (whoAmIAddr fl) cookies);
  body ← lift resp.2;
  data ← lift (decode_map body);
  if Z.eqb resp.1 StatusOK then
    u ← lift (decode_username data);
    mret (Some u)
  else
    status ← lift (decode_status data);
    if String.eqb status "Unauthorized" then mret None
    else fail (errorf "Unknown error").

Definition getTransitiveGroups (user : string) : go proxyE (list string) :=
  resp ← call (GetJSON (membershipAddr fl +:+ "/" +:+ user));
  body ← lift resp;
  lift (decode_member_of body).

(** Whether one of the comma separated groups is among those of the user. *)
Definition hasPermission (tg : list string) : bool :=
  existsb (fun i => existsb (String.eqb (TrimSpace i)) tg) (Split (groupsFlag fl) ","%char).

Definition proxy_error (e : error) : go proxyE (reply relayed) :=
  mret (HttpError (emsg e) StatusInternalServerError).

Definition forward (r : request) (username : string) : go proxyE (reply relayed) :=
  check ru := lift (url_parse ("http://" +:+ upstream fl +:+ rpath r)) onerr e => proxy_error e in
  check resp := call (Do (MkUpstream ru (rmethod r) (HeaderAdd (rheader r) "X-User" username) (rbody r)))
    onerr e => proxy_error e in
  mret (Page (MkRelayed (rsp_code resp) (copy_headers (rsp_header resp)) (rsp_body resp) (rsp_copy_error resp))).

Definition handle_request (r : request) : go proxyE (reply relayed) :=
  check user := queryWhoAmI (default [] (rheader r !! "Cookie")) onerr e => proxy_error e in
  match user with
  | None =>
      if negb (String.eqb (rmethod r) MethodGet) then
        mret (HttpError "Unauthorized" StatusUnauthorized)
      else
        check curr := lift (getAddr r) onerr e => proxy_error e in
        mret (Redirect (loginAddr fl +:+ "?return_to=" +:+ curr) StatusSeeOther)
  | Some username =>
      if negb (String.eqb (groupsFlag fl) "") then
        check tg := getTransitiveGroups username onerr e => proxy_error e in
        if negb (hasPermission tg) then mret (HttpError "not authorized" StatusUnauthorized)
        else forward r username
      else forward r username
  end.
End Proxy.

(** ** A world of services that logs what reaches the upstream *)

Record world := MkWorld {
  w_whoami : list string -> outcome (Z * outcome json);
  w_get : string -> outcome (outcome json);
  w_upstream : upstream_request -> outcome relayed;
}.

Definition serve_world (w : world) : handler proxyE (list upstream_request) := fun X e log =>
  match e in proxyE X return list upstream_request * X with
  | WhoAmI _ cookies => (log, w_whoami w cookies)
  | GetJSON url => (log, w_get w url)
  | Do rc => (log ++ [rc], w_upstream w rc)
  end.

(** Who the session belongs to, according to the world. *)
Definition session_user (w : world) (r : request) : outcome (option string) :=
  resp ← w_whoami w (default [] (rheader r !! "Cookie"));
  body ← resp.2;
  data ← decode_map body;
  if Z.eqb resp.1 StatusOK then u ← decode_username data; Ok (Some u)
  else
    status ← decode_status data;
    if String.eqb status "Unauthorized" then Ok None else Err (errorf "Unknown error").

Definition groups_of (w : world) (fl : flags) (user : string) : outcome (list string) :=
  resp ← w_get w (membershipAddr fl +:+ "/" +:+ user);
  body ← resp;
  decode_member_of body.

(** Membership in one of the groups the proxy asks for, if it asks for any. *)
Definition admitted (w : world) (fl : flags) (user : string) : Prop :=
  groupsFlag fl = "" \/
  exists tg i, groups_of w fl user = Ok tg /\ i ∈ Split (groupsFlag fl) ","%char /\ TrimSpace i ∈ tg.

Section World.
Context (w : world) (fl : flags) (url_parse : string -> outcome string).
Abbreviation h := (serve_world w).

Lemma run_whoami r log :
  url_parse (whoAmIAddr fl) = Ok (whoAmIAddr fl) ->
  run h (queryWhoAmI fl url_parse (default [] (rheader r !! "Cookie"))) log = (log, session_user w r).
Proof.
  intros Hu. unfold queryWhoAmI, session_user. rewrite run_mbind. cbn [run lift]. rewrite Hu.
  rewrite run_mbind, run_call. cbn [serve_world].
  destruct (w_whoami w _) as [[code body]|e|x|]; cbn; [|done..].
  destruct body as [v|e|x|]; cbn; [|done..].
  destruct (decode_map v) as [data|e|x|]; cbn; [|done..].
  destruct (code =? StatusOK)%Z.
  - by destruct (decode_username data).
  - destruct (decode_status data) as [st| | |]; cbn; [|done..]. by destruct (String.eqb st _).
Qed.

Lemma run_groups user log : run h (getTransitiveGroups fl user) log = (log, groups_of w fl user).
Proof.
  unfold getTransitiveGroups, groups_of. rewrite run_mbind, run_call. cbn [serve_world].
  destruct (w_get w _) as [[v|e|x|]|e|x|]; cbn; [|done..]. done.
Qed.

Lemma hasPermission_spec tg :
  hasPermission fl tg = true <-> exists i, i ∈ Split (groupsFlag fl) ","%char /\ TrimSpace i ∈ tg.
Proof.
  unfold hasPermission. rewrite existsb_exists. setoid_rewrite <- list_elem_of_In.
  split; intros (i & Hi & H); exists i; (split; [done|]).
  - apply existsb_exists in H as (x & Hx & He). apply String.eqb_eq in He. rewrite He.
    by apply list_elem_of_In.
  - apply existsb_exists. exists (TrimSpace i). rewrite <- list_elem_of_In. by rewrite String.eqb_refl.
Qed.

(** The request the upstream gets for a user. *)
Definition upstream_of (r : request) (username : string) (ru : string) : upstream_request :=
  MkUpstream ru (rmethod r) (HeaderAdd (rheader r) "X-User" username) (rbody r).

Lemma run_forward r username log ru :
  url_parse ("http://" +:+ upstream fl +:+ rpath r) = Ok ru ->
  (run h (forward fl url_parse r username) log).1 = log ++ [upstream_of r username ru].
Proof.
  intros Hu. unfold forward. rewrite run_handle. cbn [run lift]. rewrite Hu.
  rewrite run_handle, run_call. cbn [serve_world].
  by destruct (w_upstream w _).
Qed.
(** The decision of the proxy about a user. *)
Definition admits (user : string) : bool :=
  String.eqb (groupsFlag fl) "" || match groups_of w fl user with Ok tg => hasPermission fl tg | _ => false end.

Lemma admits_spec user : admits user = true <-> admitted w fl user.
Proof.
  unfold admits, admitted. destruct (String.eqb_spec (groupsFlag fl) "") as [He|He]; [split; [by left|done]|]. cbn [orb].
  destruct (groups_of w fl user) as [tg|e|x|].
  - rewrite hasPermission_spec. split; [intros (i & Hi & Ht); right; by exists tg, i|].
    intros [?|(tg' & i & [= <-] & Hi & Ht)]; [done|by exists i].
  - split; [done|]. intros [?|(? & ? & ? & _)]; congruence.
  - split; [done|]. intros [?|(? & ? & ? & _)]; congruence.
  - split; [done|]. intros [?|(? & ? & ? & _)]; congruence.
Qed.

(** What a request leaves in the log of the upstream. *)
Lemma run_request r ru log :
  url_parse (whoAmIAddr fl) = Ok (whoAmIAddr fl) -> url_parse ("http://" +:+ upstream fl +:+ rpath r) = Ok ru ->
  (run h (handle_request fl url_parse r) log).1 =
    match session_user w r with Ok (Some u) => if admits u then log ++ [upstream_of r u ru] else log | _ => log end.
Proof.
  intros Hw Hu. unfold handle_request, admits. rewrite run_handle, (run_whoami r log Hw).
  destruct (session_user w r) as [[u|]|e|x|]; cbn [run]; [| |done..].
  - destruct (String.eqb (groupsFlag fl) ""); cbn [negb orb]; [by apply run_forward|].
    rewrite run_handle, run_groups. destruct (groups_of w fl u) as [tg|e|x|]; cbn [run]; [|done..].
    destruct (hasPermission fl tg); cbn [negb]; [by apply run_forward|done].
  - destruct (negb _); [done|]. rewrite run_handle. cbn [run lift]. by destruct (getAddr url_parse r).
Qed.
End World.

(** the proxy passes a request on exactly when the session service
    vouches for a user and, if groups are configured, the membership service lists
    one of them; then the upstream gets that request once, with the user's name
    appended to the X-User header; otherwise nothing reaches the upstream. *)
Theorem proxy_forwards_iff w fl url_parse r ru log :
  url_parse (whoAmIAddr fl) = Ok (whoAmIAddr fl) ->
  url_parse ("http://" +:+ upstream fl +:+ rpath r) = Ok ru ->
  let log' := (run (serve_world w) (handle_request fl url_parse r) log).1 in
  (exists u, session_user w r = Ok (Some u) /\ admitted w fl u /\
     log' = log ++ [MkUpstream ru (rmethod r) (HeaderAdd (rheader r) "X-User" u) (rbody r)]) \/
  (log' = log /\ forall u, session_user w r = Ok (Some u) -> ~ admitted w fl u).
Proof.
  intros Hw Hu log'. subst log'. rewrite (run_request w fl url_parse r ru log Hw Hu).
  destruct (session_user w r) as [[u|]|e|x|]; [|by right..].
  destruct (admits w fl u) eqn:Ha; [left; exists u; by rewrite <- (admits_spec w fl u)|].
  right. split; [done|]. intros u' [= <-] Hu'. apply admits_spec in Hu'. congruence.
Qed.

(** The request as the upstream sees it: HTTP drops the white space around the
    values of the headers. *)
Definition received (r : request) (u : upstream_request) : request :=
  MkRequest (umethod u) (rpath r) (map TrimSpace <$> uheader u) (rvars r) (rquery r) (rpost r) (rform_err r) (ubody u).

Lemma user_received r u :
  getLoggedInUser (received r u) =
    let v := TrimSpace (first_value (uheader u) "X-User") in
    if String.eqb v "" then Err (errorf "unauthenticated") else Ok v.
Proof.
  assert (HeaderGet (received r u) "X-User" = TrimSpace (first_value (uheader u) "X-User")) as He.
  { unfold HeaderGet, received, first_value. cbn [rheader]. rewrite lookup_fmap.
    by destruct (uheader u !! "X-User") as [[|v vs]|]. }
  unfold getLoggedInUser. rewrite He. cbv zeta. by destruct (String.eqb _ "").
Qed.

(** C8. whose name a PCloud service behind the proxy sees ([getLoggedInUser] of
    the memberships server). A request of an admitted session reaches the
    upstream once, and the service takes it for one of the session's user when
    the client sent no X-User header; otherwise for one of the client's own
    first X-User value, whoever the session belongs to, and for one of nobody
    when this value is empty. *)
Theorem upstream_identity w fl url_parse r ru log u :
  url_parse (whoAmIAddr fl) = Ok (whoAmIAddr fl) ->
  url_parse ("http://" +:+ upstream fl +:+ rpath r) = Ok ru ->
  session_user w r = Ok (Some u) -> admitted w fl u -> u <> "" -> TrimSpace u = u ->
  exists rc, (run (serve_world w) (handle_request fl url_parse r) log).1 = log ++ [rc] /\
    getLoggedInUser (received r rc) =
      match default [] (rheader r !! "X-User") with
      | [] => Ok u
      | v :: _ => if String.eqb (TrimSpace v) "" then Err (errorf "unauthenticated") else Ok (TrimSpace v)
      end.
Proof.
  intros Hw Hu Hs Ha Hne Htr. exists (upstream_of r u ru).
  rewrite (run_request w fl url_parse r ru log Hw Hu), Hs, (proj2 (admits_spec w fl u) Ha). split; [done|].
  rewrite user_received. unfold upstream_of, first_value, HeaderAdd; cbn [uheader]. rewrite lookup_insert_eq.
  destruct (rheader r !! "X-User") as [[|v vs]|]; simpl; [|done|];
    rewrite Htr; by apply String.eqb_neq in Hne as ->.
Qed.

(** ** The proxy in front of the memberships server *)

(** json.NewEncoder(w).Encode(userInfo{groupNames}): a nil slice is null. *)
Definition encode_user_info (ns : list string) : json :=
  JObj [("memberOf", match ns with [] => JNull | _ => JArr (map JStr ns) end)].

(** What a client of the API reads: the encoded page, or a text that is not JSON. *)
Definition api_body (o : outcome response) : outcome (outcome json) :=
  match o with
  | Ok (Page (UserInfo ns)) => Ok (Ok (encode_user_info ns))
  | Ok _ => Ok (Err err_json)
  | Err e => Err e
  | Panic _ => Err (errorf "EOF")
  | Diverge => Diverge
  end.

Definition api_request (user : string) : request :=
  MkRequest "GET" ("/api/user/" +:+ user) ∅ {[ "username" := user ]} ∅ ∅ None "".

(** The membership service of a world is the API of a memberships store. *)
Definition served_by (drv : driver) (fuel : nat) (d : db) (user : string) : outcome (outcome json) :=
  api_body (run (sql_step drv) (apiMemberOfHandler (sqlite_store fuel) (fun _ => Ok tt) (api_request user)) d).2.

Lemma decode_encode_user_info ns : decode_member_of (encode_user_info ns) = Ok ns.
Proof.
  assert (Hl : json_list json_string (map JStr ns) = Ok ns).
  { induction ns as [|n ns IH]; simpl; [done|by rewrite IH]. }
  unfold decode_member_of, encode_user_info, json_field.
  assert (ToLower "memberOf" = ToLower "memberOf") as He by done.
  cbn [list_find fst]. rewrite decide_True by done. by destruct ns.
Qed.

Lemma api_names drv fuel u d :
  quiet drv -> reachable drv d -> length (groups (tabs d)) < fuel -> u <> "" ->
  exists ns, served_by drv fuel d u = Ok (Ok (encode_user_info ns)) /\
    forall n, n ∈ ns <->
      exists g, (ToLower u, g) ∈ user_to_group (tabs d) /\ g ∈ group_names (tabs d) /\ rtc (pedge (tabs d)) g n.
Proof.
  intros Hq Hr Hf Hu.
  destruct (transitive_user_names drv fuel (ToLower u) d Hq Hr Hf) as (d' & gs & Hrun & _ & _ & Hx).
  exists (names gs). split; [|done]. unfold served_by, apiMemberOfHandler.
  assert (Var (api_request u) "username" = u) as ->
    by (unfold Var, api_request; simpl; by rewrite lookup_singleton_eq).
  apply String.eqb_neq in Hu. rewrite Hu, run_handle.
  change (GetAllTransitiveGroupsForUser (ToLower u))
    with (SQLiteStore.GetAllTransitiveGroupsForUser fuel (ToLower u)).
  by rewrite Hrun.
Qed.

(** C9. the proxy with a list of groups, in front of the memberships server:
    a request of a session of [u] reaches the upstream exactly when one of the listed
    groups is an ancestor-or-self of a group [u] was put in. *)
Theorem proxy_admits_transitive_members w fl url_parse r ru log drv fuel d u :
  url_parse (whoAmIAddr fl) = Ok (whoAmIAddr fl) ->
  url_parse ("http://" +:+ upstream fl +:+ rpath r) = Ok ru ->
  quiet drv -> reachable drv d -> length (groups (tabs d)) < fuel ->
  groupsFlag fl <> "" -> u <> "" -> session_user w r = Ok (Some u) ->
  w_get w (membershipAddr fl +:+ "/" +:+ u) = served_by drv fuel d u ->
  (run (serve_world w) (handle_request fl url_parse r) log).1 = log ++ [upstream_of r u ru] <->
  exists i g, i ∈ Split (groupsFlag fl) ","%char /\ (ToLower u, g) ∈ user_to_group (tabs d) /\
    g ∈ group_names (tabs d) /\ rtc (pedge (tabs d)) g (TrimSpace i).
Proof.
  intros Hw Hru Hq Hr Hf Hg Hu Hs Hget.
  destruct (api_names drv fuel u d Hq Hr Hf Hu) as (ns & Hns & Hx). rewrite Hns in Hget.
  assert (Hgo : groups_of w fl u = Ok ns).
  { unfold groups_of. rewrite Hget. apply decode_encode_user_info. }
  rewrite (run_request w fl url_parse r ru log Hw Hru), Hs. unfold admits. rewrite Hgo, (proj2 (String.eqb_neq _ _) Hg). cbn [orb].
  pose proof (hasPermission_spec fl ns) as Hp.
  destruct (hasPermission fl ns).
  - split; [intros _|done].
    destruct (proj1 Hp eq_refl) as (i & Hi & (g & Hin)%Hx). exists i, g. by split.
  - simpl. split.
    + intros He. apply (f_equal length) in He. rewrite length_app in He. simpl in He. lia.
    + intros (i & g & Hi & Hin). enough (false = true) by done. apply Hp. exists i. split; [done|].
      apply Hx. by exists g.
Qed.

(** ** Witnesses *)

Definition demo_flags : flags := MkFlags "who" "login" "api" "ops, eng" "up".
Definition demo_world : world :=
  MkWorld
    (fun cookies => Ok (200%Z, Ok (JObj [("identity", JObj [("traits", JObj [("username", JStr "alice")])])])))
    (fun url => served_by demo_driver 4 demo_db "alice")
    (fun _ => Ok (MkRelayed 200 ∅ "hi" None)).
Definition demo_get : request := MkRequest "GET" "/x" ∅ ∅ ∅ ∅ None "".

Lemma proxy_forwards_iff_witness :
  (exists u, session_user demo_world demo_get = Ok (Some u)) /\
  ((exists u, session_user demo_world demo_get = Ok (Some u) /\ admitted demo_world demo_flags u /\
     (run (serve_world demo_world) (handle_request demo_flags (@Ok string) demo_get) []).1
       = [] ++ [MkUpstream "http://up/x" "GET" (HeaderAdd ∅ "X-User" u) ""]) \/
   ((run (serve_world demo_world) (handle_request demo_flags (@Ok string) demo_get) []).1 = [] /\
      forall u, session_user demo_world demo_get = Ok (Some u) -> ~ admitted demo_world demo_flags u)).
Proof.
  split; [by eexists|].
  by apply (proxy_forwards_iff demo_world demo_flags (@Ok string) demo_get "http://up/x" []).
Defined.

(** alice is in "dev", which is below "eng". *)
Lemma proxy_admits_transitive_members_witness :
  (run (serve_world demo_world) (handle_request demo_flags (@Ok string) demo_get) []).1
    = [] ++ [upstream_of demo_get "alice" "http://up/x"].
Proof.
  apply (proxy_admits_transitive_members demo_world demo_flags (@Ok string) demo_get "http://up/x" []
    demo_driver 4 demo_db "alice"); try done.
  - exact demo_reachable.
  - vm_compute; lia.
  - exists " eng", "dev". split; [by apply (bool_decide_unpack _); vm_compute|].
    split; [by apply (bool_decide_unpack _); vm_compute|].
    split; [by apply (bool_decide_unpack _); vm_compute|].
    change (TrimSpace " eng") with "eng".
    apply rtc_once. unfold pedge. by apply (bool_decide_unpack _); vm_compute.
Defined.

Lemma upstream_identity_witness :
  exists rc, (run (serve_world demo_world) (handle_request demo_flags (@Ok string) (demo_request "mallory" "GET" [] [])) []).1
      = [] ++ [rc] /\
    getLoggedInUser (received (demo_request "mallory" "GET" [] []) rc) = Ok "mallory".
Proof.
  apply (upstream_identity demo_world demo_flags (@Ok string) (demo_request "mallory" "GET" [] []) "http://up/" [] "alice");
    try done.
  apply admits_spec. vm_compute. reflexivity.
Defined.
