(* ===== verification/DnsApi.v ===== *)
(** * The DNS API (core/dns-api)

    The zone file of an environment: the record list with its Go slice (the
    deletion loop edits the array it ranges over), the store that rewrites the
    file, the start-up that creates it, and the HTTP server in front. *)
From S2P Require Import Prelude GoLib GoStrings GoPath.
From Stdlib Require Import Ascii.
Open Scope string_scope.
Open Scope list_scope.

(** ** Records, as far as records_file.go tells them apart *)

Inductive RR :=
  | TXT (name : string) (ttl : Z) (txt : list string)
  | A (name : string) (ttl : Z) (ip : option string)
  | SOA (name : string) (serial : Z) (rest : string)
  | OtherRR (text : string).

#[export] Instance RR_eq_dec : EqDecision RR.
Proof. solve_decision. Defined.

(** [10 * uint32(time.Now().Unix())] *)
Definition NowUnix (now : Z) : Z := (10 * (now mod 2 ^ 32)) mod 2 ^ 32.

(** txt.Hdr.Name == name && strings.Join(txt.Txt, "") == value *)
Definition txt_match (name value : string) (rr : RR) : bool :=
  match rr with
  | TXT n _ t => String.eqb n name && String.eqb (Join t "") value
  | _ => false
  end.

(** ** RecordsFile *)

(** A slice: its array, of which the first [slen] cells are the slice.  Ranging
    over a slice fixes the array and the length, but reads the cells as it goes. *)
Record slice := MkSlice { cells : list RR; slen : nat }.

Definition contents (s : slice) : list RR := take (slen s) (cells s).
Definition slice_of (l : list RR) : slice := MkSlice l (length l).

(** z.rrs = append(z.rrs[:i], z.rrs[i+1:]...): the tail moves down in place. *)
Definition remove_at (s : slice) (i : nat) : outcome slice :=
  if decide (i + 1 <= slen s) then
    let tail := drop (i + 1) (contents s) in
    Ok (MkSlice (take i (cells s) ++ tail ++ drop (i + length tail) (cells s)) (i + length tail))
  else Panic "slice bounds out of range".

(** for i, rr := range z.rrs { if match { z.rrs = append(...) } }, from index
    [i] on with [n] cells to go. *)
Fixpoint delete_loop (name value : string) (n i : nat) (s : slice) : outcome slice :=
  match n with
  | 0 => Ok s
  | S n' =>
      match cells s !! i with
      | Some rr =>
          if txt_match name value rr then
            s' ← remove_at s i; delete_loop name value n' (S i) s'
          else delete_loop name value n' (S i) s
      | None => delete_loop name value n' (S i) s
      end
  end.

Definition DeleteTxtRecord (name value : string) (rrs : list RR) : outcome (list RR) :=
  s ← delete_loop name value (length rrs) 0 (slice_of rrs);
  Ok (contents s).

Definition new_txt (name value : string) : RR := TXT name 300 [value].

(** The loop of CreateOrReplaceTxtRecord returns at the first match: the record
    keeps its header, gets the value as its one string, and moves to the end. *)
Definition CreateOrReplaceTxtRecord (name value : string) (rrs : list RR) : list RR :=
  match list_find (fun rr => txt_match name value rr = true) rrs with
  | Some (i, TXT n ttl _) => take i rrs ++ drop (i + 1) rrs ++ [TXT n ttl [value]]
  | _ => rrs ++ [new_txt name value]
  end.

Definition CreateARecord (ParseIP : string -> option string) (name value : string) (rrs : list RR) : list RR :=
  rrs ++ [A name 300 (ParseIP value)].

(** ** The file system *)

Inductive fsE : Type -> Type :=
  | Stat (path : string) : fsE (outcome unit)
  | OpenRead (path : string) : fsE (outcome string)
  | CreateFile (path : string) : fsE (outcome unit)     (* truncates *)
  | Append (path data : string) : fsE (outcome unit).   (* write to the open file *)

Section OsFS.
Context (root : string).

Definition AbsolutePath (path : string) : string := JoinPath [root; path].

Definition Exists (path : string) : go fsE bool :=
  check _u := call (Stat (AbsolutePath path)) onerr e => mret false in mret true.

Definition Reader (path : string) : go fsE string := call (OpenRead (AbsolutePath path)).
Definition Writer (path : string) : go fsE unit := call (CreateFile (AbsolutePath path)).
Definition Read (path : string) : go fsE string := Reader path.

Definition WriteFile (path data : string) : go fsE unit :=
  _ ← Writer path; call (Append (AbsolutePath path) data).

(** ** fsRecordStore *)

(** The zone parser and printer of github.com/miekg/dns. *)
Context (parse : string -> outcome (list RR)) (print : RR -> string).

Definition newline : string := String (ascii_of_nat 10) "".

Definition bump (now : Z) (rr : RR) : RR :=
  match rr with SOA n _ rest => SOA n (NowUnix now) rest | _ => rr end.

(** RecordsFile.Write: one line per record, the serial of the SOA renewed. *)
Definition WriteRecords (db : string) (now : Z) (rrs : list RR) : go fsE unit :=
  foreach (fun rr => call (Append (AbsolutePath db) (print (bump now rr) +:+ newline))) rrs.

Definition store_read (db : string) : go fsE (list RR) :=
  data ← Reader db; lift (parse data).

Definition store_write (db : string) (now : Z) (rrs : list RR) : go fsE unit :=
  _ ← Writer db; WriteRecords db now rrs.

Definition Add (zone db : string) (now : Z) (entry txt : string) : go fsE unit :=
  rrs ← store_read db;
  let fqdn := entry +:+ "." +:+ zone +:+ "." in
  store_write db now (CreateOrReplaceTxtRecord fqdn txt rrs).

Definition Delete (zone db : string) (now : Z) (entry txt : string) : go fsE unit :=
  rrs ← store_read db;
  let fqdn := entry +:+ "." +:+ zone +:+ "." in
  rrs' ← lift (DeleteTxtRecord fqdn txt rrs);
  store_write db now rrs'.

(** ** Start-up (init.go) *)

Record DNSSecKey := MkKey { kBasename : string; kKey : string; kPrivate : string; kDS : string }.

(** Key generation of miekg/dns, and the JSON text of a key. *)
Context (newDNSSecKey : string -> outcome DNSSecKey).
Context (marshal_key : DNSSecKey -> string) (unmarshal_key : string -> outcome DNSSecKey).

Definition getDNSSecKey (zone : string) : go fsE DNSSecKey :=
  let configFile := "dns-sec-key.json" in
  ok ← Exists configFile;
  if (ok : bool) then d ← Read configFile; lift (unmarshal_key d)
  else
    k ← lift (newDNSSecKey zone);
    _ ← WriteFile configFile (marshal_key k);
    mret k.

Definition tab : string := String (ascii_of_nat 9) "".

(** The text the template coreDNSConfigTmpl executes to. *)
Definition core_dns_config (zone dbFile basename : string) : list string :=
  [zone +:+ ":53 {"; tab +:+ "file " +:+ dbFile +:+ " {"; tab +:+ tab +:+ "reload 1s"; tab +:+ "}"; tab +:+ "errors"]
  ++ (if String.eqb basename "" then []
      else [tab +:+ "dnssec {"; tab +:+ tab +:+ "key file " +:+ basename; tab +:+ "}"])
  ++ [tab +:+ "log"; tab +:+ "health {"; tab +:+ tab +:+ "lameduck 5s"; tab +:+ "}"; tab +:+ "ready";
      tab +:+ "cache 30"; tab +:+ "loop"; tab +:+ "reload"; tab +:+ "loadbalance"; "}"].

(** The text of recordsDBTmpl. *)
Definition records_db (zone : string) (publicIP : list string) (privateIP : string)
    (nameserverIP : list string) (now : Z) : list string :=
  [zone +:+ ".   IN SOA ns1." +:+ zone +:+ ". hostmaster." +:+ zone +:+ ". " +:+ Itoa (NowUnix now)
     +:+ " 7200 3600 1209600 3600"]
  ++ imap (fun i ns => "ns" +:+ itoa_nat (i + 1) +:+ "." +:+ zone +:+ ". 10800 IN A " +:+ ns) nameserverIP
  ++ flat_map (fun ip => [zone +:+ ". 10800 IN A " +:+ ip; "*." +:+ zone +:+ ". 10800 IN A " +:+ ip;
                          "*.*." +:+ zone +:+ ". 10800 IN A " +:+ ip]) publicIP
  ++ ["*.p." +:+ zone +:+ ". 10800 IN A " +:+ privateIP].

(** executeTemplate: fs.Write(path, strings.TrimSpace(text)+"\n"). *)
Definition executeTemplate (path : string) (lines : list string) : go fsE unit :=
  WriteFile path (TrimSpace (Join lines newline) +:+ newline).

(** Returns the DS record; the store is [Add] and [Delete] above. *)
Definition NewStore (config db zone : string) (publicIP : list string) (privateIP : string)
    (nameserverIP : list string) (now : Z) : go fsE string :=
  dnsSec ← getDNSSecKey zone;
  _ ← WriteFile (kBasename dnsSec +:+ ".key") (kKey dnsSec);
  _ ← WriteFile (kBasename dnsSec +:+ ".private") (kPrivate dnsSec);
  _ ← executeTemplate config (core_dns_config zone (AbsolutePath db) (AbsolutePath (kBasename dnsSec)));
  ok ← Exists db;
  _ ← (if (ok : bool) then mret tt
       else executeTemplate db (records_db zone publicIP privateIP nameserverIP now));
  mret (kDS dnsSec).

(** ** The server *)

Record record := MkRecord { rDomain : string; rEntry : string; rText : string }.

Definition decode_record (v : json) : outcome record :=
  d ← json_field "domain" json_string "" v;
  e ← json_field "entry" json_string "" v;
  t ← json_field "text" json_string "" v;
  Ok (MkRecord d e t).

Section Server.
Context (zone db : string) (ds : string) (nameserver : list string).

Definition recordsToPublish : list string :=
  let subdomain := default "" (head (Split zone "."%char)) in
  ds :: flat_map (fun x => x) (imap (fun i ip =>
    ["ns" +:+ itoa_nat (i + 1) +:+ "." +:+ zone +:+ ". 10800 IN A " +:+ ip;
     subdomain +:+ " 10800 IN NS ns" +:+ itoa_nat (i + 1) +:+ "." +:+ zone +:+ "."]) nameserver).

Definition edit_txt_record (edit : string -> string -> go fsE unit) (body : outcome json)
    : go fsE (reply unit) :=
  check v := lift body onerr e => mret (HttpError (emsg e) StatusBadRequest) in
  check req := lift (decode_record v) onerr e => mret (HttpError (emsg e) StatusBadRequest) in
  check _u := edit (rEntry req) (rText req) onerr e =>
    mret (HttpError (emsg e) StatusInternalServerError) in
  mret Empty.

Definition createTxtRecord (now : Z) : outcome json -> go fsE (reply unit) := edit_txt_record (Add zone db now).
Definition deleteTxtRecord (now : Z) : outcome json -> go fsE (reply unit) := edit_txt_record (Delete zone db now).
End Server.
End OsFS.

(** ** A disk without faults *)

Definition err_not_exist : error := MkErr KNotExist "no such file or directory".

Definition disk_step : handler fsE (gmap string string) := fun X e fs =>
  match e in fsE X return gmap string string * X with
  | Stat p => (fs, match fs !! p with Some _ => Ok tt | None => Err err_not_exist end)
  | OpenRead p => (fs, match fs !! p with Some d => Ok d | None => Err err_not_exist end)
  | CreateFile p => (<[p := ""]> fs, Ok tt)
  | Append p d => (<[p := default "" (fs !! p) +:+ d]> fs, Ok tt)
  end.

(** ** The record list as a set of TXT pairs *)

Definition txt_pair (rr : RR) : option (string * string) :=
  match rr with TXT n _ t => Some (n, Join t "") | _ => None end.

Definition txts (rrs : list RR) : list (string * string) := omap txt_pair rrs.
Definition others (rrs : list RR) : list RR := filter (fun rr => txt_pair rr = None) rrs.

Lemma txt_match_pair n v rr : txt_match n v rr = true <-> txt_pair rr = Some (n, v).
Proof.
  destruct rr as [n' ttl t|?|?|?]; simpl; try done.
  rewrite andb_true_iff, !String.eqb_eq. naive_solver.
Qed.

Lemma txt_match_false n v rr : txt_match n v rr = false <-> txt_pair rr <> Some (n, v).
Proof. rewrite <- txt_match_pair. by destruct (txt_match n v rr). Qed.

Lemma txts_app a b : txts (a ++ b) = txts a ++ txts b.
Proof. apply omap_app. Qed.

Lemma others_app a b : others (a ++ b) = others a ++ others b.
Proof. apply filter_app. Qed.

Lemma txts_elem n v rrs : (n, v) ∈ txts rrs <-> exists rr, rr ∈ rrs /\ txt_pair rr = Some (n, v).
Proof. apply list_elem_of_omap. Qed.

(** Either nothing matches, or the list splits at its first match. *)
Lemma match_cases n v rrs :
  (((n, v) ∉ txts rrs) /\ list_find (fun rr => txt_match n v rr = true) rrs = None) \/
  exists l1 ttl t l2, rrs = l1 ++ TXT n ttl t :: l2 /\ Join t "" = v /\ ((n, v) ∉ txts l1) /\
    list_find (fun rr => txt_match n v rr = true) rrs = Some (length l1, TXT n ttl t).
Proof.
  destruct (list_find (fun rr => txt_match n v rr = true) rrs) as [[i rr]|] eqn:Hf.
  - right. apply list_find_Some in Hf as (Hi & Hm & Hfirst).
    apply txt_match_pair in Hm. destruct rr as [n' ttl t|?|?|?]; simplify_eq/=.
    exists (take i rrs), ttl, t, (drop (S i) rrs).
    split; [by rewrite take_drop_middle|]. split; [done|].
    assert (Hlen : length (take i rrs) = i) by (apply length_take_le; apply lookup_lt_Some in Hi; lia).
    rewrite Hlen. split; [|done].
    intros (rr & Hrr & Hp)%txts_elem. apply list_elem_of_lookup in Hrr as [j Hj].
    assert (Hji : j < i) by (apply lookup_lt_Some in Hj; lia).
    rewrite lookup_take_lt in Hj by done. apply (Hfirst j rr Hj Hji). by apply txt_match_pair.
  - left. split; [|done]. apply list_find_None in Hf.
    intros (rr & Hrr & Hp)%txts_elem. rewrite Forall_forall in Hf. apply (Hf rr Hrr). by apply txt_match_pair.
Qed.

Lemma create_eq n v rrs :
  (((n, v) ∉ txts rrs) /\ CreateOrReplaceTxtRecord n v rrs = rrs ++ [new_txt n v]) \/
  exists l1 ttl t l2, rrs = l1 ++ TXT n ttl t :: l2 /\ Join t "" = v /\
    CreateOrReplaceTxtRecord n v rrs = l1 ++ l2 ++ [TXT n ttl [v]].
Proof.
  unfold CreateOrReplaceTxtRecord.
  destruct (match_cases n v rrs) as [[Hn ->]|(l1 & ttl & t & l2 & -> & Hj & _ & ->)]; [by left|].
  right. exists l1, ttl, t, l2. split_and!; [done|done|].
  rewrite take_app_length. do 2 f_equal.
  replace (length l1 + 1) with (S (length l1)) by lia.
  by rewrite drop_app_ge, Nat.sub_succ_l, Nat.sub_diag by lia.
Qed.

(** ** Deleting *)

Lemma delete_loop_skip n v k i s :
  (forall j rr, i <= j < i + k -> cells s !! j = Some rr -> txt_match n v rr = false) ->
  delete_loop n v k i s = Ok s.
Proof.
  revert i. induction k as [|k IH]; intros i Hs; simpl; [done|].
  destruct (cells s !! i) as [rr|] eqn:Hi; [rewrite (Hs i rr) by (done || lia)|];
    apply IH; intros j rr' Hj; apply Hs; lia.
Qed.

Lemma delete_loop_app n v a b i s :
  delete_loop n v (a + b) i s = s' ← delete_loop n v a i s; delete_loop n v b (i + a) s'.
Proof.
  revert i s. induction a as [|a IH]; intros i s; simpl; [by rewrite Nat.add_0_r|].
  rewrite Nat.add_succ_r, <- Nat.add_succ_l.
  destruct (cells s !! i) as [rr|]; [|apply IH]. destruct (txt_match n v rr); [|apply IH].
  destruct (remove_at s i); simpl; [apply IH|done..].
Qed.

Lemma not_in_txts n v l rr : ((n, v) ∉ txts l) -> rr ∈ l -> txt_match n v rr = false.
Proof. intros Hn Hrr. apply txt_match_false. intros Hp. apply Hn, txts_elem. eauto. Qed.

Lemma delete_loop_prefix n v l1 l2 :
  ((n, v) ∉ txts l1) ->
  delete_loop n v (length (l1 ++ l2)) 0 (slice_of (l1 ++ l2)) =
  delete_loop n v (length l2) (length l1) (slice_of (l1 ++ l2)).
Proof.
  intros Hn. rewrite length_app, delete_loop_app. rewrite delete_loop_skip; [done|].
  simpl. intros j rr Hj Hl. apply (not_in_txts n v l1); [done|].
  rewrite lookup_app_l in Hl by lia. by eapply list_elem_of_lookup_2.
Qed.

Lemma remove_at_app l1 rr l2 :
  exists rest, remove_at (slice_of (l1 ++ rr :: l2)) (length l1) =
    Ok (MkSlice (l1 ++ l2 ++ rest) (length l1 + length l2)) /\
    rest = drop (length l2) (rr :: l2).
Proof.
  eexists. split; [|reflexivity]. unfold remove_at. simpl. rewrite length_app. simpl.
  rewrite decide_True by lia. f_equal. unfold contents, slice_of. cbn [slen cells].
  rewrite firstn_all, take_app_length.
  replace (drop (length l1 + 1) (l1 ++ rr :: l2)) with l2
    by (by rewrite drop_app_ge, Nat.add_comm, Nat.add_sub by lia).
  f_equal. do 2 f_equal. rewrite drop_app_ge by lia. f_equal. lia.
Qed.

Lemma delete_loop_S n v k i s rr :
  cells s !! i = Some rr ->
  delete_loop n v (S k) i s =
    if txt_match n v rr then s' ← remove_at s i; delete_loop n v k (S i) s'
    else delete_loop n v k (S i) s.
Proof. intros Hi. simpl. by rewrite Hi. Qed.

(** Cells of the array after a deletion in front of [l]. *)
Lemma lookup_after {X} (l1 l : list X) k : (l1 ++ l) !! (k + length l1) = l !! k.
Proof. by rewrite lookup_app_r, Nat.add_sub by lia. Qed.

Lemma shifted_cell (l1 l : list RR) a k rr :
  (l1 ++ l ++ drop (length l) (a :: l)) !! (S k + length l1) = Some rr ->
  S k <= length l -> rr ∈ l.
Proof.
  rewrite lookup_after. intros Hl Hk.
  destruct (decide (S k < length l)) as [Hlt|Hge].
  - rewrite lookup_app_l in Hl by done. by eapply list_elem_of_lookup_2.
  - rewrite lookup_app_r, lookup_drop in Hl by lia.
    replace (length l + (S k - length l)) with (S k) in Hl by lia. by eapply list_elem_of_lookup_2.
Qed.

Lemma DeleteTxtRecord_one n v l1 rr l2 :
  txt_match n v rr = true -> ((n, v) ∉ txts l1) -> ((n, v) ∉ txts l2) ->
  DeleteTxtRecord n v (l1 ++ rr :: l2) = Ok (l1 ++ l2).
Proof.
  intros Hm H1 H2. unfold DeleteTxtRecord. rewrite delete_loop_prefix by done.
  destruct (remove_at_app l1 rr l2) as (rest & Hr & Hrest). cbn [length delete_loop slice_of cells].
  rewrite list_lookup_middle, Hm by done. fold (slice_of (l1 ++ rr :: l2)). rewrite Hr. cbn [mbind outcome_bind].
  rewrite delete_loop_skip.
  - simpl. unfold contents. cbn [slen cells]. f_equal. by rewrite (assoc_L (++)), <- length_app, take_app_length.
  - cbn [cells]. intros j rr' Hj Hl. apply (not_in_txts n v l2); [done|]. subst rest.
    apply (shifted_cell l1 l2 rr (j - S (length l1))); [|lia].
    by replace (S (j - S (length l1)) + length l1) with j by lia.
Qed.

Lemma DeleteTxtRecord_none n v rrs : ((n, v) ∉ txts rrs) -> DeleteTxtRecord n v rrs = Ok rrs.
Proof.
  intros Hn. unfold DeleteTxtRecord. rewrite delete_loop_skip.
  - simpl. unfold contents. simpl. by rewrite firstn_all.
  - simpl. intros j rr _ Hl. apply (not_in_txts n v rrs); [done|]. by eapply list_elem_of_lookup_2.
Qed.

Lemma txts_cons rr l : txts (rr :: l) = match txt_pair rr with Some p => p :: txts l | None => txts l end.
Proof. done. Qed.

(** What deletion does to a list without duplicate pairs. *)
Lemma delete_eq n v rrs :
  NoDup (txts rrs) -> DeleteTxtRecord n v rrs = Ok (filter (fun rr => txt_pair rr <> Some (n, v)) rrs).
Proof.
  intros Hd. destruct (match_cases n v rrs) as [[Hn _]|(l1 & ttl & t & l2 & -> & Hj & H1 & _)].
  - rewrite DeleteTxtRecord_none by done. f_equal. symmetry. apply filter_all. intros rr Hrr Hp. apply Hn, txts_elem. eauto.
  - assert (H2 : (n, v) ∉ txts l2).
    { rewrite txts_app, txts_cons in Hd. simpl in Hd. apply NoDup_app in Hd as (_ & _ & Hd).
      rewrite Hj in Hd. by apply NoDup_cons in Hd as [? _]. }
    rewrite DeleteTxtRecord_one; [|apply txt_match_pair; simpl; by rewrite Hj|done..].
    f_equal. rewrite filter_app, filter_cons_False by (simpl; rewrite Hj; auto).
    f_equal; symmetry; apply filter_all; intros rr Hrr Hp.
    + apply H1, txts_elem. eauto.
    + apply H2, txts_elem. eauto.
Qed.

(** ** Creating *)

Lemma NoDup_move {X} (l1 l2 : list X) x : NoDup (l1 ++ x :: l2) -> NoDup (l1 ++ l2 ++ [x]).
Proof. intros H. by rewrite <- (Permutation_cons_append l2 x). Qed.

Lemma create_pairs n v rrs :
  NoDup (txts rrs) ->
  let rrs' := CreateOrReplaceTxtRecord n v rrs in
  NoDup (txts rrs') /\ (forall p, p ∈ txts rrs' <-> p = (n, v) \/ p ∈ txts rrs) /\ others rrs' = others rrs /\
  exists ttl, last rrs' = Some (TXT n ttl [v]).
Proof.
  intros Hd. simpl. destruct (create_eq n v rrs) as [[Hn ->]|(l1 & ttl & t & l2 & -> & Hj & ->)].
  - rewrite txts_app, others_app. split_and!.
    + apply NoDup_app. split_and!; [done| |apply NoDup_singleton].
      intros p Hp Hp'. apply list_elem_of_singleton in Hp' as ->. done.
    + intros p. rewrite elem_of_app. change (txts [new_txt n v]) with [(n, v)]. set_solver.
    + change (others [new_txt n v]) with (@nil RR). by rewrite (right_id_L [] (++)).
    + exists 300%Z. by rewrite last_snoc.
  - rewrite !txts_app, !others_app in *. rewrite txts_cons in *. simpl in *. rewrite Hj in *.
    split_and!.
    + by apply NoDup_move.
    + intros p. rewrite !elem_of_app, elem_of_cons. change (txts [TXT n ttl [v]]) with [(n, v)]. set_solver.
    + assert (others [TXT n ttl [v]] = []) as -> by done. rewrite (right_id_L [] (++)).
      unfold others at 4. by rewrite filter_cons_False.
    + exists ttl. by rewrite (assoc_L (++)), last_snoc.
Qed.

Lemma txts_filter p rrs : txts (filter (fun rr => txt_pair rr <> Some p) rrs) = filter (fun q => q <> p) (txts rrs).
Proof.
  induction rrs as [|rr rrs IH]; [done|].
  rewrite txts_cons. destruct (decide (txt_pair rr = Some p)) as [He|He].
  - rewrite filter_cons_False by tauto. rewrite He, filter_cons_False by tauto. done.
  - rewrite filter_cons_True by done. rewrite txts_cons. destruct (txt_pair rr) as [q|] eqn:Hq; [|done].
    rewrite filter_cons_True by congruence. by rewrite IH.
Qed.

Lemma others_filter p rrs : others (filter (fun rr => txt_pair rr <> Some p) rrs) = others rrs.
Proof.
  unfold others. induction rrs as [|rr rrs IH]; [done|].
  destruct (decide (txt_pair rr = Some p)) as [He|He].
  - rewrite filter_cons_False by tauto. rewrite (filter_cons_False _ rr) by congruence. done.
  - rewrite filter_cons_True by done. destruct (decide (txt_pair rr = None)) as [Hn|Hn].
    + by rewrite !filter_cons_True, IH.
    + by rewrite !filter_cons_False.
Qed.

(** ** Runs on the disk *)

Section Disk.
Context (root : string) (parse : string -> outcome (list RR)) (print : RR -> string).

Definition render (rrs : list RR) : string := foldr (fun rr s => print rr +:+ newline +:+ s) "" rrs.

Lemma run_append_all db now rrs fs done_ :
  fs !! AbsolutePath root db = Some done_ ->
  run disk_step (WriteRecords root print db now rrs) fs =
    (<[AbsolutePath root db := done_ +:+ render (map (bump now) rrs)]> fs, Ok tt).
Proof.
  revert fs done_. induction rrs as [|rr rrs IH]; intros fs done_ Hf.
  - simpl. rewrite str_app_nil. by rewrite insert_id.
  - unfold WriteRecords. cbn [foreach]. rewrite run_mbind, run_call. cbn [disk_step].
    unfold WriteRecords in IH. rewrite (IH _ (done_ +:+ (print (bump now rr) +:+ newline)))
      by (rewrite lookup_insert_eq, Hf; done).
    rewrite insert_insert_eq. f_equal. f_equal. cbn [map render foldr]. fold (render (map (bump now) rrs)).
    by rewrite !str_app_assoc.
Qed.

Lemma run_store_write db now rrs fs :
  run disk_step (store_write root print db now rrs) fs =
    (<[AbsolutePath root db := render (map (bump now) rrs)]> fs, Ok tt).
Proof.
  unfold store_write, Writer. rewrite run_mbind, run_call. cbn [disk_step].
  rewrite (run_append_all db now rrs _ "") by apply lookup_insert_eq. by rewrite insert_insert_eq.
Qed.

(** The zone file of a disk holds these records. *)
Definition holds (fs : gmap string string) (db : string) (rrs : list RR) : Prop :=
  exists data, fs !! AbsolutePath root db = Some data /\ parse data = Ok rrs.

Lemma run_store_read db fs rrs :
  holds fs db rrs -> run disk_step (store_read root parse db) fs = (fs, Ok rrs).
Proof.
  intros (data & Hd & Hp). unfold store_read, Reader. rewrite run_mbind, run_call. cbn [disk_step].
  rewrite Hd. simpl. by rewrite Hp.
Qed.

Definition fqdn_of (entry zone : string) : string := entry +:+ "." +:+ zone +:+ ".".

Lemma run_Add zone db now entry txt fs rrs :
  holds fs db rrs ->
  run disk_step (Add root parse print zone db now entry txt) fs =
    (<[AbsolutePath root db :=
        render (map (bump now) (CreateOrReplaceTxtRecord (fqdn_of entry zone) txt rrs))]> fs, Ok tt).
Proof.
  intros Hh. unfold Add. rewrite run_mbind, (run_store_read db fs rrs Hh). apply run_store_write.
Qed.

Lemma run_Delete zone db now entry txt fs rrs rrs' :
  holds fs db rrs -> DeleteTxtRecord (fqdn_of entry zone) txt rrs = Ok rrs' ->
  run disk_step (Delete root parse print zone db now entry txt) fs =
    (<[AbsolutePath root db := render (map (bump now) rrs')]> fs, Ok tt).
Proof.
  intros Hh Hd. unfold Delete. rewrite run_mbind, (run_store_read db fs rrs Hh), run_mbind.
  cbn [run lift]. unfold fqdn_of in Hd. rewrite Hd. apply run_store_write.
Qed.
End Disk.

(** ** The properties *)

(** C10. CreateOrReplaceTxtRecord keeps the (name, text) pairs of the TXT
    records free of duplicates, adds exactly the given pair to them, leaves the
    other records and their order alone, and puts the record last. *)
Theorem create_refines_insert n v rrs :
  NoDup (txts rrs) ->
  NoDup (txts (CreateOrReplaceTxtRecord n v rrs)) /\
  (forall p, p ∈ txts (CreateOrReplaceTxtRecord n v rrs) <-> p = (n, v) \/ p ∈ txts rrs) /\
  others (CreateOrReplaceTxtRecord n v rrs) = others rrs /\
  exists ttl, last (CreateOrReplaceTxtRecord n v rrs) = Some (TXT n ttl [v]).
Proof. apply create_pairs. Qed.

(** on a list without duplicate pairs, the loop of DeleteTxtRecord over
    the array it shifts under its own feet ends without a panic, and is the
    deletion of the pair: the other pairs and the other records keep their order. *)
Theorem delete_refines_remove n v rrs :
  NoDup (txts rrs) ->
  exists rrs', DeleteTxtRecord n v rrs = Ok rrs' /\ NoDup (txts rrs') /\
    txts rrs' = filter (fun q => q <> (n, v)) (txts rrs) /\ others rrs' = others rrs.
Proof.
  intros Hd. eexists. split; [by apply delete_eq|].
  rewrite txts_filter, others_filter. split_and!; [by apply NoDup_filter|done..].
Qed.

(** without that invariant the loop is wrong: with two matching records at
    the end it slices out of range and panics; with two of them side by side
    further up, the second one survives. *)
Theorem delete_duplicates n v l1 a b x l2 :
  txt_match n v a = true -> txt_match n v b = true -> (n, v) ∉ txts l1 -> (n, v) ∉ txts (x :: l2) ->
  DeleteTxtRecord n v (l1 ++ [a; b]) = Panic "slice bounds out of range" /\
  DeleteTxtRecord n v (l1 ++ a :: b :: x :: l2) = Ok (l1 ++ b :: x :: l2).
Proof.
  intros Ha Hb H1 H2. unfold DeleteTxtRecord. rewrite !delete_loop_prefix by done. split.
  - destruct (remove_at_app l1 a [b]) as (r & Hr & ->). cbn [length].
    rewrite (delete_loop_S _ _ _ _ _ a), Ha by (by apply list_lookup_middle). rewrite Hr. cbn [mbind outcome_bind].
    rewrite (delete_loop_S _ _ _ _ _ b), Hb; [|by apply (lookup_after l1 [b; b] 1)].
    unfold remove_at. by rewrite decide_False by (simpl; lia).
  - destruct (remove_at_app l1 a (b :: x :: l2)) as (r & Hr & ->). cbn [length].
    rewrite (delete_loop_S _ _ _ _ _ a), Ha by (by apply list_lookup_middle). rewrite Hr. cbn [mbind outcome_bind].
    rewrite (delete_loop_S _ _ _ _ _ x); [|by apply (lookup_after l1 ((b :: x :: l2) ++ drop (S (S (length l2))) (a :: b :: x :: l2)) 1)].
    rewrite (not_in_txts n v (x :: l2) x) by (done || left). rewrite delete_loop_skip.
    + cbn [mbind outcome_bind]. unfold contents. cbn [slen cells]. f_equal.
      rewrite (assoc_L (++)). apply take_app_length'. rewrite length_app. simpl. lia.
    + cbn [cells]. intros j rr Hj Hl. apply (not_in_txts n v (x :: l2)); [done|].
      apply (shifted_cell (l1 ++ [b]) (x :: l2) b (j - S (S (length l1)))); [|simpl; lia].
      replace (S (j - S (S (length l1))) + length (l1 ++ [b])) with j by (rewrite length_app; simpl; lia).
      by rewrite <- !(assoc_L (++)).
Qed.

(** Serial numbers compared as resolvers do (RFC 1982). *)
Definition serial_newer (new old : Z) : Prop := (0 < (new - old) mod 2 ^ 32 < 2 ^ 31)%Z.

(** the SOA serial fits 32 bits, wraps around, and still counts as newer
    than any serial written at most six years (2 ^ 31 / 10 seconds) earlier. *)
Theorem NowUnix_serial t u :
  (0 <= NowUnix t < 2 ^ 32)%Z /\
  ((t < u)%Z -> (10 * (u - t) < 2 ^ 31)%Z -> serial_newer (NowUnix u) (NowUnix t)).
Proof.
  split; [apply Z.mod_pos_bound; lia|]. intros Hlt Hb. unfold serial_newer, NowUnix.
  rewrite <- Zminus_mod. rewrite Zminus_mod, !Zmult_mod_idemp_r, <- Zminus_mod.
  replace (10 * u - 10 * t)%Z with (10 * (u - t))%Z by lia. rewrite Z.mod_small; lia.
Qed.

(** ** Restarting *)

Section Restart.
Context (root : string) (newDNSSecKey : string -> outcome DNSSecKey).
Context (marshal_key : DNSSecKey -> string) (unmarshal_key : string -> outcome DNSSecKey).
Hypothesis key_roundtrip : forall k, unmarshal_key (marshal_key k) = Ok k.

Abbreviation key_file := (AbsolutePath root "dns-sec-key.json").
Abbreviation get := (getDNSSecKey root newDNSSecKey marshal_key unmarshal_key).

Lemma run_Exists p fs :
  run disk_step (Exists root p) fs = (fs, Ok (bool_decide (is_Some (fs !! AbsolutePath root p)))).
Proof.
  unfold Exists. rewrite run_handle, run_call. cbn [disk_step].
  by destruct (fs !! AbsolutePath root p).
Qed.

Lemma run_WriteFile p data fs :
  run disk_step (WriteFile root p data) fs = (<[AbsolutePath root p := data]> fs, Ok tt).
Proof.
  unfold WriteFile, Writer. rewrite run_mbind, !run_call. cbn [disk_step].
  by rewrite run_call; cbn [disk_step]; rewrite lookup_insert_eq, insert_insert_eq.
Qed.

Lemma run_get_old zone fs k data :
  fs !! key_file = Some data -> unmarshal_key data = Ok k ->
  run disk_step (get zone) fs = (fs, Ok k).
Proof.
  intros Hd Hu. unfold getDNSSecKey. rewrite run_mbind, run_Exists, Hd.
  rewrite bool_decide_eq_true_2 by by eexists. unfold Read, Reader.
  rewrite run_mbind, run_call. cbn [disk_step]. rewrite Hd. simpl. by rewrite Hu.
Qed.

(** Whatever the disk was, a key that was returned is the one on the disk. *)
Lemma run_get_ok zone fs fs' k :
  run disk_step (get zone) fs = (fs', Ok k) ->
  exists data, fs' !! key_file = Some data /\ unmarshal_key data = Ok k.
Proof using key_roundtrip.
  destruct (fs !! key_file) as [data|] eqn:Hd.
  - unfold getDNSSecKey. rewrite run_mbind, run_Exists, Hd.
    rewrite bool_decide_eq_true_2 by by eexists. unfold Read, Reader.
    rewrite run_mbind, run_call. cbn [disk_step]. rewrite Hd. simpl. intros [= <- Hu]. eauto.
  - unfold getDNSSecKey. rewrite run_mbind, run_Exists, Hd.
    rewrite bool_decide_eq_false_2 by (by intros []). rewrite run_mbind. cbn [run lift].
    destruct (newDNSSecKey zone) as [k'| | |]; try done.
    rewrite run_mbind, run_WriteFile. intros [= <- <-]. exists (marshal_key k').
    by rewrite lookup_insert_eq.
Qed.

(** The files a start writes, other than the zone file. *)
Definition side_files (config : string) (k : DNSSecKey) : list string :=
  map (AbsolutePath root) [kBasename k +:+ ".key"; kBasename k +:+ ".private"; config].

Lemma run_NewStore config db zone pub priv ns now fs fs1 k :
  run disk_step (get zone) fs = (fs1, Ok k) ->
  AbsolutePath root db ∉ side_files config k -> key_file ∉ side_files config k ->
  exists fs2, run disk_step (NewStore root newDNSSecKey marshal_key unmarshal_key config db zone pub priv ns now) fs
    = (fs2, Ok (kDS k)) /\
    (fs1 !! key_file = fs2 !! key_file \/ key_file = AbsolutePath root db) /\
    fs2 !! AbsolutePath root db =
      Some (default (TrimSpace (Join (records_db zone pub priv ns now) newline) +:+ newline)
              (fs1 !! AbsolutePath root db)).
Proof.
  intros Hget Hdb Hkf. unfold NewStore. rewrite run_mbind, Hget.
  unfold executeTemplate. do 3 rewrite run_mbind, run_WriteFile. rewrite run_mbind, run_Exists.
  unfold side_files in Hdb, Hkf. cbn [map] in Hdb, Hkf. rewrite !not_elem_of_cons in Hdb, Hkf.
  destruct Hdb as (D1 & D2 & D3 & _), Hkf as (K1 & K2 & K3 & _).
  rewrite !lookup_insert_ne by congruence. destruct (fs1 !! AbsolutePath root db) as [old|] eqn:Hold.
  - rewrite bool_decide_eq_true_2 by by eexists. rewrite run_mbind. eexists. split; [reflexivity|].
    rewrite !lookup_insert_ne by congruence. split; [by left|done].
  - rewrite bool_decide_eq_false_2 by (by intros []). rewrite run_mbind, run_WriteFile.
    eexists. split; [reflexivity|]. split; [|by rewrite lookup_insert_eq].
    destruct (decide (key_file = AbsolutePath root db)) as [|Hne]; [by right|left].
    by rewrite !lookup_insert_ne by congruence.
Qed.
End Restart.

(** a restart keeps what the first start made.  If the key of a first
    start was [k], that start returns its DS record, and a later one, whatever
    addresses and clock it is given, returns the same DS record and leaves the
    zone file as it is (the files they write being distinct). *)
Theorem NewStore_restart root generate marshal unmarshal config db zone pub priv ns now fs fs0 k :
  (forall k, unmarshal (marshal k) = Ok k) ->
  run disk_step (getDNSSecKey root generate marshal unmarshal zone) fs = (fs0, Ok k) ->
  AbsolutePath root db ∉ side_files root config k ->
  AbsolutePath root "dns-sec-key.json" ∉ AbsolutePath root db :: side_files root config k ->
  exists fs1,
    run disk_step (NewStore root generate marshal unmarshal config db zone pub priv ns now) fs = (fs1, Ok (kDS k)) /\
    forall pub' priv' ns' now', exists fs2,
      run disk_step (NewStore root generate marshal unmarshal config db zone pub' priv' ns' now') fs1 = (fs2, Ok (kDS k)) /\
      fs2 !! AbsolutePath root db = fs1 !! AbsolutePath root db.
Proof.
  intros Hrt Hget Hdb [Hne Hkf]%not_elem_of_cons.
  destruct (run_get_ok root generate marshal unmarshal Hrt zone fs fs0 k Hget) as (data & Hd & Hu).
  destruct (run_NewStore root generate marshal unmarshal config db zone pub priv ns now fs fs0 k Hget Hdb Hkf)
    as (fs1 & Hrun & [Hsame|?] & Hf1); [|done].
  exists fs1. split; [done|]. intros pub' priv' ns' now'. rewrite Hd in Hsame.
  pose proof (run_get_old root generate marshal unmarshal zone fs1 k data (eq_sym Hsame) Hu) as Hget'.
  destruct (run_NewStore root generate marshal unmarshal config db zone pub' priv' ns' now' fs1 fs1 k Hget' Hdb Hkf)
    as (fs2 & Hrun' & _ & Hf2).
  exists fs2. split; [done|]. by rewrite Hf2, Hf1.
Qed.

(** ** Witnesses *)

Definition demo_rrs : list RR := [SOA "z." 1 "r"; TXT "a.z." 300 ["x"]; A "z." 10800 (Some "1.2.3.4")].

Lemma demo_rrs_NoDup : NoDup (txts demo_rrs).
Proof. apply NoDup_singleton. Qed.

Lemma create_refines_insert_witness :
  ("b.z.", "y") ∈ txts (CreateOrReplaceTxtRecord "b.z." "y" demo_rrs).
Proof.
  destruct (create_refines_insert "b.z." "y" demo_rrs demo_rrs_NoDup) as (_ & H & _). apply H. by left.
Defined.

Lemma delete_refines_remove_witness :
  exists rrs', DeleteTxtRecord "a.z." "x" demo_rrs = Ok rrs' /\ txts rrs' = [].
Proof.
  destruct (delete_refines_remove "a.z." "x" demo_rrs demo_rrs_NoDup) as (rrs' & Hr & _ & Ht & _).
  exists rrs'. split; [exact Hr|]. rewrite Ht. reflexivity.
Defined.

Lemma delete_duplicates_witness :
  DeleteTxtRecord "n" "v" [TXT "n" 1 ["v"]; TXT "n" 2 ["v"]] = Panic "slice bounds out of range".
Proof.
  apply (delete_duplicates "n" "v" [] (TXT "n" 1 ["v"]) (TXT "n" 2 ["v"]) (OtherRR "") []);
    [done|done|by apply (bool_decide_unpack _); vm_compute|by apply (bool_decide_unpack _); vm_compute].
Defined.

(** Across the wrap-around of the serial. *)
Lemma NowUnix_serial_witness : serial_newer (NowUnix 1717986919) (NowUnix 1717986918).
Proof. apply (NowUnix_serial 1717986918 1717986919); lia. Defined.

Definition demo_key : DNSSecKey := MkKey "Kz.+013+00001" "pub" "priv" "ds".

(** A concrete text of a key that can be read back. *)
Fixpoint bits_of (p : positive) : string :=
  match p with xH => "" | xO q => String "0" (bits_of q) | xI q => String "1" (bits_of q) end.
Fixpoint of_bits (s : string) : positive :=
  match s with
  | "" => xH
  | String c s' => if Ascii.eqb c "0" then xO (of_bits s') else xI (of_bits s')
  end.
Definition demo_marshal (k : DNSSecKey) : string :=
  bits_of (encode (kBasename k, kKey k, kPrivate k, kDS k)).
Definition demo_unmarshal (s : string) : outcome DNSSecKey :=
  match decode (of_bits s) with
  | Some (b, k, p, d) => Ok (MkKey b k p d)
  | None => Err err_json
  end.

Lemma demo_key_roundtrip k : demo_unmarshal (demo_marshal k) = Ok k.
Proof.
  assert (Hb : forall p, of_bits (bits_of p) = p) by (induction p as [p IH|p IH|]; simpl; congruence).
  unfold demo_unmarshal, demo_marshal. rewrite Hb, decode_encode. by destruct k.
Qed.

Lemma NewStore_restart_witness :
  exists fs1,
    run disk_step (NewStore "/r" (fun _ => Ok demo_key) demo_marshal demo_unmarshal "conf" "db" "z" [] "" [] 7) ∅
      = (fs1, Ok "ds").
Proof.
  destruct (NewStore_restart "/r" (fun _ => Ok demo_key) demo_marshal demo_unmarshal "conf" "db" "z" [] "" [] 7 ∅
    {[ AbsolutePath "/r" "dns-sec-key.json" := demo_marshal demo_key ]} demo_key demo_key_roundtrip)
    as (fs1 & Hrun & _); [reflexivity|by apply (bool_decide_unpack _); vm_compute..|].
  exists fs1. exact Hrun.
Defined.
