(* ===== verification/DnsSolver.v ===== *)
(** * The ACME DNS-01 solver (core/dns-challenge-solver/main.go)

    The webhook that cert-manager calls, and the round trip through the DNS API:
    where the record of a challenge is put, and that cleaning up undoes it. *)
From S2P Require Import Prelude GoLib GoStrings GoPath DnsApi.
From Stdlib Require Import Ascii.
Open Scope string_scope.
Open Scope list_scope.

Record ChallengeRequest := MkChallenge {
  ResolvedFQDN : string;
  DNSName : string;
  Key : string;
  Config : option (outcome json);   (* nil, or the raw text *)
}.

Record pcloudDNSProviderConfig := MkConfig { CreateAddress : string; DeleteAddress : string }.

Definition loadConfig (cfgJSON : option (outcome json)) : outcome pcloudDNSProviderConfig :=
  match cfgJSON with
  | None => Ok (MkConfig "" "")
  | Some raw =>
      match (v ← raw;
             c ← json_field "createTXTAddr" json_string "" v;
             d ← json_field "deleteTXTAddr" json_string "" v;
             Ok (MkConfig c d)) with
      | Err e => Err (errorf ("error decoding solver config: " +:+ emsg e))
      | o => o
      end
  end.

Definition dot : ascii := "."%char.

Definition getDomainAndEntry (ch : ChallengeRequest) : string * string :=
  let resolvedFQDN := TrimSuffix (ResolvedFQDN ch) "." in
  let domain := Join (tail (Split (TrimSuffix (DNSName ch) ".") dot)) "." in
  let entry := TrimSuffix resolvedFQDN domain in
  (TrimSuffix domain ".", TrimSuffix entry ".").

(** http.Post: the status and the body of the answer. *)
Inductive postE : Type -> Type :=
  | Post (addr : string) (body : json) : postE (outcome (Z * string)).

(** createTextRecordReq as JSON: empty fields are omitted. *)
Definition omitempty (k v : string) : list (string * json) :=
  if String.eqb v "" then [] else [(k, JStr v)].

Definition encode_req (domain entry txt : string) : json :=
  JObj (omitempty "domain" domain ++ omitempty "entry" entry ++ omitempty "text" txt).

Definition post_record (what addr domain entry txt : string) : go postE unit :=
  resp ← call (Post addr (encode_req domain entry txt));
  if negb (Z.eqb resp.1 StatusOK) then
    fail (errorf (what +:+ " text record failed: " +:+ Itoa resp.1 +:+ " " +:+ resp.2))
  else mret tt.

Definition CreateTextRecord (cfg : pcloudDNSProviderConfig) := post_record "Create" (CreateAddress cfg).
Definition DeleteTextRecord (cfg : pcloudDNSProviderConfig) := post_record "Delete" (DeleteAddress cfg).

Definition Present (ch : ChallengeRequest) : go postE unit :=
  cfg ← lift (loadConfig (Config ch));
  let '(domain, entry) := getDomainAndEntry ch in
  CreateTextRecord cfg domain entry (Key ch).

Definition CleanUp (ch : ChallengeRequest) : go postE unit :=
  cfg ← lift (loadConfig (Config ch));
  let '(domain, entry) := getDomainAndEntry ch in
  DeleteTextRecord cfg domain entry (Key ch).

(** ** Where the record of a challenge goes *)

Lemma dot_end_app a b t : b <> "" -> a +:+ b = t +:+ "." -> exists t', b = t' +:+ ".".
Proof.
  intros Hb. revert t. induction a as [|c a IH]; intros t He; [by exists t|].
  destruct t as [|d t].
  - rewrite str_app_cons in He. injection He as _ He. destruct a; [by rewrite str_app_l_nil in He|done].
  - rewrite !str_app_cons in He. injection He as _ He. by apply (IH t).
Qed.

(** A DNS name without a trailing dot. *)
Definition undotted (z : string) : Prop := z <> "" /\ forall t, z <> t +:+ ".".

Lemma TrimSuffix_undotted a z : undotted z -> TrimSuffix (a +:+ z) "." = a +:+ z.
Proof. intros [Hne Hz]. apply TrimSuffix_none. intros t (t' & ->)%dot_end_app; [by apply (Hz t')|done]. Qed.

Lemma getDomainAndEntry_eq pre label zone key cfg :
  no_char dot label -> undotted zone ->
  getDomainAndEntry (MkChallenge (pre +:+ "." +:+ label +:+ "." +:+ zone +:+ ".") (label +:+ "." +:+ zone) key cfg)
    = (zone, pre +:+ "." +:+ label).
Proof.
  intros Hl Hz. unfold getDomainAndEntry. cbn [ResolvedFQDN DNSName].
  rewrite str_app_assoc, (TrimSuffix_undotted _ zone Hz). rewrite <- str_app_assoc.
  change (label +:+ "." +:+ zone) with (label +:+ String dot zone). rewrite Split_app by done.
  cbn [tail]. change "." with (String dot ""). rewrite Join_Split.
  assert (TrimSuffix zone (String dot "") = zone) as -> by (apply (TrimSuffix_undotted "" zone Hz)).
  assert (pre +:+ String dot "" +:+ label +:+ String dot "" +:+ zone +:+ String dot "" =
    (pre +:+ String dot "" +:+ label +:+ String dot "" +:+ zone) +:+ String dot "") as ->
    by (by rewrite !str_app_assoc).
  rewrite TrimSuffix_app.
  assert (pre +:+ String dot "" +:+ label +:+ String dot "" +:+ zone =
    ((pre +:+ String dot "" +:+ label) +:+ String dot "") +:+ zone) as -> by (by rewrite !str_app_assoc).
  by rewrite !TrimSuffix_app.
Qed.

(** ** The webhook in front of the DNS API *)

Section Api.
Context (root : string) (parse : string -> outcome (list RR)) (print : RR -> string).
Context (zone db create_addr delete_addr : string).

(** What net/http gives the client: the reply, or a closed connection after a panic. *)
Definition http_answer (o : outcome (reply unit)) : outcome (Z * string) :=
  match o with
  | Ok r => Ok (status_of r, match r with HttpError m _ => m | _ => "" end)
  | Diverge => Diverge
  | _ => Err (errorf "EOF")
  end.

Definition api_step (now : Z) : handler postE (gmap string string) := fun X e fs =>
  match e in postE X return gmap string string * X with
  | Post addr body =>
      let p := if String.eqb addr create_addr then Some (createTxtRecord root parse print zone db now (Ok body))
               else if String.eqb addr delete_addr then Some (deleteTxtRecord root parse print zone db now (Ok body))
               else None in
      match p with
      | Some p => let '(fs', o) := run disk_step p fs in (fs', http_answer o)
      | None => (fs, Err (errorf "no such host"))
      end
  end.

Definition addresses : option (outcome json) :=
  Some (Ok (JObj [("createTXTAddr", JStr create_addr); ("deleteTXTAddr", JStr delete_addr)])).

Lemma load_addresses : loadConfig addresses = Ok (MkConfig create_addr delete_addr).
Proof. done. Qed.

Lemma decode_encode_req domain entry txt :
  decode_record (encode_req domain entry txt) = Ok (MkRecord domain entry txt).
Proof.
  unfold encode_req, omitempty.
  destruct (String.eqb_spec domain ""), (String.eqb_spec entry ""), (String.eqb_spec txt ""); subst; done.
Qed.

Lemma run_edit (edit : string -> string -> go fsE unit) domain entry txt fs fs' :
  run disk_step (edit entry txt) fs = (fs', Ok tt) ->
  run disk_step (edit_txt_record edit (Ok (encode_req domain entry txt))) fs = (fs', Ok Empty).
Proof.
  intros He. unfold edit_txt_record. rewrite run_handle. cbn [run lift]. rewrite run_handle. cbn [run lift].
  rewrite decode_encode_req. cbn [rEntry rText]. by rewrite run_handle, He.
Qed.

Definition challenge (pre label key : string) : ChallengeRequest :=
  MkChallenge (pre +:+ "." +:+ label +:+ "." +:+ zone +:+ ".") (label +:+ "." +:+ zone) key addresses.

Lemma run_Present pre label key now fs rrs :
  no_char dot label -> undotted zone -> holds root parse fs db rrs ->
  run (api_step now) (Present (challenge pre label key)) fs =
    (<[AbsolutePath root db :=
       render print (map (bump now) (CreateOrReplaceTxtRecord (ResolvedFQDN (challenge pre label key)) key rrs))]> fs,
     Ok tt).
Proof.
  intros Hl Hz Hh. unfold Present, challenge. rewrite run_mbind. cbn [run lift Config].
  rewrite load_addresses, getDomainAndEntry_eq by done. unfold CreateTextRecord, post_record.
  rewrite run_mbind, run_call. cbn [api_step CreateAddress]. rewrite String.eqb_refl.
  unfold createTxtRecord. erewrite run_edit; [|by apply run_Add]. cbn [http_answer status_of Key ResolvedFQDN].
  cbn -[insert AbsolutePath render CreateOrReplaceTxtRecord String.append].
  unfold fqdn_of. by rewrite <- !str_app_assoc.
Qed.

Lemma run_CleanUp pre label key now fs rrs rrs' :
  no_char dot label -> undotted zone -> create_addr <> delete_addr -> holds root parse fs db rrs ->
  DeleteTxtRecord (ResolvedFQDN (challenge pre label key)) key rrs = Ok rrs' ->
  run (api_step now) (CleanUp (challenge pre label key)) fs =
    (<[AbsolutePath root db := render print (map (bump now) rrs')]> fs, Ok tt).
Proof.
  intros Hl Hz Hne Hh Hd. unfold CleanUp, challenge. rewrite run_mbind. cbn [run lift Config].
  rewrite load_addresses, getDomainAndEntry_eq by done. unfold DeleteTextRecord, post_record.
  rewrite run_mbind, run_call. cbn [api_step DeleteAddress].
  rewrite (proj2 (String.eqb_neq delete_addr create_addr)), String.eqb_refl by congruence.
  unfold deleteTxtRecord. erewrite run_edit; [done|]. apply run_Delete with rrs; [done|].
  cbn [challenge ResolvedFQDN] in Hd. unfold fqdn_of. by rewrite <- !str_app_assoc.
Qed.
End Api.

Lemma bump_twice now now' rr : bump now' (bump now rr) = bump now' rr.
Proof. by destruct rr. Qed.

Lemma txt_pair_bump now rr : txt_pair (bump now rr) = txt_pair rr.
Proof. by destruct rr. Qed.

Lemma txts_bump now rrs : txts (map (bump now) rrs) = txts rrs.
Proof. induction rrs as [|rr rrs IH]; [done|]. cbn [map]. by rewrite !txts_cons, txt_pair_bump, IH. Qed.

(** C11. a challenge for [label.zone] makes the DNS API publish, last in the
    zone file and next to what was there, the TXT record cert-manager looks for: its
    name is the resolved FQDN of the challenge, its text the key. *)
Theorem Present_publishes root parse print zone db create_addr delete_addr pre label key now fs rrs :
  no_char dot label -> undotted zone -> holds root parse fs db rrs -> NoDup (txts rrs) ->
  let ch := challenge zone create_addr delete_addr pre label key in
  exists fs' rrs', run (api_step root parse print zone db create_addr delete_addr now) (Present ch) fs = (fs', Ok tt) /\
    fs' !! AbsolutePath root db = Some (render print rrs') /\
    (exists ttl, last rrs' = Some (TXT (ResolvedFQDN ch) ttl [key])) /\
    (forall p, p ∈ txts rrs' <-> p = (ResolvedFQDN ch, key) \/ p ∈ txts rrs) /\ NoDup (txts rrs').
Proof.
  intros Hl Hz Hh Hd ch. subst ch. rewrite run_Present with (rrs := rrs) by done.
  do 2 eexists. split; [reflexivity|]. rewrite lookup_insert_eq. split; [reflexivity|].
  destruct (create_pairs (ResolvedFQDN (challenge zone create_addr delete_addr pre label key)) key rrs Hd)
    as (H1 & H2 & _ & ttl & H3).
  rewrite txts_bump. split_and!; [|done|done].
  exists ttl. by rewrite fmap_last, H3.
Qed.

(** cleaning up after a challenge restores the zone: every record is as it
    was, up to the serial of the SOA, provided the parser reads back the file the
    API wrote. *)
Theorem CleanUp_undoes_Present root parse print zone db create_addr delete_addr pre label key now now' fs rrs :
  let ch := challenge zone create_addr delete_addr pre label key in
  let published := map (bump now) (rrs ++ [TXT (ResolvedFQDN ch) 300 [key]]) in
  no_char dot label -> undotted zone -> create_addr <> delete_addr ->
  holds root parse fs db rrs -> NoDup (txts rrs) -> (ResolvedFQDN ch, key) ∉ txts rrs ->
  parse (render print published) = Ok published ->
  exists fs1 fs2,
    run (api_step root parse print zone db create_addr delete_addr now) (Present ch) fs = (fs1, Ok tt) /\
    run (api_step root parse print zone db create_addr delete_addr now') (CleanUp ch) fs1 = (fs2, Ok tt) /\
    fs2 = <[AbsolutePath root db := render print (map (bump now') rrs)]> fs.
Proof.
  intros ch published Hl Hz Hne Hh Hd Hfresh Hparse.
  assert (Hc : CreateOrReplaceTxtRecord (ResolvedFQDN ch) key rrs = rrs ++ [TXT (ResolvedFQDN ch) 300 [key]]).
  { destruct (create_eq (ResolvedFQDN ch) key rrs) as [[_ ->]|(l1 & ttl & t & l2 & -> & Hj & _)]; [done|].
    destruct Hfresh. rewrite txts_app, txts_cons. simpl. rewrite Hj. set_solver. }
  pose proof (run_Present root parse print zone db create_addr delete_addr pre label key now fs rrs Hl Hz Hh) as HP.
  fold ch in HP. rewrite Hc in HP. fold published in HP.
  do 2 eexists. split; [exact HP|]. split; [|reflexivity]. subst ch.
  rewrite run_CleanUp with (rrs := published) (rrs' := map (bump now) rrs); [| done..| |].
  - rewrite insert_insert_eq. f_equal. f_equal. f_equal. rewrite map_map. apply map_ext, bump_twice.
  - exists (render print published). by rewrite lookup_insert_eq.
  - subst published. rewrite map_app. cbn [map].
    rewrite DeleteTxtRecord_one; [by rewrite (right_id_L [] (++))| |by rewrite txts_bump|apply not_elem_of_nil].
    by apply txt_match_pair.
Qed.

(** For a name that is itself the zone, the solver drops the zone's first
    label as if it were a host: the record goes to [label] twice, not to the resolved
    FQDN, so the challenge cannot succeed. *)
Theorem apex_challenge_misplaced pre label rest key cfg :
  no_char dot label -> undotted rest ->
  let zone := label +:+ "." +:+ rest in
  let ch := MkChallenge (pre +:+ "." +:+ zone +:+ ".") zone key cfg in
  fqdn_of (getDomainAndEntry ch).2 zone = pre +:+ "." +:+ label +:+ "." +:+ zone +:+ "." /\
  fqdn_of (getDomainAndEntry ch).2 zone <> ResolvedFQDN ch.
Proof.
  intros Hl Hr zone ch.
  assert (He : getDomainAndEntry ch = (rest, pre +:+ "." +:+ label)).
  { rewrite <- (getDomainAndEntry_eq pre label rest key cfg) by done. subst ch zone. by rewrite <- !str_app_assoc. }
  rewrite He. cbn [snd]. unfold fqdn_of. split; [by rewrite <- !str_app_assoc|].
  subst ch. cbn [ResolvedFQDN]. rewrite <- !str_app_assoc. intros Heq.
  apply (f_equal String.length) in Heq. rewrite !str_length_app in Heq. simpl in Heq. lia.
Qed.

(** ** Witnesses: a printer, and a parser of two files it printed *)

Definition demo_print (rr : RR) : string :=
  match rr with
  | TXT n _ t => n +:+ " IN TXT " +:+ Join t ""
  | A n _ ip => n +:+ " IN A " +:+ default "" ip
  | SOA n s rest => n +:+ " IN SOA " +:+ Itoa s +:+ " " +:+ rest
  | OtherRR t => t
  end.

Definition demo_old : list RR := [SOA "z.io." 1 "r"; A "z.io." 10800 (Some "1.2.3.4")].
Definition demo_new : list RR :=
  map (bump 7) (demo_old ++ [TXT "_acme-challenge.app.z.io." 300 ["k"]]).

Definition demo_parse (s : string) : outcome (list RR) :=
  if String.eqb s (render demo_print demo_old) then Ok demo_old
  else if String.eqb s (render demo_print demo_new) then Ok demo_new
  else Err (errorf "bad zone file").

Definition demo_fs : gmap string string := {[ AbsolutePath "/d" "db" := render demo_print demo_old ]}.

Lemma demo_holds : holds "/d" demo_parse demo_fs "db" demo_old.
Proof. exists (render demo_print demo_old). split; reflexivity. Qed.

Lemma demo_undotted : undotted "z.io".
Proof.
  split; [done|]. intros t Ht. assert (HasSuffix "z.io" "." = true) by (apply HasSuffix_spec; eauto). done.
Qed.

Lemma Present_publishes_witness :
  exists fs', run (api_step "/d" demo_parse demo_print "z.io" "db" "c" "d" 7)
      (Present (challenge "z.io" "c" "d" "_acme-challenge" "app" "k")) demo_fs = (fs', Ok tt) /\
    exists rrs', ("_acme-challenge.app.z.io.", "k") ∈ txts rrs' /\ fs' !! AbsolutePath "/d" "db" = Some (render demo_print rrs').
Proof.
  destruct (Present_publishes "/d" demo_parse demo_print "z.io" "db" "c" "d" "_acme-challenge" "app" "k" 7 demo_fs demo_old)
    as (fs' & rrs' & Hr & Hf & _ & Ht & _);
    [done|exact demo_undotted|exact demo_holds|constructor|].
  exists fs'. split; [exact Hr|]. exists rrs'. split; [|exact Hf]. apply Ht. by left.
Defined.

Lemma CleanUp_undoes_Present_witness :
  exists fs1 fs2,
    run (api_step "/d" demo_parse demo_print "z.io" "db" "c" "d" 7)
      (Present (challenge "z.io" "c" "d" "_acme-challenge" "app" "k")) demo_fs = (fs1, Ok tt) /\
    run (api_step "/d" demo_parse demo_print "z.io" "db" "c" "d" 9)
      (CleanUp (challenge "z.io" "c" "d" "_acme-challenge" "app" "k")) fs1 = (fs2, Ok tt) /\
    fs2 = <[AbsolutePath "/d" "db" := render demo_print (map (bump 9) demo_old)]> demo_fs.
Proof.
  apply CleanUp_undoes_Present; [done|exact demo_undotted|done|exact demo_holds|constructor|set_solver|reflexivity].
Defined.

Lemma apex_challenge_misplaced_witness :
  fqdn_of (getDomainAndEntry (MkChallenge "_acme-challenge.x.z.io." "x.z.io" "k" None)).2 "x.z.io"
    = "_acme-challenge.x.x.z.io.".
Proof.
  apply (apex_challenge_misplaced "_acme-challenge" "x" "z.io" "k" None); [done|exact demo_undotted].
Defined.
