(* ===== verification/UrlShortener.v ===== *)
(** * The URL shortener (apps/url-shortener/main.go)

    The store of named addresses behind its interface, the two handlers with
    the loop that draws random names, and what any request can do to the table. *)
From S2P Require Import Prelude GoLib GoStrings.
From Stdlib Require Import Ascii.
Open Scope string_scope.
Open Scope list_scope.

Definition anyUser : string := "__any__".

Record NamedAddress := MkNamed { Name : string; Address : string; OwnerId : string; Active : bool }.

#[export] Instance NamedAddress_eq_dec : EqDecision NamedAddress.
Proof. solve_decision. Defined.

(** ** The store *)

Class UrlStore (E : Type -> Type) := MkUrlStore {
  Create : NamedAddress -> go E unit;
  Get : string -> go E NamedAddress;
  UpdateStatus : string -> bool -> go E unit;
  ChangeOwner : string -> string -> go E unit;
  List : string -> go E (list NamedAddress);
}.

(** The statements of the SQLite store, and the draws of math/rand. *)
Inductive urlE : Type -> Type :=
  | InsertAddr (a : NamedAddress) : urlE (outcome unit)
  | SelectAddr (name : string) : urlE (outcome NamedAddress)
  | UpdateActive (name : string) (active : bool) : urlE (outcome unit)
  | SelectOwned (owner : string) : urlE (outcome (list NamedAddress))
  | Intn (n : nat) : urlE nat.

Definition NameAlreadyTaken (name : string) : error :=
  MkErr KNameTaken ("Name '" +:+ name +:+ "' is already taken").

Definition sqlite_Create (addr : NamedAddress) : go urlE unit :=
  check _u := call (InsertAddr addr) onerr e =>
    (if decide (ekind e = KPrimaryKey) then fail (NameAlreadyTaken (Name addr)) else fail e) in
  mret tt.

Definition sqlite_Get (name : string) : go urlE NamedAddress :=
  check a := call (SelectAddr name) onerr e =>
    (if decide (ekind e = KNoRows) then fail (errorf ("No record found for name " +:+ name)) else fail e) in
  mret a.

Definition sqlite_UpdateStatus (name : string) (active : bool) : go urlE unit :=
  call (UpdateActive name active).

(** A TODO of the source: nothing happens. *)
Definition sqlite_ChangeOwner (name ownerId : string) : go urlE unit := mret tt.

Definition sqlite_List (ownerId : string) : go urlE (list NamedAddress) := call (SelectOwned ownerId).

#[export] Instance sqlite_urls : UrlStore urlE := {|
  Create := sqlite_Create;
  Get := sqlite_Get;
  UpdateStatus := sqlite_UpdateStatus;
  ChangeOwner := sqlite_ChangeOwner;
  List := sqlite_List;
|}.

(** ** Random names *)

Definition charset : string := "0123456789abcdefghijklmnopqrstuvwxyzABCDEFGHIJKLMNOPQRSTUVWXYZ".

(** urlShort += string(charset[rand.Intn(len(charset))]), [n] times. *)
Fixpoint random_chars (n : nat) (urlShort : string) : go urlE string :=
  match n with
  | 0 => mret urlShort
  | S n' =>
      Vis (Intn (String.length charset)) (fun i =>
        match String.get i charset with
        | Some c => random_chars n' (urlShort +:+ String c "")
        | None => panic "index out of range"
        end)
  end.

Definition generateRandomURL : go urlE string := random_chars 6 "".

(** ** The server *)

Section Server.
Context (requireAuth : bool).

Definition getLoggedInUser (r : request) : outcome string :=
  if negb requireAuth then Ok anyUser
  else if negb (String.eqb (HeaderGet r "X-User") "") then Ok (HeaderGet r "X-User")
  else Err (errorf "unauthenticated").

(** for { ... }: [fuel] bounds the number of names drawn. *)
Fixpoint create_loop (fuel : nat) (customName address loggedInUser : string)
    : go urlE (reply (list NamedAddress)) :=
  match fuel with
  | 0 => Ret Diverge
  | S fuel' =>
      cn ← (if String.eqb customName "" then generateRandomURL else mret customName);
      check _u := Create (MkNamed cn address loggedInUser true) onerr e =>
        (if decide (ekind e = KNameTaken) then
           if String.eqb customName "" then create_loop fuel' customName address loggedInUser
           else mret (HttpError "Name is already taken" StatusBadRequest)
         else mret (HttpError "Try again later" StatusInternalServerError)) in
      mret (Redirect "/" StatusSeeOther)
  end.

(** The embedded template: whether it parses and executes. *)
Context (template_ok : outcome unit).

Definition handler (fuel : nat) (r : request) : go urlE (reply (list NamedAddress)) :=
  check loggedInUser := lift (getLoggedInUser r) onerr _e =>
    mret (HttpError "User Not Logged In" StatusUnauthorized) in
  if String.eqb (rmethod r) MethodPost then
    let customName := PostFormValue r "custom" in
    let address := PostFormValue r "address" in
    if negb (HasPrefix address "http://") && negb (HasPrefix address "https://") then
      mret (HttpError "Address must start with http:// or https://" StatusBadRequest)
    else create_loop fuel customName address loggedInUser
  else
    let name := TrimPrefix (rpath r) "/" in
    if negb (String.eqb name "") then
      check namedAddress := Get name onerr _e => mret Empty in
      if negb (Active namedAddress) then mret (HttpError "address not found" StatusNotFound)
      else mret (Redirect (Address namedAddress) StatusSeeOther)
    else
      check namedAddresses := List loggedInUser onerr _e =>
        mret (HttpError "Internal Server Error" StatusInternalServerError) in
      check _u := lift template_ok onerr _e =>
        mret (HttpError "Internal Server Error" StatusInternalServerError) in
      mret (Page namedAddresses).

(** UpdateRequest *)
Definition decode_update (v : json) : outcome (string * bool) :=
  n ← json_field "name" json_string "" v;
  a ← json_field "active" (fun v => match v with JBool b => Ok b | JNull => Ok false | _ => Err err_json end) false v;
  Ok (n, a).

Definition toggleHandler (decode : string -> outcome json) (r : request) : go urlE (reply (list NamedAddress)) :=
  if String.eqb (rmethod r) MethodPost then
    check loggedInUser := lift (getLoggedInUser r) onerr _e =>
      mret (HttpError "User Not Logged In" StatusUnauthorized) in
    check data := lift (v ← decode (rbody r); decode_update v) onerr _e =>
      mret (HttpError "Failed to decode JSON data" StatusBadRequest) in
    check namedAddress := Get data.1 onerr _e =>
      mret (HttpError ("Failed to get named_address for name " +:+ data.1) StatusInternalServerError) in
    if negb (String.eqb (OwnerId namedAddress) loggedInUser) then
      mret (HttpError "Invalid owner ID" StatusUnauthorized)
    else
      check _u := UpdateStatus data.1 data.2 onerr _e =>
        mret (HttpError ("Failed to update status for name " +:+ data.1) StatusInternalServerError) in
      mret Empty
  else mret (HttpError "Method Not Allowed" StatusMethodNotAllowed).
End Server.

(** ** The table, a driver whose statements may fail, and a source of numbers *)

Record url_driver := MkUrlDriver { ufault : nat -> option error; urand : nat -> nat }.

Record urldb := MkUrlDb { addrs : list NamedAddress; calls_made : nat; draws : nat }.

Definition insert_addr (a : NamedAddress) (l : list NamedAddress) : list NamedAddress * outcome unit :=
  if bool_decide (Name a ∈ map Name l) then (l, Err (MkErr KPrimaryKey "UNIQUE constraint failed"))
  else (l ++ [a], Ok tt).

Definition find_addr (name : string) (l : list NamedAddress) : option NamedAddress :=
  head (filter (fun a => Name a = name) l).

Definition set_active (name : string) (active : bool) (l : list NamedAddress) : list NamedAddress :=
  map (fun a => if decide (Name a = name) then MkNamed (Name a) (Address a) (OwnerId a) active else a) l.

Definition user_serve {A} (drv : url_driver) (d : urldb)
    (body : list NamedAddress -> list NamedAddress * outcome A) : urldb * outcome A :=
  match ufault drv (calls_made d) with
  | Some e => (MkUrlDb (addrs d) (S (calls_made d)) (draws d), Err e)
  | None => (MkUrlDb (body (addrs d)).1 (S (calls_made d)) (draws d), (body (addrs d)).2)
  end.

Definition url_step (drv : url_driver) : Prelude.handler urlE urldb := fun X e d =>
  match e in urlE X return urldb * X with
  | InsertAddr a => user_serve drv d (insert_addr a)
  | SelectAddr n =>
      user_serve drv d (fun l => (l, match find_addr n l with
                                      | Some a => Ok a
                                      | None => Err (MkErr KNoRows "sql: no rows in result set")
                                      end))
  | UpdateActive n b => user_serve drv d (fun l => (set_active n b l, Ok tt))
  | SelectOwned o => user_serve drv d (fun l => (l, Ok (filter (fun a => OwnerId a = o) l)))
  | Intn n => (MkUrlDb (addrs d) (calls_made d) (S (draws d)), urand drv (draws d) mod n)
  end.

(** ** What a request can do to the table *)

(** Names are taken once, and a row belongs to whom it was created for. *)
Inductive url_change (user : string) (l : list NamedAddress) : list NamedAddress -> Prop :=
  | no_change : url_change user l l
  | created n a : n ∉ map Name l -> HasPrefix a "http://" || HasPrefix a "https://" = true ->
      url_change user l (l ++ [MkNamed n a user true])
  | toggled n b a : find_addr n l = Some a -> OwnerId a = user -> url_change user l (set_active n b l).

Section Changes.
Context (drv : url_driver) (auth : bool).
Abbreviation h := (url_step drv).

Lemma user_serve_cases {A} d (body : list NamedAddress -> list NamedAddress * outcome A) :
  (exists e, (user_serve drv d body).2 = Err e /\ addrs (user_serve drv d body).1 = addrs d) \/
  ((user_serve drv d body).2 = (body (addrs d)).2 /\ addrs (user_serve drv d body).1 = (body (addrs d)).1).
Proof. unfold user_serve. destruct (ufault drv _); simpl; eauto. Qed.

Lemma run_Get name d :
  addrs (run h (Get name) d).1 = addrs d /\
  (forall a, (run h (Get name) d).2 = Ok a -> find_addr name (addrs d) = Some a).
Proof.
  unfold Get, sqlite_urls, sqlite_Get. rewrite run_handle, run_call. cbn [url_step].
  match goal with |- context [user_serve drv d ?b] => destruct (user_serve_cases d b) as [(e & He & Ht)|[He Ht]];
    destruct (user_serve drv d b) as [d1 o] end; simpl in *; subst o.
  - by case_decide.
  - destruct (find_addr name (addrs d)) as [a|]; simpl; [|try case_decide; by split].
    split; [done|]. by intros a' [= ->].
Qed.

Lemma run_Create a d :
  ((run h (Create a) d).2 = Ok tt /\ (Name a ∉ map Name (addrs d)) /\ addrs (run h (Create a) d).1 = addrs d ++ [a]) \/
  ((exists e, (run h (Create a) d).2 = Err e) /\ addrs (run h (Create a) d).1 = addrs d).
Proof.
  unfold Create, sqlite_urls, sqlite_Create. rewrite run_handle, run_call. cbn [url_step].
  destruct (user_serve_cases d (insert_addr a)) as [(e & He & Ht)|[He Ht]];
    destruct (user_serve drv d (insert_addr a)) as [d1 o]; simpl in *; subst o.
  - right. case_decide; eauto.
  - unfold insert_addr in *. case_bool_decide; simpl in *; [right; eauto|left; eauto].
Qed.

Lemma run_random n acc d :
  addrs (run h (random_chars n acc) d).1 = addrs d /\
  forall e, (run h (random_chars n acc) d).2 <> Err e.
Proof.
  revert acc d. induction n as [|n IH]; intros acc d; [done|]. cbn [random_chars run url_step].
  destruct (String.get _ charset); [|done]. cbn [addrs].
  match goal with |- context [run h (random_chars n ?acc') ?d'] => destruct (IH acc' d') as [-> H] end. done.
Qed.

Lemma create_loop_change fuel custom address user d :
  HasPrefix address "http://" || HasPrefix address "https://" = true ->
  url_change user (addrs d) (addrs (run h (create_loop fuel custom address user) d).1).
Proof.
  intros Ha. revert d. induction fuel as [|fuel IH]; intros d; [constructor|].
  cbn [create_loop]. rewrite run_mbind.
  assert (exists d1 o, run h (if String.eqb custom "" then generateRandomURL else mret custom) d = (d1, o) /\
            addrs d1 = addrs d) as (d1 & o & -> & Hd1).
  { destruct (String.eqb custom ""); [|by do 2 eexists].
    destruct (run_random 6 "" d) as [H _]. unfold generateRandomURL.
    destruct (run h (random_chars 6 "") d) as [d1 o]. by exists d1, o. }
  destruct o as [cn|e|w|]; [|simpl; rewrite Hd1; constructor..].
  rewrite run_handle.
  destruct (run_Create (MkNamed cn address user true) d1) as [(Ho & Hn & Ht)|[[e Ho] Ht]];
    destruct (run h (Create _) d1) as [d2 o]; simpl in *; subst o; simpl.
  - rewrite Ht, Hd1. constructor; [by rewrite <- Hd1|done].
  - case_decide; [|simpl; rewrite Ht, Hd1; constructor].
    destruct (String.eqb custom ""); [|simpl; rewrite Ht, Hd1; constructor].
    rewrite <- Hd1, <- Ht. apply IH.
Qed.

Lemma handler_change tmpl fuel r d :
  addrs (run h (handler auth tmpl fuel r) d).1 = addrs d \/
  exists user, getLoggedInUser auth r = Ok user /\
    url_change user (addrs d) (addrs (run h (handler auth tmpl fuel r) d).1).
Proof.
  unfold handler. rewrite run_handle. cbn [run lift].
  destruct (getLoggedInUser auth r) as [user|e|w|]; [|by left..].
  destruct (String.eqb (rmethod r) MethodPost).
  - destruct (negb _ && negb _) eqn:Hp; [by left|]. right. exists user. split; [done|].
    apply create_loop_change. by rewrite <- negb_orb, negb_false_iff in Hp.
  - left. cbv zeta. destruct (negb _).
    + rewrite run_handle. destruct (run_Get (TrimPrefix (rpath r) "/") d) as [Hd _].
      destruct (run h (Get _) d) as [d1 [a|e|w|]]; simpl in *; try done. by destruct (negb (Active a)).
    + rewrite run_handle. unfold List, sqlite_urls, sqlite_List. rewrite run_call. cbn [url_step].
      match goal with |- context [user_serve drv d ?b] => destruct (user_serve_cases d b) as [(e & He & Ht)|[He Ht]];
        destruct (user_serve drv d b) as [d1 o] end; simpl in *; subst o; simpl; [done|].
      rewrite run_handle. cbn [run lift]. by destruct tmpl.
Qed.

Lemma toggle_change decode r d :
  addrs (run h (toggleHandler auth decode r) d).1 = addrs d \/
  exists user, getLoggedInUser auth r = Ok user /\
    url_change user (addrs d) (addrs (run h (toggleHandler auth decode r) d).1).
Proof.
  unfold toggleHandler. destruct (String.eqb _ _); [|by left].
  rewrite run_handle. cbn [run lift]. destruct (getLoggedInUser auth r) as [user|e|w|] eqn:Hu; [|by left..].
  rewrite run_handle. cbn [run lift].
  destruct (v ← decode (rbody r); decode_update v) as [[n b]|e|w|]; [|by left..]. cbn [fst snd].
  rewrite run_handle. destruct (run_Get n d) as [Hd Hg].
  destruct (run h (Get n) d) as [d1 [a|e|w|]]; simpl in *; [|by left..].
  destruct (String.eqb_spec (OwnerId a) user) as [Ho|Ho]; cbn [negb]; [|by left].
  rewrite run_handle. unfold UpdateStatus, sqlite_urls, sqlite_UpdateStatus. rewrite run_call. cbn [url_step].
  destruct (user_serve_cases d1 (fun l => (set_active n b l, Ok tt))) as [(e & He & Ht)|[He Ht]];
    destruct (user_serve drv d1 _) as [d2 o]; simpl in *; subst o; simpl.
  - left. congruence.
  - right. exists user. split; [done|]. rewrite Ht, Hd. econstructor; eauto.
Qed.
End Changes.

(** A request to one of the two endpoints. *)
Inductive url_request :=
  | ToRoot (fuel : nat) (r : request)
  | ToToggle (r : request).

Definition request_of (q : url_request) : request := match q with ToRoot _ r | ToToggle r => r end.

Definition serve_url (auth : bool) (tmpl : outcome unit) (decode : string -> outcome json) (q : url_request)
    : go urlE (reply (list NamedAddress)) :=
  match q with
  | ToRoot fuel r => handler auth tmpl fuel r
  | ToToggle r => toggleHandler auth decode r
  end.

(** C12. a request leaves the table alone, adds one row with a free name and an
    http(s) address for the logged-in user, or switches the row of a name the
    logged-in user owns; under any driver, any random numbers, any body. *)
Theorem url_request_authorized drv auth tmpl decode q d :
  let d' := (run (url_step drv) (serve_url auth tmpl decode q) d).1 in
  addrs d' = addrs d \/
  exists user, getLoggedInUser auth (request_of q) = Ok user /\ url_change user (addrs d) (addrs d').
Proof. destruct q; [apply handler_change|apply toggle_change]. Qed.

(** *** Over any sequence of requests *)

Definition serve_all drv auth tmpl decode (d : urldb) (qs : list url_request) : urldb :=
  foldl (fun d q => (run (url_step drv) (serve_url auth tmpl decode q) d).1) d qs.

(** What is fixed about a row. *)
Definition binding (a : NamedAddress) : string * string * string := (Name a, Address a, OwnerId a).

Lemma set_active_binding n b l : map binding (set_active n b l) = map binding l.
Proof. unfold set_active. rewrite map_map. apply map_ext. intros a. by case_decide. Qed.

Lemma map_Name_binding l l' : map binding l = map binding l' -> map Name l = map Name l'.
Proof.
  intros H. apply (f_equal (map (fun b => b.1.1))) in H. by rewrite !map_map in H.
Qed.

Lemma url_change_bindings user l l' :
  url_change user l l' -> NoDup (map Name l) ->
  NoDup (map Name l') /\ exists new, map binding l' = map binding l ++ new.
Proof.
  intros [|n a Hn Ha|n b a Hf Ho] Hd.
  - split; [done|]. exists []. by rewrite (right_id_L [] (++)).
  - split; [|eexists; apply map_app]. rewrite map_app. apply NoDup_app. split_and!; [done| |apply NoDup_singleton].
    intros x Hx Hx'. apply list_elem_of_singleton in Hx' as ->. done.
  - split; [by rewrite (map_Name_binding _ l) by apply set_active_binding|].
    exists []. by rewrite (right_id_L [] (++)), set_active_binding.
Qed.

(** over any sequence of requests names stay unique, and a name once
    taken keeps its address and its owner for good. *)
Theorem url_bindings_forever drv auth tmpl decode qs d :
  NoDup (map Name (addrs d)) ->
  let d' := serve_all drv auth tmpl decode d qs in
  NoDup (map Name (addrs d')) /\ exists new, map binding (addrs d') = map binding (addrs d) ++ new.
Proof.
  revert d. induction qs as [|q qs IH]; intros d Hd.
  - split; [done|]. exists []. by rewrite (right_id_L [] (++)).
  - set (d1 := (run (url_step drv) (serve_url auth tmpl decode q) d).1).
    assert (H1 : NoDup (map Name (addrs d1)) /\ exists new, map binding (addrs d1) = map binding (addrs d) ++ new).
    { assert (Hc : addrs d1 = addrs d \/ exists user, url_change user (addrs d) (addrs d1)).
      { destruct q; [destruct (handler_change drv auth tmpl fuel r d) as [|(u & _ & ?)]
                    |destruct (toggle_change drv auth decode r d) as [|(u & _ & ?)]]; eauto. }
      destruct Hc as [->|[u Hc]]; [|by eapply url_change_bindings].
      split; [done|]. exists []. by rewrite (right_id_L [] (++)). }
    destruct H1 as [H1 [new Hnew]]. destruct (IH d1 H1) as [H2 [new' Hnew']].
    split; [done|]. exists (new ++ new'). unfold serve_all in *. cbn [foldl]. fold d1.
    by rewrite Hnew', Hnew, (assoc_L (++)).
Qed.

(** ** A driver that does not fail *)

Definition url_quiet (drv : url_driver) : Prop := forall n, ufault drv n = None.

Definition rand_char (x : nat) : ascii := default zero (String.get (x mod String.length charset) charset).

Lemma rand_char_get x : String.get (x mod String.length charset) charset = Some (rand_char x).
Proof.
  assert (Hall : forallb (fun i => match String.get i charset with Some _ => true | None => false end) (seq 0 62) = true)
    by reflexivity.
  rewrite forallb_forall in Hall. unfold rand_char.
  specialize (Hall (x mod String.length charset)).
  destruct (String.get (x mod String.length charset) charset); [done|].
  discriminate Hall. apply in_seq. change (String.length charset) with 62.
  pose proof (Nat.mod_upper_bound x 62). lia.
Qed.

(** The name drawn when [s] numbers have been used up. *)
Fixpoint draw_chars (rnd : nat -> nat) (n s : nat) : string :=
  match n with
  | 0 => ""
  | S n' => String (rand_char (rnd s)) (draw_chars rnd n' (S s))
  end.

Definition draw_name (rnd : nat -> nat) (s : nat) : string := draw_chars rnd 6 s.

Lemma run_random_chars drv n acc d :
  run (url_step drv) (random_chars n acc) d =
    (MkUrlDb (addrs d) (calls_made d) (n + draws d), Ok (acc +:+ draw_chars (urand drv) n (draws d))).
Proof.
  revert acc d. induction n as [|n IH]; intros acc d.
  - cbn. rewrite str_app_nil. by destruct d.
  - cbn [random_chars run url_step]. rewrite rand_char_get, IH. cbn [addrs calls_made draws draw_chars].
    by rewrite Nat.add_succ_r, <- str_app_assoc.
Qed.

Lemma run_create_quiet drv a d :
  url_quiet drv ->
  run (url_step drv) (Create a) d =
    (MkUrlDb (if decide (Name a ∈ map Name (addrs d)) then addrs d else addrs d ++ [a]) (S (calls_made d)) (draws d),
     if decide (Name a ∈ map Name (addrs d)) then Err (NameAlreadyTaken (Name a)) else Ok tt).
Proof.
  intros Hq. unfold Create, sqlite_urls, sqlite_Create. rewrite run_handle, run_call. cbn [url_step].
  unfold user_serve. rewrite Hq. unfold insert_addr. case_bool_decide; case_decide; done.
Qed.

Lemma create_loop_draws drv k fuel address user d :
  url_quiet drv -> k < fuel ->
  (forall j, j < k -> draw_name (urand drv) (draws d + 6 * j) ∈ map Name (addrs d)) ->
  draw_name (urand drv) (draws d + 6 * k) ∉ map Name (addrs d) ->
  exists d', run (url_step drv) (create_loop fuel "" address user) d = (d', Ok (Redirect "/" StatusSeeOther)) /\
    addrs d' = addrs d ++ [MkNamed (draw_name (urand drv) (draws d + 6 * k)) address user true] /\
    draws d' = draws d + 6 * S k.
Proof.
  intros Hq. revert fuel d. induction k as [|k IH]; intros [|fuel] d Hf Htaken Hfresh; try lia;
    cbn [create_loop]; rewrite run_mbind; cbn [String.eqb]; unfold generateRandomURL;
    rewrite run_random_chars, run_handle, run_create_quiet by done; cbn [Name addrs calls_made draws];
    rewrite str_app_l_nil; fold (draw_name (urand drv) (draws d)).
  - rewrite Nat.mul_0_r, Nat.add_0_r in *. repeat rewrite decide_False by done.
    eexists. split; [reflexivity|]. split; [done|]. simpl. lia.
  - pose proof (Htaken 0) as H0. rewrite Nat.mul_0_r, Nat.add_0_r in H0.
    destruct (decide (draw_name (urand drv) (draws d) ∈ map Name (addrs d))) as [_|Hx]; [|destruct Hx; apply H0; lia].
    change (ekind (NameAlreadyTaken _)) with KNameTaken. rewrite decide_True by done.
    match goal with |- context [run _ _ ?d0] => set (d1 := d0) end.
    assert (Hd : forall j, draws d1 + 6 * j = draws d + 6 * S j) by (intros j; simpl; lia).
    destruct (IH fuel d1) as (d' & Hr & Ha & Hdr); [lia| | |].
    + intros j Hj. rewrite Hd. apply Htaken. lia.
    + by rewrite Hd.
    + exists d'. rewrite Hr, Ha, Hdr, Hd. split_and!; [done|done|]. cbn [draws d1]. simpl. lia.
Qed.

(** the loop that draws names ends as soon as a free name comes up: if the
    first free one is the [k]-th name the generator yields, [S k] rounds are enough,
    and that name is the one that is registered. *)
Theorem shorten_terminates drv auth tmpl fuel r d user k :
  url_quiet drv -> getLoggedInUser auth r = Ok user -> rmethod r = "POST" -> PostFormValue r "custom" = "" ->
  let address := PostFormValue r "address" in
  HasPrefix address "http://" || HasPrefix address "https://" = true ->
  (forall j, j < k -> draw_name (urand drv) (draws d + 6 * j) ∈ map Name (addrs d)) ->
  draw_name (urand drv) (draws d + 6 * k) ∉ map Name (addrs d) -> k < fuel ->
  exists d', run (url_step drv) (handler auth tmpl fuel r) d = (d', Ok (Redirect "/" StatusSeeOther)) /\
    addrs d' = addrs d ++ [MkNamed (draw_name (urand drv) (draws d + 6 * k)) address user true].
Proof.
  intros Hq Hu Hm Hc address Ha Ht Hfr Hf. unfold handler. rewrite run_handle. cbn [run lift].
  rewrite Hu, Hm. cbn [String.eqb MethodPost Ascii.eqb Bool.eqb]. fold address.
  rewrite <- negb_orb, Ha, Hc. cbn [negb].
  destruct (create_loop_draws drv k fuel address user d Hq Hf Ht Hfr) as (d' & Hr & Had & _). eauto.
Qed.

Lemma run_Get_quiet drv name d :
  url_quiet drv ->
  run (url_step drv) (Get name) d =
    (MkUrlDb (addrs d) (S (calls_made d)) (draws d),
     match find_addr name (addrs d) with
     | Some a => Ok a
     | None => Err (errorf ("No record found for name " +:+ name))
     end).
Proof.
  intros Hq. unfold Get, sqlite_urls, sqlite_Get. rewrite run_handle, run_call. cbn [url_step].
  unfold user_serve. rewrite Hq. cbn [fst snd]. by destruct (find_addr name (addrs d)).
Qed.

Lemma find_addr_snoc l a : Name a ∉ map Name l -> find_addr (Name a) (l ++ [a]) = Some a.
Proof.
  intros Hn. unfold find_addr. rewrite filter_app.
  assert (filter (fun b => Name b = Name a) l = []) as ->; [|by rewrite filter_cons_True].
  induction l as [|b l IH]; [done|]. cbn [map] in Hn. apply not_elem_of_cons in Hn as [Hb Hl].
  rewrite filter_cons_False by congruence. auto.
Qed.

(** a custom name leads where its owner said: once registered, a GET of
    its path redirects to the address; a second registration is refused with 400 and
    changes nothing. *)
Theorem shorten_then_follow drv auth tmpl fuel r r' r'' d u u' u'' :
  let n := PostFormValue r "custom" in
  let address := PostFormValue r "address" in
  url_quiet drv ->
  getLoggedInUser auth r = Ok u -> getLoggedInUser auth r' = Ok u' -> getLoggedInUser auth r'' = Ok u'' ->
  rmethod r = "POST" -> rmethod r' = "GET" -> rpath r' = "/" +:+ n ->
  n <> "" -> n ∉ map Name (addrs d) -> HasPrefix address "http://" = true ->
  rmethod r'' = "POST" -> PostFormValue r'' "custom" = n -> HasPrefix (PostFormValue r'' "address") "http://" = true ->
  exists d1 d2 d3,
    run (url_step drv) (handler auth tmpl (S fuel) r) d = (d1, Ok (Redirect "/" StatusSeeOther)) /\
    run (url_step drv) (handler auth tmpl (S fuel) r') d1 = (d2, Ok (Redirect address StatusSeeOther)) /\
    run (url_step drv) (handler auth tmpl (S fuel) r'') d2 = (d3, Ok (HttpError "Name is already taken" StatusBadRequest)) /\
    addrs d3 = addrs d ++ [MkNamed n address u true].
Proof.
  intros n address Hq Hu Hu' Hu'' Hm Hm' Hp Hn Hfresh Ha Hm'' Hc'' Ha''.
  assert (Hn' : String.eqb n "" = false) by by apply String.eqb_neq.
  unfold handler. rewrite !run_handle. cbn [run lift]. rewrite Hu, Hu', Hu'', Hm, Hm', Hm''.
  cbn [String.eqb MethodPost Ascii.eqb Bool.eqb]. fold n address. rewrite Ha, Hc'', Ha'', Hp.
  rewrite (TrimPrefix_app "/" n), Hn'. cbn [negb andb create_loop]. rewrite Hn', !run_mbind. cbn [run mret go_ret].
  rewrite run_handle, run_create_quiet by done. cbn [Name]. repeat rewrite decide_False by done.
  do 3 eexists. split; [reflexivity|].
  pose proof (find_addr_snoc (addrs d) (MkNamed n address u true) Hfresh) as Hfind. cbn [Name] in Hfind.
  do 2 (rewrite run_handle; cbn [run lift]). rewrite run_Get_quiet by done. cbn [addrs]. rewrite Hfind. cbn [Active negb Address].
  split; [reflexivity|].
  rewrite run_handle; cbn [run lift]. rewrite run_mbind. cbn [run mret go_ret]. rewrite run_handle, run_create_quiet by done. cbn [Name addrs].
  assert (Hin : n ∈ map Name (addrs d ++ [MkNamed n address u true])) by (rewrite map_app; set_solver).
  repeat rewrite decide_True by done. by split.
Qed.

(** ** Witnesses *)

Definition demo_url_driver : url_driver := MkUrlDriver (fun _ => None) (fun k => k / 6).
Definition demo_url_db : urldb := MkUrlDb [MkNamed "000000" "http://x" "bob" true] 0 0.
Definition demo_shorten (custom : string) : request :=
  MkRequest "POST" "/" {[ "X-User" := ["alice"] ]} ∅ ∅
    {[ "custom" := [custom]; "address" := ["http://a"] ]} None "".
Definition demo_follow : request := MkRequest "GET" "/go" {[ "X-User" := ["eve"] ]} ∅ ∅ ∅ None "".

(** The first draw gives a taken name, the second a free one. *)
Lemma shorten_terminates_witness :
  exists d', run (url_step demo_url_driver) (handler true (Ok tt) 2 (demo_shorten "")) demo_url_db
      = (d', Ok (Redirect "/" StatusSeeOther)) /\
    addrs d' = addrs demo_url_db ++ [MkNamed "111111" "http://a" "alice" true].
Proof.
  apply (shorten_terminates demo_url_driver true (Ok tt) 2 (demo_shorten "") demo_url_db "alice" 1);
    try done; try lia.
  - intros [|j] Hj; [|lia]. by apply (bool_decide_unpack _); vm_compute.
  - by apply (bool_decide_unpack _); vm_compute.
Defined.

Lemma shorten_then_follow_witness :
  exists d1 d2 d3,
    run (url_step demo_url_driver) (handler true (Ok tt) 1 (demo_shorten "go")) demo_url_db
      = (d1, Ok (Redirect "/" StatusSeeOther)) /\
    run (url_step demo_url_driver) (handler true (Ok tt) 1 demo_follow) d1 = (d2, Ok (Redirect "http://a" StatusSeeOther)) /\
    run (url_step demo_url_driver) (handler true (Ok tt) 1 (demo_shorten "go")) d2
      = (d3, Ok (HttpError "Name is already taken" StatusBadRequest)) /\
    addrs d3 = addrs demo_url_db ++ [MkNamed "go" "http://a" "alice" true].
Proof.
  apply (shorten_then_follow demo_url_driver true (Ok tt) 0 (demo_shorten "go") demo_follow (demo_shorten "go")
    demo_url_db "alice" "eve" "alice"); try done.
  by apply (bool_decide_unpack _); vm_compute.
Defined.

Lemma url_bindings_forever_witness :
  NoDup (map Name (addrs (serve_all demo_url_driver true (Ok tt) (fun _ => Ok JNull) demo_url_db [ToRoot 2 (demo_shorten "")]))).
Proof.
  apply (url_bindings_forever demo_url_driver true (Ok tt) (fun _ => Ok JNull) [ToRoot 2 (demo_shorten "")] demo_url_db).
  apply NoDup_singleton.
Defined.
