(* ===== verification/RepoIO.v ===== *)
(** * Git repositories of Helm releases (core/installer/soft/repoio.go, core/installer/io)

    The interfaces RepoFS and RepoIO as a class, their implementation over a
    billy file system and go-git, documents read and written through them, and
    kustomization files. *)
From S2P Require Import Prelude GoLib GoStrings GoPath.
Open Scope string_scope.
Open Scope list_scope.

(** ** Documents

    YAML and JSON texts are exchanged as the values they denote; bytes made
    elsewhere (rendered manifests) come with the value a parser finds in them. *)
Inductive content :=
  | Doc (v : json)
  | Raw (text : string) (value : outcome json)
  | Stream (values : list json) (tail : option error).   (* values in a row, then perhaps garbage *)

#[export] Instance content_eq_dec : EqDecision content.
Proof. solve_decision. Defined.

Definition parsed (c : content) : outcome json :=
  match c with
  | Doc v | Stream [v] None => Ok v
  | Raw _ v => v
  | Stream _ _ => Err err_json
  end.

(** ** The interfaces *)

Class RepoIO (E : Type -> Type) := MkRepoIO {
  Reader : string -> go E content;
  Writer : string -> go E unit;
  WriteTo : string -> content -> go E unit;   (* Write on what Writer returned *)
  CreateDir : string -> go E unit;
  RemoveDir : string -> go E unit;
  FullAddress : string;
  Pull : go E unit;
  CommitAndPush : string -> go E unit;
  Do : go E string -> bool -> go E unit;       (* the flag is WithNoCommit *)
}.

Section Documents.
Context {E : Type -> Type} `{!RepoIO E}.

(** [yaml.UnmarshalStrict(contents, o)] with the decoder of the type of [o]. *)
Definition ReadYaml {A} (decode : json -> outcome A) (path : string) : go E A :=
  c ← Reader path; lift (v ← parsed c; decode v).

Definition WriteYaml (path : string) (data : json) : go E unit :=
  _ ← Writer path; WriteTo path (Doc data).

Definition ReadJson {A} (decode : json -> outcome A) (path : string) : go E A :=
  c ← Reader path; lift (v ← parsed c; decode v).

Definition WriteJson (path : string) (data : json) : go E unit :=
  _ ← Writer path; WriteTo path (Doc data).
End Documents.

(** ** The implementation: repoFS and repoIO *)

Inductive repoE : Type -> Type :=
  | FsOpen (path : string) : repoE (outcome content)
  | FsMkdirAll (path : string) : repoE (outcome unit)
  | FsCreate (path : string) : repoE (outcome unit)
  | FsWrite (path : string) (c : content) : repoE (outcome unit)
  | FsRemoveAll (path : string) : repoE (outcome unit)
  | WtPull : repoE (outcome unit)
  | WtAddGlob : repoE (outcome unit)
  | WtCommit (message : string) : repoE (outcome unit)
  | RepoPush : repoE (outcome unit).

Module repo.

Definition Reader (path : string) : go repoE content := call (FsOpen path).

Definition Writer (path : string) : go repoE unit :=
  _ ← call (FsMkdirAll (Dir path)); call (FsCreate path).

Definition WriteTo (path : string) (c : content) : go repoE unit := call (FsWrite path c).

Definition CreateDir (path : string) : go repoE unit := call (FsMkdirAll path).

Definition RemoveDir (path : string) : go repoE unit :=
  check _u := call (FsRemoveAll path) onerr e =>
    (if decide (ekind e = KNotExist) then mret tt else fail e) in
  mret tt.

(** Whatever the pull answers, nil is returned. *)
Definition pullWithoutLock : go repoE unit :=
  check _u := call WtPull onerr _e => mret tt in mret tt.

Definition Pull : go repoE unit := pullWithoutLock.

Definition CommitAndPush (message : string) : go repoE unit :=
  _ ← call WtAddGlob; _ ← call (WtCommit message); call RepoPush.

Definition Do (op : go repoE string) (NoCommit : bool) : go repoE unit :=
  _ ← pullWithoutLock;
  msg ← op;
  if negb NoCommit then CommitAndPush msg else mret tt.

End repo.

Definition billy_repo (addr : string) : RepoIO repoE := {|
  Reader := repo.Reader;
  Writer := repo.Writer;
  WriteTo := repo.WriteTo;
  CreateDir := repo.CreateDir;
  RemoveDir := repo.RemoveDir;
  FullAddress := addr;
  Pull := repo.Pull;
  CommitAndPush := repo.CommitAndPush;
  Do := repo.Do;
|}.

(** ** Kustomization files *)

Record Kustomization := MkKust { kApiVersion : string; kKind : string; kResources : list string }.

Definition NewKustomization : Kustomization :=
  MkKust "kustomize.config.k8s.io/v1beta1" "Kustomization" [].

Definition AddResource (k : Kustomization) (name : string) : Kustomization :=
  if existsb (String.eqb name) (kResources k) then k
  else MkKust (kApiVersion k) (kKind k) (kResources k ++ [name]).

Definition AddResources (k : Kustomization) (names : list string) : Kustomization :=
  foldl AddResource k names.

(** The first occurrence of a name goes: slices.Delete(k.Resources, i, i+1); break *)
Fixpoint delete_first (name : string) (l : list string) : list string :=
  match l with
  | [] => []
  | r :: l' => if String.eqb r name then l' else r :: delete_first name l'
  end.

Definition RemoveResources (k : Kustomization) (names : list string) : Kustomization :=
  foldl (fun k name => MkKust (kApiVersion k) (kKind k) (delete_first name (kResources k))) k names.

(** The tags of the struct: empty fields are omitted. *)
Definition encode_kust (k : Kustomization) : json :=
  JObj (omit_str "apiVersion" (kApiVersion k) ++ omit_str "kind" (kKind k) ++
    match kResources k with [] => [] | l => [("resources", JArr (map JStr l))] end).

(** UnmarshalStrict refuses unknown fields. *)
Definition known_fields (ks : list string) (v : json) : bool :=
  match v with
  | JObj fs => forallb (fun kv => existsb (fun k => String.eqb (ToLower k) (ToLower kv.1)) ks) fs
  | _ => true
  end.

Definition decode_kust (v : json) : outcome Kustomization :=
  if negb (known_fields ["apiVersion"; "kind"; "resources"] v) then Err (errorf "unknown field")
  else
    a ← json_field "apiVersion" json_string "" v;
    k ← json_field "kind" json_string "" v;
    r ← json_field "resources" (json_array json_string) [] v;
    Ok (MkKust a k r).

Lemma json_list_strings l : json_list json_string (map JStr l) = Ok l.
Proof. induction l as [|s l IH]; simpl; [done|by rewrite IH]. Qed.

Lemma decode_encode_kust k : decode_kust (encode_kust k) = Ok k.
Proof.
  destruct k as [a k [|r l]]; unfold decode_kust, encode_kust, omit_str; cbn [kApiVersion kKind kResources];
    destruct (String.eqb_spec a ""), (String.eqb_spec k ""); subst; cbn [app];
    (match goal with |- context [known_fields ?ks ?v] => replace (known_fields ks v) with true by reflexivity end);
    cbn [negb]; json_simp; cbn [json_string mbind outcome_bind json_array]; rewrite ?json_list_strings; done.
Qed.

(** Write, on a writer that is open. *)
Definition Kustomization_Write {E} (k : Kustomization) (w : content -> go E unit) : go E unit :=
  w (Doc (encode_kust k)).

Definition ReadKustomization {E} `{!RepoIO E} (path : string) : go E Kustomization :=
  ReadYaml decode_kust path.

Definition WriteKustomization {E} `{!RepoIO E} (path : string) (k : Kustomization) : go E unit :=
  WriteYaml path (encode_kust k).

Lemma existsb_elem s l : existsb (String.eqb s) l = true <-> s ∈ l.
Proof.
  rewrite existsb_exists, list_elem_of_In. split.
  - intros (x & Hx & He). apply String.eqb_eq in He. by subst.
  - intros Hs. exists s. by rewrite String.eqb_refl.
Qed.

Lemma AddResource_elem k n m : m ∈ kResources (AddResource k n) <-> m = n \/ m ∈ kResources k.
Proof.
  unfold AddResource. pose proof (existsb_elem n (kResources k)) as Hx.
  destruct (existsb _ _); simpl; [|set_solver].
  assert (n ∈ kResources k) by by apply Hx. set_solver.
Qed.

Lemma delete_first_elem n m l : NoDup l -> m ∈ delete_first n l <-> m ∈ l /\ m <> n.
Proof.
  induction l as [|x l IH]; [set_solver|]. intros [Hx Hl]%NoDup_cons. cbn [delete_first].
  destruct (String.eqb_spec x n) as [->|Hne]; [set_solver|]. specialize (IH Hl). set_solver.
Qed.

(** ** A repository on disk and its remote, with faults *)

(** Paths are relative to the root of the work tree, with or without a slash. *)
Definition fs_key (p : string) : string := Clean ("/" +:+ p).

Record repo_state := MkRepoState {
  files : gmap string content;
  head_ : gmap string content;    (* the last commit *)
  remote : gmap string content;
  log : list string;              (* commit messages *)
  ops : nat;
  base : option (gmap string content);   (* the commit of the remote under the local ones, when there are some *)
}.

(** Without local commits. *)
Abbreviation MkRepo f h r l n := (MkRepoState f h r l n None).

(** The work tree changes, or nothing but the clock. *)
Definition on_files (f : gmap string content) (n : nat) (s : repo_state) : repo_state :=
  MkRepoState f (head_ s) (remote s) (log s) n (base s).

Definition with_files (f : gmap string content) (s : repo_state) : repo_state := on_files f (S (ops s)) s.

Definition tick (s : repo_state) : repo_state := on_files (files s) (S (ops s)) s.

(** Nothing is in the work tree that is not committed, and nothing is committed
    that is not pushed. *)
Definition clean (s : repo_state) : Prop := s = MkRepo (head_ s) (head_ s) (remote s) (log s) (ops s).

(** A pull moves to the last commit of the remote. It leaves the work tree alone
    when there is nothing to fetch, and when there are local commits: the branch
    is ahead, or has diverged (an error, which the caller ignores). *)
Definition pulled_state (s : repo_state) : repo_state :=
  if decide (base s = None /\ head_ s <> remote s) then MkRepo (remote s) (remote s) (remote s) (log s) (S (ops s))
  else tick s.

Lemma pulled_clean s : clean s -> pulled_state s = MkRepo (remote s) (remote s) (remote s) (log s) (S (ops s)).
Proof.
  unfold clean, pulled_state. destruct s as [f h r l n b]; cbn [files head_ remote log ops base]. intros [= -> ->].
  case_decide as Hd; [done|]. destruct (decide (h = r)) as [->|]; [done|]. by destruct Hd.
Qed.

(** The local commits, on top of a commit of the remote. *)
Definition committed_state (m : string) (s : repo_state) : repo_state :=
  MkRepoState (files s) (files s) (remote s) (log s ++ [m]) (S (ops s)) (Some (default (head_ s) (base s))).

(** The remote takes local commits that are on top of its own last one (commits
    are compared by their trees). *)
Definition pushed_state (s : repo_state) : repo_state * outcome unit :=
  match base s with
  | None => (tick s, Err (errorf "already up-to-date"))
  | Some b => if decide (b = remote s) then (MkRepo (files s) (head_ s) (head_ s) (log s) (S (ops s)), Ok tt)
              else (tick s, Err (errorf "non-fast-forward update"))
  end.

Definition under (dir key : string) : bool := String.eqb key dir || HasPrefix key (dir +:+ "/").

Definition repo_step (fault : nat -> option error) : handler repoE repo_state := fun X e s =>
  match e in repoE X return repo_state * X with
  | FsOpen p =>
      match fault (ops s) with
      | Some e => (tick s, Err e)
      | None => (tick s, match files s !! fs_key p with
                         | Some c => Ok c
                         | None => Err (MkErr KNotExist "file does not exist")
                         end)
      end
  | FsMkdirAll p => match fault (ops s) with Some e => (tick s, Err e) | None => (tick s, Ok tt) end
  | FsCreate p =>
      match fault (ops s) with
      | Some e => (tick s, Err e)
      | None => (with_files (<[fs_key p := Raw "" (Ok JNull)]> (files s)) s, Ok tt)
      end
  | FsWrite p c =>
      match fault (ops s) with
      | Some e => (tick s, Err e)
      | None => (with_files (<[fs_key p := c]> (files s)) s, Ok tt)
      end
  | FsRemoveAll p =>
      match fault (ops s) with
      | Some e => (tick s, Err e)
      | None => (with_files (filter (fun kv => under (fs_key p) kv.1 = false) (files s)) s, Ok tt)
      end
  | WtPull => match fault (ops s) with Some e => (tick s, Err e) | None => (pulled_state s, Ok tt) end
  | WtAddGlob => match fault (ops s) with Some e => (tick s, Err e) | None => (tick s, Ok tt) end
  | WtCommit m => match fault (ops s) with Some e => (tick s, Err e) | None => (committed_state m s, Ok tt) end
  | RepoPush => match fault (ops s) with Some e => (tick s, Err e) | None => pushed_state s end
  end.

(** The checkout is the last commit of the remote, but for the work tree. *)
Definition synced (s : repo_state) : Prop := base s = None /\ head_ s = remote s.

(** Without faults what is in the work tree becomes the remote. *)
Lemma run_CommitAndPush m s :
  synced s ->
  run (repo_step (fun _ => None)) (repo.CommitAndPush m) s =
    (MkRepo (files s) (files s) (files s) (log s ++ [m]) (S (S (S (ops s)))), Ok tt).
Proof.
  destruct s as [f h r l n b]. intros [Hb Hh]. cbn [base head_ remote] in Hb, Hh. subst b h.
  cbn [repo.CommitAndPush run mbind go_bind bindp call repo_step tick on_files committed_state pushed_state
       files head_ remote log ops base default]. unfold default. by rewrite decide_True.
Qed.

Lemma run_pullWithoutLock s :
  clean s ->
  run (repo_step (fun _ => None)) repo.pullWithoutLock s =
    (MkRepo (remote s) (remote s) (remote s) (log s) (S (ops s)), Ok tt).
Proof.
  intros Hc. unfold repo.pullWithoutLock. rewrite run_handle, run_call. cbn [repo_step]. by rewrite (pulled_clean _ Hc).
Qed.

(** ** The repository as one effect among others *)

Fixpoint embed {E F : Type -> Type} (inj : forall X, E X -> F X) {A} (p : prog E A) : prog F A :=
  match p with
  | Ret a => Ret a
  | Vis e k => Vis (inj _ e) (fun x => embed inj (k x))
  end.

(** RepoIO for code that also calls other services. *)
Definition repo_in {F : Type -> Type} (inj : forall X, repoE X -> F X) (addr : string) : RepoIO F := {|
  Reader p := embed inj (repo.Reader p);
  Writer p := embed inj (repo.Writer p);
  WriteTo p c := embed inj (repo.WriteTo p c);
  CreateDir p := embed inj (repo.CreateDir p);
  RemoveDir p := embed inj (repo.RemoveDir p);
  FullAddress := addr;
  Pull := embed inj repo.Pull;
  CommitAndPush m := embed inj (repo.CommitAndPush m);
  Do op nc := (_ ← embed inj repo.pullWithoutLock; msg ← op;
               if negb nc then embed inj (repo.CommitAndPush msg) else mret tt);
|}.

(** When the injected calls act on a part of the state only, so does an
    embedded program. *)
Lemma run_embed {E F : Type -> Type} (inj : forall X, E X -> F X) {S T : Type} (hE : handler E S) (hF : handler F T)
    (get : T -> S) (put : S -> T -> T) :
  (forall X (e : E X) t, hF _ (inj _ e) t = let '(s, x) := hE _ e (get t) in (put s t, x)) ->
  (forall t, put (get t) t = t) -> (forall s t, get (put s t) = s) -> (forall s s' t, put s' (put s t) = put s' t) ->
  forall A (p : prog E A) t, run hF (embed inj p) t = let '(s, x) := run hE p (get t) in (put s t, x).
Proof.
  intros Hh Hpg Hgp Hpp A p. induction p as [a|X e k IH]; intros t; cbn [embed run]; [by rewrite Hpg|].
  rewrite Hh. destruct (hE X e (get t)) as [s x]. rewrite IH, Hgp. destruct (run hE (k x) s) as [s' y]. by rewrite Hpp.
Qed.
