(* ===== verification/OldApps.v ===== *)
(** * The first application manager (core/appmanager)

    Helm charts with triggers and actions: installing a chart, the state kept in
    a file, answering which actions a change triggers, and launching an action
    as a pod. *)
From S2P Require Import Prelude GoLib GoStrings GoPath RepoIO.
From Stdlib Require Import Ascii.
Open Scope string_scope.
Open Scope list_scope.

(** ** schema.go, triggers.go, actions.go *)

Record TriggerOn := MkTriggerOn { toType : string; toEvent : string }.

Record Trigger := MkTrigger { tName : string; tTriggerOn : TriggerOn; tAction : string }.

Record Action := MkAction { acName : string; acTemplate : string }.

Record CallAction := MkCall { caApp : string; caAction : string; caArgs : json }.

Record ChartMeta := MkChart { chName : string; chType : string }.

(** yaml.v2: keys as they are written; scalars of text fields are texts. *)
Definition yaml_field {A} (k : string) (dec : json -> outcome A) (zero : A) (v : json) : outcome A :=
  match v with
  | JNull => Ok zero
  | JObj fs =>
      match list_find (fun kv => kv.1 = k) fs with
      | Some (_, (_, JNull)) | None => Ok zero
      | Some (_, (_, x)) => dec x
      end
  | _ => Err err_json
  end.

Definition decode_chart (v : json) : outcome ChartMeta :=
  n ← yaml_field "name" json_string "" v; t ← yaml_field "type" json_string "" v; Ok (MkChart n t).

Definition decode_schema (v : json) : outcome string := yaml_field "schema" json_string "" v.

Definition decode_trigger (v : json) : outcome Trigger :=
  n ← yaml_field "name" json_string "" v;
  on ← yaml_field "triggerOn" (fun o => t ← yaml_field "type" json_string "" o; e ← yaml_field "event" json_string "" o; Ok (MkTriggerOn t e)) (MkTriggerOn "" "") v;
  a ← yaml_field "action" json_string "" v;
  Ok (MkTrigger n on a).

Definition decode_triggers (v : json) : outcome (list Trigger) := yaml_field "triggers" (json_array decode_trigger) [] v.

Definition decode_action (v : json) : outcome Action :=
  n ← yaml_field "name" json_string "" v; t ← yaml_field "template" json_string "" v; Ok (MkAction n t).

Definition decode_actions (v : json) : outcome (list Action) := yaml_field "actions" (json_array decode_action) [] v.

Definition json_map (v : json) : outcome json := match v with JObj _ | JNull => Ok v | _ => Err err_json end.

Definition decode_call (v : json) : outcome CallAction :=
  a ← yaml_field "app" json_string "" v; c ← yaml_field "action" json_string "" v; m ← yaml_field "args" json_map JNull v; Ok (MkCall a c m).

Definition decode_init (v : json) : outcome (list CallAction) :=
  yaml_field "postInstall" (fun p => yaml_field "callAction" (json_array decode_call) [] p) [] v.

(** ** manager.go *)

Record OldApp := MkOldApp {
  oaName : string;
  oaNamespace : string;
  oaTriggers : list Trigger;
  oaActions : list Action;
}.

(** ** What the program calls *)

(** [cmd] of runCmd: the arguments after those of exec.Command itself. *)
Inductive oldE : Type -> Type :=
  | ReadYamlFile (path : string) : oldE (outcome content)
  | Exec (args : list string) : oldE (outcome unit)
  | Chdir (dir : string) : oldE (outcome unit)
  | RemoveAll (path : string) : oldE (outcome unit)
  | Rename (from to : string) : oldE (outcome unit)
  | PostSchema (addr schema : string) : oldE (outcome (Z * string))
  | CreateNamespace (name : string) : oldE (outcome unit)
  | CreatePod (ns : string) (pod : json) : oldE (outcome unit)
  | LoadState : oldE (outcome (gmap string OldApp))
  | StoreState (apps : gmap string OldApp) : oldE (outcome unit)
  | GetApps : oldE (gmap string OldApp)
  | SetApps (apps : gmap string OldApp) : oldE unit
  | MkTemp : oldE (outcome string)
  | OpenUpload (path : string) : oldE (outcome unit)
  | CopyUpload (path : string) : oldE (outcome unit).

(** os.Open answers a class of its own for a file that is not there. *)
Definition LoadManagerStateFromFile : go oldE (gmap string OldApp) :=
  check m := call LoadState onerr e => (if decide (ekind e = KNotExist) then mret ∅ else fail e) in
  mret m.

(** ** helm.go *)

Record HelmChart := MkHelmChart {
  hcName : string;
  hcType : string;
  hcDir : string;
  hcNamespace : string;
  hcSchema : string;
  hcTriggers : list Trigger;
  hcActions : list Action;
  hcInit : list CallAction;
}.

Definition FromYamlFile {A} (decode : json -> outcome A) (file : string) : go oldE A :=
  c ← call (ReadYamlFile file); lift (v ← parsed c; decode v).

Definition HelmChartFromDir (dir : string) : go oldE HelmChart :=
  c ← FromYamlFile decode_chart (JoinPath [dir; "Chart.yaml"]);
  mret (MkHelmChart (chName c) (chType c) dir "" "" [] [] []).

(** [exec.Command(helmBin)] puts the program first in Args. *)
Definition renderTemplates (helmBin : string) (chart : HelmChart) (values : list (string * string)) (outputDir : string) : go oldE unit :=
  call (Exec ([helmBin; "template"; "--output-dir=" +:+ outputDir; "--namespace=" +:+ hcNamespace chart; hcName chart; hcDir chart] ++
    map (fun kv => "--set=" +:+ kv.1 +:+ "=" +:+ kv.2) values)).

(** A file that is not there leaves the zero value. *)
Definition optional_yaml {A} (decode : json -> outcome A) (zero : A) (file : string) : go oldE A :=
  check v := FromYamlFile decode file onerr e => (if decide (ekind e = KNotExist) then mret zero else fail e) in
  mret v.

Definition with_namespace (ns : string) (c : HelmChart) : HelmChart :=
  MkHelmChart (hcName c) (hcType c) (hcDir c) ns (hcSchema c) (hcTriggers c) (hcActions c) (hcInit c).

Definition Render (helmBin : string) (values : list (string * string)) (chart : HelmChart) : go oldE HelmChart :=
  let chart := with_namespace ("app-" +:+ hcName chart) chart in
  let renderDir := JoinPath [hcDir chart; "__render"] in
  _ ← renderTemplates helmBin chart values renderDir;
  _ ← call (RemoveAll (JoinPath [hcDir chart; "templates"]));
  _ ← call (Rename (JoinPath [renderDir; hcName chart; "templates"]) (JoinPath [hcDir chart; "templates"]));
  let pcloudDir := JoinPath [hcDir chart; "templates/pcloud"] in
  schema ← optional_yaml decode_schema (hcSchema chart) (JoinPath [pcloudDir; "Schema.yaml"]);
  triggers ← optional_yaml decode_triggers (hcTriggers chart) (JoinPath [pcloudDir; "Triggers.yaml"]);
  actions ← optional_yaml decode_actions (hcActions chart) (JoinPath [pcloudDir; "Actions.yaml"]);
  init ← optional_yaml decode_init (hcInit chart) (JoinPath [pcloudDir; "Init.yaml"]);
  _ ← call (RemoveAll pcloudDir);
  mret (MkHelmChart (hcName chart) (hcType chart) (hcDir chart) (hcNamespace chart) schema triggers actions init).

Definition HelmChartFromTar (chartTar : string) : go oldE HelmChart :=
  if negb (HasSuffix chartTar ".tar.gz") then fail (errorf "Expected .tar.gz file")
  else
    let dir := Dir chartTar in
    let archive := Base chartTar in
    _ ← call (Chdir dir);
    _ ← call (Exec ["tar"; "-xvf"; archive]);
    HelmChartFromDir dir.

Definition InstallChart (helmBin : string) (chart : HelmChart) : go oldE unit :=
  call (Exec [helmBin; "install"; "--namespace=" +:+ hcNamespace chart; hcName chart; hcDir chart]).

(** ** installer.go *)

Definition InstallSchema (schema apiAddr : string) : go oldE unit :=
  if String.eqb schema "" then mret tt
  else
    resp ← call (PostSchema apiAddr schema);
    if negb (resp.1 =? StatusOK)%Z then fail (errorf ("Failed request with status code: " +:+ Itoa resp.1 +:+ " " +:+ resp.2)) else mret tt.

Section Manager.
(** launcher.go: the template rendered and read as a pod; the order in which Go
    ranges over the apps. *)
Context (renderTemplate : string -> json -> outcome json).
Context (range : gmap string OldApp -> list OldApp).
Context (helmBin apiAddr : string).

Definition Launch (ns tmpl : string) (args : json) : go oldE unit :=
  pod ← lift (renderTemplate tmpl args); call (CreatePod ns pod).

(** ** cmd/main.go *)

Fixpoint find_action (name : string) (l : list Action) : option Action :=
  match l with [] => None | a :: l' => if String.eqb (acName a) name then Some a else find_action name l' end.

Fixpoint launch_in (apps : list OldApp) (req : CallAction) : go oldE unit :=
  match apps with
  | [] => fail (errorf ("Action not found: " +:+ caApp req +:+ " " +:+ caAction req))
  | a :: apps' =>
      if negb (String.eqb (oaName a) (caApp req)) then launch_in apps' req
      else
        match find_action (caAction req) (oaActions a) with
        | Some action => Launch (oaNamespace a) (acTemplate action) (caArgs req)
        | None => launch_in apps' req
        end
  end.

Definition get_apps : go oldE (gmap string OldApp) := Vis GetApps (fun m => Ret (Ok m)).
Definition set_apps (m : gmap string OldApp) : go oldE unit := Vis (SetApps m) (fun _ => Ret (Ok tt)).

Definition launchAction (req : CallAction) : go oldE unit := apps ← get_apps; launch_in (range apps) req.

(** actionReq *)
Definition decode_action_req (v : json) : outcome CallAction :=
  a ← json_field "app" json_string "" v; c ← json_field "action" json_string "" v; m ← json_field "args" json_map JNull v; Ok (MkCall a c m).

Definition handleLaunchAction (body : outcome content) : go oldE (reply unit) :=
  check actionStr := lift body onerr e => mret (HttpError (emsg e) StatusInternalServerError) in
  check req := lift (v ← parsed actionStr; decode_action_req v) onerr e => mret (HttpError (emsg e) StatusBadRequest) in
  check _u := launchAction req onerr e => mret (HttpError (emsg e) StatusBadRequest) in
  mret Empty.

Definition encode_triggered (l : list (string * string)) : json :=
  match l with [] => JNull | _ => JArr (map (fun t => JObj [("app", JStr t.1); ("action", JStr t.2)]) l) end.

Definition triggered (apps : list OldApp) (type event : string) : list (string * string) :=
  concat (map (fun a => map (fun t => (oaName a, tAction t))
    (List.filter (fun t => String.eqb (toType (tTriggerOn t)) type && String.eqb (toEvent (tTriggerOn t)) event) (oaTriggers a))) apps).

(** A parameter that is not there stops the handler with a panic. *)
Definition first_param (r : request) (k : string) : outcome string :=
  match (default [] (rpost r !! k) ++ default [] (rquery r !! k)) with
  | v :: _ => Ok v
  | [] => Panic "index out of range [0] with length 0"
  end.

Definition handleTriggers (r : request) : go oldE (reply json) :=
  if negb (String.eqb (rmethod r) MethodGet) then mret (HttpError "Only GET method is supported on /triggers" StatusBadRequest)
  else
    match rform_err r with
    | Some e => mret (HttpError (emsg e) StatusBadRequest)
    | None =>
        type ← lift (first_param r "trigger_on_type");
        event ← lift (first_param r "trigger_on_event");
        apps ← get_apps;
        mret (Page (encode_triggered (triggered (range apps) type event)))
    end.

(** The error of storing the state is dropped. *)
Definition installHelmChart (path : string) : go oldE unit :=
  h ← HelmChartFromTar path;
  h ← Render helmBin [] h;
  _ ← InstallSchema (hcSchema h) apiAddr;
  _ ← call (CreateNamespace (hcNamespace h));
  _ ← (if String.eqb (hcType h) "application" then InstallChart helmBin h else mret tt);
  apps ← get_apps;
  let apps' := <[hcName h := MkOldApp (hcName h) (hcNamespace h) (hcTriggers h) (hcActions h)]> apps in
  _ ← set_apps apps';
  check _u := call (StoreState apps') onerr _e => foreach launchAction (hcInit h) in
  foreach launchAction (hcInit h).

(** What multipart parsing found: the name of the file. *)
Definition handleInstall (method : string) (file : outcome string) : go oldE (reply string) :=
  if String.eqb method MethodGet then mret (Page "helmUploadPage")
  else if String.eqb method MethodPost then
    check name := lift file onerr e => mret (HttpError (emsg e) StatusInternalServerError) in
    check p := call MkTemp onerr _e => mret (HttpError "Could not create temp dir" StatusInternalServerError) in
    let p := p +:+ "/" +:+ name in
    check _u := call (OpenUpload p) onerr _e => mret Empty in
    check _u := call (CopyUpload p) onerr e => mret (HttpError (emsg e) StatusInternalServerError) in
    check _u := installHelmChart p onerr e => mret (HttpError (emsg e) StatusInternalServerError) in
    mret (Page "Installed")
  else mret Empty.
End Manager.
