(* ===== verification/Events.v ===== *)
(** * The processor of events (core/events)

    One event at a time: it asks the API for new events, the application manager
    for what they trigger, launches that, and marks the event done. *)
From S2P Require Import Prelude GoLib GoStrings GoJson RepoIO OldApps.
From Stdlib Require Import Ascii.
Open Scope string_scope.
Open Scope list_scope.

(** ** event.go, client.go *)

Inductive EventState := EventStateNew | EventStateProcessing | EventStateDone.

Definition state_text (s : EventState) : string :=
  match s with EventStateNew => "NEW" | EventStateProcessing => "PROCESSING" | EventStateDone => "DONE" end.

Record Event := MkEvent { evId : string; evState : EventState; evNodeId : string }.

(** http.Post and http.Get with the body read; the status is never looked at. *)
Inductive eventsE : Type -> Type :=
  | PostUrl (addr : string) (body : json) : eventsE (outcome (outcome content))
  | GetUrl (url : string) : eventsE (outcome (outcome content))
  | WaitTick : eventsE unit.             (* thirty seconds *)

Definition line (s : string) : string := s +:+ String (ascii_of_nat 10) "".

Definition lines (l : list string) : string := fold_right (fun s t => line s +:+ t) "" l.

Definition getAllNewImageEventsTmpl : string :=
  lines ["{"; "  queryImageEvent(filter: {"; "    state: {"; "      eq: NEW"; "      le: NEW"; "      lt: NEW"; "      ge: NEW"; "      gt: NEW";
         "    }"; "  }) {"; "    id"; "    node {"; "      id"; "    }"; "  }"] +:+ "}".

Definition markEventDoneTmpl : string :=
  lines ["mutation {"; "  updateImageEvent(input: {"; "    filter: {"; quotes "      id: ['%s']"; "    },"; "    set: {"; "      state: DONE"; "    }";
         "  }) {"; "    numUids"; "  }"] +:+ "}".

Definition query (q : string) : json := JObj [("query", JStr q)].

Definition decode_event (v : json) : outcome Event :=
  i ← json_field "id" json_string "" v;
  _ ← json_field "state" json_string "" v;
  n ← json_field "node" (json_field "id" json_string "") "" v;
  Ok (MkEvent i EventStateNew n).

Definition decode_events (v : json) : outcome (list Event) := json_field "queryImageEvent" (json_array decode_event) [] v.

Section Processor.
Context (api appManager objectStore : string).

(** The argument is not used. *)
Definition GetEventsInState (state : EventState) : go eventsE (list Event) :=
  resp ← call (PostUrl api (query getAllNewImageEventsTmpl));
  respBody ← lift resp;
  lift (v ← parsed respBody; decode_events v).

Definition MarkEventDone (event : Event) : go eventsE unit :=
  _ ← call (PostUrl api (query (Sprintf markEventDoneTmpl [evId event]))); mret tt.

(** ** appmanager.go *)

Definition decode_trigger_answer (v : json) : outcome (string * string) :=
  a ← json_field "app" json_string "" v; c ← json_field "action" json_string "" v; Ok (a, c).

Definition triggers_url (type event : string) : string :=
  Sprintf "%s/triggers?trigger_on_type=%s&trigger_on_event=%s" [appManager; type; event].

Definition QueryTriggers (type event : string) : go eventsE (list (string * string)) :=
  resp ← call (GetUrl (triggers_url type event));
  respBody ← lift resp;
  lift (v ← parsed respBody; json_array decode_trigger_answer v).

Definition launch_request (t : string * string) (args : json) : json :=
  JObj [("app", JStr t.1); ("action", JStr t.2); ("args", args)].

Definition LaunchAction (t : string * string) (args : json) : go eventsE unit :=
  resp ← call (PostUrl (appManager +:+ "/launch_action") (launch_request t args));
  _ ← lift resp;
  mret tt.

(** ** processor.go *)

Definition event_args (e : Event) : json :=
  JObj [("Id", JStr (evNodeId e)); ("PCloudApiAddr", JStr api); ("ObjectStoreAddr", JStr objectStore)].

Definition launch_one (event : Event) (t : string * string) : go eventsE unit :=
  check _u := LaunchAction t (event_args event) onerr _e => mret tt in mret tt.

(** One turn of the loop, after the wait. *)
Definition round : go eventsE unit :=
  check events := GetEventsInState EventStateNew onerr _e => mret tt in
  match events with
  | [] => mret tt
  | event :: _ =>
      check triggers := QueryTriggers "Image" (state_text EventStateNew) onerr _e => mret tt in
      _ ← foreach (launch_one event) triggers;
      check _u := MarkEventDone event onerr _e => mret tt in
      mret tt
  end.

(** Start never returns: the first [n] turns. *)
Fixpoint Start (n : nat) : go eventsE unit :=
  match n with
  | 0 => mret tt
  | S n' => Vis WaitTick (fun _ => _ ← round; Start n')
  end.
End Processor.
