(* ===== verification/EventsTheorems.v ===== *)
(** * Theorems on the processor of events

    The processor against the handlers of the application manager and an API
    that keeps events. *)
From S2P Require Import Prelude GoLib GoStrings GoJson RepoIO OldApps Events.
From Stdlib Require Import Ascii.
Open Scope string_scope.
Open Scope list_scope.

Section Pipeline.
Context (api appManager objectStore : string).
Context (renderTemplate : string -> json -> outcome json) (range : gmap string OldApp -> list OldApp).
(** What Kubernetes answers to the creation of a pod. *)
Context (refuses : string -> json -> option error).
Hypothesis Hapi : api <> appManager +:+ "/launch_action".

Record pipeline := MkPipeline {
  pl_apps : gmap string OldApp;
  pl_pods : list (string * json);
  pl_events : list Event;
}.

(** The application manager. *)
Definition old_step : handler oldE pipeline := fun X e w =>
  match e in oldE X return pipeline * X with
  | GetApps => (w, pl_apps w)
  | SetApps m => (MkPipeline m (pl_pods w) (pl_events w), tt)
  | CreatePod ns pod =>
      match refuses ns pod with
      | Some e => (w, Err e)
      | None => (MkPipeline (pl_apps w) (pl_pods w ++ [(ns, pod)]) (pl_events w), Ok tt)
      end
  | ReadYamlFile _ => (w, Err (errorf "not here"))
  | Exec _ | Chdir _ | RemoveAll _ | CreateNamespace _ | OpenUpload _ | CopyUpload _ => (w, Err (errorf "not here"))
  | Rename _ _ => (w, Err (errorf "not here"))
  | PostSchema _ _ => (w, Err (errorf "not here"))
  | LoadState => (w, Err (errorf "not here"))
  | StoreState _ => (w, Err (errorf "not here"))
  | MkTemp => (w, Err (errorf "not here"))
  end.

Definition is_new (e : Event) : bool := match evState e with EventStateNew => true | _ => false end.

Definition event_json (e : Event) : json :=
  JObj [("id", JStr (evId e)); ("node", JObj [("id", JStr (evNodeId e))])].

Definition new_events (w : pipeline) : list Event := List.filter is_new (pl_events w).

Definition mark_query (e : Event) : string := Sprintf markEventDoneTmpl [evId e].

Definition marked (q : string) (e : Event) : Event :=
  if String.eqb (mark_query e) q then MkEvent (evId e) EventStateDone (evNodeId e) else e.

Definition answer_reply {P} (page : P -> content) (r : outcome (reply P)) : outcome (outcome content) :=
  match r with
  | Ok (Page p) => Ok (Ok (page p))
  | Ok (HttpError m _) => Ok (Ok (Raw m (Err err_json)))
  | Ok _ => Ok (Ok (Raw "" (Err err_json)))
  | _ => Err (errorf "EOF")
  end.

Definition form (type event : string) : request :=
  MkRequest MethodGet "/triggers" ∅ ∅ {["trigger_on_type" := [type]; "trigger_on_event" := [event]]} ∅ None "".

Definition events_step : handler eventsE pipeline := fun X e w =>
  match e in eventsE X return pipeline * X with
  | WaitTick => (w, tt)
  | GetUrl url =>
      if String.eqb url (triggers_url appManager "Image" "NEW") then
        let '(w', r) := run old_step (handleTriggers range (form "Image" "NEW")) w in (w', answer_reply Doc r)
      else (w, Err (errorf "not here"))
  | PostUrl addr body =>
      if String.eqb addr api then
        match body with
        | JObj [("query", JStr q)] =>
            if String.eqb q getAllNewImageEventsTmpl then
              (w, Ok (Ok (Doc (JObj [("queryImageEvent", JArr (map event_json (new_events w)))]))))
            else (MkPipeline (pl_apps w) (pl_pods w) (map (marked q) (pl_events w)), Ok (Ok (Doc (JObj []))))
        | _ => (w, Ok (Ok (Raw "bad request" (Err err_json))))
        end
      else if String.eqb addr (appManager +:+ "/launch_action") then
        let '(w', r) := run old_step (handleLaunchAction renderTemplate range (Ok (Doc body))) w in
        (w', answer_reply (fun _ => Raw "" (Err err_json)) r)
      else (w, Err (errorf "not here"))
  end.

(** ** One launch *)

(** The action of an app: where its pod goes and its template. *)
Fixpoint find_launch (apps : list OldApp) (app action : string) : option (string * string) :=
  match apps with
  | [] => None
  | a :: apps' =>
      if String.eqb (oaName a) app then
        match find_action action (oaActions a) with Some c => Some (oaNamespace a, acTemplate c) | None => find_launch apps' app action end
      else find_launch apps' app action
  end.

(** The pod a trigger gives for an event, if there is an action, it renders, and
    the cluster admits it. *)
Definition pod_for (apps : list OldApp) (e : Event) (t : string * string) : option (string * json) :=
  match find_launch apps t.1 t.2 with
  | None => None
  | Some (ns, tmpl) =>
      match renderTemplate tmpl (event_args api objectStore e) with
      | Ok pod => match refuses ns pod with None => Some (ns, pod) | Some _ => None end
      | _ => None
      end
  end.

Definition with_pods (l : list (string * json)) (w : pipeline) : pipeline := MkPipeline (pl_apps w) (pl_pods w ++ l) (pl_events w).

Definition opt_list {A} (o : option A) : list A := match o with Some a => [a] | None => [] end.

(** Rendering ends, with a pod or an error. *)
Definition renders : Prop := forall tmpl args, (exists pod, renderTemplate tmpl args = Ok pod) \/ exists e, renderTemplate tmpl args = Err e.

Lemma run_launch_in apps e t w : renders ->
  let '(w', r) := run old_step (launch_in renderTemplate apps (MkCall t.1 t.2 (event_args api objectStore e))) w in
  w' = with_pods (opt_list (pod_for apps e t)) w /\ (r = Ok tt \/ exists e, r = Err e).
Proof.
  intros Hr. assert (Hnil : w = with_pods [] w) by (unfold with_pods; rewrite app_nil_r; by destruct w).
  unfold pod_for. induction apps as [|a apps IH]; cbn [launch_in find_launch caApp caAction caArgs].
  - split; [exact Hnil|right; by eexists].
  - destruct (String.eqb (oaName a) t.1); cbn [negb]; [|exact IH]. destruct (find_action t.2 (oaActions a)) as [c|]; [|exact IH].
    unfold Launch. rewrite run_mbind. cbn [run lift].
    destruct (Hr (acTemplate c) (event_args api objectStore e)) as [[pod ->]|[e' ->]].
    + rewrite run_call. cbn [old_step]. destruct (refuses (oaNamespace a) pod); cbn [opt_list]; split; try done; [right; by eexists|by left].
    + split; [exact Hnil|right; by eexists].
Qed.

Abbreviation step := events_step.

Lemma decode_launch e t : decode_action_req (launch_request t (event_args api objectStore e)) = Ok (MkCall t.1 t.2 (event_args api objectStore e)).
Proof. unfold decode_action_req, launch_request. by json_simp. Qed.

(** A launch is asked for, whatever comes of it. *)
Lemma run_launch_one e t w : renders ->
  run step (launch_one api appManager objectStore e t) w = (with_pods (opt_list (pod_for (range (pl_apps w)) e t)) w, Ok tt).
Proof using Hapi.
  intros Hr. unfold launch_one, LaunchAction. rewrite run_handle, run_mbind, run_call. cbn [events_step].
  rewrite (proj2 (String.eqb_neq _ _) (not_eq_sym Hapi)), String.eqb_refl. unfold handleLaunchAction. rewrite run_handle. cbn [run lift].
  rewrite run_handle. cbn [run lift parsed mbind outcome_bind]. rewrite decode_launch, run_handle. unfold launchAction, get_apps.
  rewrite run_mbind. cbn [run old_step]. pose proof (run_launch_in (range (pl_apps w)) e t w Hr) as H.
  destruct (run old_step (launch_in _ _ _) w) as [w' r]. destruct H as [-> [->|[e' ->]]]; reflexivity.
Qed.

Definition pods_of (apps : list OldApp) (e : Event) : list (string * json) :=
  concat (map (fun t => opt_list (pod_for apps e t)) (triggered apps "Image" "NEW")).

Lemma run_launches e ts w : renders ->
  run step (foreach (launch_one api appManager objectStore e) ts) w =
    (with_pods (concat (map (fun t => opt_list (pod_for (range (pl_apps w)) e t)) ts)) w, Ok tt).
Proof using Hapi.
  intros Hr. revert w. induction ts as [|t ts IH]; intros w; cbn [foreach map concat].
  - unfold with_pods. rewrite app_nil_r. by destruct w.
  - rewrite run_mbind, run_launch_one, IH by done. unfold with_pods. cbn [pl_apps pl_pods pl_events]. by rewrite <- (assoc_L (++)).
Qed.

Lemma decode_new l : Forall (fun e => is_new e = true) l ->
  decode_events (JObj [("queryImageEvent", JArr (map event_json l))]) = Ok l.
Proof.
  intros Hl. unfold decode_events. json_simp. cbn [json_array].
  induction Hl as [|[i s n] l He Hl IH]; [done|]. cbn [map json_list]. rewrite IH.
  unfold decode_event, event_json. cbn [evId evNodeId]. json_simp. cbn [json_string mbind outcome_bind]. by destruct s.
Qed.

Lemma new_events_new w : Forall (fun e => is_new e = true) (new_events w).
Proof. unfold new_events. apply Forall_forall. intros e He. by apply list_elem_of_In, filter_In in He as [_ He]. Qed.

Lemma run_get_events w : run step (GetEventsInState api EventStateNew) w = (w, Ok (new_events w)).
Proof.
  unfold GetEventsInState. rewrite run_mbind, run_call. cbn [events_step]. rewrite String.eqb_refl. cbn [query]. rewrite String.eqb_refl.
  rewrite run_mbind. cbn [run lift parsed mbind outcome_bind]. by rewrite decode_new by apply new_events_new.
Qed.

Lemma decode_triggered l : json_array decode_trigger_answer (encode_triggered l) = Ok l.
Proof.
  unfold encode_triggered. destruct l as [|t l]; [done|]. set (ts := t :: l). clearbody ts. cbn [json_array].
  induction ts as [|[a c] ts IH]; [done|]. cbn [map json_list]. rewrite IH. unfold decode_trigger_answer. by json_simp.
Qed.

Lemma run_QueryTriggers w : run step (QueryTriggers appManager "Image" "NEW") w = (w, Ok (triggered (range (pl_apps w)) "Image" "NEW")).
Proof.
  unfold QueryTriggers. rewrite run_mbind, run_call. cbn [events_step]. rewrite String.eqb_refl. unfold handleTriggers.
  change (negb (String.eqb (rmethod (form "Image" "NEW")) MethodGet)) with false. cbn iota. cbn [rform_err form].
  change (first_param (form "Image" "NEW") "trigger_on_type") with (Ok "Image"). change (first_param (form "Image" "NEW") "trigger_on_event") with (Ok "NEW").
  rewrite run_mbind. cbn [run lift]. rewrite run_mbind. cbn [run lift]. unfold get_apps. rewrite run_mbind. cbn [run old_step mret go_ret answer_reply].
  rewrite run_mbind. cbn [run lift parsed mbind outcome_bind]. by rewrite decode_triggered.
Qed.

(** ** One turn *)

Definition with_events (l : list Event) (w : pipeline) : pipeline := MkPipeline (pl_apps w) (pl_pods w) l.

Lemma run_mark e w : run step (MarkEventDone api e) w = (with_events (map (marked (mark_query e)) (pl_events w)) w, Ok tt).
Proof.
  unfold MarkEventDone. rewrite run_mbind, run_call. cbn [events_step]. rewrite String.eqb_refl. cbn [query]. fold (mark_query e).
  destruct (String.eqb_spec (mark_query e) getAllNewImageEventsTmpl) as [He|_]; [discriminate He|]. reflexivity.
Qed.

Lemma run_round_new e rest w : renders -> new_events w = e :: rest ->
  run step (round api appManager objectStore) w =
    (with_events (map (marked (mark_query e)) (pl_events w)) (with_pods (pods_of (range (pl_apps w)) e) w), Ok tt).
Proof using Hapi.
  intros Hr He. unfold round. rewrite run_handle, run_get_events, He, run_handle. change (state_text EventStateNew) with "NEW".
  rewrite run_QueryTriggers, run_mbind, run_launches by done. rewrite run_handle, run_mark. reflexivity.
Qed.

Lemma mark_query_inj e e' : mark_query e = mark_query e' -> evId e = evId e'.
Proof.
  intros He. unfold mark_query in He.
  set (pre := lines ["mutation {"; "  updateImageEvent(input: {"; "    filter: {"] +:+ quotes "      id: ['").
  set (post := quotes "']" +:+ String (ascii_of_nat 10) (lines ["    },"; "    set: {"; "      state: DONE"; "    }"; "  }) {"; "    numUids"; "  }"] +:+ "}")).
  change (Sprintf markEventDoneTmpl [evId e]) with (pre +:+ evId e +:+ post) in He.
  change (Sprintf markEventDoneTmpl [evId e']) with (pre +:+ evId e' +:+ post) in He.
  apply str_app_inj_l in He. by apply str_app_inj_r in He.
Qed.

Lemma marked_other e l : Forall (fun x => evId x <> evId e) l -> map (marked (mark_query e)) l = l.
Proof.
  induction l as [|x l IH]; [done|]. intros [Hx Hl]%Forall_cons. cbn [map]. rewrite IH by done. f_equal. unfold marked.
  destruct (String.eqb_spec (mark_query x) (mark_query e)) as [H|_]; [by apply mark_query_inj in H|done].
Qed.

(** The first new event leaves the list of new ones. *)
Lemma new_after_mark e rest l : NoDup (map evId l) -> List.filter is_new l = e :: rest ->
  List.filter is_new (map (marked (mark_query e)) l) = rest.
Proof.
  induction l as [|x l IH]; intros Hnd He; [done|]. cbn [map List.filter] in *. apply NoDup_cons in Hnd as [Hx Hnd].
  destruct (is_new x) eqn:Hn.
  - injection He as -> Hrest. unfold marked at 1. rewrite String.eqb_refl. cbn [is_new evState].
    rewrite marked_other; [done|]. apply Forall_forall. intros y Hy Hye. apply Hx. rewrite <- Hye. by apply list_elem_of_fmap_2.
  - assert (Hne : evId x <> evId e).
    { intros Hxe. apply Hx. rewrite Hxe. apply list_elem_of_fmap_2. apply list_elem_of_In.
      assert (H : In e (List.filter is_new l)) by (rewrite He; by left). by apply filter_In in H as [H _]. }
    unfold marked at 1. destruct (String.eqb_spec (mark_query x) (mark_query e)) as [H|_]; [by apply mark_query_inj in H|].
    rewrite Hn. by apply IH.
Qed.

Definition done_if_new (e : Event) : Event := if is_new e then MkEvent (evId e) EventStateDone (evNodeId e) else e.

Lemma marked_id q e : evId (marked q e) = evId e.
Proof. unfold marked. by destruct (String.eqb _ _). Qed.

Lemma done_marked e rest l : NoDup (map evId l) -> List.filter is_new l = e :: rest ->
  map done_if_new (map (marked (mark_query e)) l) = map done_if_new l.
Proof.
  intros Hnd He. rewrite map_map. apply map_ext_in. intros x Hx.
  assert (Hin : In e l /\ is_new e = true) by (apply filter_In; rewrite He; by left). destruct Hin as [Hin Hnew].
  unfold marked. destruct (String.eqb_spec (mark_query x) (mark_query e)) as [H%mark_query_inj|_]; [|done].
  assert (x = e) as ->.
  { apply list_elem_of_In, list_elem_of_lookup in Hx as [i Hi]. apply list_elem_of_In, list_elem_of_lookup in Hin as [j Hj].
    assert (i = j) as ->; [|congruence].
    eapply (NoDup_lookup _ _ _ (evId e) Hnd); rewrite list_lookup_fmap; [rewrite Hi|rewrite Hj]; cbn; congruence. }
  unfold done_if_new. by rewrite Hnew.
Qed.

(** C37. Every event is processed once: with [k] new events, after [k] turns of the
    processor every one of them is done, and each has had its turn, in order: the
    pods created are those of the actions it triggers, in the order the
    application manager lists them.  An action that does not exist, does not
    render, or whose pod is refused gives no pod; its event is done all the same,
    and it is never tried again. *)
Theorem events_processed_in_turn (w : pipeline) (Hr : renders) (Hids : NoDup (map evId (pl_events w))) :
  run step (Start api appManager objectStore (length (new_events w))) w =
    (MkPipeline (pl_apps w) (pl_pods w ++ concat (map (pods_of (range (pl_apps w))) (new_events w))) (map done_if_new (pl_events w)), Ok tt).
Proof using Hapi.
  remember (new_events w) as news eqn:Hnews. symmetry in Hnews. revert w Hids Hnews.
  induction news as [|e rest IH]; intros w Hids Hnews; cbn [length Start map concat].
  - rewrite app_nil_r. destruct w as [apps pods events]. cbn [run mret go_ret pl_apps pl_pods pl_events] in *. repeat f_equal.
    rewrite <- (map_id events) at 1. apply map_ext_in. intros x Hx. unfold done_if_new. destruct (is_new x) eqn:Hn; [|done].
    assert (H : In x []) by (rewrite <- Hnews; by apply filter_In). done.
  - cbn [run events_step]. rewrite run_mbind, (run_round_new e rest) by done.
    rewrite IH; unfold with_events, with_pods; cbn [pl_apps pl_pods pl_events new_events].
    + rewrite (done_marked e rest) by done. by rewrite <- (assoc_L (++)).
    + rewrite map_map. rewrite (map_ext _ evId) by (intros x; apply marked_id). done.
    + by apply new_after_mark.
Qed.
End Pipeline.

(** ** The theorem at a concrete input *)

Definition demo_manager : gmap string OldApp :=
  {["faces" := MkOldApp "faces" "app-faces" [MkTrigger "new" (MkTriggerOn "Image" "NEW") "DetectFaces"; MkTrigger "gone" (MkTriggerOn "Image" "NEW") "Missing"]
      [MkAction "DetectFaces" "detect"];
    "thumbs" := MkOldApp "thumbs" "app-thumbs" [MkTrigger "done" (MkTriggerOn "Image" "DONE") "Thumbnail"] [MkAction "Thumbnail" "thumb"]]}.

Definition demo_render (tmpl : string) (args : json) : outcome json := Ok (JObj [("template", JStr tmpl); ("args", args)]).

Definition demo_pod (id : string) : json :=
  JObj [("template", JStr "detect"); ("args", JObj [("Id", JStr id); ("PCloudApiAddr", JStr "http://api"); ("ObjectStoreAddr", JStr "http://minio")])].

Lemma events_processed_in_turn_witness :
  run (events_step "http://api" "http://apps" demo_render (fun m => map snd (map_to_list m)) (fun _ _ => None))
    (Start "http://api" "http://apps" "http://minio" 2)
    (MkPipeline demo_manager [] [MkEvent "0x1" EventStateNew "0x11"; MkEvent "0x2" EventStateDone "0x12"; MkEvent "0x3" EventStateNew "0x13"]) =
  (MkPipeline demo_manager [("app-faces", demo_pod "0x11"); ("app-faces", demo_pod "0x13")]
    [MkEvent "0x1" EventStateDone "0x11"; MkEvent "0x2" EventStateDone "0x12"; MkEvent "0x3" EventStateDone "0x13"], Ok tt).
Proof.
  refine (events_processed_in_turn "http://api" "http://apps" "http://minio" demo_render (fun m => map snd (map_to_list m)) (fun _ _ => None) _
    (MkPipeline demo_manager [] [MkEvent "0x1" EventStateNew "0x11"; MkEvent "0x2" EventStateDone "0x12"; MkEvent "0x3" EventStateNew "0x13"]) _ _).
  - discriminate.
  - intros tmpl args. left. by eexists.
  - apply (bool_decide_unpack _). vm_compute. exact I.
Defined.
