(* ===== verification/SchemaApi.v ===== *)
(** * The GraphQL API in front of Dgraph (core/api: main.go, schema; apps/minio/importer)

    Queries are parsed, every object a mutation adds gets an event, and the text
    is posted to Dgraph; schemas are extended with event types.  Parsing,
    formatting and picking fields out of answers are third-party code. *)
From S2P Require Import Prelude GoLib GoStrings GoJson RepoIO Events.
From Stdlib Require Import Ascii.
Open Scope string_scope.
Open Scope list_scope.

(** ** The syntax of gqlparser (package ast), as far as it is used *)

Inductive DefKind := Object | InputObject | OtherKind.

#[export] Instance DefKind_eq_dec : EqDecision DefKind.
Proof. solve_decision. Defined.

Record Definition_ := MkDef { dKind : DefKind; dName : string }.

Inductive ValueKind :=
  | Variable_ | IntValue | FloatValue | StringValue | BlockValue | BooleanValue | NullValue | EnumValue | ListValue | ObjectValue.

#[export] Instance ValueKind_eq_dec : EqDecision ValueKind.
Proof. solve_decision. Defined.

(** A missing value or definition is a nil pointer. *)
Inductive Value := MkValue (Raw : string) (Children : list (string * option Value)) (Kind : ValueKind) (Def : option Definition_).

Definition Children (v : Value) : list (string * option Value) := match v with MkValue _ c _ _ => c end.
Definition Kind (v : Value) : ValueKind := match v with MkValue _ _ k _ => k end.
Definition Def (v : Value) : option Definition_ := match v with MkValue _ _ _ d => d end.

Inductive Selection := Field (name : string) (arguments : list (string * option Value)) | OtherSelection.

Record OperationDefinition := MkOp { isMutation : bool; SelectionSet : list Selection }.

(** The types of a schema by name, in the order Go ranges over them. *)
Definition Types := list (string * Definition_).

Definition nil_deref : string := "invalid memory address or nil pointer dereference".

(** ** schema/dgraph_schema_store.go: events for what is added *)

Fixpoint findDefinitionWithName (name : string) (s : Types) : outcome Definition_ :=
  match s with
  | [] => Panic ("Expected event input definiton for  " +:+ name)
  | (n, d) :: s' => if String.eqb n name then Ok d else findDefinitionWithName name s'
  end.

Definition findEventInputDefinitionFor (d : Definition_) (s : Types) : outcome Definition_ :=
  if negb (HasSuffix (dName d) "Input") then Panic ("Expected input definiton, got " +:+ dName d)
  else findDefinitionWithName (TrimSuffix (dName d) "Input" +:+ "EventInput") s.

Definition newEventStateValue (s : Types) : outcome (string * option Value) :=
  d ← findDefinitionWithName "EventState" s;
  Ok ("state", Some (MkValue "NEW" [] EnumValue (Some d))).

Definition newEventValue (d : Definition_) (s : Types) : outcome (string * option Value) :=
  c ← newEventStateValue s;
  d' ← findEventInputDefinitionFor d s;
  Ok ("events", Some (MkValue "" [c] ObjectValue (Some d'))).

Definition newEventListValue (d : Definition_) (s : Types) : outcome (string * option Value) :=
  c ← newEventValue d s;
  d' ← findEventInputDefinitionFor d s;
  Ok ("events", Some (MkValue "" [c] ListValue (Some d'))).

(** The objects that get events. *)
Definition adds_object (d : Definition_) : bool :=
  bool_decide (dKind d = InputObject) &&
  negb (HasSuffix (dName d) "Event") && negb (HasSuffix (dName d) "EventInput") && negb (HasSuffix (dName d) "Ref") &&
  negb (HasSuffix (dName d) "Filter") && negb (HasSuffix (dName d) "Patch").

Fixpoint rewriteValue (s : Types) (v : Value) : outcome Value :=
  match v with
  | MkValue raw children kind def =>
      let each := (fix each (l : list (string * option Value)) : outcome (list (string * option Value)) :=
        match l with
        | [] => Ok []
        | (n, None) :: _ => Panic "Received nil value"
        | (n, Some c) :: l' => c' ← rewriteValue s c; l'' ← each l'; Ok ((n, Some c') :: l'')
        end) in
      match kind with
      | ListValue => children' ← each children; Ok (MkValue raw children' kind def)
      | ObjectValue =>
          children' ← each children;
          match def with
          | None => Panic nil_deref
          | Some d =>
              if adds_object d then e ← newEventListValue d s; Ok (MkValue raw (children' ++ [e]) kind def)
              else Ok (MkValue raw children' kind def)
          end
      | _ => Ok v
      end
  end.

Fixpoint rewrite_arguments (s : Types) (l : list (string * option Value)) : outcome (list (string * option Value)) :=
  match l with
  | [] => Ok []
  | (n, None) :: _ => Panic "Received nil value"
  | (n, Some c) :: l' => c' ← rewriteValue s c; l'' ← rewrite_arguments s l'; Ok ((n, Some c') :: l'')
  end.

Fixpoint rewrite_selections (s : Types) (l : list Selection) : outcome (list Selection) :=
  match l with
  | [] => Ok []
  | Field n args :: l' => args' ← rewrite_arguments s args; l'' ← rewrite_selections s l'; Ok (Field n args' :: l'')
  | OtherSelection :: _ => Panic "selection"
  end.

Fixpoint rewriteQuery (s : Types) (ops : list OperationDefinition) : outcome (list OperationDefinition) :=
  match ops with
  | [] => Ok []
  | op :: ops' =>
      if negb (isMutation op) then rest ← rewriteQuery s ops'; Ok (op :: rest)
      else sels ← rewrite_selections s (SelectionSet op); rest ← rewriteQuery s ops'; Ok (MkOp true sels :: rest)
  end.

(** ** Texts *)

Definition fixWhitespaces (schema : string) : string :=
  ReplaceAll (ReplaceAll schema (ascii_of_nat 10) " ") (ascii_of_nat 9) " ".

Definition escapeQuery (query : string) : string := ReplaceAll query quote (String backslash (String quote "")).

Definition runQueryTmpl : string := quotes "{ 'query': '%s' }".

Definition query_text (query : string) : string := Sprintf runQueryTmpl [fixWhitespaces (escapeQuery query)].

Definition setSchemaQuery : string :=
  quotes "mutation { updateGQLSchema(input: { set: { schema: '%s' } }) { gqlSchema { schema generatedSchema } } }".
Definition getSchemaQuery : string := "{ getGQLSchema() { schema generatedSchema } }".

Definition eventTmpl : string :=
  Join [""; "type %sEvent {"; "  id: ID!"; "  state: EventState! @search(by: [exact])"; "  node: %s! @hasInverse(field: events)"; "}"; "";
        "extend type %s {"; "  events: [%sEvent] @hasInverse(field: node)"; "}"] (String (ascii_of_nat 10) "").

Definition shouldIgnoreDefinition (d : Definition_) : bool :=
  bool_decide (dKind d <> Object) || String.eqb (dName d) "Query" || String.eqb (dName d) "Mutation" ||
  HasPrefix (dName d) "__" || HasSuffix (dName d) "Payload" || HasSuffix (dName d) "Event".

(** The event types of the types that have none. *)
Definition event_types (types : Types) : list string :=
  omap (fun t => if shouldIgnoreDefinition t.2 then None
                 else if existsb (fun t' => String.eqb t'.1 (dName t.2 +:+ "Event")) types then None
                 else Some (Sprintf eventTmpl [dName t.2; dName t.2; dName t.2; dName t.2])) types.

(** ** DgraphClient *)

Record DgraphClient := MkClient {
  userSchema : string;
  generatedSchema : string;
  schema_types : Types;
}.

Inductive dgraphE : Type -> Type :=
  | PostText (addr text : string) : dgraphE (outcome (outcome string)).   (* http.Post, then the body *)

Section Dgraph.
Context (gqlAddress schemaAddress : string).
(** gqlparser.LoadSchema and LoadQuery, the formatter, and regogo.Get: the JSON
    and the text of what is found under a path of an answer. *)
Context (LoadSchema : string -> outcome Types).
Context (LoadQuery : Types -> string -> outcome (list OperationDefinition)).
Context (FormatQueryDocument : list OperationDefinition -> string).
Context (get_json get_text : string -> string -> outcome string).

Definition runQuery (query onAddr : string) : go dgraphE string :=
  resp ← call (PostText onAddr (query_text query));
  respStr ← lift resp;
  lift (get_json respStr "input.data").

Definition updateSchema (resp : string) : outcome DgraphClient :=
  userSchema ← get_text resp "input.schema";
  generatedSchema ← get_text resp "input.generatedSchema";
  schema ← LoadSchema generatedSchema;
  Ok (MkClient userSchema generatedSchema schema).

Definition SetSchema (gqlSchema : string) : go dgraphE DgraphClient :=
  resp ← runQuery (Sprintf setSchemaQuery [gqlSchema]) schemaAddress;
  lift (data ← get_json resp "input.updateGQLSchema.gqlSchema"; updateSchema data).

Definition fetchSchema : go dgraphE DgraphClient :=
  resp ← runQuery getSchemaQuery schemaAddress;
  lift (data ← get_json resp "input.getGQLSchema"; updateSchema data).

Definition NewDgraphClient : go dgraphE DgraphClient := fetchSchema.

Definition extendSchema (c : DgraphClient) (schema : string) : outcome string :=
  parsed ← LoadSchema (generatedSchema c +:+ "   " +:+ schema);
  Ok (userSchema c +:+ schema +:+ Join (event_types parsed) "").

(** The client as it is afterwards; unchanged by an error. *)
Definition AddSchema (c : DgraphClient) (gqlSchema : string) : go dgraphE DgraphClient :=
  extendedSchema ← lift (extendSchema c gqlSchema); SetSchema extendedSchema.

Definition RunQuery (c : DgraphClient) (query : string) : go dgraphE string :=
  q ← lift (LoadQuery (schema_types c) query);
  rewritten ← lift (rewriteQuery (schema_types c) q);
  runQuery (FormatQueryDocument rewritten) gqlAddress.

(** ** main.go *)

(** What extractQuery finds: the one query of a GET, or the field of a body. *)
Definition extractQuery (r : request) : outcome string :=
  if String.eqb (rmethod r) MethodGet then
    match rform_err r with
    | Some e => Err e
    | None =>
        match default [] (rpost r !! "query") ++ default [] (rquery r !! "query") with
        | [q] => Ok q
        | _ => Err (errorf "Exactly one query must be provided")
        end
    end
  else get_text (rbody r) "input.query".

(** After an error of extractQuery the handler goes on with a nil query. *)
Definition graphql (c : DgraphClient) (r : request) : go dgraphE (reply string) :=
  check q := lift (extractQuery r) onerr _e => panic nil_deref in
  check resp := RunQuery c q onerr e => mret (HttpError (emsg e) StatusInternalServerError) in
  mret (Page resp).

Definition addSchema (c : DgraphClient) (r : request) : go dgraphE (DgraphClient * reply unit) :=
  if negb (String.eqb (rmethod r) MethodPost) then mret (c, HttpError "Only POST requests are accepted in /add_schema" StatusBadRequest)
  else
    check c' := AddSchema c (rbody r) onerr e => mret (c, HttpError (emsg e) 412%Z) in
    mret (c', Empty).
End Dgraph.

(** ** apps/minio/importer: what is put into the object store is added as an image *)

Definition addImgTmpl : string :=
  lines ["mutation {"; "  addImage(input: [{ objectPath: %s }]) {"; "    image {"; "      id"; "    }"; "  }"] +:+ "}".

Section Importer.
(** regogo.Get(event, "input.Key") as a text, and json.Marshal of a text. *)
Context (get_key : string -> outcome string) (Marshal : string -> outcome string).

Definition EventToQuery (event : string) : outcome string :=
  key ← get_key event;
  if String.eqb key "" then Err (errorf "Key not found")
  else objectPath ← Marshal key; Ok (Sprintf addImgTmpl [objectPath]).

Inductive importE : Type -> Type := PostQuery (q : json) : importE (outcome (Z * outcome string)).

(** An empty body is a health check; an answer that breaks off is a panic. *)
Definition import_image (body : outcome string) : go importE (reply unit) :=
  check body := lift body onerr _e => mret (HttpError "Could not read HTTP request body" StatusBadRequest) in
  if String.eqb body "" then mret Empty
  else
    check q := lift (EventToQuery body) onerr _e => mret (HttpError "INTERNAL" StatusBadRequest) in
    check resp := call (PostQuery (query q)) onerr _e => mret (HttpError "Query failed" StatusInternalServerError) in
    if negb (resp.1 =? StatusOK)%Z then mret (HttpError "Query failed" resp.1)
    else check _b := lift resp.2 onerr e => panic (emsg e) in mret Empty.
End Importer.
