(* ===== verification/SchemaTheorems.v ===== *)
(** * Theorems on the GraphQL API

    What a mutation looks like after rewriting, and what of a query arrives at
    Dgraph. *)
From S2P Require Import Prelude GoLib GoStrings GoJson RepoIO Events SchemaApi.
From Stdlib Require Import Ascii.
Open Scope string_scope.
Open Scope list_scope.

(** ** Values as trees *)

Section ValueInd.
Context (P : Value -> Prop).
Hypothesis Hnode : forall raw ch k d, Forall (fun c => match c.2 with Some v => P v | None => True end) ch -> P (MkValue raw ch k d).

Fixpoint value_tree_ind (v : Value) : P v :=
  match v with
  | MkValue raw ch k d =>
      Hnode raw ch k d
        ((fix all (l : list (string * option Value)) : Forall (fun c : string * option Value => match c.2 with Some v => P v | None => True end) l :=
            match l with
            | [] => Forall_nil_2 _
            | (n, o) :: l' =>
                Forall_cons_2 _ (n, o) l'
                  (match o return match o with Some v => P v | None => True end with Some x => value_tree_ind x | None => I end) (all l')
            end) ch)
  end.
End ValueInd.

Definition adds (d : option Definition_) : bool := match d with Some d => adds_object d | None => false end.

(** The values rewriteValue looks into. *)
Definition looked_into (k : ValueKind) : bool := bool_decide (k = ListValue \/ k = ObjectValue).

(** The last child of every object that gets events taken away. *)
Fixpoint strip (v : Value) : Value :=
  match v with
  | MkValue raw ch k d =>
      if looked_into k then
        let ch' := map (fun c => (c.1, match c.2 with Some x => Some (strip x) | None => None end)) ch in
        MkValue raw (if bool_decide (k = ObjectValue) && adds d then removelast ch' else ch') k d
      else v
  end.

Section Rewriting.
Context (s : Types).

(** Types are listed under their names. *)
Definition named_types : Prop := Forall (fun t => dName t.2 = t.1) s.

Definition declared (name : string) : bool := existsb (fun t => String.eqb t.1 name) s.

(** The schema has a type for the events of an input type: of the input types
    Dgraph generates, those of a type with events have one. *)
Definition has_event_input (d : Definition_) : bool :=
  declared "EventState" && HasSuffix (dName d) "Input" && declared (TrimSuffix (dName d) "Input" +:+ "EventInput").

(** Nothing is missing in the value, and there are events for all it adds. *)
Fixpoint rewritable (v : Value) : bool :=
  match v with
  | MkValue _ ch k d =>
      negb (looked_into k) ||
      (fix all (l : list (string * option Value)) : bool :=
         match l with [] => true | (_, Some x) :: l' => rewritable x && all l' | (_, None) :: _ => false end) ch &&
      (bool_decide (k = ListValue) || match d with Some d => negb (adds_object d) || has_event_input d | None => false end)
  end.

(** Every object that adds something ends with one new event. *)
Fixpoint with_events_at_end (v : Value) : Prop :=
  match v with
  | MkValue _ ch k d =>
      if looked_into k then
        (fix all (l : list (string * option Value)) : Prop :=
           match l with [] => True | (_, Some x) :: l' => with_events_at_end x /\ all l' | (_, None) :: _ => False end) ch /\
        match d with
        | Some d => k = ObjectValue -> adds_object d = true -> exists ch' e, newEventListValue d s = Ok e /\ ch = ch' ++ [e]
        | None => k <> ObjectValue
        end
      else True
  end.

Lemma find_named name : named_types ->
  if declared name then exists d, findDefinitionWithName name s = Ok d /\ dName d = name
  else exists m, findDefinitionWithName name s = Panic m.
Proof.
  unfold named_types, declared. induction s as [|[n d0] l IH]; intros Hn; [by eexists|].
  apply Forall_cons in Hn as [Hd0 Hn]. cbn [findDefinitionWithName existsb fst snd] in *.
  destruct (String.eqb_spec n name) as [->|Hne]; [by exists d0|]. by apply IH.
Qed.

(** Event inputs get no events themselves. *)
Lemma event_input_plain d base : dName d = base +:+ "EventInput" -> adds_object d = false.
Proof. intros Hd. unfold adds_object. rewrite Hd, HasSuffix_app. cbn [negb]. by rewrite !andb_false_r. Qed.

Lemma find_event_input d : named_types ->
  if HasSuffix (dName d) "Input" && declared (TrimSuffix (dName d) "Input" +:+ "EventInput")
  then exists d', findEventInputDefinitionFor d s = Ok d' /\ dName d' = TrimSuffix (dName d) "Input" +:+ "EventInput"
  else exists m, findEventInputDefinitionFor d s = Panic m.
Proof.
  intros Hn. unfold findEventInputDefinitionFor. destruct (HasSuffix (dName d) "Input"); cbn [andb negb]; [by apply find_named|by eexists].
Qed.

Lemma new_event_list d : named_types ->
  if has_event_input d then exists e x, newEventListValue d s = Ok e /\ e = ("events", Some x) /\ with_events_at_end x
  else exists m, newEventListValue d s = Panic m.
Proof.
  intros Hn. pose proof (find_named "EventState" Hn) as Hst. pose proof (find_event_input d Hn) as Hfor.
  unfold has_event_input, newEventListValue, newEventValue, newEventStateValue. rewrite <- andb_assoc.
  destruct (declared "EventState"); cbn [andb].
  2: { destruct Hst as [m ->]. by exists m. }
  destruct Hst as (ds & -> & _). cbn [mbind outcome_bind].
  destruct (_ && _); [|destruct Hfor as [m ->]; by exists m]. destruct Hfor as (d' & -> & Hname). cbn [mbind outcome_bind].
  do 2 eexists. split; [done|]. split; [done|]. cbn. repeat (split; try done). intros _ Hadds. by rewrite (event_input_plain d' _ Hname) in Hadds.
Qed.

Abbreviation rewrite_each := (fix each (l : list (string * option Value)) : outcome (list (string * option Value)) :=
  match l with
  | [] => Ok []
  | (n, None) :: _ => Panic "Received nil value"
  | (n, Some c) :: l' => c' ← rewriteValue s c; l'' ← each l'; Ok ((n, Some c') :: l'')
  end).

Abbreviation all_of P := (fix all (l : list (string * option Value)) : Prop :=
  match l with [] => True | (_, Some x) :: l' => P x /\ all l' | (_, None) :: _ => False end).

Abbreviation strip_each := (map (fun c : string * option Value => (c.1, match c.2 with Some x => Some (strip x) | None => None end))).

(** What rewriting makes of a value. *)
Definition rewritten (v : Value) : Prop :=
  if rewritable v then exists v', rewriteValue s v = Ok v' /\ strip v' = v /\ with_events_at_end v'
  else exists m, rewriteValue s v = Panic m.

Abbreviation all_rewritable := (fix all (l : list (string * option Value)) : bool :=
  match l with [] => true | (_, Some x) :: l' => rewritable x && all l' | (_, None) :: _ => false end).

Lemma rewrite_children ch :
  Forall (fun c => match c.2 with Some v => rewritten v | None => True end) ch ->
  if all_rewritable ch then exists ch', rewrite_each ch = Ok ch' /\ strip_each ch' = ch /\ all_of with_events_at_end ch'
  else exists m, rewrite_each ch = Panic m.
Proof.
  induction ch as [|[n [v|]] ch IH]; intros Hall; [by exists []| |by eexists]. apply Forall_cons in Hall as [Hx Hall]. specialize (IH Hall).
  unfold rewritten in Hx. cbn [snd] in Hx. destruct (rewritable v); cbn [andb]; [|destruct Hx as [m ->]; by exists m].
  destruct Hx as (v' & -> & H2 & H3). cbn [mbind outcome_bind]. destruct (all_rewritable ch); [|destruct IH as [m ->]; by exists m].
  destruct IH as (ch' & -> & H5 & H6). cbn [mbind outcome_bind]. exists ((n, Some v') :: ch'). cbn [fst snd map]. by rewrite H2, H5.
Qed.

Lemma all_of_snoc P ch n x : all_of P ch -> P x -> all_of P (ch ++ [(n, Some x)]).
Proof. induction ch as [|[m [v|]] ch IH]; intros Hch Hx; [done| |done]. destruct Hch as [Hv Hch]. cbn [app]. split; [done|by apply IH]. Qed.

(** C38. What rewriting does to a value of a mutation: the value comes out with a
    list of one new event at the end of every object, however deep, whose input
    type is taken for one that adds something - all but those of events,
    references, filters and patches, so the inputs of updates too - and is
    without these events the value that was given; but when the schema has no
    event type for one of these input types, or a part of the value or the type
    of an object is missing, the rewriting panics. That a value passes the
    validator does not say that its types have event types. *)
Theorem rewriting_adds_events (v : Value) (Hn : named_types) :
  if rewritable v then exists v', rewriteValue s v = Ok v' /\ strip v' = v /\ with_events_at_end v'
  else exists m, rewriteValue s v = Panic m.
Proof.
  change (rewritten v). induction v as [raw ch k d IH] using value_tree_ind. unfold rewritten. cbn [rewritable rewriteValue].
  destruct (looked_into k) eqn:Hk.
  2: { exists (MkValue raw ch k d). destruct k; try done; cbn; by rewrite ?Hk. }
  pose proof (rewrite_children ch IH) as Hch. cbn [negb orb]. destruct (all_rewritable ch); cbn [andb].
  2: { destruct Hch as [m Hm]. destruct k; try done; rewrite Hm; by exists m. }
  destruct Hch as (ch' & H1 & H2 & H3). destruct k; try done.
  - change (bool_decide _) with true. exists (MkValue raw ch' ListValue d). rewrite H1. split; [done|]. split; [by cbn; rewrite H2|]. cbn. split; [done|]. by destruct d.
  - change (bool_decide _) with false. cbn [orb]. rewrite H1. cbn [mbind outcome_bind]. destruct d as [d|]; [|by eexists]. destruct (adds_object d) eqn:Ha; cbn [negb orb].
    + pose proof (new_event_list d Hn) as Hev. destruct (has_event_input d); [|destruct Hev as [m ->]; by exists m].
      destruct Hev as (e & x & He & -> & Hx). rewrite He. cbn [mbind outcome_bind]. eexists. split; [done|]. split.
      * cbn [strip]. change (looked_into ObjectValue) with true. cbn iota. cbn [adds]. rewrite Ha. change (bool_decide (ObjectValue = ObjectValue)) with true.
        cbn [andb]. rewrite map_app. cbn [map]. by rewrite removelast_last, H2.
      * cbn. split; [by apply all_of_snoc|]. intros _ _. by eexists ch', _.
    + eexists. split; [done|]. split; [cbn; by rewrite Ha, H2|]. cbn. split; [done|]. intros _ Hc. congruence.
Qed.
End Rewriting.

(** An update is taken for an addition: its input gets events too. *)
Example update_input_gets_events : adds_object (MkDef InputObject "UpdateImageInput") = true.
Proof. reflexivity. Qed.

(** A type whose name ends with Payload gets no event type when the schema is
    extended, so adding one - with the input Dgraph generates - panics. *)
Theorem payload_types_have_no_events (s : Types) (Hn : named_types s) (Hno : declared s "AddUserPayloadEventInput" = false) :
  shouldIgnoreDefinition (MkDef Object "UserPayload") = true /\
  exists m, rewriteValue s (MkValue "" [] ObjectValue (Some (MkDef InputObject "AddUserPayloadInput"))) = Panic m.
Proof.
  split; [reflexivity|]. pose proof (new_event_list s (MkDef InputObject "AddUserPayloadInput") Hn) as Hev. unfold has_event_input in Hev.
  change (TrimSuffix _ _ +:+ _) with "AddUserPayloadEventInput" in Hev. rewrite Hno, andb_false_r in Hev.
  destruct Hev as [m Hm]. exists m. cbn [rewriteValue mbind outcome_bind]. change (adds_object _) with true. cbn iota. by rewrite Hm.
Qed.

(** ** Queries in JSON *)

(** Characters that survive: no backslash, and of the control characters only
    the ends of lines and tabs, which become spaces. *)
Definition query_char (c : ascii) : bool :=
  negb (Ascii.eqb c backslash) && (Ascii.eqb c (ascii_of_nat 10) || Ascii.eqb c (ascii_of_nat 9) || negb (ascii_code c <? 32)%nat).

Lemma fix_escape_cons c q : query_char c = true ->
  fixWhitespaces (escapeQuery (String c q)) =
    (if Ascii.eqb c quote then String backslash (String quote "")
     else if Ascii.eqb c (ascii_of_nat 10) || Ascii.eqb c (ascii_of_nat 9) then " " else String c "") +:+ fixWhitespaces (escapeQuery q).
Proof.
  intros Hc. unfold fixWhitespaces, escapeQuery. cbn [ReplaceAll]. destruct (Ascii.eqb_spec c quote) as [->|Hq].
  - rewrite !str_app_cons, str_app_l_nil. cbn [ReplaceAll]. reflexivity.
  - rewrite str_app_cons, str_app_l_nil. cbn [ReplaceAll]. destruct (Ascii.eqb_spec c (ascii_of_nat 10)) as [->|Hn]; [reflexivity|].
    rewrite str_app_cons, str_app_l_nil. cbn [ReplaceAll orb]. by destruct (Ascii.eqb c (ascii_of_nat 9)).
Qed.

Lemma fix_cons c q :
  fixWhitespaces (String c q) = String (if Ascii.eqb c (ascii_of_nat 10) || Ascii.eqb c (ascii_of_nat 9) then " "%char else c) (fixWhitespaces q).
Proof.
  unfold fixWhitespaces. cbn [ReplaceAll]. destruct (Ascii.eqb_spec c (ascii_of_nat 10)) as [->|Hn]; [reflexivity|].
  rewrite str_app_cons, str_app_l_nil. cbn [ReplaceAll orb]. destruct (Ascii.eqb c (ascii_of_nat 9)); by rewrite str_app_cons, str_app_l_nil.
Qed.

Lemma scan_query t q : forall_char query_char q = true ->
  scan (InString t) (fixWhitespaces (escapeQuery q)) = Ok ([], InString (t +:+ fixWhitespaces q)).
Proof.
  revert t. induction q as [|c q IH]; intros t; [by rewrite str_app_nil|]. cbn [forall_char]. intros [Hc Hq]%andb_true_iff.
  rewrite fix_escape_cons, fix_cons, scan_app by done.
  assert (Hstep : scan (InString t) (if Ascii.eqb c quote then String backslash (String quote "")
     else if Ascii.eqb c (ascii_of_nat 10) || Ascii.eqb c (ascii_of_nat 9) then " " else String c "") =
     Ok ([], InString (t +:+ String (if Ascii.eqb c (ascii_of_nat 10) || Ascii.eqb c (ascii_of_nat 9) then " "%char else c) ""))).
  { destruct (Ascii.eqb_spec c quote) as [->|Hquote]; [reflexivity|].
    destruct (Ascii.eqb c (ascii_of_nat 10) || Ascii.eqb c (ascii_of_nat 9)) eqn:Hw; [reflexivity|].
    apply scan_plain. unfold plain. cbn [forall_char]. unfold plain_char. unfold query_char in Hc. rewrite Hw in Hc. cbn [orb] in Hc.
    apply andb_true_iff in Hc as [Hb Hctl]. by rewrite (proj2 (Ascii.eqb_neq c quote) Hquote), Hb, Hctl. }
  rewrite Hstep. cbn [mbind outcome_bind fst snd]. rewrite IH by done. cbn [mbind outcome_bind fst snd app].
  by rewrite <- str_app_assoc, str_app_cons, str_app_l_nil.
Qed.

(** C39. A query arrives: the text posted to Dgraph is JSON for an object with one
    field, the query with its line ends and tabs turned into spaces - provided it
    has no backslash and no other control character. *)
Theorem query_arrives (q : string) (Hq : forall_char query_char q = true) :
  parse_json (query_text q) = Ok (JObj [("query", JStr (fixWhitespaces q))]).
Proof.
  unfold query_text.
  change (Sprintf runQueryTmpl [fixWhitespaces (escapeQuery q)]) with (quotes "{ 'query': '" +:+ (fixWhitespaces (escapeQuery q) +:+ quotes "' }")).
  rewrite (parse_json_scan _ [TOpen; TStr "query"; TColon; TStr (fixWhitespaces q); TClose]); [reflexivity|].
  rewrite scan_app. change (scan (InWord "") (quotes "{ 'query': '")) with (Ok ([TOpen; TStr "query"; TColon], InString "") : outcome (list token * mode)).
  cbn [mbind outcome_bind fst snd]. rewrite scan_app, scan_query by done. cbn [mbind outcome_bind fst snd]. rewrite str_app_l_nil.
  change (quotes "' }") with (String quote " }"). reflexivity.
Qed.

(** A quote that the query itself escapes ends the text early. *)
Example escaped_quote_lost : parse_json (query_text (String backslash (String quote ""))) = Err err_json.
Proof. reflexivity. Qed.

(** ** The theorems at concrete inputs *)

Definition demo_types : Types :=
  [("EventState", MkDef OtherKind "EventState"); ("AddImageInput", MkDef InputObject "AddImageInput");
   ("AddImageEventInput", MkDef InputObject "AddImageEventInput"); ("ImageSegmentRef", MkDef InputObject "ImageSegmentRef")].

(** [{ objectPath: "a/b", segments: [{ objectPath: "c" }] }] *)
Definition demo_value : Value :=
  MkValue "" [("", Some (MkValue "" [("objectPath", Some (MkValue "a/b" [] StringValue None));
      ("segments", Some (MkValue "" [("", Some (MkValue "" [("objectPath", Some (MkValue "c" [] StringValue None))] ObjectValue
        (Some (MkDef InputObject "ImageSegmentRef"))))] ListValue None))] ObjectValue (Some (MkDef InputObject "AddImageInput"))))] ListValue None.

(** An input type without an event type, as query_test.go declares one. *)
Definition demo_payload : Value := MkValue "" [("x", Some (MkValue "1" [] IntValue None))] ObjectValue (Some (MkDef InputObject "ABCInput")).

Lemma rewriting_adds_events_witness :
  (exists v', rewriteValue demo_types demo_value = Ok v' /\ strip v' = demo_value /\ with_events_at_end demo_types v') /\
  exists m, rewriteValue demo_types demo_payload = Panic m.
Proof.
  assert (Hn : named_types demo_types) by (repeat (constructor; [reflexivity|]); constructor).
  split; [exact (rewriting_adds_events demo_types demo_value Hn)|exact (rewriting_adds_events demo_types demo_payload Hn)].
Defined.

Lemma query_arrives_witness :
  parse_json (query_text (lines ["{"; String (ascii_of_nat 9) (quotes "getImage(id: '0x1') { id } }")])) =
    Ok (JObj [("query", JStr (quotes "{  getImage(id: '0x1') { id } } "))]).
Proof. exact (query_arrives (lines ["{"; String (ascii_of_nat 9) (quotes "getImage(id: '0x1') { id } }")]) eq_refl). Defined.
