(* ===== verification/PortAllocator.v ===== *)
(** * The port allocator (core/port-allocator/main.go)

    One HTTP handler that edits the values of the ingress-nginx Helm release in
    a Git repository: the TCP and UDP port maps. *)
From S2P Require Import Prelude GoLib GoStrings GoPath RepoIO.
Open Scope string_scope.
Open Scope list_scope.

(** ** Maps of a YAML document

    The parser builds a tree, so a Go map inside it is known by its path: the
    maps [extractPorts] returns are the cells at two paths of the release, and
    writing through them changes the release. *)
Abbreviation fields := (list (string * json)).

Fixpoint obj_get (k : string) (fs : fields) : option json :=
  match fs with
  | [] => None
  | (k', v) :: fs' => if String.eqb k' k then Some v else obj_get k fs'
  end.

Fixpoint obj_set (k : string) (v : json) (fs : fields) : fields :=
  match fs with
  | [] => [(k, v)]
  | (k', v') :: fs' => if String.eqb k' k then (k, v) :: fs' else (k', v') :: obj_set k v fs'
  end.

Fixpoint get_path (p : list string) (v : json) : option json :=
  match p, v with
  | [], _ => Some v
  | k :: p', JObj fs => match obj_get k fs with Some x => get_path p' x | None => None end
  | _, _ => None
  end.

(** Assign to the cell at a path that exists up to its last key. *)
Fixpoint set_path (p : list string) (new : json) (v : json) : json :=
  match p, v with
  | [], _ => new
  | k :: p', JObj fs =>
      JObj (obj_set k (set_path p' new (default (JObj []) (obj_get k fs))) fs)
  | _, _ => v
  end.

(** ** The client of the repository *)

Class client (E : Type -> Type) := MkClient {
  ReadRelease : go E json;
  WriteRelease : json -> string -> go E unit;
}.

(** Decoding into a map: null leaves an empty (nil) map. *)
Definition decode_map (v : json) : outcome json :=
  match v with
  | JObj fs => Ok (JObj fs)
  | JNull => Ok (JObj [])
  | _ => Err err_json
  end.

Definition repoClient {E} (repo : RepoIO E) (path : string) : client E := {|
  ReadRelease := (_ ← Pull; ReadYaml decode_map path);
  WriteRelease := fun rel meta => (_ ← WriteYaml path rel; CommitAndPush meta);
|}.

(** ** The request *)

Record allocateReq := MkReq {
  Protocol : string;
  SourcePort : Z;
  TargetService : string;
  TargetPort : Z;
}.

Definition json_int (v : json) : outcome Z :=
  match v with
  | JNum n => if decide (- 2 ^ 63 <= n < 2 ^ 63)%Z then Ok n else Err err_json
  | JNull => Ok 0%Z
  | _ => Err err_json
  end.

Definition extractAllocateReq (body : outcome json) : outcome allocateReq :=
  v ← body;
  proto ← json_field "protocol" json_string "" v;
  src ← json_field "sourcePort" json_int 0%Z v;
  svc ← json_field "targetService" json_string "" v;
  port ← json_field "targetPort" json_int 0%Z v;
  let proto := ToLower proto in
  if negb (String.eqb proto "tcp") && negb (String.eqb proto "udp") then
    Err (errorf ("Unexpected protocol " +:+ proto))
  else Ok (MkReq proto src svc port).

(** ** The release *)

Definition ports_path (proto : string) : list string := ["spec"; "values"; proto].

(** if !ok { tcp = map[string]any{}; valuesM["tcp"] = tcp } *)
Definition ensure (proto : string) (rel : json) : json :=
  match get_path (ports_path proto) rel with
  | Some _ => rel
  | None => set_path (ports_path proto) (JObj []) rel
  end.

Definition is_map (v : json) : bool := match v with JObj _ => true | _ => false end.

(** The release with both maps present; the maps are at [ports_path]. *)
Definition extractPorts (rel : json) : outcome json :=
  match get_path ["spec"] rel with
  | None => Err (errorf "spec not found")
  | Some spec =>
      if negb (is_map spec) then Err (errorf "spec is not a map") else
      match get_path ["spec"; "values"] rel with
      | None => Err (errorf "spec.values not found")
      | Some values =>
          if negb (is_map values) then Err (errorf "spec.values is not a map") else
          let rel := ensure "udp" (ensure "tcp" rel) in
          if negb (from_option is_map false (get_path (ports_path "tcp") rel)) then
            Err (errorf "spec.values.tcp is not a map")
          else if negb (from_option is_map false (get_path (ports_path "udp") rel)) then
            Err (errorf "spec.values.udp is not a map")
          else Ok rel
      end
  end.

Definition reserved (port : Z) : bool := (port =? 80)%Z || (port =? 443)%Z || (port =? 22)%Z.

(** addPort on the map of the protocol inside the release. *)
Definition addPort (rel : json) (req : allocateReq) : outcome json :=
  let sourcePortStr := Itoa (SourcePort req) in
  let cell := ports_path (Protocol req) ++ [sourcePortStr] in
  if bool_decide (is_Some (get_path cell rel)) || reserved (SourcePort req) then
    Err (errorf ("port " +:+ sourcePortStr +:+ " is already taken"))
  else Ok (set_path cell (JStr (TargetService req +:+ ":" +:+ Itoa (TargetPort req))) rel).

(** The handler once the release is read. *)
Definition allocate_in {E} `{!client E} (req : allocateReq) (ingressRel : json) : go E (reply unit) :=
  check ingressRel := lift (extractPorts ingressRel) onerr e =>
    mret (HttpError (emsg e) StatusInternalServerError) in
  check ingressRel := lift (addPort ingressRel req) onerr e => mret (HttpError (emsg e) StatusConflict) in
  let commitMsg := "ingress: port map " +:+ Itoa (SourcePort req) +:+ " " +:+ Protocol req in
  check _u := WriteRelease ingressRel commitMsg onerr e =>
    mret (HttpError (emsg e) StatusInternalServerError) in
  mret Empty.

Definition handleAllocate {E} `{!client E} (method : string) (body : outcome json) : go E (reply unit) :=
  if negb (String.eqb method MethodPost) then
    mret (HttpError "only post method is supported" StatusBadRequest)
  else
  check req := lift (extractAllocateReq body) onerr e => mret (HttpError (emsg e) StatusBadRequest) in
  check ingressRel := ReadRelease onerr e => mret (HttpError (emsg e) StatusInternalServerError) in
  allocate_in req ingressRel.

(** ** Cells *)

Lemma obj_get_set k k' v fs : obj_get k (obj_set k' v fs) = if String.eqb k' k then Some v else obj_get k fs.
Proof.
  induction fs as [|[x w] fs IH]; [done|]. cbn [obj_set].
  destruct (String.eqb_spec x k') as [->|Hx]; cbn [obj_get].
  - by destruct (String.eqb k' k).
  - rewrite IH. destruct (String.eqb_spec x k) as [->|]; [|done].
    by destruct (String.eqb_spec k' k); subst.
Qed.

(** Every map on the way down a path exists. *)
Fixpoint settable (p : list string) (v : json) : Prop :=
  match p, v with
  | [], _ => True
  | [_], JObj _ => True
  | k :: p', JObj fs => exists x, obj_get k fs = Some x /\ settable p' x
  | _, _ => False
  end.

Lemma get_set_same p new v : settable p v -> get_path p (set_path p new v) = Some new.
Proof.
  revert v. induction p as [|k p IH]; intros v Hs; [done|].
  destruct v; try (by destruct p). cbn [get_path set_path]. rewrite obj_get_set, String.eqb_refl.
  destruct p as [|k' p]; [done|]. destruct Hs as (x & Hx & Hs). rewrite Hx. by apply IH.
Qed.

(** Neither path is a prefix of the other: they part at some key. *)
Fixpoint apart (p q : list string) : Prop :=
  match p, q with
  | k :: p', k' :: q' => k <> k' \/ (k = k' /\ apart p' q')
  | _, _ => False
  end.

Lemma get_set_apart p q new v : settable p v -> apart p q -> get_path q (set_path p new v) = get_path q v.
Proof.
  revert q v. induction p as [|k p IH]; intros q v Hs Ha; [done|].
  destruct q as [|k' q]; [done|]. destruct v; try (by destruct p). cbn [get_path set_path].
  rewrite obj_get_set. destruct (String.eqb_spec k k') as [->|Hne]; [|done].
  destruct Ha as [|[_ Ha]]; [done|]. destruct p as [|k2 p]; [by destruct q|].
  destruct Hs as (x & Hx & Hs). rewrite Hx. by apply IH.
Qed.

(** A path below the one that is set. *)
Lemma get_set_below p r new v : settable p v -> get_path (p ++ r) (set_path p new v) = get_path r new.
Proof.
  revert v. induction p as [|k p IH]; intros v Hs; [done|].
  destruct v; try (by destruct p). cbn [get_path set_path app]. rewrite obj_get_set, String.eqb_refl.
  destruct p as [|k' p]; [done|]. destruct Hs as (x & Hx & Hs). rewrite Hx. by apply IH.
Qed.

(** A path above the one that is set. *)
Lemma get_set_above p r new v x :
  get_path p v = Some x -> get_path p (set_path (p ++ r) new v) = Some (set_path r new x).
Proof.
  revert v. induction p as [|k p IH]; intros v; [by intros [= ->]|].
  destruct v; try done. cbn [get_path set_path app]. rewrite obj_get_set, String.eqb_refl.
  destruct (obj_get k fields) as [y|]; [|done]. apply IH.
Qed.

(** ** Releases the allocator can work on *)

Definition is_proto (proto : string) : Prop := proto = "tcp" \/ proto = "udp".

Definition release_ok (rel : json) : Prop :=
  (exists values, get_path ["spec"; "values"] rel = Some (JObj values)) /\
  forall proto x, is_proto proto -> get_path (ports_path proto) rel = Some x -> is_map x = true.

(** The port table: what a port of a protocol is mapped to. *)
Definition mapping (rel : json) (proto : string) (port : Z) : option json :=
  get_path (ports_path proto ++ [Itoa port]) rel.

Lemma get_spec rel values :
  get_path ["spec"; "values"] rel = Some (JObj values) ->
  exists fs specM, rel = JObj fs /\ obj_get "spec" fs = Some (JObj specM) /\ obj_get "values" specM = Some (JObj values).
Proof.
  destruct rel; try done. cbn [get_path]. destruct (obj_get "spec" fields) as [[]|] eqn:Hs; try done.
  cbn [get_path]. destruct (obj_get "values" fields0) as [|] eqn:Hv; [|done]. intros [= ->]. eauto.
Qed.

Lemma ports_settable rel values proto :
  get_path ["spec"; "values"] rel = Some (JObj values) -> settable (ports_path proto) rel.
Proof.
  intros (fs & specM & -> & Hs & Hv)%get_spec. cbn. exists (JObj specM). split; [done|].
  exists (JObj values). by split.
Qed.

Lemma cell_settable rel proto k v :
  (exists values, get_path ["spec"; "values"] rel = Some (JObj values)) ->
  get_path (ports_path proto) rel = Some v -> is_map v = true -> settable (ports_path proto ++ [k]) rel.
Proof.
  intros [values (fs & specM & -> & Hs & Hv)%get_spec] Hg Hm. cbn in *. rewrite Hs in Hg. cbn in Hg. rewrite Hv in Hg.
  exists (JObj specM). split; [done|]. exists (JObj values). split; [done|]. cbn in Hg.
  exists v. destruct (obj_get proto values); [|done]. simplify_eq. by destruct v.
Qed.

Lemma apart_protos p q r : p <> q -> apart (ports_path p) (ports_path q ++ r).
Proof. intros Hne. cbn. right. split; [done|]. right. split; [done|]. by left. Qed.

Lemma get_path_app p q v : get_path (p ++ q) v = get_path p v ≫= get_path q.
Proof.
  revert v. induction p as [|k p IH]; intros v; [done|].
  destruct v; try (destruct q; done). cbn [app get_path]. by destruct (obj_get k fields).
Qed.

(** Adding an empty map where there was none changes no cell of any port map. *)
Lemma ensure_spec proto rel :
  is_proto proto -> release_ok rel ->
  release_ok (ensure proto rel) /\
  (exists x, get_path (ports_path proto) (ensure proto rel) = Some x) /\
  (forall proto' x, is_proto proto' -> get_path (ports_path proto') rel = Some x ->
     exists y, get_path (ports_path proto') (ensure proto rel) = Some y) /\
  (forall proto' port, mapping (ensure proto rel) proto' port = mapping rel proto' port) /\
  (forall q, apart (ports_path proto) q -> get_path q (ensure proto rel) = get_path q rel).
Proof.
  intros Hp Hok. unfold ensure. destruct (get_path (ports_path proto) rel) as [x|] eqn:Hg.
  { split_and!; eauto. }
  destruct Hok as [[values Hv] Hm]. pose proof (ports_settable rel values proto Hv) as Hs.
  assert (Hcell : forall proto' r, proto' <> proto ->
    get_path (ports_path proto' ++ r) (set_path (ports_path proto) (JObj []) rel) = get_path (ports_path proto' ++ r) rel).
  { intros proto' r Hne. apply get_set_apart; [done|]. apply apart_protos. congruence. }
  assert (Hown : forall x, get_path (ports_path proto) (set_path (ports_path proto) (JObj []) rel) = Some x -> x = JObj []).
  { intros x. rewrite get_set_same by done. by intros [= <-]. }
  split_and!.
  - split.
    + eexists. exact (get_set_above ["spec"; "values"] [proto] (JObj []) rel _ Hv).
    + intros proto' x Hp' Hx. destruct (decide (proto' = proto)) as [->|Hne].
      * by rewrite (Hown x Hx).
      * specialize (Hcell proto' [] Hne). rewrite (right_id_L [] (++)) in Hcell. rewrite Hcell in Hx. eauto.
  - eexists. by apply get_set_same.
  - intros proto' x Hp' Hx. destruct (decide (proto' = proto)) as [->|Hne]; [congruence|].
    specialize (Hcell proto' [] Hne). rewrite (right_id_L [] (++)) in Hcell. rewrite Hcell. eauto.
  - intros proto' port. unfold mapping. destruct (decide (proto' = proto)) as [->|Hne]; [|by apply Hcell].
    rewrite get_set_below by done. rewrite get_path_app, Hg. done.
  - intros q Hq. by apply get_set_apart.
Qed.

Definition outside_ports (q : list string) : Prop :=
  apart (ports_path "tcp") q /\ apart (ports_path "udp") q.

Lemma extractPorts_spec rel :
  release_ok rel ->
  exists rel', extractPorts rel = Ok rel' /\ release_ok rel' /\
    (forall proto, is_proto proto -> exists x, get_path (ports_path proto) rel' = Some x /\ is_map x = true) /\
    (forall proto port, mapping rel' proto port = mapping rel proto port) /\
    (forall q, outside_ports q -> get_path q rel' = get_path q rel).
Proof.
  intros Hok. pose proof Hok as [[values Hv] _].
  destruct (get_spec rel values Hv) as (fs & specM & Hrel & H1 & H2).
  destruct (ensure_spec "tcp" rel ltac:(by left) Hok) as (Hok1 & [x1 Hx1] & _ & Hm1 & Ho1).
  destruct (ensure_spec "udp" (ensure "tcp" rel) ltac:(by right) Hok1) as (Hok2 & [y2 Hy2] & Hk2 & Hm2 & Ho2).
  destruct (Hk2 "tcp" x1 ltac:(by left) Hx1) as [x2 Hx2].
  exists (ensure "udp" (ensure "tcp" rel)). unfold extractPorts.
  assert (Hspec : get_path ["spec"] rel = Some (JObj specM)) by (rewrite Hrel; cbn; by rewrite H1).
  rewrite Hspec, Hv, Hx2, Hy2. cbn [is_map negb from_option].
  rewrite (proj2 Hok2 "tcp" x2 ltac:(by left) Hx2), (proj2 Hok2 "udp" y2 ltac:(by right) Hy2). cbn [negb].
  split_and!; [done|done| | |].
  - intros proto [-> | ->]; eexists; (split; [eassumption|]); eapply Hok2; eauto; [by left|by right].
  - intros proto port. by rewrite Hm2.
  - intros q [Ht Hu]. by rewrite Ho2, Ho1.
Qed.

(** What a granted request makes of the port table, and of the rest. *)
Definition granted (req : allocateReq) (rel rel' : json) : Prop :=
  release_ok rel' /\
  (forall proto port, is_proto proto ->
     mapping rel' proto port =
       if decide (proto = Protocol req /\ port = SourcePort req)
       then Some (JStr (TargetService req +:+ ":" +:+ Itoa (TargetPort req))) else mapping rel proto port) /\
  (forall q, outside_ports q -> get_path q rel' = get_path q rel).

Definition refused (req : allocateReq) (rel : json) : bool :=
  bool_decide (is_Some (mapping rel (Protocol req) (SourcePort req))) || reserved (SourcePort req).

Lemma apart_cells proto proto' port port' :
  ~ (proto' = proto /\ port' = port) ->
  apart (ports_path proto ++ [Itoa port]) (ports_path proto' ++ [Itoa port']).
Proof.
  intros Hne. cbn. right. split; [done|]. right. split; [done|].
  destruct (decide (proto = proto')) as [->|Hp]; [|by left]. right. split; [done|]. left.
  intros He%Itoa_inj. naive_solver.
Qed.

Lemma apart_app p q r : apart p q -> apart (p ++ r) q.
Proof.
  revert q. induction p as [|k p IH]; intros [|k' q]; cbn; try done. naive_solver.
Qed.

Lemma addPort_spec rel req :
  release_ok rel -> is_proto (Protocol req) -> refused req rel = false ->
  exists rel1 rel', extractPorts rel = Ok rel1 /\ addPort rel1 req = Ok rel' /\ granted req rel rel'.
Proof.
  intros Hok Hp Hr. destruct (extractPorts_spec rel Hok) as (rel1 & He & Hok1 & Hmaps & Hm & Ho).
  destruct (Hmaps (Protocol req) Hp) as (x & Hx & Hxm).
  assert (Hs : settable (ports_path (Protocol req) ++ [Itoa (SourcePort req)]) rel1)
    by (eapply cell_settable; [apply Hok1|exact Hx|done]).
  exists rel1. eexists. split; [done|]. unfold addPort. unfold refused in Hr.
  assert (Hm' : get_path (ports_path (Protocol req) ++ [Itoa (SourcePort req)]) rel1 =
    mapping rel (Protocol req) (SourcePort req)) by apply Hm.
  rewrite Hm', Hr. split; [reflexivity|]. split_and!.
  - split.
    + destruct Hok1 as [[values Hv] _]. eexists.
      exact (get_set_above ["spec"; "values"] [Protocol req; Itoa (SourcePort req)] _ rel1 _ Hv).
    + intros proto y Hproto Hy. destruct (Hmaps proto Hproto) as (z & Hz & Hzm).
      destruct (decide (proto = Protocol req)) as [->|Hne].
      * rewrite (get_set_above (ports_path (Protocol req)) [Itoa (SourcePort req)] _ rel1 x Hx) in Hy.
        injection Hy as <-. by destruct x.
      * rewrite get_set_apart in Hy; [|done|].
        -- rewrite Hz in Hy. by injection Hy as <-.
        -- apply apart_app. specialize (apart_protos (Protocol req) proto [] ltac:(congruence)).
           by rewrite (right_id_L [] (++)).
  - intros proto port Hproto. case_decide as Hd.
    + destruct Hd as [-> ->]. by apply get_set_same.
    + unfold mapping at 1. rewrite get_set_apart; [apply Hm|done|]. by apply apart_cells.
  - intros q Hq. rewrite get_set_apart; [by apply Ho|done|].
    apply apart_app. destruct Hp as [-> | ->]; apply Hq.
Qed.

(** ** The handler on a repository without faults *)

Abbreviation no_fault := (fun _ : nat => @None error).
Abbreviation repo_run := (run (repo_step no_fault)).

Section Handler.
Context (addr path : string).
Abbreviation alloc := (handleAllocate (E := repoE) (client0 := repoClient (billy_repo addr) path)).

(** After the pull, the work tree is the remote. *)
Definition pulled (s : repo_state) : repo_state :=
  MkRepo (remote s) (remote s) (remote s) (log s) (S (S (ops s))).

Lemma run_ReadRelease s rel :
  clean s -> remote s !! fs_key path = Some (Doc rel) -> is_map rel = true ->
  repo_run (ReadRelease (client := repoClient (billy_repo addr) path)) s = (pulled s, Ok rel).
Proof.
  intros Hc Hf Hm. cbn [ReadRelease repoClient]. rewrite run_mbind.
  cbn [Pull billy_repo]. unfold repo.Pull, repo.pullWithoutLock. rewrite run_handle, run_call. cbn [repo_step].
  rewrite (pulled_clean _ Hc).
  cbn [run mret go_ret]. unfold ReadYaml. rewrite run_mbind. cbn [Reader billy_repo]. unfold repo.Reader.
  rewrite run_call. cbn [repo_step files]. rewrite Hf. cbn [parsed lift run mbind outcome_bind]. by destruct rel.
Qed.

Definition pushed (rel : json) (msg : string) (n : nat) (s : repo_state) : repo_state :=
  let f := <[fs_key path := Doc rel]> (files s) in MkRepo f f f (log s ++ [msg]) n.

Lemma run_WriteRelease rel msg s :
  synced s -> exists n, repo_run (WriteRelease (client := repoClient (billy_repo addr) path) rel msg) s = (pushed rel msg n s, Ok tt).
Proof.
  intros Hs. cbn [WriteRelease repoClient]. rewrite run_mbind.
  assert (Hw : repo_run (WriteYaml (RepoIO0 := billy_repo addr) path rel) s =
    (on_files (<[fs_key path := Doc rel]> (files s)) (S (S (S (ops s)))) s, Ok tt)).
  { rewrite <- (insert_insert_eq (files s) (fs_key path) (Doc rel) (Raw "" (Ok JNull))). reflexivity. }
  rewrite Hw. cbn [CommitAndPush billy_repo]. rewrite run_CommitAndPush by done. by eexists.
Qed.

Abbreviation finish := (allocate_in (E := repoE) (client0 := repoClient (billy_repo addr) path)).

Lemma run_finish s rel req :
  synced s -> release_ok rel -> is_proto (Protocol req) ->
  if refused req rel then
    exists m, repo_run (finish req rel) s = (s, Ok (HttpError m StatusConflict))
  else
    exists rel' msg n, granted req rel rel' /\ repo_run (finish req rel) s = (pushed rel' msg n s, Ok Empty).
Proof.
  intros Hs Hok Hp. unfold allocate_in. destruct (refused req rel) eqn:Hr.
  - destruct (extractPorts_spec rel Hok) as (rel1 & He & _ & _ & Hm & _).
    rewrite run_handle. cbn [run lift]. rewrite He, run_handle. cbn [run lift].
    assert (Hc : get_path (ports_path (Protocol req) ++ [Itoa (SourcePort req)]) rel1 =
      mapping rel (Protocol req) (SourcePort req)) by apply Hm.
    unfold addPort. rewrite Hc. unfold refused in Hr. rewrite Hr. by eexists.
  - destruct (addPort_spec rel req Hok Hp Hr) as (rel1 & rel' & He & Ha & Hg).
    rewrite run_handle. cbn [run lift]. rewrite He, run_handle. cbn [run lift]. rewrite Ha.
    rewrite run_handle.
    destruct (run_WriteRelease rel' ("ingress: port map " +:+ Itoa (SourcePort req) +:+ " " +:+ Protocol req) s Hs)
      as [n ->]. by do 3 eexists.
Qed.

(** A valid request is a read of the release and the rest. *)
Lemma alloc_eq body req :
  extractAllocateReq body = Ok req ->
  exists c, alloc "POST" body = handle (ReadRelease (client := repoClient (billy_repo addr) path)) c (finish req).
Proof. intros Hx. unfold handleAllocate. rewrite Hx. by eexists. Qed.

Lemma release_map rel : release_ok rel -> is_map rel = true.
Proof. by intros [[values (fs & specM & -> & _)%get_spec] _]. Qed.

Lemma run_alloc s rel body req :
  clean s -> remote s !! fs_key path = Some (Doc rel) -> release_ok rel -> extractAllocateReq body = Ok req ->
  repo_run (alloc "POST" body) s = repo_run (finish req rel) (pulled s).
Proof.
  intros Hc Hf Hok Hx. destruct (alloc_eq body req Hx) as [c ->].
  by rewrite run_handle, (run_ReadRelease s rel Hc Hf (release_map rel Hok)).
Qed.
End Handler.

Lemma extract_proto body req : extractAllocateReq body = Ok req -> is_proto (Protocol req).
Proof.
  unfold extractAllocateReq. destruct body as [v| | |]; try done. cbn [mbind outcome_bind].
  destruct (json_field "protocol" _ _ v) as [p| | |]; try done. cbn [mbind outcome_bind].
  destruct (json_field "sourcePort" _ _ v) as [a| | |]; try done. cbn [mbind outcome_bind].
  destruct (json_field "targetService" _ _ v) as [b| | |]; try done. cbn [mbind outcome_bind].
  destruct (json_field "targetPort" _ _ v) as [c| | |]; try done. cbn [mbind outcome_bind].
  destruct (String.eqb_spec (ToLower p) "tcp") as [Ht|]; [intros [= <-]; by left|].
  destruct (String.eqb_spec (ToLower p) "udp") as [Hu|]; [intros [= <-]; by right|]. done.
Qed.

(** ** The properties *)

Section OneRequest.
Context (addr path : string) (s : repo_state) (rel : json) (body : outcome json) (req : allocateReq).
Context (Hc : clean s) (Hf : remote s !! fs_key path = Some (Doc rel)) (Hok : release_ok rel).
Context (Hx : extractAllocateReq body = Ok req).

(** A request for any port is one step of the port table. *)
Lemma allocate_step :
  exists s' r, run (repo_step no_fault)
      (handleAllocate (client0 := repoClient (billy_repo addr) path) "POST" body) s = (s', Ok r) /\
    if refused req rel then (exists m, r = HttpError m StatusConflict) /\ remote s' = remote s
    else r = Empty /\ exists rel', granted req rel rel' /\ remote s' = <[fs_key path := Doc rel']> (remote s).
Proof using Hc Hf Hok Hx.
  rewrite (run_alloc addr path s rel body req Hc Hf Hok Hx).
  pose proof (run_finish addr path (pulled s) rel req (conj eq_refl eq_refl) Hok (extract_proto body req Hx)) as Hrun.
  destruct (refused req rel).
  - destruct Hrun as [m ->]. do 2 eexists. split; [reflexivity|]. split; [by eexists|done].
  - destruct Hrun as (rel' & msg & n & Hg & ->). do 2 eexists. split; [reflexivity|]. split; [done|].
    exists rel'. by split.
Qed.

(** C13. one request for a port other than 22, on a repository that does not
    fail, is one step of the port table: a port that is mapped already, or is 80
    or 443, is refused with 409 and the remote is untouched; any other is mapped
    to the target and pushed, and no other port and no other part of the release
    changes. *)
Theorem allocate_refines (H22 : SourcePort req <> 22%Z) :
  exists s' r, run (repo_step no_fault)
      (handleAllocate (client0 := repoClient (billy_repo addr) path) "POST" body) s = (s', Ok r) /\
    if bool_decide (is_Some (mapping rel (Protocol req) (SourcePort req)) \/ SourcePort req = 80%Z \/ SourcePort req = 443%Z)
    then (exists m, r = HttpError m StatusConflict) /\ remote s' = remote s
    else r = Empty /\ exists rel', granted req rel rel' /\ remote s' = <[fs_key path := Doc rel']> (remote s).
Proof using Hc Hf Hok Hx.
  destruct allocate_step as (s' & r & Hr & H). exists s', r. split; [exact Hr|].
  replace (bool_decide _) with (refused req rel); [exact H|].
  unfold refused, reserved. apply eq_true_iff_eq. rewrite !orb_true_iff, !bool_decide_eq_true, !Z.eqb_eq. tauto.
Qed.

(** The port of SSH is refused as well, whoever has it. *)
Lemma ssh_port_refused (H22 : SourcePort req = 22%Z) :
  exists s' m, run (repo_step no_fault)
      (handleAllocate (client0 := repoClient (billy_repo addr) path) "POST" body) s = (s', Ok (HttpError m StatusConflict)) /\
    remote s' = remote s.
Proof using Hc Hf Hok Hx.
  destruct allocate_step as (s' & r & Hr & H). unfold refused in H. rewrite H22, orb_true_r in H.
  destruct H as [[m ->] H]. by exists s', m.
Qed.
End OneRequest.

Definition alloc_all addr path (s : repo_state) (bodies : list (outcome json)) : repo_state :=
  foldl (fun s b => (run (repo_step no_fault)
    (handleAllocate (client0 := repoClient (billy_repo addr) path) "POST" b) s).1) s bodies.

Lemma granted_keeps req rel rel' proto port x :
  refused req rel = false -> granted req rel rel' -> is_proto proto ->
  mapping rel proto port = Some x -> mapping rel' proto port = Some x.
Proof.
  intros Hr (_ & Hm & _) Hp Hx. rewrite Hm by done. rewrite decide_False; [done|].
  intros [-> ->]. unfold refused in Hr. by rewrite Hx, bool_decide_eq_true_2 in Hr by by eexists.
Qed.

Lemma granted_reserved req rel rel' proto port :
  refused req rel = false -> granted req rel rel' -> is_proto proto -> reserved port = true ->
  mapping rel' proto port = mapping rel proto port.
Proof.
  intros Hr (_ & Hm & _) Hp Hres. rewrite Hm by done. rewrite decide_False; [done|].
  intros [-> ->]. unfold refused in Hr. by rewrite Hres, orb_true_r in Hr.
Qed.

Lemma extract_cases body :
  (exists req, extractAllocateReq body = Ok req) \/
  forall s addr path, (run (repo_step no_fault)
    (handleAllocate (client0 := repoClient (billy_repo addr) path) "POST" body) s).1 = s.
Proof.
  destruct (extractAllocateReq body) as [req|e|w|] eqn:He; [left; eauto|right..];
    intros; unfold handleAllocate; by rewrite He.
Qed.

(** over any sequence of requests, valid or not, a port once mapped stays
    mapped to the same target, the reserved ports are never handed out, and the
    release stays one the allocator can work on. *)
Theorem allocations_forever addr path bodies s rel :
  clean s -> remote s !! fs_key path = Some (Doc rel) -> release_ok rel ->
  exists rel', remote (alloc_all addr path s bodies) !! fs_key path = Some (Doc rel') /\ release_ok rel' /\
    forall proto port, is_proto proto ->
      (forall x, mapping rel proto port = Some x -> mapping rel' proto port = Some x) /\
      (reserved port = true -> mapping rel' proto port = mapping rel proto port).
Proof.
  revert s rel. induction bodies as [|b bodies IH]; intros s rel Hc Hf Hok; [exists rel; eauto|].
  unfold alloc_all. cbn [foldl]. fold (alloc_all addr path).
  destruct (extract_cases b) as [[req Hx]|Hsame]; [|rewrite Hsame; by apply IH].
  rewrite (run_alloc addr path s rel b req Hc Hf Hok Hx).
  pose proof (run_finish addr path (pulled s) rel req (conj eq_refl eq_refl) Hok (extract_proto b req Hx)) as Hrun.
  destruct (refused req rel) eqn:Hr; [destruct Hrun as [m ->]; by apply (IH (pulled s))|].
  destruct Hrun as (rel1 & msg & n & Hg & ->). cbn [fst].
  destruct (IH (pushed path rel1 msg n (pulled s)) rel1) as (rel' & Hf' & Hok' & Hk);
    [done|cbn; by rewrite lookup_insert_eq|apply Hg|].
  exists rel'. split_and!; [done|done|]. intros proto port Hp. destruct (Hk proto port Hp) as [Hk1 Hk2]. split.
  - intros x Hxm. by eapply Hk1, granted_keeps.
  - intros Hres. rewrite Hk2 by done. by eapply granted_reserved.
Qed.

(** two requests for different free ports that overlap: there is a schedule
    in which both are answered with success and the remote holds only one of the two
    mappings: the other one is lost. *)
Theorem overlapping_allocations_lose_one addr path s rel body1 body2 req1 req2 :
  let alloc := handleAllocate (client0 := repoClient (billy_repo addr) path) "POST" in
  clean s -> remote s !! fs_key path = Some (Doc rel) -> release_ok rel ->
  extractAllocateReq body1 = Ok req1 -> extractAllocateReq body2 = Ok req2 ->
  refused req1 rel = false -> refused req2 rel = false ->
  ~ (Protocol req1 = Protocol req2 /\ SourcePort req1 = SourcePort req2) ->
  exists sched pool s', run_sched (repo_step no_fault) sched [alloc body1; alloc body2] s = (pool, s') /\
    pool_results pool = [Some (Ok Empty); Some (Ok Empty)] /\
    exists rel', remote s' !! fs_key path = Some (Doc rel') /\
      is_Some (mapping rel' (Protocol req1) (SourcePort req1)) /\
      mapping rel' (Protocol req2) (SourcePort req2) = None.
Proof.
  intros alloc Hclean Hf Hok Hx1 Hx2 Hr1 Hr2 Hne. subst alloc.
  pose proof (extract_proto body1 req1 Hx1) as Hp1. pose proof (extract_proto body2 req2 Hx2) as Hp2.
  destruct (alloc_eq addr path body1 req1 Hx1) as [c Hc].
  set (p2 := handleAllocate (client0 := repoClient (billy_repo addr) path) "POST" body2).
  rewrite Hc. unfold handle.
  (* the first request reads the release *)
  match goal with |- context [bindp ?m ?f] =>
    destruct (run_sched_bindp (repo_step no_fault) 0 m f [bindp m f; p2] s eq_refl) as [n1 H1] end.
  rewrite (run_ReadRelease addr path s rel Hclean Hf (release_map rel Hok)) in H1. cbn [fst snd insert list_insert] in H1.
  (* the second one runs to its end *)
  destruct (run_sched_run (repo_step no_fault) 1 p2
    [allocate_in (client0 := repoClient (billy_repo addr) path) req1 rel; p2] (pulled s) eq_refl) as [n2 H2].
  pose proof (run_finish addr path (pulled (pulled s)) rel req2 (conj eq_refl eq_refl) Hok Hp2) as F2. rewrite Hr2 in F2.
  destruct F2 as (rel2 & msg2 & m2 & Hg2 & F2).
  assert (E2 : repo_run p2 (pulled s) = (pushed path rel2 msg2 m2 (pulled (pulled s)), Ok Empty))
    by (unfold p2; by rewrite (run_alloc addr path (pulled s) rel body2 req2 eq_refl Hf Hok Hx2)).
  rewrite E2 in H2. cbn [fst snd insert list_insert] in H2.
  (* the first one writes what it read *)
  destruct (run_sched_run (repo_step no_fault) 0 (allocate_in (client0 := repoClient (billy_repo addr) path) req1 rel)
    [allocate_in (client0 := repoClient (billy_repo addr) path) req1 rel; Ret (Ok Empty)]
    (pushed path rel2 msg2 m2 (pulled (pulled s))) eq_refl) as [n3 H3].
  pose proof (run_finish addr path (pushed path rel2 msg2 m2 (pulled (pulled s))) rel req1 (conj eq_refl eq_refl) Hok Hp1) as F1.
  rewrite Hr1 in F1. destruct F1 as (rel1 & msg1 & m1 & Hg1 & F1). rewrite F1 in H3.
  cbn [fst snd insert list_insert] in H3.
  exists (replicate n1 0 ++ replicate n2 1 ++ replicate n3 0). do 2 eexists.
  split; [by eapply run_sched_trans, run_sched_trans; [exact H1|exact H2|exact H3]|]. split; [done|].
  exists rel1. split; [cbn; by rewrite lookup_insert_eq|].
  destruct Hg1 as (_ & Hm & _). rewrite !Hm by done. rewrite decide_True by done.
  rewrite decide_False by naive_solver. split; [by eexists|].
  unfold refused in Hr2. apply orb_false_iff in Hr2 as [Hr2%bool_decide_eq_false _].
  destruct (mapping rel (Protocol req2) (SourcePort req2)); [|done]. destruct Hr2. by eexists.
Qed.

(** ** Witnesses *)

Definition demo_release : json := JObj [("spec", JObj [("values", JObj [("tcp", JObj [("53", JStr "dns:53")])])])].

Lemma demo_release_ok : release_ok demo_release.
Proof.
  split; [by eexists|]. intros proto x [-> | ->]; vm_compute; [by intros [= <-]|done].
Qed.

Definition demo_repo : repo_state :=
  MkRepo ∅ ∅ {[ fs_key "/ingress.yaml" := Doc demo_release ]} [] 0.

Definition demo_body (port : Z) : outcome json :=
  Ok (JObj [("protocol", JStr "TCP"); ("sourcePort", JNum port); ("targetService", JStr "svc"); ("targetPort", JNum 22)]).

Lemma allocate_refines_witness :
  exists s' r, run (repo_step no_fault)
      (handleAllocate (client0 := repoClient (billy_repo "a") "/ingress.yaml") "POST" (demo_body 5000)) demo_repo
    = (s', Ok r) /\ r = Empty.
Proof.
  destruct (allocate_refines "a" "/ingress.yaml" demo_repo demo_release (demo_body 5000) (MkReq "tcp" 5000 "svc" 22))
    as (s' & r & Hr & Hx); [reflexivity|by vm_compute|exact demo_release_ok|by vm_compute|done|].
  exists s', r. split; [exact Hr|]. rewrite bool_decide_eq_false_2 in Hx; [apply Hx|].
  intros [[x H]|[H|H]]; [by vm_compute in H|done..].
Defined.

Lemma allocations_forever_witness :
  exists rel', remote (alloc_all "a" "/ingress.yaml" demo_repo [demo_body 53; demo_body 5000; demo_body 443])
      !! fs_key "/ingress.yaml" = Some (Doc rel') /\ mapping rel' "tcp" 53 = Some (JStr "dns:53").
Proof.
  destruct (allocations_forever "a" "/ingress.yaml" [demo_body 53; demo_body 5000; demo_body 443] demo_repo demo_release)
    as (rel' & Hf & _ & Hk); [reflexivity|by vm_compute|exact demo_release_ok|].
  exists rel'. split; [exact Hf|]. apply (proj1 (Hk "tcp" 53%Z ltac:(by left))); by vm_compute.
Defined.

Lemma overlapping_allocations_lose_one_witness :
  exists sched pool s', run_sched (repo_step no_fault) sched
      [handleAllocate (client0 := repoClient (billy_repo "a") "/ingress.yaml") "POST" (demo_body 5000);
       handleAllocate (client0 := repoClient (billy_repo "a") "/ingress.yaml") "POST" (demo_body 5001)] demo_repo
      = (pool, s') /\ pool_results pool = [Some (Ok Empty); Some (Ok Empty)].
Proof.
  destruct (overlapping_allocations_lose_one "a" "/ingress.yaml" demo_repo demo_release (demo_body 5000) (demo_body 5001)
    (MkReq "tcp" 5000 "svc" 22) (MkReq "tcp" 5001 "svc" 22)) as (sched & pool & s' & Hr & Hp & _);
    [reflexivity|by vm_compute|exact demo_release_ok|by vm_compute|by vm_compute|by vm_compute|by vm_compute|by intros [_ [=]]|].
  exists sched, pool, s'. split; [exact Hr|exact Hp].
Defined.
