(* ===== verification/Transport.v ===== *)
(** * Service transports (core/tcp-udp-transport/controllers/servicetransport_controller.go)

    The controller that opened ports before the port allocator did: it finds the
    Helm release of an ingress in the cluster, clones the repository the release
    comes from, maps a port in its values and notes the port in the resource.
    It does not build as it is (the package of the repository is not imported);
    it is read as what it says. *)
From S2P Require Import Prelude GoLib GoStrings GoPath RepoIO Resources PortAllocator.
Open Scope string_scope.
Open Scope list_scope.

(** ** The resource *)

Record ServiceTransportSpec := MkTransportSpec {
  tsPort : Z;
  tsSourcePort : Z;
  tsProtocol : string;
  tsService : string;
  tsIngressClassName : string;
}.

(** The resource with its status; its namespace and name are its key. *)
Record ServiceTransport := MkTransport { tSpec : ServiceTransportSpec; tStatusPort : Z }.

Definition set_port (port : Z) (t : ServiceTransport) : ServiceTransport := MkTransport (tSpec t) port.

Inductive transE : Type -> Type :=
  | TransCluster {X} (e : clusterE ServiceTransport Z Empty_set X) : transE X
  | ListReleases (ingressClass : string) : transE (outcome (list json))   (* by the label dodo.cloud/ingressClassName *)
  | TransClone (address : string) : transE (outcome unit)
  | TransRepo {X} (e : repoE X) : transE X
  | Intn (n : Z) : transE Z.

#[export] Instance trans_repo : RepoIO transE := repo_in (@TransRepo) "".

(** ** The values of the release *)

Definition err_not_map : error := errorf "Not map".

(** [v[k].(map[string]any)] *)
Definition map_at (p : list string) (v : json) : outcome unit :=
  if from_option is_map false (get_path p v) then Ok tt else Err err_not_map.

(** A string at a path of maps. *)
Definition string_at (k : string) (p : list string) (v : json) : outcome string :=
  match get_path (p ++ [k]) v with Some (JStr s) => Ok s | _ => Err (errorf "Not string") end.

Definition extractRepoInfo (o : json) : outcome (string * string) :=
  _ ← map_at ["metadata"] o;
  _ ← map_at ["metadata"; "annotations"] o;
  repoAddr ← string_at "dodo.cloud/releaseSourceRepo" ["metadata"; "annotations"] o;
  repoPath ← string_at "dodo.cloud/releasePath" ["metadata"; "annotations"] o;
  Ok (repoAddr, repoPath).

(** The definition with a map of the protocol in its values. *)
Definition protocol_map (protocol : string) (def : json) : outcome json :=
  _ ← map_at [] def;
  _ ← map_at ["spec"] def;
  _ ← map_at ["spec"; "values"] def;
  match get_path (ports_path protocol) def with
  | None => Ok (set_path (ports_path protocol) (JObj []) def)
  | Some k => if is_map k then Ok def else Err err_not_map
  end.

Definition taken (protocol : string) (def : json) (port : Z) : bool :=
  bool_decide (is_Some (get_path (ports_path protocol ++ [Itoa port]) def)).

(** for { sourcePort = rand.Intn(65536-1000) + 1000; ... } *)
Fixpoint draw_port (fuel : nat) (protocol : string) (def : json) : go transE Z :=
  match fuel with
  | 0 => Ret Diverge
  | S fuel' =>
      Vis (Intn (65536 - 1000)) (fun n =>
        let sourcePort := (n + 1000)%Z in
        if taken protocol def sourcePort then draw_port fuel' protocol def else Ret (Ok sourcePort))
  end.

Definition choose_port (fuel : nat) (spec : ServiceTransportSpec) (protocol : string) (def : json) : go transE Z :=
  if negb (tsSourcePort spec =? 0)%Z then
    if taken protocol def (tsSourcePort spec) then
      fail (errorf ("Source port " +:+ Itoa (tsSourcePort spec) +:+ " is already taken"))
    else mret (tsSourcePort spec)
  else draw_port fuel protocol def.

Definition transport_dest (namespace : string) (spec : ServiceTransportSpec) : string :=
  namespace +:+ "/" +:+ tsService spec +:+ ":" +:+ Itoa (tsPort spec).

(** [NewRequirement]: whether the library takes the name as the value of a label. *)
Definition Reconcile (NewRequirement : string -> outcome unit) (fuel : nat) (key : object_key) : go transE unit :=
  resource ← call (TransCluster (GetResource key));
  if negb (tStatusPort resource =? 0)%Z then mret tt
  else
    let ingressClassName := tsIngressClassName (tSpec resource) in
    _ ← lift (NewRequirement ingressClassName);
    releases ← call (ListReleases ingressClassName);
    rel ← lift (match releases with
                | [] => Err (errorf ("Ingress " +:+ ingressClassName +:+ " not found"))
                | [rel] => Ok rel
                | _ => Err (errorf ("Found more than one ingress " +:+ ingressClassName))
                end);
    info ← lift (extractRepoInfo rel);
    _ ← call (TransClone info.1);
    data ← ReadYaml (fun v => Ok v) info.2;
    let protocol := ToLower (tsProtocol (tSpec resource)) in
    def ← lift (protocol_map protocol data);
    sourcePort ← choose_port fuel (tSpec resource) protocol def;
    let dest := transport_dest key.1 (tSpec resource) in
    let def := set_path (ports_path protocol ++ [Itoa sourcePort]) (JStr dest) def in
    _ ← WriteYaml info.2 def;
    _ ← CommitAndPush (protocol +:+ " transport for " +:+ dest);
    call (TransCluster (UpdateStatus key sourcePort)).

(** * Proofs *)

(** ** One port opened *)

Definition values_ok (proto : string) (def : json) : Prop :=
  (exists values, get_path ["spec"; "values"] def = Some (JObj values)) /\
  forall x, get_path (ports_path proto) def = Some x -> is_map x = true.

(** [proto] and [port] had no target and now have [dest]; all else is mapped as
    before. *)
Definition opened (proto : string) (port : Z) (dest : string) (def def' : json) : Prop :=
  mapping def proto port = None /\
  forall proto' port', mapping def' proto' port' =
    if decide (proto' = proto /\ port' = port) then Some (JStr dest) else mapping def proto' port'.

Lemma map_at_values def values :
  get_path ["spec"; "values"] def = Some (JObj values) ->
  map_at [] def = Ok tt /\ map_at ["spec"] def = Ok tt /\ map_at ["spec"; "values"] def = Ok tt.
Proof.
  intros Hv. pose proof (get_spec _ _ Hv) as (fs & specM & -> & Hs & _).
  unfold map_at at 3. rewrite Hv. split; [done|]. split; [|done]. unfold map_at. cbn. by rewrite Hs.
Qed.

Lemma protocol_map_spec proto def :
  values_ok proto def ->
  exists def', protocol_map proto def = Ok def' /\ values_ok proto def' /\
    is_Some (get_path (ports_path proto) def') /\
    forall proto' port, mapping def' proto' port = mapping def proto' port.
Proof.
  intros [[values Hv] Hm]. unfold protocol_map. destruct (map_at_values _ _ Hv) as (-> & -> & ->). cbn [mbind outcome_bind].
  destruct (get_path (ports_path proto) def) as [x|] eqn:Hg.
  { rewrite (Hm x eq_refl). exists def. split; [done|]. split; [|by rewrite Hg].
    split; [by eexists|]. intros y Hy. apply Hm. by rewrite <- Hg. }
  pose proof (ports_settable def values proto Hv) as Hs. eexists. split; [reflexivity|].
  assert (Hown : get_path (ports_path proto) (set_path (ports_path proto) (JObj []) def) = Some (JObj [])) by by apply get_set_same.
  split_and!.
  - split; [eexists; exact (get_set_above ["spec"; "values"] [proto] (JObj []) def _ Hv)|].
    intros x. rewrite Hown. by intros [= <-].
  - by eexists.
  - intros proto' port. unfold mapping. destruct (decide (proto' = proto)) as [->|Hne].
    + rewrite get_set_below by done. by rewrite get_path_app, Hg.
    + apply get_set_apart; [done|]. apply apart_protos. congruence.
Qed.

Lemma set_port_opened proto port dest def def' :
  values_ok proto def' -> is_Some (get_path (ports_path proto) def') ->
  (forall proto' port', mapping def' proto' port' = mapping def proto' port') -> mapping def proto port = None ->
  opened proto port dest def (set_path (ports_path proto ++ [Itoa port]) (JStr dest) def').
Proof.
  intros [Hv Hm] [x Hx] Hsame Hfree. split; [done|]. intros proto' port'.
  assert (Hs : settable (ports_path proto ++ [Itoa port]) def') by (eapply cell_settable; [done|exact Hx|by apply Hm]).
  case_decide as Hd; [destruct Hd as [-> ->]; by apply get_set_same|].
  rewrite <- Hsame. apply get_set_apart; [done|]. by apply apart_cells.
Qed.

(** ** The world of the controller *)

Record trans_world := MkTransWorld {
  tw_cluster : cluster ServiceTransport Empty_set;
  tw_releases : string -> list json;
  tw_repo : repo_state;
  tw_drawn : nat;                (* numbers drawn so far *)
}.

Definition with_repo (s : repo_state) (w : trans_world) : trans_world :=
  MkTransWorld (tw_cluster w) (tw_releases w) s (tw_drawn w).

Definition trans_checkout (s : repo_state) : repo_state := MkRepo (remote s) (remote s) (remote s) (log s) (ops s).

(** The controller creates no objects. *)
Definition no_object (o : Empty_set) : object_key := match o with end.

(** Numbers come from a stream; the cluster may fail, the repository does not. *)
Definition trans_step (stream : nat -> Z) : handler transE trans_world := fun X e w =>
  match e in transE X return trans_world * X with
  | TransCluster e =>
      let '(c, x) := cluster_step set_port no_object _ e (tw_cluster w) in
      (MkTransWorld c (tw_releases w) (tw_repo w) (tw_drawn w), x)
  | ListReleases cls => (w, Ok (tw_releases w cls))
  | TransClone _ => (with_repo (trans_checkout (tw_repo w)) w, Ok tt)
  | TransRepo e => let '(s, x) := repo_step (fun _ => None) _ e (tw_repo w) in (with_repo s w, x)
  | Intn n => (MkTransWorld (tw_cluster w) (tw_releases w) (tw_repo w) (S (tw_drawn w)), (stream (tw_drawn w) mod n)%Z)
  end.

Section Run.
Context (stream : nat -> Z) (NewRequirement : string -> outcome unit).
Abbreviation step := (trans_step stream).

Lemma run_trans_repo {A} (p : prog repoE A) w :
  run step (embed (@TransRepo) p) w = let '(s, x) := run (repo_step (fun _ => None)) p (tw_repo w) in (with_repo s w, x).
Proof.
  by rewrite (run_embed (@TransRepo) (repo_step (fun _ => None)) step tw_repo with_repo) by (try intros []; done).
Qed.

(** The port of the k-th draw. *)
Definition drawn (k : nat) : Z := (stream k mod (65536 - 1000) + 1000)%Z.

Lemma drawn_range k : (1000 <= drawn k < 65536)%Z.
Proof. unfold drawn. pose proof (Z.mod_pos_bound (stream k) (65536 - 1000) ltac:(lia)). lia. Qed.

Definition advance (n : nat) (w : trans_world) : trans_world :=
  MkTransWorld (tw_cluster w) (tw_releases w) (tw_repo w) (tw_drawn w + n).

(** The loop ends with the first free port it draws, and not before. *)
Lemma run_draw_port proto def n fuel w :
  (forall i, i < n -> taken proto def (drawn (tw_drawn w + i)) = true) ->
  run step (draw_port (n + fuel) proto def) w = run step (draw_port fuel proto def) (advance n w).
Proof.
  revert w. induction n as [|n IH]; intros w Hn; cbn [Nat.add].
  - unfold advance. rewrite Nat.add_0_r. by destruct w.
  - cbn [draw_port run trans_step]. pose proof (Hn 0 ltac:(lia)) as H0. rewrite Nat.add_0_r in H0. unfold drawn in H0. rewrite H0.
    rewrite IH.
    + unfold advance. cbn [tw_cluster tw_releases tw_repo tw_drawn]. by rewrite Nat.add_succ_comm.
    + intros i Hi. cbn [tw_drawn]. rewrite <- (Hn (S i) ltac:(lia)). by rewrite Nat.add_succ_comm.
Qed.

(** When everything is taken it never ends. *)
Lemma draw_exhausted proto def fuel w :
  (forall port, (1000 <= port < 65536)%Z -> taken proto def port = true) ->
  (run step (draw_port fuel proto def) w).2 = Diverge.
Proof.
  intros Ht. rewrite <- (Nat.add_0_r fuel). rewrite run_draw_port; [done|]. intros i _. apply Ht, drawn_range.
Qed.

(** ** One reconciliation *)

Definition resource_of (w : trans_world) (key : object_key) : option ServiceTransport := resources (tw_cluster w) !! key.

(** The controller has found the release of [t]: [def] at [path] of the remote. *)
Record served_by (key : object_key) (t : ServiceTransport) (path : string) (def : json) (w : trans_world) : Prop := {
  sb_resource : resource_of w key = Some t;
  sb_label : NewRequirement (tsIngressClassName (tSpec t)) = Ok tt;
  sb_release : exists o addr, tw_releases w (tsIngressClassName (tSpec t)) = [o] /\ extractRepoInfo o = Ok (addr, path);
  sb_document : exists c, remote (tw_repo w) !! fs_key path = Some c /\ parsed c = Ok def;
  sb_values : values_ok (ToLower (tsProtocol (tSpec t))) def;
}.

(** The rest of Reconcile once the map of the protocol is there. *)
Definition map_port (fuel : nat) (key : object_key) (spec : ServiceTransportSpec) (path : string) (def : json) : go transE unit :=
  let protocol := ToLower (tsProtocol spec) in
  sourcePort ← choose_port fuel spec protocol def;
  let dest := transport_dest key.1 spec in
  let def := set_path (ports_path protocol ++ [Itoa sourcePort]) (JStr dest) def in
  _ ← WriteYaml path def;
  _ ← CommitAndPush (protocol +:+ " transport for " +:+ dest);
  call (TransCluster (UpdateStatus key sourcePort)).

Definition later_faults (c : cluster ServiceTransport Empty_set) : cluster ServiceTransport Empty_set :=
  MkCluster (resources c) (objects c) (tail (faults c)).

Definition fetched (w : trans_world) : trans_world :=
  MkTransWorld (later_faults (tw_cluster w)) (tw_releases w)
    (MkRepo (remote (tw_repo w)) (remote (tw_repo w)) (remote (tw_repo w)) (log (tw_repo w)) (S (ops (tw_repo w)))) (tw_drawn w).

Lemma run_get_resource key t w : next_fault (tw_cluster w) = Works -> resource_of w key = Some t ->
  run step (call (TransCluster (GetResource key))) w =
    (MkTransWorld (later_faults (tw_cluster w)) (tw_releases w) (tw_repo w) (tw_drawn w), Ok t).
Proof.
  intros Hf Hr. rewrite run_call. cbn [trans_step cluster_step]. unfold under_fault. rewrite Hf.
  unfold resource_of in Hr. by rewrite Hr.
Qed.

Lemma run_Reconcile fuel key t path def def' w :
  next_fault (tw_cluster w) = Works -> served_by key t path def w -> tStatusPort t = 0%Z ->
  protocol_map (ToLower (tsProtocol (tSpec t))) def = Ok def' ->
  run step (Reconcile NewRequirement fuel key) w = run step (map_port fuel key (tSpec t) path def') (fetched w).
Proof.
  intros Hf [Hr Hl (o & addr & Ho & Hi) (c & Hc & Hp) _] Hport Hmap. unfold Reconcile.
  rewrite run_mbind, (run_get_resource key t) by done. rewrite Hport. cbn [Z.eqb negb].
  rewrite run_mbind. cbn [run lift]. rewrite Hl. rewrite run_mbind, run_call. cbn [trans_step tw_releases].
  rewrite Ho, run_mbind. cbn [run lift]. rewrite run_mbind. cbn [run lift]. rewrite Hi. rewrite run_mbind, run_call.
  cbn [trans_step with_repo tw_repo fst snd]. rewrite run_mbind. unfold ReadYaml. rewrite run_mbind.
  cbn [Reader trans_repo repo_in]. rewrite run_trans_repo. unfold repo.Reader. rewrite run_call.
  cbn [tw_repo repo_step with_repo trans_checkout files snd]. rewrite Hc. cbn [run lift]. rewrite Hp. cbn [mbind outcome_bind].
  rewrite run_mbind. cbn [run lift]. rewrite Hmap. reflexivity.
Qed.

(** Where the port comes from: the resource names a free one, or it is the first
    free one of the draws. *)
Inductive chosen (spec : ServiceTransportSpec) (def : json) (w : trans_world) : Z -> nat -> Prop :=
  | chosen_named :
      tsSourcePort spec <> 0%Z -> taken (ToLower (tsProtocol spec)) def (tsSourcePort spec) = false ->
      chosen spec def w (tsSourcePort spec) 0
  | chosen_drawn n :
      tsSourcePort spec = 0%Z -> (forall i, i < n -> taken (ToLower (tsProtocol spec)) def (drawn (tw_drawn w + i)) = true) ->
      taken (ToLower (tsProtocol spec)) def (drawn (tw_drawn w + n)) = false ->
      chosen spec def w (drawn (tw_drawn w + n)) (S n).

Lemma chosen_fetched spec def w port n : chosen spec def w port n -> chosen spec def (fetched w) port n.
Proof. intros []; [by apply chosen_named|by apply (chosen_drawn _ _ (fetched w))]. Qed.

Lemma taken_mapping proto def def' port :
  (forall proto' port', mapping def' proto' port' = mapping def proto' port') -> taken proto def' port = taken proto def port.
Proof.
  intros H. unfold taken. apply bool_decide_ext. pose proof (H proto port) as Hm. unfold mapping in Hm. by rewrite Hm.
Qed.

Lemma run_choose_port fuel spec def def' w port n :
  chosen spec def w port n -> (forall proto' port', mapping def' proto' port' = mapping def proto' port') -> n <= fuel ->
  run step (choose_port fuel spec (ToLower (tsProtocol spec)) def') w = (advance n w, Ok port) /\
  mapping def (ToLower (tsProtocol spec)) port = None.
Proof.
  intros Hc Hsame Hfuel.
  assert (Hfree : forall p, taken (ToLower (tsProtocol spec)) def p = false -> mapping def (ToLower (tsProtocol spec)) p = None).
  { intros p Hp. unfold taken in Hp. apply bool_decide_eq_false, eq_None_not_Some in Hp. exact Hp. }
  destruct Hc as [Hne Ht|n Hz Hn Ht]; (split; [|by apply Hfree]); unfold choose_port.
  - rewrite (proj2 (Z.eqb_neq _ _) Hne), (taken_mapping _ def) by done. cbn [negb]. rewrite Ht.
    unfold advance. rewrite Nat.add_0_r. by destruct w.
  - rewrite Hz. cbn [Z.eqb negb]. replace fuel with (n + S (fuel - S n)) by lia.
    rewrite run_draw_port by (intros i Hi; rewrite (taken_mapping _ def) by done; by apply Hn).
    cbn [draw_port run trans_step advance tw_drawn]. fold (drawn (tw_drawn w + n)). rewrite (taken_mapping _ def), Ht by done.
    unfold advance. cbn [run tw_cluster tw_releases tw_repo tw_drawn]. by rewrite Nat.add_succ_r.
Qed.

(** The map is written and pushed, then the port is noted. *)
Definition mapped (path : string) (def : json) (msg : string) (n : nat) (w : trans_world) : trans_world :=
  let f := <[fs_key path := Doc def]> (remote (tw_repo w)) in
  with_repo (MkRepo f f f (log (tw_repo w) ++ [msg]) n) w.

Lemma run_WriteYaml_trans path v w :
  run step (WriteYaml path v) w = (with_repo (on_files (<[fs_key path := Doc v]> (files (tw_repo w))) (S (S (S (ops (tw_repo w))))) (tw_repo w)) w, Ok tt).
Proof.
  rewrite <- (insert_insert_eq (files (tw_repo w)) (fs_key path) (Doc v) (Raw "" (Ok JNull))).
  unfold WriteYaml. rewrite run_mbind. cbn [Writer WriteTo trans_repo repo_in]. by rewrite !run_trans_repo.
Qed.

Lemma run_map_port fuel key spec path def def' w port n :
  chosen spec def w port n -> (forall proto' port', mapping def' proto' port' = mapping def proto' port') -> n <= fuel ->
  files (tw_repo w) = remote (tw_repo w) -> synced (tw_repo w) ->
  exists msg m,
    run step (map_port fuel key spec path def') w =
      run step (call (TransCluster (UpdateStatus key port)))
        (mapped path (set_path (ports_path (ToLower (tsProtocol spec)) ++ [Itoa port]) (JStr (transport_dest key.1 spec)) def')
           msg m (advance n w)).
Proof.
  intros Hch Hsame Hfuel Hfiles Hsync. unfold map_port. rewrite run_mbind.
  destruct (run_choose_port fuel spec def def' w port n Hch Hsame Hfuel) as [-> _]. cbv zeta.
  rewrite run_mbind, run_WriteYaml_trans, run_mbind. cbn [CommitAndPush trans_repo repo_in].
  rewrite run_trans_repo, run_CommitAndPush by exact Hsync.
  unfold mapped. cbn [with_repo tw_repo advance on_files files remote log]. rewrite <- Hfiles. by do 2 eexists.
Qed.

Lemma update_port key port t w fs :
  resource_of w key = Some t -> faults (tw_cluster w) = fs ->
  run step (call (TransCluster (UpdateStatus key port))) w =
    match head fs with
    | Some (Refused e) => (MkTransWorld (later_faults (tw_cluster w)) (tw_releases w) (tw_repo w) (tw_drawn w), Err e)
    | Some (Unanswered e) =>
        (MkTransWorld (MkCluster (<[key := set_port port t]> (resources (tw_cluster w))) (objects (tw_cluster w)) (tail fs))
           (tw_releases w) (tw_repo w) (tw_drawn w), Err e)
    | _ => (MkTransWorld (MkCluster (<[key := set_port port t]> (resources (tw_cluster w))) (objects (tw_cluster w)) (tail fs))
           (tw_releases w) (tw_repo w) (tw_drawn w), Ok tt)
    end.
Proof.
  unfold resource_of. intros Hr Hf. rewrite run_call. cbn [trans_step cluster_step]. rewrite Hr.
  unfold under_fault, next_fault. cbn [faults resources objects]. rewrite Hf.
  destruct fs as [|[|e|e] fs]; cbn [head default from_option]; unfold later_faults; rewrite ?Hf; done.
Qed.

Abbreviation proto_of t := (ToLower (tsProtocol (tSpec t))).

(** C33. A service transport gets its port. When the cluster works, Reconcile
    succeeds for a resource without a port: the port is the named one if it is
    free, else the first free one it draws, from 1000 to 65535; the resource says
    it, the remote maps it to the service, and every other port of every protocol
    keeps its target, as does every other resource. *)
Theorem transport_opened (fuel : nat) (key : object_key) (t : ServiceTransport) (path : string) (def : json)
    (w : trans_world) (port : Z) (n : nat)
    (Hworks : faults (tw_cluster w) = []) (Hserved : served_by key t path def w) (Hport : tStatusPort t = 0%Z)
    (Hchosen : chosen (tSpec t) def w port n) (Hfuel : n <= fuel) :
  exists w' def', run step (Reconcile NewRequirement fuel key) w = (w', Ok tt) /\
    resource_of w' key = Some (set_port port t) /\ (forall key', key' <> key -> resource_of w' key' = resource_of w key') /\
    remote (tw_repo w') = <[fs_key path := Doc def']> (remote (tw_repo w)) /\
    opened (proto_of t) port (transport_dest key.1 (tSpec t)) def def' /\
    (tsSourcePort (tSpec t) = 0%Z -> (1000 <= port < 65536)%Z).
Proof.
  destruct (protocol_map_spec _ _ (sb_values _ _ _ _ _ Hserved)) as (def1 & Hmap & Hv1 & Hp1 & Hsame).
  rewrite (run_Reconcile fuel key t path def def1) by (done || (unfold next_fault; by rewrite Hworks)).
  destruct (run_map_port fuel key (tSpec t) path def def1 (fetched w) port n (chosen_fetched _ _ _ _ _ Hchosen) Hsame Hfuel eq_refl (conj eq_refl eq_refl))
    as (msg & m & ->).
  rewrite (update_port key port t _ []); [|exact (sb_resource _ _ _ _ _ Hserved)|cbn; by rewrite Hworks].
  do 2 eexists. split; [reflexivity|]. split; [apply lookup_insert_eq|].
  split; [intros key' Hne; by apply lookup_insert_ne|]. split; [reflexivity|]. split.
  - apply set_port_opened; [done|done|done|]. by destruct (run_choose_port fuel _ def def _ _ _ Hchosen (fun _ _ => eq_refl) Hfuel).
  - intros Hz. destruct Hchosen as [Hne _|i _ _ _]; [done|]. apply drawn_range.
Qed.

(** ** A status that could not be written *)

Lemma values_ok_set proto port dest def : values_ok proto def -> is_Some (get_path (ports_path proto) def) ->
  values_ok proto (set_path (ports_path proto ++ [Itoa port]) (JStr dest) def).
Proof.
  intros [[values Hv] Hm] [x Hx]. split.
  - eexists. exact (get_set_above ["spec"; "values"] [proto; Itoa port] _ def _ Hv).
  - intros y Hy. rewrite (get_set_above (ports_path proto) [Itoa port] _ def x Hx) in Hy. injection Hy as <-.
    specialize (Hm x Hx). by destruct x.
Qed.

Lemma reconcile_refused fuel key t path def w :
  faults (tw_cluster w) = [] -> served_by key t path def w -> tStatusPort t = 0%Z ->
  tsSourcePort (tSpec t) <> 0%Z -> taken (proto_of t) def (tsSourcePort (tSpec t)) = true ->
  run step (Reconcile NewRequirement fuel key) w =
    (fetched w, Err (errorf ("Source port " +:+ Itoa (tsSourcePort (tSpec t)) +:+ " is already taken"))).
Proof.
  intros Hworks Hserved Hport Hne Ht.
  destruct (protocol_map_spec _ _ (sb_values _ _ _ _ _ Hserved)) as (def1 & Hmap & _ & _ & Hsame).
  rewrite (run_Reconcile fuel key t path def def1) by (done || (unfold next_fault; by rewrite Hworks)).
  unfold map_port, choose_port. rewrite run_mbind, (proj2 (Z.eqb_neq _ _) Hne), (taken_mapping _ def), Ht by done. done.
Qed.

Lemma served_fetched key t path def w : served_by key t path def w -> served_by key t path def (fetched w).
Proof. by intros [? ? ? ? ?]. Qed.

(** [k] more reconciliations. *)
Definition again (fuel k : nat) (key : object_key) (w : trans_world) : trans_world :=
  Nat.iter k (fun w => (run step (Reconcile NewRequirement fuel key) w).1) w.

(** A transport whose status was not written is lost. When the cluster
    refuses the status after the port was mapped, the mapping stays in the
    remote, the resource stays without a port, and every later reconciliation
    finds the port it asks for taken - by itself - and changes nothing. *)
Theorem unnoted_port_stuck (fuel : nat) (key : object_key) (t : ServiceTransport) (path : string) (def : json)
    (w : trans_world) (e : error)
    (Hfaults : faults (tw_cluster w) = [Works; Refused e]) (Hserved : served_by key t path def w) (Hport : tStatusPort t = 0%Z)
    (Hnamed : tsSourcePort (tSpec t) <> 0%Z) (Hfree : taken (proto_of t) def (tsSourcePort (tSpec t)) = false) :
  exists w1 def', run step (Reconcile NewRequirement fuel key) w = (w1, Err e) /\
    remote (tw_repo w1) = <[fs_key path := Doc def']> (remote (tw_repo w)) /\
    mapping def' (proto_of t) (tsSourcePort (tSpec t)) = Some (JStr (transport_dest key.1 (tSpec t))) /\
    forall k, let w2 := again fuel k key w1 in
      resource_of w2 key = Some t /\ remote (tw_repo w2) = remote (tw_repo w1) /\
      (run step (Reconcile NewRequirement fuel key) w2).2 =
        Err (errorf ("Source port " +:+ Itoa (tsSourcePort (tSpec t)) +:+ " is already taken")).
Proof.
  destruct (protocol_map_spec _ _ (sb_values _ _ _ _ _ Hserved)) as (def1 & Hmap & Hv1 & Hp1 & Hsame).
  rewrite (run_Reconcile fuel key t path def def1) by (done || (unfold next_fault; by rewrite Hfaults)).
  pose proof (chosen_named (tSpec t) def (fetched w) Hnamed Hfree) as Hch.
  destruct (run_map_port fuel key (tSpec t) path def def1 (fetched w) _ 0 Hch Hsame ltac:(lia) eq_refl (conj eq_refl eq_refl))
    as (msg & m & ->).
  rewrite (update_port key _ t _ [Refused e]); [|exact (sb_resource _ _ _ _ _ Hserved)|cbn; by rewrite Hfaults].
  cbn [head]. set (def2 := set_path _ _ def1). set (w1 := MkTransWorld _ _ _ _).
  assert (Hopen : opened (proto_of t) (tsSourcePort (tSpec t)) (transport_dest key.1 (tSpec t)) def def2).
  { apply set_port_opened; [done|done|done|]. by destruct (run_choose_port fuel _ def def _ _ _ Hch (fun _ _ => eq_refl) ltac:(lia)). }
  destruct Hopen as [_ Hopen]. pose proof (Hopen (proto_of t) (tsSourcePort (tSpec t))) as Hto. rewrite decide_True in Hto by done.
  exists w1, def2. split; [reflexivity|]. split; [reflexivity|]. split; [exact Hto|].
  assert (Hinv : forall k, let w2 := again fuel k key w1 in
    faults (tw_cluster w2) = [] /\ served_by key t path def2 w2 /\ remote (tw_repo w2) = remote (tw_repo w1)).
  { assert (Ht2 : taken (proto_of t) def2 (tsSourcePort (tSpec t)) = true).
    { unfold taken. apply bool_decide_eq_true_2. unfold mapping in Hto. rewrite Hto. by eexists. }
    induction k as [|k (Hf & Hs & Hr)]; cbv zeta.
    - split; [cbn; by rewrite Hfaults|]. split; [|done]. destruct Hserved as [H1 H2 H3 _ _].
      constructor; [exact H1|exact H2|exact H3| |by apply values_ok_set].
      exists (Doc def2). split; [apply lookup_insert_eq|done].
    - change (again fuel (S k) key w1) with (run step (Reconcile NewRequirement fuel key) (again fuel k key w1)).1.
      rewrite (reconcile_refused fuel key t path def2) by done. cbn [fst].
      split; [cbn; by rewrite Hf|]. split; [by apply served_fetched|exact Hr]. }
  intros k. destruct (Hinv k) as (Hf & Hs & Hr). cbv zeta. split; [exact (sb_resource _ _ _ _ _ Hs)|]. split; [exact Hr|].
  rewrite (reconcile_refused fuel key t path def2); [done|done|done|done|done|].
  unfold taken. apply bool_decide_eq_true_2. unfold mapping in Hto. rewrite Hto. by eexists.
Qed.
End Run.

(** ** The theorems at a cluster *)

Definition demo_transport (source : Z) : ServiceTransport := MkTransport (MkTransportSpec 22 source "TCP" "svc" "public") 0.

Definition demo_ingress : json :=
  JObj [("metadata", JObj [("annotations",
    JObj [("dodo.cloud/releaseSourceRepo", JStr "ssh://repo"); ("dodo.cloud/releasePath", JStr "/ingress.yaml")])])].

Definition demo_def : json := JObj [("spec", JObj [("values", JObj [("tcp", JObj [("1007", JStr "a/b:1")])])])].

Definition demo_trans (source : Z) (fs : list fault) : trans_world :=
  let f := {[ "/ingress.yaml" := Doc demo_def ]} in
  MkTransWorld (MkCluster {[ ("ns", "t") := demo_transport source ]} ∅ fs)
    (fun cls => if String.eqb cls "public" then [demo_ingress] else []) (MkRepo f f f [] 0) 0.

Definition any_label (name : string) : outcome unit := Ok tt.

(** 7, then 8, ... *)
Definition counting (k : nat) : Z := 7 + Z.of_nat k.

Lemma demo_served source fs : served_by any_label ("ns", "t") (demo_transport source) "/ingress.yaml" demo_def (demo_trans source fs).
Proof.
  constructor; [apply lookup_singleton_eq|done|by do 2 eexists| |].
  - exists (Doc demo_def). by split; [vm_compute|].
  - split; [by eexists|]. intros x Hx. vm_compute in Hx. by injection Hx as <-.
Qed.

Lemma transport_opened_witness :
  exists w' def', run (trans_step counting) (Reconcile any_label 2 ("ns", "t")) (demo_trans 0 []) = (w', Ok tt) /\
    resource_of w' ("ns", "t") = Some (set_port 1008 (demo_transport 0)) /\
    mapping def' "tcp" 1008 = Some (JStr "ns/svc:22") /\ mapping def' "tcp" 1007 = Some (JStr "a/b:1").
Proof.
  destruct (transport_opened counting any_label 2 ("ns", "t") (demo_transport 0) "/ingress.yaml" demo_def (demo_trans 0 []) 1008 2)
    as (w' & def' & Hr & Hs & _ & _ & [_ Hm] & _).
  - reflexivity.
  - apply demo_served.
  - reflexivity.
  - apply (chosen_drawn counting _ _ (demo_trans 0 []) 1); [done| |by vm_compute].
    intros i Hi. assert (i = 0) as -> by lia. by vm_compute.
  - lia.
  - exists w', def'. split; [exact Hr|]. split; [exact Hs|]. split; rewrite Hm; by vm_compute.
Defined.

Lemma unnoted_port_stuck_witness :
  exists w1, run (trans_step counting) (Reconcile any_label 2 ("ns", "t")) (demo_trans 443 [Works; Refused (errorf "conflict")]) =
      (w1, Err (errorf "conflict")) /\
    (run (trans_step counting) (Reconcile any_label 2 ("ns", "t")) w1).2 = Err (errorf "Source port 443 is already taken").
Proof.
  destruct (unnoted_port_stuck counting any_label 2 ("ns", "t") (demo_transport 443) "/ingress.yaml" demo_def
    (demo_trans 443 [Works; Refused (errorf "conflict")]) (errorf "conflict")) as (w1 & def' & Hr & _ & _ & Hk);
    [reflexivity|apply demo_served|reflexivity|done|by vm_compute|].
  exists w1. split; [exact Hr|]. exact (proj2 (proj2 (Hk 0))).
Defined.
