(* ===== verification/InstallerTypes.v ===== *)
(** * Installer: configuration types and their JSON form

    core/installer: derived.go, config.go, app.go.  Structs as records, their
    json tags as encoders and decoders that are inverse to each other. *)
From S2P Require Import Prelude GoLib GoStrings RepoIO.
Open Scope string_scope.
Open Scope list_scope.

Record Release := MkRelease {
  AppInstanceId : string;
  relNamespace : string;
  RepoAddr : string;
  AppDir : string;
}.

Record Network := MkNetwork {
  netName : string;
  IngressClass : string;
  CertificateIssuer : string;
  netDomain : string;
  AllocatePortAddr : string;
}.

#[export] Instance Network_eq_dec : EqDecision Network.
Proof. solve_decision. Defined.

(** IP addresses are kept in their text form. *)
Record EnvNetwork := MkEnvNetwork {
  DNS : string;
  DNSInClusterIP : string;
  Ingress : string;
  Headscale : string;
  ServicesFrom : string;
  ServicesTo : string;
}.

Record EnvConfig := MkEnvConfig {
  envId : string;
  InfraName : string;
  envDomain : string;
  PrivateDomain : string;
  ContactEmail : string;
  AdminPublicKey : string;
  PublicIP : list string;
  NameserverIP : list string;
  NamespacePrefix : string;
  envNetwork : EnvNetwork;
}.

Record AppInstanceConfig := MkAppConfig {
  cfgId : string;
  AppId : string;
  cfgEnv : EnvConfig;
  cfgRelease : Release;
  Values : json;     (* map[string]any, null when nil *)
  Input : json;
  cfgURL : string;
  Help : json;       (* []HelpDocument *)
  cfgIcon : string;
}.

Record PortForward := MkPortForward {
  Allocator : string;
  pfProtocol : string;
  pfSourcePort : Z;
  pfTargetService : string;
  pfTargetPort : Z;
}.

(** ** Encoders: the fields in the order of the struct *)

Definition omit_strs (k : string) (l : list string) : list (string * json) :=
  match l with [] => [] | _ => [(k, JArr (map JStr l))] end.

Definition encode_release (r : Release) : json :=
  JObj [("appInstanceId", JStr (AppInstanceId r)); ("namespace", JStr (relNamespace r));
        ("repoAddr", JStr (RepoAddr r)); ("appDir", JStr (AppDir r))].

Definition encode_network (n : Network) : json :=
  JObj (omit_str "name" (netName n) ++ omit_str "ingressClass" (IngressClass n) ++
        omit_str "certificateIssuer" (CertificateIssuer n) ++ omit_str "domain" (netDomain n) ++
        omit_str "allocatePortAddr" (AllocatePortAddr n)).

Definition encode_env_network (n : EnvNetwork) : json :=
  JObj (omit_str "dns" (DNS n) ++ omit_str "dnsInClusterIP" (DNSInClusterIP n) ++
        omit_str "ingress" (Ingress n) ++ omit_str "headscale" (Headscale n) ++
        omit_str "servicesFrom" (ServicesFrom n) ++ omit_str "servicesTo" (ServicesTo n)).

Definition encode_env (c : EnvConfig) : json :=
  JObj (omit_str "id" (envId c) ++ omit_str "pcloudEnvName" (InfraName c) ++ omit_str "domain" (envDomain c) ++
        omit_str "privateDomain" (PrivateDomain c) ++ omit_str "contactEmail" (ContactEmail c) ++
        omit_str "adminPublicKey" (AdminPublicKey c) ++ omit_strs "publicIP" (PublicIP c) ++
        omit_strs "nameserverIP" (NameserverIP c) ++ omit_str "namespacePrefix" (NamespacePrefix c) ++
        [("network", encode_env_network (envNetwork c))]).

Definition encode_app_config (c : AppInstanceConfig) : json :=
  JObj [("id", JStr (cfgId c)); ("appId", JStr (AppId c)); ("env", encode_env (cfgEnv c));
        ("release", encode_release (cfgRelease c)); ("values", Values c); ("input", Input c);
        ("url", JStr (cfgURL c)); ("help", Help c); ("icon", JStr (cfgIcon c))].

(** ** Decoders *)

Definition zero_release : Release := MkRelease "" "" "" "".
Definition zero_env_network : EnvNetwork := MkEnvNetwork "" "" "" "" "" "".
Definition zero_env : EnvConfig := MkEnvConfig "" "" "" "" "" "" [] [] "" zero_env_network.

Definition decode_release (v : json) : outcome Release :=
  i ← json_field "appInstanceId" json_string "" v;
  n ← json_field "namespace" json_string "" v;
  r ← json_field "repoAddr" json_string "" v;
  d ← json_field "appDir" json_string "" v;
  Ok (MkRelease i n r d).

Definition decode_env_network (v : json) : outcome EnvNetwork :=
  a ← json_field "dns" json_string "" v;
  b ← json_field "dnsInClusterIP" json_string "" v;
  c ← json_field "ingress" json_string "" v;
  d ← json_field "headscale" json_string "" v;
  e ← json_field "servicesFrom" json_string "" v;
  f ← json_field "servicesTo" json_string "" v;
  Ok (MkEnvNetwork a b c d e f).

Definition decode_env (v : json) : outcome EnvConfig :=
  a ← json_field "id" json_string "" v;
  b ← json_field "pcloudEnvName" json_string "" v;
  c ← json_field "domain" json_string "" v;
  d ← json_field "privateDomain" json_string "" v;
  e ← json_field "contactEmail" json_string "" v;
  f ← json_field "adminPublicKey" json_string "" v;
  g ← json_field "publicIP" (json_array json_string) [] v;
  h ← json_field "nameserverIP" (json_array json_string) [] v;
  i ← json_field "namespacePrefix" json_string "" v;
  j ← json_field "network" decode_env_network zero_env_network v;
  Ok (MkEnvConfig a b c d e f g h i j).

(** map[string]any, and a slice kept as it is. *)
Definition json_map (v : json) : outcome json :=
  match v with JObj _ | JNull => Ok v | _ => Err err_json end.
Definition json_slice (v : json) : outcome json :=
  match v with JArr _ | JNull => Ok v | _ => Err err_json end.

Definition decode_app_config (v : json) : outcome AppInstanceConfig :=
  a ← json_field "id" json_string "" v;
  b ← json_field "appId" json_string "" v;
  c ← json_field "env" decode_env zero_env v;
  d ← json_field "release" decode_release zero_release v;
  e ← json_field "values" json_map JNull v;
  f ← json_field "input" json_map JNull v;
  g ← json_field "url" json_string "" v;
  h ← json_field "help" json_slice JNull v;
  i ← json_field "icon" json_string "" v;
  Ok (MkAppConfig a b c d e f g h i).

(** ** Round trips *)

Lemma json_omit_hit k v rest :
  json_field k json_string "" (JObj rest) = Ok "" ->
  json_field k json_string "" (JObj (omit_str k v ++ rest)) = Ok v.
Proof.
  intros Hr. unfold omit_str. destruct (String.eqb_spec v "") as [->|]; [done|].
  cbn [app]. by rewrite json_field_hit.
Qed.

Lemma json_omit_miss {A} k k' (dec : json -> outcome A) z v rest :
  ToLower k' <> ToLower k ->
  json_field k dec z (JObj (omit_str k' v ++ rest)) = json_field k dec z (JObj rest).
Proof. intros Hk. unfold omit_str. destruct (String.eqb v ""); [done|]. cbn [app]. by rewrite json_field_miss. Qed.

Lemma json_omits_hit k l rest :
  json_field k (json_array json_string) [] (JObj rest) = Ok [] ->
  json_field k (json_array json_string) [] (JObj (omit_strs k l ++ rest)) = Ok l.
Proof.
  intros Hr. destruct l as [|x l]; [done|]. cbn [omit_strs app]. rewrite json_field_hit by done.
  apply json_list_strings.
Qed.

Lemma json_omits_miss {A} k k' (dec : json -> outcome A) z l rest :
  ToLower k' <> ToLower k ->
  json_field k dec z (JObj (omit_strs k' l ++ rest)) = json_field k dec z (JObj rest).
Proof. intros Hk. destruct l; [done|]. cbn [omit_strs app]. by rewrite json_field_miss. Qed.

Lemma omit_str_nil k v : omit_str k v = omit_str k v ++ [].
Proof. by rewrite (right_id_L [] (++)). Qed.

(** Evaluate one field of an encoded struct. *)
Ltac json_enc :=
  repeat first
    [ rewrite json_omit_miss by (vm_compute; discriminate)
    | rewrite json_omits_miss by (vm_compute; discriminate)
    | rewrite json_field_miss by (vm_compute; discriminate)
    | rewrite json_field_nil
    | rewrite json_omit_hit by json_enc
    | rewrite json_omits_hit by json_enc
    | rewrite json_field_hit by done ];
  try reflexivity.
Ltac json_bind := cbn [mbind outcome_bind json_string].

Lemma decode_encode_release r : decode_release (encode_release r) = Ok r.
Proof. destruct r. unfold decode_release, encode_release. cbn [AppInstanceId relNamespace RepoAddr AppDir].
  repeat (json_enc; json_bind). Qed.

Lemma decode_encode_env_network n : decode_env_network (encode_env_network n) = Ok n.
Proof.
  destruct n. unfold decode_env_network, encode_env_network. cbn [DNS DNSInClusterIP Ingress Headscale ServicesFrom ServicesTo].
  rewrite (omit_str_nil "servicesTo"). repeat (json_enc; json_bind).
Qed.

Lemma decode_encode_env c : decode_env (encode_env c) = Ok c.
Proof.
  destruct c as [a b c d e f g h i n]. unfold decode_env, encode_env.
  cbn [envId InfraName envDomain PrivateDomain ContactEmail AdminPublicKey PublicIP NameserverIP NamespacePrefix envNetwork].
  repeat (json_enc; json_bind).
  by rewrite decode_encode_env_network.
Qed.

(** Values of a map or slice type: null or the container. *)
Definition well_formed_config (c : AppInstanceConfig) : Prop :=
  json_map (Values c) = Ok (Values c) /\ json_map (Input c) = Ok (Input c) /\ json_slice (Help c) = Ok (Help c).

Lemma json_null_hit k (dec : json -> outcome json) v rest :
  dec v = Ok v -> json_field k dec JNull (JObj ((k, v) :: rest)) = Ok v.
Proof.
  intros Hd. unfold json_field. cbn [list_find fst]. rewrite decide_True by done. by destruct v.
Qed.

Lemma bind_ok {A B} (o : outcome A) (f : A -> outcome B) a r : o = Ok a -> f a = r -> (o ≫= f) = r.
Proof. by intros -> <-. Qed.

Lemma decode_encode_app_config c : well_formed_config c -> decode_app_config (encode_app_config c) = Ok c.
Proof.
  destruct c as [a b c d e f g h i]. intros (He & Hf & Hh). unfold decode_app_config, encode_app_config.
  cbn [cfgId AppId cfgEnv cfgRelease Values Input cfgURL Help cfgIcon] in *.
  eapply bind_ok; [by json_enc|]. eapply bind_ok; [by json_enc|].
  eapply bind_ok; [json_enc; by rewrite decode_encode_env|].
  eapply bind_ok; [json_enc; by rewrite decode_encode_release|].
  eapply bind_ok; [json_enc; by rewrite (json_null_hit "values" json_map e)|].
  eapply bind_ok; [json_enc; by rewrite (json_null_hit "input" json_map f)|].
  eapply bind_ok; [by json_enc|].
  eapply bind_ok; [json_enc; by rewrite (json_null_hit "help" json_slice h)|].
  eapply bind_ok; [by json_enc|]. by destruct d.
Qed.

(** ** Networks of an environment *)

Definition CreateNetworks (env : EnvConfig) : list Network :=
  [ MkNetwork "Public" (InfraName env +:+ "-ingress-public") (envId env +:+ "-public") (envDomain env)
      ("http://port-allocator." +:+ InfraName env +:+ "-ingress-public.svc.cluster.local/api/allocate");
    MkNetwork "Private" (envId env +:+ "-ingress-private") "" (PrivateDomain env)
      ("http://port-allocator." +:+ envId env +:+ "-ingress-private.svc.cluster.local/api/allocate") ].
