(* ===== verification/AppManager.v ===== *)
(** * The application manager (core/installer/app_manager.go)

    Installing, updating, finding and removing application instances in the Git
    repository of an environment, against the interfaces of the repository, of
    namespace creation and of the port allocator. *)
From S2P Require Import Prelude GoLib GoStrings GoPath RepoIO InstallerTypes.
Open Scope string_scope.
Open Scope list_scope.

Class NamespaceCreator (E : Type -> Type) := CreateNamespace : string -> go E unit.

(** http.Post of a JSON body; the status of the answer. *)
Class HttpPost (E : Type -> Type) := post_json : string -> json -> go E Z.

(** map[string][]byte; Go ranges over it in any order, so the order of the list
    is arbitrary. *)
Abbreviation CueAppData := (list (string * content)).

Record EnvAppRendered := MkRendered {
  rName : string;
  rPorts : list PortForward;
  rResources : CueAppData;
  rData : CueAppData;
  rConfig : AppInstanceConfig;
}.

Definition ErrorNotFound : error := MkErr KNotFound "not found".

(** Resource *)
Record Resource := MkResource { resName : string; resNamespace : string }.

(** extractHelm: yaml.Unmarshal of each resource, keeping its metadata. *)
Definition decode_metadata (v : json) : outcome Resource :=
  json_field "metadata" (fun m =>
    n ← json_field "name" json_string "" m;
    ns ← json_field "namespace" json_string "" m;
    Ok (MkResource n ns)) (MkResource "" "") v.

Fixpoint extractHelm (resources : CueAppData) : outcome (list Resource) :=
  match resources with
  | [] => Ok []
  | (_, c) :: rest =>
      match (v ← parsed c; decode_metadata v) with
      | Ok r => rs ← extractHelm rest; Ok (r :: rs)
      | Err e => Panic (emsg e)
      | Panic w => Panic w
      | Diverge => Diverge
      end
  end.

Section Manager.
Context {E : Type -> Type} `{!RepoIO E} `{!NamespaceCreator E} `{!HttpPost E}.

(** for p := filepath.Clean(path); p != "/"; ... *)
Fixpoint kustomization_loop (fuel : nat) (p : string) : go E unit :=
  if String.eqb p "/" then mret tt else
  match fuel with
  | 0 => Ret Diverge
  | S fuel' =>
      let '(parent, child) := split_last p in
      let kustPath := JoinPath [parent; "kustomization.yaml"] in
      kust ← (check k := ReadKustomization kustPath onerr e =>
                (if decide (ekind e = KNotExist) then mret NewKustomization else fail e) in mret k);
      _ ← WriteKustomization kustPath (AddResources kust [child]);
      kustomization_loop fuel' (Clean parent)
  end.

Definition createKustomizationChain (fuel : nat) (path : string) : go E unit :=
  kustomization_loop fuel (Clean path).

Definition forbidden (name : string) : bool :=
  String.eqb name "config.json" || String.eqb name "kustomization.yaml" || String.eqb name "resources".

Definition write_file (path : string) (c : content) : go E unit :=
  _ ← Writer path; WriteTo path c.

(** The function InstallApp hands to [repo.Do]. *)
Definition install_op (fuel : nat) (appDir name : string) (config : json) (resources data : CueAppData) : go E string :=
  _ ← RemoveDir appDir;
  let resourcesDir := JoinPath [appDir; "resources"] in
  _ ← CreateDir resourcesDir;
  _ ← WriteYaml (JoinPath [appDir; "config.yaml"]) config;
  _ ← WriteJson (JoinPath [appDir; "config.json"]) config;
  _ ← foreach (fun nc : string * content =>
        if forbidden nc.1 then fail (errorf (nc.1 +:+ " is forbidden"))
        else write_file (JoinPath [appDir; nc.1]) nc.2) data;
  _ ← createKustomizationChain fuel resourcesDir;
  _ ← foreach (fun nc : string * content => write_file (JoinPath [resourcesDir; nc.1]) nc.2) resources;
  _ ← WriteKustomization (JoinPath [resourcesDir; "kustomization.yaml"])
        (AddResources NewKustomization (map fst resources));
  mret ("install: " +:+ name).

Definition InstallApp (fuel : nat) (appDir name : string) (config : json) (resources data : CueAppData)
    (NoCommit : bool) : go E unit :=
  Do (install_op fuel appDir name config resources data) NoCommit.

Definition encode_port (p : PortForward) : json :=
  JObj [("protocol", JStr (pfProtocol p)); ("sourcePort", JNum (pfSourcePort p));
        ("targetService", JStr (pfTargetService p)); ("targetPort", JNum (pfTargetPort p))].

Definition openPorts (ports : list PortForward) : go E unit :=
  foreach (fun p =>
    status ← post_json (Allocator p) (encode_port p);
    if negb (Z.eqb status StatusOK) then
      fail (errorf ("Could not allocate port " +:+ Itoa (pfSourcePort p) +:+ ", status code: " +:+ Itoa status))
    else mret tt) ports.

Section App.
Context (appDirRoot : string).
(** EnvApp.Render: the evaluation of the CUE definition of the app, on values of
    the type the caller has them in. *)
Context {V : Type} (Render : Release -> EnvConfig -> V -> outcome EnvAppRendered).

(** UnmarshalStrict of config.yaml. *)
Definition env_fields : list string :=
  ["id"; "pcloudEnvName"; "domain"; "privateDomain"; "contactEmail"; "adminPublicKey"; "publicIP";
   "nameserverIP"; "namespacePrefix"; "network"].

Definition decode_env_strict (v : json) : outcome EnvConfig :=
  if negb (known_fields env_fields v) then Err (errorf "unknown field") else decode_env v.

Definition Config : go E EnvConfig := ReadYaml decode_env_strict "config.yaml".

Definition appConfig (path : string) : go E AppInstanceConfig := ReadJson decode_app_config path.

Definition with_id (id : string) (c : AppInstanceConfig) : AppInstanceConfig :=
  MkAppConfig id (AppId c) (cfgEnv c) (cfgRelease c) (Values c) (Input c) (cfgURL c) (Help c) (cfgIcon c).

Definition root_kustomization : string := JoinPath [appDirRoot; "kustomization.yaml"].
Definition instance_config (id : string) : string := JoinPath [appDirRoot; id; "config.json"].

(** for _, app := range kust.Resources: the configurations that [keep] wants. *)
Fixpoint collect (keep : AppInstanceConfig -> bool) (apps : list string) : go E (list AppInstanceConfig) :=
  match apps with
  | [] => mret []
  | app :: apps' =>
      cfg ← appConfig (instance_config app);
      rest ← collect keep apps';
      let cfg := with_id app cfg in
      mret (if keep cfg then cfg :: rest else rest)
  end.

Definition ignore_error (m : go E unit) : go E unit :=
  check _u := m onerr _e => mret tt in mret tt.

Definition FindAllInstances : go E (list AppInstanceConfig) :=
  _ ← ignore_error Pull;
  kust ← ReadKustomization root_kustomization;
  collect (fun _ => true) (kResources kust).

Definition FindAllAppInstances (name : string) : go E (list AppInstanceConfig) :=
  kust ← ReadKustomization root_kustomization;
  collect (fun cfg => String.eqb (AppId cfg) name) (kResources kust).

Definition FindInstance (id : string) : go E AppInstanceConfig :=
  kust ← ReadKustomization root_kustomization;
  (fix loop (apps : list string) : go E AppInstanceConfig :=
    match apps with
    | [] => fail ErrorNotFound
    | app :: apps' =>
        if String.eqb app id then
          cfg ← appConfig (instance_config app);
          mret (with_id id cfg)
        else loop apps'
    end) (kResources kust).

Definition AppConfig (name : string) : go E AppInstanceConfig := ReadJson decode_app_config (instance_config name).

Definition Install (fuel : nat) (instanceId appDir namespace : string) (values : V) : go E (list Resource) :=
  let appDir := Clean appDir in
  _ ← Pull;
  _ ← CreateNamespace namespace;
  env ← Config;
  rendered ← lift (Render (MkRelease instanceId namespace FullAddress appDir) env values);
  _ ← InstallApp fuel appDir (rName rendered) (encode_app_config (rConfig rendered))
        (rResources rendered) (rData rendered) false;
  _ ← openPorts (rPorts rendered);
  lift (extractHelm (rResources rendered)).

Definition Update (fuel : nat) (instanceId : string) (values : V) (NoCommit : bool) : go E unit :=
  _ ← Pull;
  env ← Config;
  let instanceDir := JoinPath [appDirRoot; instanceId] in
  config ← appConfig (JoinPath [instanceDir; "config.json"]);
  rendered ← lift (Render (MkRelease instanceId (relNamespace (cfgRelease config)) FullAddress instanceDir) env values);
  InstallApp fuel instanceDir (rName rendered) (encode_app_config (rConfig rendered))
    (rResources rendered) (rData rendered) NoCommit.

(** The errors of RemoveDir and of the last WriteYaml are dropped. *)
Definition remove_op (instanceId : string) : go E string :=
  _ ← ignore_error (RemoveDir (JoinPath [appDirRoot; instanceId]));
  kust ← ReadKustomization root_kustomization;
  _ ← ignore_error (WriteKustomization root_kustomization (RemoveResources kust [instanceId]));
  mret ("uninstall: " +:+ instanceId).

Definition Remove (instanceId : string) : go E unit :=
  _ ← Pull; Do (remove_op instanceId) false.
End App.
End Manager.

(** ** A world: a repository, a cluster, and port allocators *)

Inductive appE : Type -> Type :=
  | OnRepo {X} (e : repoE X) : appE X
  | CreateNs (name : string) : appE (outcome unit)
  | PostPort (addr : string) (body : json) : appE (outcome Z).

Abbreviation on_repo := (embed (@OnRepo)).

Definition app_repo (addr : string) : RepoIO appE := repo_in (@OnRepo) addr.

#[export] Instance app_ns : NamespaceCreator appE := fun name => call (CreateNs name).
#[export] Instance app_post : HttpPost appE := fun addr body => call (PostPort addr body).

Record world := MkWorld { w_repo : repo_state; w_ns : list string; w_ports : list (string * json) }.

(** The repository does not fail; namespaces and ports are answered as given. *)
Record answers := MkAnswers { ns_answer : string -> outcome unit; port_answer : string -> json -> outcome Z }.

Definition app_step (a : answers) : handler appE world := fun X e w =>
  match e in appE X return world * X with
  | OnRepo e => let '(s, x) := repo_step (fun _ => None) _ e (w_repo w) in (MkWorld s (w_ns w) (w_ports w), x)
  | CreateNs n => (MkWorld (w_repo w) (w_ns w ++ [n]) (w_ports w), ns_answer a n)
  | PostPort addr b => (MkWorld (w_repo w) (w_ns w) (w_ports w ++ [(addr, b)]), port_answer a addr b)
  end.

Lemma run_on_repo a {A} (p : prog repoE A) w :
  run (app_step a) (on_repo p) w =
    let '(s, x) := run (repo_step (fun _ => None)) p (w_repo w) in (MkWorld s (w_ns w) (w_ports w), x).
Proof.
  by rewrite (run_embed (@OnRepo) (repo_step (fun _ => None)) (app_step a) w_repo
    (fun s w => MkWorld s (w_ns w) (w_ports w))) by (try intros []; done).
Qed.

(** ** What a program does to the work tree *)

Abbreviation tree := (gmap string content).

Definition set_tree (f : tree) (n : nat) (w : world) : world :=
  MkWorld (on_files f n (w_repo w)) (w_ns w) (w_ports w).

Lemma clean_set_tree n w : clean (w_repo w) -> clean (w_repo (set_tree (files (w_repo w)) n w)).
Proof. destruct w as [[f h r l m b] ns ports]. unfold clean. cbn. by intros [= -> ->]. Qed.

Section Does.
Context (addr : string) (a : answers).
#[local] Instance R : RepoIO appE := app_repo addr.

(** From the work tree [f] the program answers [o] and leaves [f'], and
    touches nothing else. *)
Definition does {A} (p : go appE A) (f : tree) (o : outcome A) (f' : tree) : Prop :=
  forall w, files (w_repo w) = f -> exists n, run (app_step a) p w = (set_tree f' n w, o).

Lemma does_ret {A} (o : outcome A) f : does (Ret o) f o f.
Proof. intros [[] ? ?] <-. by eexists. Qed.

Lemma does_mbind {A B} (p : go appE A) (k : A -> go appE B) f x f1 o f2 :
  does p f (Ok x) f1 -> does (k x) f1 o f2 -> does (p ≫= k) f o f2.
Proof.
  intros Hp Hk w Hw. rewrite run_mbind. destruct (Hp w Hw) as [n ->].
  destruct (Hk (set_tree f1 n w) eq_refl) as [m ->]. by exists m.
Qed.

Lemma does_handle {A B} (p : go appE A) (c : error -> go appE B) (k : A -> go appE B) f x f1 o f2 :
  does p f (Ok x) f1 -> does (k x) f1 o f2 -> does (handle p c k) f o f2.
Proof.
  intros Hp Hk w Hw. rewrite run_handle. destruct (Hp w Hw) as [n ->].
  destruct (Hk (set_tree f1 n w) eq_refl) as [m ->]. by exists m.
Qed.

Lemma does_catch {A B} (p : go appE A) (c : error -> go appE B) (k : A -> go appE B) f e f1 o f2 :
  does p f (Err e) f1 -> does (c e) f1 o f2 -> does (handle p c k) f o f2.
Proof.
  intros Hp Hk w Hw. rewrite run_handle. destruct (Hp w Hw) as [n ->].
  destruct (Hk (set_tree f1 n w) eq_refl) as [m ->]. by exists m.
Qed.

Lemma does_mbind_err {A B} (p : go appE A) (k : A -> go appE B) f e f1 :
  does p f (Err e) f1 -> does (p ≫= k) f (Err e) f1.
Proof. intros Hp w Hw. rewrite run_mbind. destruct (Hp w Hw) as [n ->]. by exists n. Qed.

Lemma does_on_repo {A} (p : go repoE A) f o f' :
  (forall s, files s = f -> exists n, run (repo_step (fun _ => None)) p s = (on_files f' n s, o)) ->
  does (on_repo p) f o f'.
Proof.
  intros Hp w Hw. rewrite run_on_repo. destruct (Hp (w_repo w) Hw) as [n ->]. by exists n.
Qed.

Lemma does_Reader p c f : f !! fs_key p = Some c -> does (@Reader _ R p) f (Ok c) f.
Proof. intros Hc. apply does_on_repo. intros s <-. eexists. cbn. by rewrite Hc. Qed.

Lemma does_Reader_missing p f :
  f !! fs_key p = None -> does (@Reader _ R p) f (Err (MkErr KNotExist "file does not exist")) f.
Proof. intros Hc. apply does_on_repo. intros s <-. eexists. cbn. by rewrite Hc. Qed.

Lemma does_read {A} (dec : json -> outcome A) p c x f :
  f !! fs_key p = Some c -> (v ← parsed c; dec v) = Ok x -> does (ReadYaml (RepoIO0 := R) dec p) f (Ok x) f.
Proof. intros Hc Hx. eapply does_mbind; [by apply does_Reader|]. unfold lift. rewrite Hx. apply does_ret. Qed.

Lemma does_read_missing {A} (dec : json -> outcome A) p f :
  f !! fs_key p = None -> does (ReadYaml (RepoIO0 := R) dec p) f (Err (MkErr KNotExist "file does not exist")) f.
Proof. intros Hc. by apply does_mbind_err, does_Reader_missing. Qed.

Lemma does_write p c f : does (write_file (RepoIO0 := R) p c) f (Ok tt) (<[fs_key p := c]> f).
Proof.
  apply does_mbind with tt (<[fs_key p := Raw "" (Ok JNull)]> f); apply does_on_repo; intros s Hs.
  - eexists. cbn. unfold with_files. cbn. by rewrite Hs.
  - exists (S (ops s)). cbn. unfold with_files. by rewrite Hs, insert_insert_eq.
Qed.

Lemma does_WriteYaml p v f : does (WriteYaml (RepoIO0 := R) p v) f (Ok tt) (<[fs_key p := Doc v]> f).
Proof. apply does_write. Qed.

Definition without (dir : string) (f : tree) : tree := filter (fun kv => under dir kv.1 = false) f.

Lemma does_RemoveDir p f : does (@RemoveDir _ R p) f (Ok tt) (without (fs_key p) f).
Proof. apply does_on_repo. intros s <-. by eexists. Qed.

Lemma does_CreateDir p f : does (@CreateDir _ R p) f (Ok tt) f.
Proof. apply does_on_repo. intros s <-. by eexists. Qed.

(** Files written one after the other. *)
Definition put_all (path : string -> string) (l : CueAppData) (f : tree) : tree :=
  foldl (fun f nc => <[fs_key (path nc.1) := nc.2]> f) f l.

Lemma does_put_all (g : string * content -> go appE unit) path l f :
  (forall nc f, nc ∈ l -> does (g nc) f (Ok tt) (<[fs_key (path nc.1) := nc.2]> f)) ->
  does (foreach g l) f (Ok tt) (put_all path l f).
Proof.
  revert f. induction l as [|nc l IH]; intros f Hg; [apply does_ret|].
  cbn [foreach]. eapply does_mbind; [apply Hg; by left|]. apply IH. intros nc' f' Hin. apply Hg. by right.
Qed.

(** ** The chain of kustomization files *)

Definition kust_key (dir : list string) : string := abs_path (dir ++ ["kustomization.yaml"]).

Lemma seg_ok_kustomization : seg_ok "kustomization.yaml".
Proof. split_and!; done. Qed.

Lemma fs_key_abs segs : Forall seg_ok segs -> fs_key (abs_path segs) = abs_path segs.
Proof.
  intros Hs. pose proof Hs as (l & Hl & Hln & Hf & Hor)%Split_abs'. unfold fs_key.
  change ("/" +:+ abs_path segs) with (String slash (abs_path segs)).
  rewrite (Clean_abs _ ("" :: l)); [|cbn [Split]; by rewrite Ascii.eqb_refl, Hl|done|constructor; [by left|done]].
  by rewrite filter_cons_False by naive_solver; rewrite Hf.
Qed.

(** The kustomization at a key: a missing file is a new one. *)
Definition kust_at (f : tree) (key : string) : option Kustomization :=
  match f !! key with
  | None => Some NewKustomization
  | Some c => match (v ← parsed c; decode_kust v) with Ok k => Some k | _ => None end
  end.

Definition link (f : tree) (dir : list string) (child : string) : tree :=
  match kust_at f (kust_key dir) with
  | Some k => <[kust_key dir := Doc (encode_kust (AddResource k child))]> f
  | None => f
  end.

(** From the last name of the path up to the root. *)
Fixpoint chain (rsegs : list string) (f : tree) : tree :=
  match rsegs with
  | [] => f
  | x :: rsegs' => chain rsegs' (link f (rev rsegs') x)
  end.

Definition kusts_ok (f : tree) : Prop := forall key, is_Some (kust_at f key) \/ forall dir, key <> kust_key dir.

Lemma kust_at_doc f key k : f !! key = Some (Doc (encode_kust k)) -> kust_at f key = Some k.
Proof. intros Hf. unfold kust_at. rewrite Hf. cbn [parsed mbind outcome_bind]. by rewrite decode_encode_kust. Qed.

Lemma kusts_ok_insert f dir k : kusts_ok f -> kusts_ok (<[kust_key dir := Doc (encode_kust k)]> f).
Proof.
  intros Hok key. destruct (decide (key = kust_key dir)) as [->|Hne].
  - left. exists k. apply kust_at_doc. by rewrite lookup_insert_eq.
  - destruct (Hok key) as [Hs|]; [left|by right]. unfold kust_at in *. by rewrite lookup_insert_ne.
Qed.

Lemma kusts_ok_link f dir x : kusts_ok f -> kusts_ok (link f dir x).
Proof. intros Hok. unfold link. destruct (kust_at f _); [by apply kusts_ok_insert|done]. Qed.

Lemma kusts_ok_at f dir : kusts_ok f -> exists k, kust_at f (kust_key dir) = Some k.
Proof. intros Hok. destruct (Hok (kust_key dir)) as [[k Hk]|Hn]; [eauto|by destruct (Hn dir)]. Qed.

Lemma does_link_at f k x kustPath :
  kust_at f (fs_key kustPath) = Some k ->
  does (kust ← (check k := ReadKustomization kustPath onerr e =>
                  (if decide (ekind e = KNotExist) then mret NewKustomization else fail e) in mret k);
        WriteKustomization kustPath (AddResources kust [x])) f (Ok tt)
    (<[fs_key kustPath := Doc (encode_kust (AddResource k x))]> f).
Proof.
  intros Hk. apply does_mbind with k f; [|apply does_WriteYaml].
  unfold kust_at in Hk. destruct (f !! fs_key kustPath) as [c|] eqn:Hf.
  - destruct (v ← parsed c; decode_kust v) as [k'| | |] eqn:Hd; simplify_eq.
    eapply does_handle; [by eapply does_read|apply does_ret].
  - simplify_eq. eapply does_catch; [by apply does_read_missing|].
    cbn [ekind]. rewrite decide_True by done. apply does_ret.
Qed.

Lemma does_link f dir x kustPath :
  kusts_ok f -> fs_key kustPath = kust_key dir ->
  does (kust ← (check k := ReadKustomization kustPath onerr e =>
                  (if decide (ekind e = KNotExist) then mret NewKustomization else fail e) in mret k);
        WriteKustomization kustPath (AddResources kust [x])) f (Ok tt) (link f dir x).
Proof.
  intros Hok Hkey. destruct (kusts_ok_at f dir Hok) as [k Hk]. unfold link. rewrite Hk, <- Hkey.
  apply does_link_at. by rewrite Hkey.
Qed.

(** A bind of a bind, as the loop writes it. *)
Lemma does_assoc {A B C} (m : go appE A) (k : A -> go appE B) (k' : go appE C) f x f1 o f2 :
  does (m ≫= k) f (Ok x) f1 -> does k' f1 o f2 -> does (m ≫= fun a => k a ≫= fun _ => k') f o f2.
Proof.
  intros Hm Hk w Hw. destruct (Hm w Hw) as [n Hn]. rewrite run_mbind.  rewrite run_mbind in Hn.
  destruct (run _ m w) as [w1 [y|e|z|]]; simplify_eq. rewrite run_mbind, Hn.
  destruct (Hk (set_tree f1 n w) eq_refl) as [j ->]. by exists j.
Qed.

Lemma does_chain fuel rsegs f :
  Forall seg_ok (rev rsegs) -> kusts_ok f -> length rsegs <= fuel ->
  does (kustomization_loop fuel (abs_path (rev rsegs))) f (Ok tt) (chain rsegs f).
Proof.
  revert fuel f. induction rsegs as [|x rsegs IH]; intros fuel f Hs Hok Hf.
  - destruct fuel; apply does_ret.
  - destruct fuel as [|fuel]; [simpl in Hf; lia|]. cbn [rev] in Hs |- *. cbn [kustomization_loop].
    rewrite (proj2 (String.eqb_neq _ _) (abs_path_neq (rev rsegs ++ [x]) Hs ltac:(by destruct (rev rsegs)))).
    destruct (split_last_abs (rev rsegs) x Hs) as (parent & -> & Hclean & Hparent).
    pose proof Hs as [Hr _]%Forall_app.
    assert (Hk : Forall seg_ok (rev rsegs ++ ["kustomization.yaml"])).
    { apply Forall_app. split; [done|]. constructor; [apply seg_ok_kustomization|constructor]. }
    assert (Hkey : fs_key (JoinPath [parent; "kustomization.yaml"]) = kust_key (rev rsegs)).
    { rewrite (JoinPath_dir (rev rsegs) "kustomization.yaml" parent Hk Hparent). by apply fs_key_abs. }
    eapply does_assoc; [by apply does_link|]. rewrite Hclean. apply IH; [done|by apply kusts_ok_link|simpl in Hf; lia].
Qed.
(** *** What the chain contains *)

Lemma kust_key_inj d d' : Forall seg_ok d -> Forall seg_ok d' -> kust_key d = kust_key d' -> d = d'.
Proof.
  intros Hd Hd' He.
  assert (Hk : forall d, Forall seg_ok d -> Forall seg_ok (d ++ ["kustomization.yaml"])).
  { intros x Hx. apply Forall_app. split; [done|]. constructor; [apply seg_ok_kustomization|constructor]. }
  pose proof (Split_abs _ (Hk d Hd) ltac:(by destruct d)) as H1.
  pose proof (Split_abs _ (Hk d' Hd') ltac:(by destruct d')) as H2.
  unfold kust_key in He. rewrite He, H2 in H1. injection H1 as H1. by apply app_inj_tail in H1 as [-> _].
Qed.

Lemma link_other f dir x key : key <> kust_key dir -> link f dir x !! key = f !! key.
Proof. intros Hne. unfold link. destruct (kust_at f _); [|done]. by rewrite lookup_insert_ne. Qed.

Lemma chain_other rsegs f key :
  (forall dir rest, rev rsegs = dir ++ rest -> rest <> [] -> key <> kust_key dir) -> chain rsegs f !! key = f !! key.
Proof.
  revert f. induction rsegs as [|x rsegs IH]; intros f Hk; [done|]. cbn [chain].
  rewrite IH; [apply link_other, (Hk (rev rsegs) [x]); done|].
  intros dir rest Hr Hne. apply (Hk dir (rest ++ [x])); [|by destruct rest].
  cbn [rev]. by rewrite Hr, <- (assoc_L (++)).
Qed.

(** Every directory of the path lists the next name, after what it listed. *)
Lemma chain_links rsegs f dir x rest :
  Forall seg_ok (rev rsegs) -> kusts_ok f -> rev rsegs = dir ++ x :: rest ->
  exists k, kust_at f (kust_key dir) = Some k /\
    chain rsegs f !! kust_key dir = Some (Doc (encode_kust (AddResource k x))).
Proof.
  revert f rest. induction rsegs as [|y rsegs IH]; intros f rest Hs Hok He; [by destruct dir|].
  cbn [rev chain] in *. pose proof Hs as [Hr Hy]%Forall_app.
  assert (Hd : Forall seg_ok dir) by (rewrite He in Hs; by apply Forall_app in Hs as [? _]).
  destruct rest as [|z rest _] using rev_ind.
  - apply app_inj_tail in He as [<- ->]. destruct (kusts_ok_at f (rev rsegs) Hok) as [k Hk].
    exists k. split; [done|]. rewrite chain_other.
    + unfold link. by rewrite Hk, lookup_insert_eq.
    + intros dir rest He Hne Hkey. apply kust_key_inj in Hkey; [|done|].
      * rewrite Hkey in He at 1. apply (f_equal length) in He. rewrite length_app in He.
        destruct rest; [done|]. simpl in He. lia.
      * rewrite He in Hr. by apply Forall_app in Hr as [? _].
  - rewrite app_comm_cons, (assoc_L (++)) in He. apply app_inj_tail in He as [He ->].
    destruct (IH (link f (rev rsegs) z) rest) as (k & Hk & Hc); [done|by apply kusts_ok_link|done|].
    exists k. split; [|done]. rewrite <- Hk. unfold kust_at. rewrite link_other; [done|].
    intros Hkey. apply kust_key_inj in Hkey; [|done..].
    rewrite <- Hkey in He. apply (f_equal length) in He. rewrite length_app in He. simpl in He. lia.
Qed.
(** *** Installing *)

Definition file_key (segs : list string) (n : string) : string := abs_path (segs ++ [n]).

Lemma Forall_snoc segs x : Forall seg_ok segs -> seg_ok x -> Forall seg_ok (segs ++ [x]).
Proof. intros Hs Hx. apply Forall_app. split; [done|]. by constructor. Qed.

Lemma key_file segs n : Forall seg_ok segs -> seg_ok n -> fs_key (JoinPath [abs_path segs; n]) = file_key segs n.
Proof. intros Hs Hn. rewrite JoinPath_abs by by apply Forall_snoc. apply fs_key_abs. by apply Forall_snoc. Qed.

Definition put_keys (segs : list string) (l : CueAppData) (f : tree) : tree :=
  foldl (fun f nc => <[file_key segs nc.1 := nc.2]> f) f l.

Definition names_ok (l : CueAppData) : Prop := Forall (fun nc => seg_ok nc.1) l.

Lemma put_all_keys segs l f :
  Forall seg_ok segs -> names_ok l -> put_all (fun n => JoinPath [abs_path segs; n]) l f = put_keys segs l f.
Proof.
  intros Hs. revert f. induction l as [|nc l IH]; intros f Hl; [done|]. apply Forall_cons in Hl as [Hn Hl].
  unfold put_all, put_keys in *. cbn [foldl]. rewrite key_file by done. by apply IH.
Qed.

Lemma put_keys_other segs l f key : (forall n, n ∈ map fst l -> key <> file_key segs n) -> put_keys segs l f !! key = f !! key.
Proof.
  revert f. induction l as [|nc l IH]; intros f Hk; [done|]. unfold put_keys in *. cbn [foldl].
  rewrite IH; [|intros n Hn; apply Hk; by right]. apply lookup_insert_ne. symmetry. apply Hk. by left.
Qed.

Lemma put_keys_in segs l f n c :
  Forall seg_ok segs -> names_ok l -> NoDup (map fst l) -> (n, c) ∈ l ->
  put_keys segs l f !! file_key segs n = Some c.
Proof.
  intros Hs. revert f. induction l as [|nc l IH]; intros f Hl Hd Hin; [by apply not_elem_of_nil in Hin|].
  apply Forall_cons in Hl as [Hn Hl]. cbn [map] in Hd. apply NoDup_cons in Hd as [Hnd Hd].
  unfold put_keys in *. cbn [foldl]. apply elem_of_cons in Hin as [<-|Hin]; [|by apply IH].
  cbn [fst snd]. fold (put_keys segs l (<[file_key segs n := c]> f)).
  rewrite put_keys_other; [apply lookup_insert_eq|].
  intros m Hm He. apply abs_path_inj in He; [| |].
  - apply app_inj_tail in He as [_ <-]. done.
  - by apply Forall_snoc.
  - apply Forall_snoc; [done|]. apply list_elem_of_fmap in Hm as ([m' c'] & -> & Hm).
    unfold names_ok in Hl. rewrite Forall_forall in Hl. by apply (Hl _ Hm).
Qed.

(** The work tree an installation makes of [f]. *)
Definition install_tree (segs : list string) (config : json) (resources data : CueAppData) (f : tree) : tree :=
  let res := segs ++ ["resources"] in
  let f := without (abs_path segs) f in
  let f := <[file_key segs "config.yaml" := Doc config]> f in
  let f := <[file_key segs "config.json" := Doc config]> f in
  let f := put_keys segs data f in
  let f := chain (rev res) f in
  let f := put_keys res resources f in
  <[kust_key res := Doc (encode_kust (AddResources NewKustomization (map fst resources)))]> f.

Lemma not_kust_key segs n dir : no_char slash n -> n <> "kustomization.yaml" -> file_key segs n <> kust_key dir.
Proof. intros Hn Hne. by apply abs_path_last_neq. Qed.

Lemma kusts_ok_put segs n c f :
  no_char slash n -> n <> "kustomization.yaml" -> kusts_ok f -> kusts_ok (<[file_key segs n := c]> f).
Proof.
  intros Hn Hne Hok key. destruct (decide (key = file_key segs n)) as [->|Hk].
  - right. intros dir. by apply not_kust_key.
  - destruct (Hok key) as [Hs|]; [left|by right]. unfold kust_at in *. by rewrite lookup_insert_ne.
Qed.

Lemma kusts_ok_without dir f : kusts_ok f -> kusts_ok (without dir f).
Proof.
  intros Hok key. destruct (Hok key) as [Hs|]; [left|by right]. unfold kust_at, without in *.
  destruct (filter _ f !! key) as [c|] eqn:Hl; [|by eexists].
  apply map_lookup_filter_Some in Hl as [Hl _]. by rewrite Hl in Hs.
Qed.

Definition data_ok (data : CueAppData) : Prop :=
  names_ok data /\ NoDup (map fst data) /\ forall n, n ∈ map fst data -> forbidden n = false.

Lemma data_ok_cons nc l : data_ok (nc :: l) -> seg_ok nc.1 /\ forbidden nc.1 = false /\ data_ok l.
Proof.
  intros ([Hn Hl]%Forall_cons & [_ Hd]%NoDup_cons & Hf). split; [done|]. split; [apply Hf; by left|].
  split_and!; [done|done|]. intros n Hin. apply Hf. by right.
Qed.

Lemma kusts_ok_put_keys segs l f : data_ok l -> kusts_ok f -> kusts_ok (put_keys segs l f).
Proof.
  revert f. induction l as [|nc l IH]; intros f Hd Hok; [done|]. apply data_ok_cons in Hd as (Hn & Hf & Hd).
  unfold put_keys. cbn [foldl]. apply IH; [done|]. apply kusts_ok_put; [apply Hn| |done].
  intros He. by rewrite He in Hf.
Qed.

Lemma does_install fuel segs name config resources data f :
  Forall seg_ok segs -> segs <> [] -> kusts_ok f -> data_ok data -> names_ok resources -> length segs < fuel ->
  does (install_op (RepoIO0 := R) fuel (abs_path segs) name config resources data) f
    (Ok ("install: " +:+ name)) (install_tree segs config resources data f).
Proof.
  intros Hs Hne Hok Hd Hr Hf. unfold install_op.
  assert (Hres : Forall seg_ok (segs ++ ["resources"])) by by apply Forall_snoc.
  rewrite (JoinPath_abs segs "resources") by done.
  eapply does_mbind; [apply does_RemoveDir|]. rewrite fs_key_abs by done.
  eapply does_mbind; [apply does_CreateDir|].
  eapply does_mbind; [apply does_WriteYaml|]. rewrite key_file by done.
  eapply does_mbind; [apply does_WriteYaml|]. rewrite key_file by done.
  eapply does_mbind.
  { apply (does_put_all _ (fun n => JoinPath [abs_path segs; n])). intros nc f' Hnc.
    rewrite (proj2 (proj2 Hd) nc.1) by (apply list_elem_of_fmap; eauto). apply does_write. }
  rewrite put_all_keys by (done || apply Hd).
  eapply does_mbind.
  { unfold createKustomizationChain. rewrite Clean_abs_path by done.
    rewrite <- (rev_involutive (segs ++ ["resources"])) at 1. apply does_chain.
    - by rewrite rev_involutive.
    - apply kusts_ok_put_keys; [done|]. by apply kusts_ok_put, kusts_ok_put, kusts_ok_without.
    - rewrite length_rev, length_app. simpl. lia. }
  eapply does_mbind.
  { apply (does_put_all _ (fun n => JoinPath [abs_path (segs ++ ["resources"]); n])). intros nc f' _. apply does_write. }
  rewrite put_all_keys by done.
  eapply does_mbind; [apply does_WriteYaml|]. rewrite key_file by (done || apply seg_ok_kustomization).
  apply does_ret.
Qed.
(** *** Commits *)

Definition committed (T : tree) (msg : string) (n : nat) (w : world) : world :=
  MkWorld (MkRepo T T T (log (w_repo w) ++ [msg]) n) (w_ns w) (w_ports w).

(** The checkout after a pull. *)
Definition checked_out (n : nat) (w : world) : world :=
  MkWorld (MkRepo (remote (w_repo w)) (remote (w_repo w)) (remote (w_repo w)) (log (w_repo w)) n) (w_ns w) (w_ports w).

Lemma run_Do (op : go appE string) msg T w :
  clean (w_repo w) -> does op (remote (w_repo w)) (Ok msg) T ->
  exists n, run (app_step a) (@Do _ R op false) w = (committed T msg n w, Ok tt).
Proof.
  intros Hclean Hop. cbn [Do R app_repo repo_in]. rewrite run_mbind, run_on_repo, run_pullWithoutLock by done.
  rewrite run_mbind. destruct (Hop (checked_out (S (ops (w_repo w))) w) eq_refl) as [n Hn].
  unfold checked_out in Hn. rewrite Hn. cbn [negb]. rewrite run_on_repo, run_CommitAndPush by done. by eexists.
Qed.

Lemma run_Pull w : clean (w_repo w) -> exists n, run (app_step a) (@Pull _ R) w = (checked_out n w, Ok tt).
Proof.
  intros Hclean. cbn [Pull R app_repo repo_in]. rewrite run_on_repo. unfold repo.Pull.
  rewrite run_pullWithoutLock by done. by eexists.
Qed.

(** *** Finding *)

Section Find.
Context (root : list string) (Hroot : Forall seg_ok root).

Lemma root_key : fs_key (root_kustomization (abs_path root)) = kust_key root.
Proof using Hroot. unfold root_kustomization. rewrite key_file by (done || apply seg_ok_kustomization). done. Qed.

Definition config_key (id : string) : string := abs_path (root ++ [id; "config.json"]).

Lemma instance_key id : seg_ok id -> fs_key (instance_config (abs_path root) id) = config_key id.
Proof using Hroot.
  intros Hid. assert (Forall seg_ok (root ++ [id; "config.json"])).
  { apply Forall_app. split; [done|]. constructor; [done|]. apply Forall_singleton. by split_and!. }
  unfold instance_config. rewrite JoinPath_abs2 by done. by apply fs_key_abs.
Qed.

(** FindInstance as a function of the work tree. *)
Definition read_doc {A} (dec : json -> outcome A) (key : string) (f : tree) : outcome A :=
  match f !! key with
  | Some c => v ← parsed c; dec v
  | None => Err (MkErr KNotExist "file does not exist")
  end.

Definition find_instance_in (f : tree) (id : string) : outcome AppInstanceConfig :=
  k ← read_doc decode_kust (kust_key root) f;
  if decide (id ∈ kResources k) then
    cfg ← read_doc decode_app_config (fs_key (instance_config (abs_path root) id)) f;
    Ok (with_id id cfg)
  else Err ErrorNotFound.

Lemma does_read_doc {A} (dec : json -> outcome A) p f :
  does (ReadYaml (RepoIO0 := R) dec p) f (read_doc dec (fs_key p) f) f.
Proof.
  unfold read_doc. destruct (f !! fs_key p) as [c|] eqn:Hc; [|by apply does_read_missing].
  unfold ReadYaml. eapply does_mbind; [by apply does_Reader|]. unfold lift. apply does_ret.
Qed.

Lemma does_mbind_any {A B} (p : go appE A) (k : A -> go appE B) f o f1 (g : A -> outcome B) :
  does p f o f1 -> (forall x, o = Ok x -> does (k x) f1 (g x) f1) -> does (p ≫= k) f (o ≫= g) f1.
Proof.
  intros Hp Hk. destruct o as [x|e|y|].
  - eapply does_mbind; [exact Hp|]. by apply Hk.
  - by apply does_mbind_err.
  - intros w Hw. rewrite run_mbind. destruct (Hp w Hw) as [n ->]. by exists n.
  - intros w Hw. rewrite run_mbind. destruct (Hp w Hw) as [n ->]. by exists n.
Qed.

Lemma does_FindInstance f id : does (FindInstance (RepoIO0 := R) (abs_path root) id) f (find_instance_in f id) f.
Proof using Hroot.
  unfold FindInstance, find_instance_in. apply does_mbind_any.
  { rewrite <- root_key. apply does_read_doc. }
  intros k _. cbv beta. induction (kResources k) as [|x l IH]; [apply does_ret|].
  destruct (String.eqb_spec x id) as [->|Hne].
  - rewrite decide_True by by left. apply does_mbind_any; [apply does_read_doc|]. intros cfg _. apply does_ret.
  - assert (Hd : id ∈ x :: l <-> id ∈ l) by set_solver.
    rewrite (decide_ext (id ∈ x :: l) (id ∈ l)) by exact Hd. exact IH.
Qed.
End Find.

(** *** Directories and what they contain *)

Lemma under_abs p q :
  Forall seg_ok p -> Forall seg_ok q -> p <> [] -> under (abs_path p) (abs_path q) = true -> exists c, q = p ++ c.
Proof.
  intros Ha Hb Hne [He|He]%orb_true_iff.
  - apply String.eqb_eq, abs_path_inj in He; [|done..]. exists []. by rewrite app_nil_r.
  - apply HasPrefix_spec in He as [t He]. rewrite <- str_app_assoc in He.
    destruct (decide (q = [])) as [->|Hb'].
    { apply (f_equal (fun s => Split s slash)) in He.
      change ("/" +:+ t) with (String slash t) in He.
      change (Split (abs_path []) slash) with [""; ""] in He.
      rewrite Split_sep, Split_abs in He by done. injection He as He.
      destruct p as [|x p]; [done|]. apply Forall_cons in Ha as [(_ & Hx & _) _].
      simpl in He. by injection He as <- _. }
    apply (f_equal (fun s => Split s slash)) in He.
    change ("/" +:+ t) with (String slash t) in He.
    rewrite Split_sep, !Split_abs in He by done. injection He as ->. eauto.
Qed.

Lemma without_out p q f :
  Forall seg_ok p -> Forall seg_ok q -> p <> [] -> (forall c, q <> p ++ c) ->
  without (abs_path p) f !! abs_path q = f !! abs_path q.
Proof.
  intros Ha Hb Hne Hout. unfold without. destruct (f !! abs_path q) as [c|] eqn:Hf.
  - apply map_lookup_filter_Some. split; [done|]. cbn. apply not_true_iff_false. intros Hu.
    apply under_abs in Hu as [c' Hc]; [|done..]. by apply (Hout c').
  - apply map_lookup_filter_None. by left.
Qed.

(** *** What an installation leaves behind *)

Section Installed.
Context (root : list string) (id : string) (config : json) (resources data : CueAppData) (f : tree).
Context (Hroot : Forall seg_ok root) (Hid : seg_ok id) (Hidk : id <> "kustomization.yaml").
Context (Hok : kusts_ok f) (Hdata : data_ok data) (Hres : names_ok resources) (Hresn : NoDup (map fst resources)).
Abbreviation segs := (root ++ [id]).
Abbreviation T := (install_tree segs config resources data f).

#[local] Lemma segs_ok : Forall seg_ok segs.
Proof using Hroot Hid. by apply Forall_snoc. Qed.

#[local] Lemma res_ok : Forall seg_ok (segs ++ ["resources"]).
Proof using Hroot Hid. apply Forall_snoc; [apply segs_ok|by split_and!]. Qed.

Lemma file_key_inj d d' n n' :
  Forall seg_ok d -> Forall seg_ok d' -> seg_ok n -> seg_ok n' -> file_key d n = file_key d' n' -> d = d' /\ n = n'.
Proof.
  intros Hd Hd' Hn Hn' He. apply abs_path_inj in He; [|by apply Forall_snoc..]. by apply app_inj_tail in He.
Qed.

Lemma name_ok l n : names_ok l -> n ∈ map fst l -> seg_ok n.
Proof.
  intros Hl Hn. apply list_elem_of_fmap in Hn as (nc & -> & Hn). unfold names_ok in Hl.
  rewrite Forall_forall in Hl. by apply Hl.
Qed.

(** A file in the directory of the app is not touched after the data files. *)
Lemma installed_top n : seg_ok n -> n <> "kustomization.yaml" ->
  T !! file_key segs n =
    put_keys segs data (<[file_key segs "config.json" := Doc config]>
      (<[file_key segs "config.yaml" := Doc config]> (without (abs_path segs) f))) !! file_key segs n.
Proof using Hroot Hid Hres.
  intros Hn Hne. unfold install_tree. rewrite lookup_insert_ne.
  2: { intros He. symmetry in He. apply not_kust_key in He; [done|apply Hn|done]. }
  rewrite put_keys_other.
  2: { intros m Hm He. apply file_key_inj in He as [He _];
         [|apply segs_ok|apply res_ok|done|by eapply name_ok].
       apply (f_equal length) in He. rewrite !length_app in He. simpl in He. lia. }
  rewrite chain_other; [done|]. intros dir rest _ _ He. apply not_kust_key in He; [done|apply Hn|done].
Qed.

Lemma installed_config : T !! config_key root id = Some (Doc config).
Proof using Hroot Hid Hres Hdata.
  assert (Hkey : config_key root id = file_key segs "config.json").
  { unfold config_key, file_key. by rewrite <- (assoc_L (++)). }
  rewrite Hkey, installed_top by done. rewrite put_keys_other; [by rewrite lookup_insert_eq|].
  intros n Hn He. apply file_key_inj in He as [_ <-]; [|apply segs_ok|apply segs_ok|done|by eapply name_ok; [apply Hdata|]].
  by apply (proj2 (proj2 Hdata)) in Hn.
Qed.

Lemma installed_data n c : (n, c) ∈ data -> n <> "config.yaml" -> T !! file_key segs n = Some c.
Proof using Hroot Hid Hres Hdata.
  intros Hin Hne. assert (Hn : n ∈ map fst data) by (apply list_elem_of_fmap; by exists (n, c)).
  rewrite installed_top.
  - apply put_keys_in; [apply segs_ok|apply Hdata..|done].
  - eapply name_ok; [apply Hdata|done].
  - intros He. apply (proj2 (proj2 Hdata)) in Hn. by rewrite He in Hn.
Qed.

Lemma installed_resource n c : (n, c) ∈ resources -> n <> "kustomization.yaml" ->
  T !! file_key (segs ++ ["resources"]) n = Some c.
Proof using Hroot Hid Hres Hresn.
  intros Hin Hne. assert (Hn : n ∈ map fst resources) by (apply list_elem_of_fmap; by exists (n, c)).
  unfold install_tree. rewrite lookup_insert_ne.
  - apply put_keys_in; [apply res_ok|done..].
  - intros He. symmetry in He. apply not_kust_key in He; [done| |done]. by eapply name_ok.
Qed.

Lemma install_kust_key dir key :
  Forall seg_ok dir -> dir <> segs ++ ["resources"] -> key = kust_key dir ->
  T !! key = chain (rev (segs ++ ["resources"]))
    (put_keys segs data (<[file_key segs "config.json" := Doc config]>
      (<[file_key segs "config.yaml" := Doc config]> (without (abs_path segs) f)))) !! key.
Proof using Hroot Hid Hres.
  intros Hd Hne ->. unfold install_tree. rewrite lookup_insert_ne.
  2: { intros He. apply kust_key_inj in He; [by subst|apply res_ok|done]. }
  rewrite put_keys_other; [done|]. intros n Hn He.
  apply (file_key_inj dir _ "kustomization.yaml" n) in He as [He _];
    [done|done|apply res_ok|apply seg_ok_kustomization|by eapply name_ok].
Qed.

(** What the directory of the app does not contain is as before, up to the
    kustomizations above it. *)
Lemma before_chain p :
  Forall seg_ok p -> (forall c, p <> segs ++ c) ->
  put_keys segs data (<[file_key segs "config.json" := Doc config]>
    (<[file_key segs "config.yaml" := Doc config]> (without (abs_path segs) f))) !! abs_path p = f !! abs_path p.
Proof using Hroot Hid Hdata.
  intros Hp Hout.
  assert (Hn : forall n, seg_ok n -> abs_path p <> file_key segs n).
  { intros n Hn He. apply abs_path_inj in He; [by apply (Hout [n])|done|apply Forall_snoc; [apply segs_ok|done]]. }
  rewrite put_keys_other by (intros n Hin; apply Hn; eapply name_ok; [apply Hdata|done]).
  rewrite lookup_insert_ne by (symmetry; apply Hn; by split_and!).
  rewrite lookup_insert_ne by (symmetry; apply Hn; by split_and!).
  apply without_out; [apply segs_ok|done|by destruct root|done].
Qed.

Lemma installed_out p :
  Forall seg_ok p -> (forall c, p <> segs ++ c) -> (forall dir, p <> dir ++ ["kustomization.yaml"]) ->
  T !! abs_path p = f !! abs_path p.
Proof using Hroot Hid Hdata Hres.
  intros Hp Hout Hk. unfold install_tree.
  assert (Hn : forall n, seg_ok n -> abs_path p <> file_key (segs ++ ["resources"]) n).
  { intros n Hn He. apply abs_path_inj in He; [|done|apply Forall_snoc; [apply res_ok|done]].
    apply (Hout ["resources"; n]). by rewrite He, <- !(assoc_L (++)). }
  rewrite lookup_insert_ne by (symmetry; apply Hn, seg_ok_kustomization).
  rewrite put_keys_other by (intros n Hin; apply Hn; by eapply name_ok).
  rewrite chain_other; [by apply before_chain|]. intros dir rest Hdr Hne He.
  apply (Hk dir), abs_path_inj; [done| |done]. apply Forall_snoc; [|apply seg_ok_kustomization].
  rewrite rev_involutive in Hdr. pose proof res_ok as Hr. rewrite Hdr in Hr. by apply Forall_app in Hr as [? _].
Qed.

(** The kustomization of the root lists the app after what it listed. *)
Lemma installed_root : exists k, kust_at f (kust_key root) = Some k /\
  T !! kust_key root = Some (Doc (encode_kust (AddResource k id))).
Proof using Hroot Hid Hidk Hdata Hres Hok.
  pose proof (Forall_snoc root _ Hroot seg_ok_kustomization) as Hkp.
  destruct (chain_links (rev (segs ++ ["resources"]))
    (put_keys segs data (<[file_key segs "config.json" := Doc config]>
      (<[file_key segs "config.yaml" := Doc config]> (without (abs_path segs) f)))) root id ["resources"]) as (k & Hk & Hc).
  - rewrite rev_involutive. apply res_ok.
  - apply kusts_ok_put_keys; [done|]. by apply kusts_ok_put, kusts_ok_put, kusts_ok_without.
  - by rewrite rev_involutive, <- (assoc_L (++)).
  - exists k. split.
    + rewrite <- Hk. unfold kust_at, kust_key. rewrite before_chain; [done|done|].
      intros c. rewrite <- (assoc_L (++)). intros [= He _]%app_inv_head. done.
    + rewrite <- Hc. apply install_kust_key with root; [done| |done].
      intros He. apply (f_equal length) in He. rewrite !length_app in He. simpl in He. lia.
Qed.
End Installed.
End Does.
