(* ===== verification/AppManagerTheorems.v ===== *)
(** * Correctness of the application manager

    The chain of kustomization files ([createKustomizationChain]), and what
    Install, Update and Remove make of the instances an environment has, as
    FindInstance reports them. *)
From S2P Require Import Prelude GoLib GoStrings GoPath RepoIO InstallerTypes AppManager.
Open Scope string_scope.
Open Scope list_scope.

Section Theorems.
Context (addr : string) (a : answers).
#[local] Instance TheRepo : RepoIO appE := app_repo addr.

(** ** The commands on a world *)

Lemma run_openPorts_ok ports w :
  Forall (fun p => port_answer a (Allocator p) (encode_port p) = Ok StatusOK) ports ->
  run (app_step a) (openPorts ports) w =
    (MkWorld (w_repo w) (w_ns w) (w_ports w ++ map (fun p => (Allocator p, encode_port p)) ports), Ok tt).
Proof.
  revert w. induction ports as [|p ports IH]; intros w Hp; [cbn; rewrite app_nil_r; by destruct w|].
  apply Forall_cons in Hp as [Hp Hps]. unfold openPorts in *. cbn [foreach]. rewrite run_mbind, run_mbind.
  unfold post_json, app_post at 1. rewrite run_call. cbn [app_step]. rewrite Hp, Z.eqb_refl. cbn [negb].
  change (run (app_step a) (mret tt) ?w) with (w, Ok tt). cbv beta iota zeta. rewrite IH by done. cbn [w_repo w_ns w_ports map].
  by rewrite <- (assoc_L (++)).
Qed.

Lemma run_openPorts_refused pre p post st w :
  Forall (fun p => port_answer a (Allocator p) (encode_port p) = Ok StatusOK) pre ->
  port_answer a (Allocator p) (encode_port p) = Ok st -> st <> StatusOK ->
  run (app_step a) (openPorts (pre ++ p :: post)) w =
    (MkWorld (w_repo w) (w_ns w) (w_ports w ++ map (fun p => (Allocator p, encode_port p)) (pre ++ [p])),
     Err (errorf ("Could not allocate port " +:+ Itoa (pfSourcePort p) +:+ ", status code: " +:+ Itoa st))).
Proof.
  intros Hpre Hp Hst. revert w. induction pre as [|q pre IH]; intros w; unfold openPorts in *; cbn [app foreach];
    rewrite run_mbind, run_mbind; unfold post_json, app_post at 1; rewrite run_call; cbn [app_step].
  - rewrite Hp. by rewrite (proj2 (Z.eqb_neq st StatusOK) Hst).
  - apply Forall_cons in Hpre as [Hq Hpre]. rewrite Hq, Z.eqb_refl. cbn [negb].
    change (run (app_step a) (mret tt) ?w) with (w, Ok tt). cbv beta iota zeta. rewrite IH by done. cbn [w_repo w_ns w_ports map].
    by rewrite <- (assoc_L (++)).
Qed.

(** ** The chain of kustomizations *)

(** [createKustomizationChain] returns on every clean absolute path, in as
    many rounds as the path has names: each directory on the way from the root
    lists the next name, after everything it listed before, and no other file
    changes. *)
Theorem kustomization_chain (segs : list string) (f : tree) (fuel : nat)
    (Hs : Forall seg_ok segs) (Hok : kusts_ok f) (Hfuel : length segs <= fuel) :
  exists f', does a (createKustomizationChain fuel (abs_path segs)) f (Ok tt) f' /\
    (forall dir x rest, segs = dir ++ x :: rest -> exists k, kust_at f (kust_key dir) = Some k /\
       f' !! kust_key dir = Some (Doc (encode_kust (AddResource k x)))) /\
    (forall key, (forall dir x rest, segs = dir ++ x :: rest -> key <> kust_key dir) -> f' !! key = f !! key).
Proof.
  exists (chain (rev segs) f). split_and!.
  - unfold createKustomizationChain. rewrite Clean_abs_path by done.
    rewrite <- (rev_involutive segs) at 1. apply does_chain; rewrite ?rev_involutive, ?length_rev; done.
  - intros dir x rest He. apply chain_links with rest; rewrite ?rev_involutive; done.
  - intros key Hk. apply chain_other. rewrite rev_involutive. intros dir [|x rest] He Hne; [done|]. by eapply Hk.
Qed.

(** ** A path that is not absolute *)

Lemma split_last_join s : s = (split_last s).1 +:+ (split_last s).2.
Proof.
  induction s as [|c s IH]; [done|]. cbn [split_last]. destruct (split_last s) as [d x]. cbn [fst snd] in IH.
  destruct (String.eqb_spec d "") as [->|]; [|cbn [fst snd]; by rewrite str_app_cons, <- IH].
  rewrite IH. destruct (Ascii.eqb c slash); done.
Qed.

Lemma IsAbs_prefix s t : s <> "" -> IsAbs (s +:+ t) = IsAbs s.
Proof. destruct s as [|c s]; [done|]. intros _. rewrite str_app_cons. unfold IsAbs. by destruct s, t. Qed.

Lemma relative_parent s : IsAbs s = false -> IsAbs (split_last s).1 = false.
Proof.
  intros Hs. rewrite (split_last_join s) in Hs. destruct (split_last s) as [d x]. cbn [fst snd] in *.
  destruct (decide (d = "")) as [->|]; [done|]. by rewrite IsAbs_prefix in Hs.
Qed.

Lemma clean_foldl_segs out segs :
  Forall (fun s => no_char slash s /\ s <> "") out -> Forall (no_char slash) segs ->
  Forall (fun s => no_char slash s /\ s <> "") (foldl (clean_step false) out segs).
Proof.
  revert out. induction segs as [|s segs IH]; intros out Ho Hs; [done|]. apply Forall_cons in Hs as [Hs Hsegs].
  cbn [foldl]. apply IH; [|done]. unfold clean_step.
  destruct (String.eqb_spec s ""), (String.eqb_spec s "."), (String.eqb_spec s ".."); cbn [orb]; [done..| |].
  - destruct out as [|x out]; [by repeat constructor|]. apply Forall_cons in Ho as [Hx Ho].
    destruct (String.eqb x ".."); [|done]. constructor; [done|]. by constructor.
  - by constructor.
Qed.

Lemma relative_clean s : IsAbs s = false -> IsAbs (Clean s) = false.
Proof.
  intros Hs. unfold Clean. rewrite Hs.
  assert (Hc : Forall (fun s => no_char slash s /\ s <> "") (clean_segs false (Split s slash))).
  { unfold clean_segs. apply Forall_rev, clean_foldl_segs; [constructor|apply Split_no_sep]. }
  destruct (clean_segs false (Split s slash)) as [|x l]; [done|]. apply Forall_cons in Hc as [[Hx Hne] _].
  destruct x as [|c x]; [done|]. apply no_char_cons in Hx as [Hx _].
  assert (exists t, Join (String c x :: l) "/" = String c t) as [t ->] by (destruct l; simpl; eauto).
  unfold IsAbs. cbn [HasPrefix]. apply andb_false_iff. left. apply Ascii.eqb_neq. by intros <-.
Qed.

Lemma relative_not_root s : IsAbs s = false -> String.eqb s "/" = false.
Proof. intros Hs. apply String.eqb_neq. by intros ->. Qed.

Lemma relative_loop_not_ok fuel p w :
  IsAbs p = false -> (run (app_step a) (kustomization_loop fuel p) w).2 <> Ok tt.
Proof.
  revert p w. induction fuel as [|fuel IH]; intros p w Hp; cbn [kustomization_loop]; rewrite relative_not_root by done;
    [done|].
  pose proof (relative_clean _ (relative_parent p Hp)) as Hc. destruct (split_last p) as [parent child]. cbn [fst] in Hc.
  rewrite run_mbind. destruct (run _ _ w) as [w1 [kust| | |]]; [|done..].
  rewrite run_mbind. destruct (run _ _ w1) as [w2 [[]| | |]]; [|done..]. by apply IH.
Qed.

Lemma relative_loop_diverges fuel p f :
  IsAbs p = false -> (forall key, is_Some (kust_at f key)) ->
  exists f', does a (kustomization_loop fuel p) f Diverge f'.
Proof.
  revert p f. induction fuel as [|fuel IH]; intros p f Hp Hf; cbn [kustomization_loop]; rewrite relative_not_root by done.
  { exists f. apply does_ret. }
  pose proof (relative_clean _ (relative_parent p Hp)) as Hc. destruct (split_last p) as [parent child]. cbn [fst] in Hc.
  destruct (Hf (fs_key (JoinPath [parent; "kustomization.yaml"]))) as [k Hk].
  destruct (IH (Clean parent) (<[fs_key (JoinPath [parent; "kustomization.yaml"]) :=
    Doc (encode_kust (AddResource k child))]> f) Hc) as [f' Hf'].
  - intros key. destruct (decide (key = fs_key (JoinPath [parent; "kustomization.yaml"]))) as [->|Hne].
    + eexists. apply kust_at_doc. by rewrite lookup_insert_eq.
    + unfold kust_at. rewrite lookup_insert_ne by done. apply Hf.
  - exists f'. eapply does_assoc; [by apply does_link_at|exact Hf'].
Qed.

(** On a path that is not absolute [createKustomizationChain] never
    succeeds: its loop stops at "/" only, and the parent of "." is ".". When
    the files it reads are kustomizations or missing, it runs for ever. *)
Theorem relative_path_never_returns (path : string) (Hrel : IsAbs path = false) :
  (forall fuel w, (run (app_step a) (createKustomizationChain fuel path) w).2 <> Ok tt) /\
  (forall fuel f, (forall key, is_Some (kust_at f key)) ->
     exists f', does a (createKustomizationChain fuel path) f Diverge f').
Proof.
  unfold createKustomizationChain. apply relative_clean in Hrel. split.
  - intros fuel w. by apply relative_loop_not_ok.
  - intros fuel f Hf. by apply relative_loop_diverges.
Qed.

(** ** Instances in the tree of an installation *)

Section Tree.
Context (root : list string) (id : string) (config : AppInstanceConfig) (resources data : CueAppData) (f : tree).
Context (Hroot : Forall seg_ok root) (Hid : seg_ok id) (Hidk : id <> "kustomization.yaml").

Lemma instance_doc g i : seg_ok i ->
  read_doc decode_app_config (fs_key (instance_config (abs_path root) i)) g =
  read_doc decode_app_config (config_key root i) g.
Proof using Hroot. intros Hi. by rewrite instance_key. Qed.

Lemma read_doc_frame {A} (dec : json -> outcome A) key (g g' : tree) :
  g !! key = g' !! key -> read_doc dec key g = read_doc dec key g'.
Proof. unfold read_doc. by intros ->. Qed.

Lemma read_kust (g : tree) key k : g !! key = Some (Doc (encode_kust k)) -> read_doc decode_kust key g = Ok k.
Proof. intros Hg. unfold read_doc. rewrite Hg. apply decode_encode_kust. Qed.

Lemma config_path i : seg_ok i -> Forall seg_ok (root ++ [i; "config.json"]).
Proof using Hroot.
  intros Hi. apply Forall_app. split; [done|]. constructor; [done|]. apply Forall_singleton. by split_and!.
Qed.

Lemma config_split i : root ++ [i; "config.json"] = (root ++ [i]) ++ ["config.json"].
Proof. by rewrite <- (assoc_L (++)). Qed.

Lemma other_config_out i : i <> id -> forall c, root ++ [i; "config.json"] <> (root ++ [id]) ++ c.
Proof. intros Hne c. rewrite <- (assoc_L (++)). by intros [= He _]%app_inv_head. Qed.

Context (Hok : kusts_ok f) (Hdata : data_ok data) (Hres : names_ok resources).
Abbreviation T := (install_tree (root ++ [id]) (encode_app_config config) resources data f).

Lemma find_installed : well_formed_config config -> find_instance_in root T id = Ok (with_id id config).
Proof using Hroot Hid Hidk Hok Hdata Hres.
  intros Hwf. unfold find_instance_in.
  destruct (installed_root root id (encode_app_config config) resources data f) as (k & _ & HT); [done..|].
  rewrite (read_kust _ _ _ HT). cbn [mbind outcome_bind].
  rewrite decide_True by (apply AddResource_elem; by left). rewrite instance_doc by done.
  unfold read_doc. rewrite installed_config by done. cbn [parsed mbind outcome_bind].
  by rewrite decode_encode_app_config.
Qed.

(** The answer for another instance comes from the same configuration. *)
Lemma find_other_installed i cfg :
  seg_ok i -> i <> id -> find_instance_in root T i = Ok cfg <-> find_instance_in root f i = Ok cfg.
Proof using Hroot Hid Hidk Hok Hdata Hres.
  intros Hi Hne. unfold find_instance_in.
  destruct (installed_root root id (encode_app_config config) resources data f) as (k & Hk & HT); [done..|].
  rewrite (read_kust _ _ _ HT), !instance_doc by done.
  rewrite (read_doc_frame decode_app_config (config_key root i) _ f).
  2: { apply installed_out; [done..|by apply config_path|by apply other_config_out|].
       intros dir He. rewrite (config_split i) in He. by apply app_inj_tail in He as [_ ?]. }
  assert (Hf : read_doc decode_kust (kust_key root) f = Ok k \/
               (exists e, read_doc decode_kust (kust_key root) f = Err e) /\ kResources k = []).
  { unfold kust_at in Hk. unfold read_doc. destruct (f !! kust_key root) as [c|]; [left|right; simplify_eq; eauto].
    destruct (v ← parsed c; decode_kust v) as [k'| | |]; by simplify_eq. }
  destruct Hf as [-> | [[e ->] He]]; cbn [mbind outcome_bind].
  - rewrite (decide_ext (i ∈ kResources (AddResource k id)) (i ∈ kResources k)); [done|].
    rewrite AddResource_elem. naive_solver.
  - rewrite decide_False; [done|]. rewrite AddResource_elem, He. set_solver.
Qed.

Lemma find_instance_stored g cfg : find_instance_in root g id = Ok cfg ->
  exists c, read_doc decode_app_config (config_key root id) g = Ok c /\ cfg = with_id id c.
Proof using Hroot Hid.
  unfold find_instance_in. rewrite instance_doc by done.
  destruct (read_doc decode_kust _ g) as [k| | |]; cbn [mbind outcome_bind]; [|done..].
  destruct (decide _); [|done].
  destruct (read_doc decode_app_config _ g) as [c| | |]; cbn [mbind outcome_bind]; [|done..].
  intros [= <-]. eauto.
Qed.

(** *** And of a removal *)

Definition removed_tree (k : Kustomization) : tree :=
  <[kust_key root := Doc (encode_kust (RemoveResources k [id]))]> (without (abs_path (root ++ [id])) f).

Lemma find_removed k : NoDup (kResources k) -> find_instance_in root (removed_tree k) id = Err ErrorNotFound.
Proof using Hroot Hid Hidk.
  intros Hd. unfold find_instance_in, removed_tree. rewrite (read_kust _ _ (RemoveResources k [id])) by by rewrite lookup_insert_eq.
  cbn [mbind outcome_bind]. rewrite decide_False; [done|]. unfold RemoveResources. cbn [foldl kResources].
  rewrite delete_first_elem by done. naive_solver.
Qed.

Lemma find_other_removed k i :
  NoDup (kResources k) -> read_doc decode_kust (kust_key root) f = Ok k -> seg_ok i -> i <> id ->
  find_instance_in root (removed_tree k) i = find_instance_in root f i.
Proof using Hroot Hid Hidk.
  intros Hd Hk Hi Hne. unfold find_instance_in. rewrite Hk.
  rewrite (read_kust _ _ (RemoveResources k [id])) by (unfold removed_tree; by rewrite lookup_insert_eq).
  cbn [mbind outcome_bind]. rewrite !instance_doc by done.
  rewrite (read_doc_frame decode_app_config (config_key root i) _ f).
  - rewrite (decide_ext (i ∈ kResources (RemoveResources k [id])) (i ∈ kResources k)); [done|].
    unfold RemoveResources. cbn [foldl kResources]. rewrite delete_first_elem by done. naive_solver.
  - unfold removed_tree. rewrite lookup_insert_ne.
    + apply without_out; [by apply Forall_snoc|by apply config_path|by destruct root|by apply other_config_out].
    + unfold kust_key, config_key. rewrite config_split.
      by apply abs_path_last_neq.
Qed.
End Tree.

(** ** The commands *)

(** The world once [T] is committed and pushed. *)
Definition after_commit (T : tree) (msg : string) (ns : list string) (n : nat) (w : world) : world :=
  MkWorld (MkRepo T T T (log (w_repo w) ++ [msg]) n) ns (w_ports w).

Lemma run_FindInstance root id w :
  Forall seg_ok root ->
  (run (app_step a) (FindInstance (abs_path root) id) w).2 = find_instance_in root (files (w_repo w)) id.
Proof. intros Hr. destruct (does_FindInstance addr a root Hr (files (w_repo w)) id w eq_refl) as [n H]. exact (f_equal snd H). Qed.

Lemma run_Pull' w : clean (w_repo w) -> exists n, run (app_step a) Pull w =
  (MkWorld (MkRepo (remote (w_repo w)) (remote (w_repo w)) (remote (w_repo w)) (log (w_repo w)) n) (w_ns w) (w_ports w), Ok tt).
Proof. exact (run_Pull addr a w). Qed.

Lemma run_Config f h r l n ns ports : exists m,
  run (app_step a) Config (MkWorld (MkRepo f h r l n) ns ports) =
    (MkWorld (MkRepo f h r l m) ns ports, read_doc decode_env_strict (fs_key "config.yaml") f).
Proof. exact (does_read_doc addr a decode_env_strict "config.yaml" f (MkWorld (MkRepo f h r l n) ns ports) eq_refl). Qed.

Lemma run_appConfig p f h r l n ns ports : exists m,
  run (app_step a) (appConfig p) (MkWorld (MkRepo f h r l n) ns ports) =
    (MkWorld (MkRepo f h r l m) ns ports, read_doc decode_app_config (fs_key p) f).
Proof. exact (does_read_doc addr a decode_app_config p f (MkWorld (MkRepo f h r l n) ns ports) eq_refl). Qed.

Lemma does_ignore_error (p : go appE unit) f f1 : does a p f (Ok tt) f1 -> does a (ignore_error p) f (Ok tt) f1.
Proof. intros Hp. unfold ignore_error. eapply does_handle; [exact Hp|apply does_ret]. Qed.

Lemma does_remove_op root id k f :
  Forall seg_ok root -> seg_ok id -> id <> "kustomization.yaml" ->
  read_doc decode_kust (kust_key root) f = Ok k ->
  does a (remove_op (abs_path root) id) f (Ok ("uninstall: " +:+ id)) (removed_tree root id f k).
Proof.
  intros Hroot Hid Hidk Hk. unfold remove_op.
  assert (Hkp : Forall seg_ok (root ++ [id])) by by apply Forall_snoc.
  eapply does_mbind; [apply does_ignore_error, (does_RemoveDir addr)|]. rewrite JoinPath_abs, fs_key_abs by done.
  eapply does_mbind with (x := k).
  { rewrite <- Hk, <- (root_key root Hroot).
    rewrite (read_doc_frame decode_kust _ f (without (abs_path (root ++ [id])) f)); [apply (does_read_doc addr)|].
    rewrite root_key by done. symmetry. unfold kust_key.
    apply without_out; [done|by apply Forall_snoc, seg_ok_kustomization|by destruct root|].
    intros c. rewrite <- (assoc_L (++)). intros [= He _]%app_inv_head. done. }
  eapply does_mbind; [apply does_ignore_error, (does_WriteYaml addr)|]. rewrite root_key by done. apply does_ret.
Qed.

Lemma run_Remove root id k w :
  clean (w_repo w) -> Forall seg_ok root -> seg_ok id -> id <> "kustomization.yaml" ->
  read_doc decode_kust (kust_key root) (remote (w_repo w)) = Ok k ->
  exists n, run (app_step a) (Remove (abs_path root) id) w =
    (after_commit (removed_tree root id (remote (w_repo w)) k) ("uninstall: " +:+ id) (w_ns w) n w, Ok tt).
Proof.
  intros Hclean Hroot Hid Hidk Hk. unfold Remove. rewrite run_mbind. destruct (run_Pull' w Hclean) as [n ->].
  edestruct (run_Do addr a (remove_op (abs_path root) id) ("uninstall: " +:+ id)
    (removed_tree root id (remote (w_repo w)) k)
    (MkWorld (MkRepo (remote (w_repo w)) (remote (w_repo w)) (remote (w_repo w)) (log (w_repo w)) n) (w_ns w) (w_ports w)))
    as [m Hm]; [done|by apply (does_remove_op root id k)|].
  exists m. exact Hm.
Qed.

Section Commands.
Context {V : Type} (root : list string) (id ns : string) (values : V) (w : world) (fuel : nat).
Context (Render : Release -> EnvConfig -> V -> outcome EnvAppRendered) (env : EnvConfig) (rendered : EnvAppRendered).
Context (Hclean : clean (w_repo w)) (Hroot : Forall seg_ok root) (Hid : seg_ok id) (Hidk : id <> "kustomization.yaml").
Context (Hfuel : S (length root) < fuel).
Context (Hok : kusts_ok (remote (w_repo w))).
Context (Henv : read_doc decode_env_strict (fs_key "config.yaml") (remote (w_repo w)) = Ok env).
Context (Hdata : data_ok (rData rendered)) (Hres : names_ok (rResources rendered)).
Abbreviation T := (install_tree (root ++ [id]) (encode_app_config (rConfig rendered)) (rResources rendered)
  (rData rendered) (remote (w_repo w))).
Abbreviation msg := ("install: " +:+ rName rendered).

Lemma run_InstallApp w' :
  clean (w_repo w') -> remote (w_repo w') = remote (w_repo w) ->
  exists n, run (app_step a) (InstallApp fuel (abs_path (root ++ [id])) (rName rendered)
      (encode_app_config (rConfig rendered)) (rResources rendered) (rData rendered) false) w' =
    (after_commit T msg (w_ns w') n w', Ok tt).
Proof using Hroot Hid Hidk Hfuel Hok Hdata Hres.
  intros Hc Hw. apply (run_Do addr a); [done|]. rewrite Hw. apply does_install; [by apply Forall_snoc|by destruct root|done..|].
  rewrite length_app. simpl. lia.
Qed.

Lemma run_Install :
  ns_answer a ns = Ok tt ->
  Render (MkRelease id ns addr (abs_path (root ++ [id]))) env values = Ok rendered ->
  exists n, run (app_step a) (Install Render fuel id (abs_path (root ++ [id])) ns values) w =
    run (app_step a) (openPorts (rPorts rendered) ≫= fun _ => lift (extractHelm (rResources rendered)))
      (after_commit T msg (w_ns w ++ [ns]) n w).
Proof using Hclean Hroot Hid Hidk Hfuel Hok Henv Hdata Hres.
  intros Hns Hrender. unfold Install. rewrite Clean_abs_path by by apply Forall_snoc.
  rewrite run_mbind. destruct (run_Pull' w Hclean) as [n ->].
  rewrite run_mbind. unfold CreateNamespace, app_ns. rewrite run_call. cbn [app_step w_repo w_ns w_ports]. rewrite Hns.
  rewrite run_mbind. edestruct run_Config as [m ->]. rewrite Henv.
  rewrite run_mbind. change (@FullAddress _ TheRepo) with addr. rewrite Hrender. cbn [run lift].
  rewrite run_mbind. edestruct run_InstallApp as [j ->]; [reflexivity|reflexivity|]. by exists j.
Qed.

Lemma run_Update old :
  read_doc decode_app_config (config_key root id) (remote (w_repo w)) = Ok old ->
  Render (MkRelease id (relNamespace (cfgRelease old)) addr (abs_path (root ++ [id]))) env values = Ok rendered ->
  exists n, run (app_step a) (Update (abs_path root) Render fuel id values false) w =
    (after_commit T msg (w_ns w) n w, Ok tt).
Proof using Hclean Hroot Hid Hidk Hfuel Hok Henv Hdata Hres.
  intros Hold Hrender. unfold Update.
  assert (Hkp : Forall seg_ok (root ++ [id])) by by apply Forall_snoc.
  rewrite run_mbind. destruct (run_Pull' w Hclean) as [n ->].
  rewrite run_mbind. edestruct run_Config as [m ->]. rewrite Henv. rewrite JoinPath_abs by done.
  rewrite run_mbind. edestruct run_appConfig as [j ->].
  rewrite key_file by (done || by split_and!). unfold file_key. rewrite <- config_split.
  fold (config_key root id). rewrite Hold.
  rewrite run_mbind. change (@FullAddress _ TheRepo) with addr. rewrite Hrender. cbn [run lift].
  edestruct run_InstallApp as [i ->]; [reflexivity|reflexivity|]. by exists i.
Qed.

(** What FindInstance answers about [i] once the work tree is up to date. *)
Abbreviation find_after_pull i := (run (app_step a) (_ ← Pull; FindInstance (abs_path root) i) w).2.
Abbreviation find_in v i := (run (app_step a) (FindInstance (abs_path root) i) v).2.

Lemma find_pulled i : find_after_pull i = find_instance_in root (remote (w_repo w)) i.
Proof using Hclean Hroot.
  rewrite run_mbind. destruct (run_Pull' w Hclean) as [n ->]. by rewrite run_FindInstance.
Qed.

(** The commit of an application makes its instance found, with the
    configuration it was rendered with, and leaves the answers for every other
    instance. *)
Lemma find_committed v :
  files (w_repo v) = T -> well_formed_config (rConfig rendered) ->
  find_in v id = Ok (with_id id (rConfig rendered)) /\
  forall i cfg, seg_ok i -> i <> id -> find_in v i = Ok cfg <-> find_after_pull i = Ok cfg.
Proof using Hclean Hroot Hid Hidk Hok Hdata Hres.
  intros HT Hwf. split.
  - rewrite run_FindInstance, HT by done. by apply find_installed.
  - intros i cfg Hi Hne. rewrite run_FindInstance, HT, find_pulled by done. by apply find_other_installed.
Qed.

(** C14. Install returns the Helm releases of the rendered app, creates its
    namespace, opens its ports in order and pushes exactly one commit: the tree
    of the installation. Afterwards FindInstance finds the instance with the
    configuration it was rendered with, and answers as before for the others. *)
Theorem Install_installs (rs : list Resource)
    (Hns : ns_answer a ns = Ok tt)
    (Hrender : Render (MkRelease id ns addr (abs_path (root ++ [id]))) env values = Ok rendered)
    (Hports : Forall (fun p => port_answer a (Allocator p) (encode_port p) = Ok StatusOK) (rPorts rendered))
    (Hhelm : extractHelm (rResources rendered) = Ok rs) (Hwf : well_formed_config (rConfig rendered)) :
  exists w', run (app_step a) (Install Render fuel id (abs_path (root ++ [id])) ns values) w = (w', Ok rs) /\
    w_ns w' = w_ns w ++ [ns] /\
    w_ports w' = w_ports w ++ map (fun p => (Allocator p, encode_port p)) (rPorts rendered) /\
    log (w_repo w') = log (w_repo w) ++ [msg] /\ remote (w_repo w') = T /\
    find_in w' id = Ok (with_id id (rConfig rendered)) /\
    forall i cfg, seg_ok i -> i <> id -> find_in w' i = Ok cfg <-> find_after_pull i = Ok cfg.
Proof using Hclean Hroot Hid Hidk Hfuel Hok Henv Hdata Hres.
  destruct (run_Install Hns Hrender) as [n ->]. rewrite run_mbind, run_openPorts_ok by done.
  rewrite Hhelm. eexists. split; [reflexivity|]. do 4 (split; [done|]). by apply find_committed.
Qed.

(** Install is not atomic: when a port allocator refuses a port, the call
    fails with an error, and nevertheless the app is committed and pushed,
    FindInstance finds it, its namespace exists and the ports before the
    refused one stay allocated. *)
Theorem Install_refused_port (pre post : list PortForward) (p : PortForward) (st : Z)
    (Hns : ns_answer a ns = Ok tt)
    (Hrender : Render (MkRelease id ns addr (abs_path (root ++ [id]))) env values = Ok rendered)
    (Hports : rPorts rendered = pre ++ p :: post)
    (Hpre : Forall (fun p => port_answer a (Allocator p) (encode_port p) = Ok StatusOK) pre)
    (Hp : port_answer a (Allocator p) (encode_port p) = Ok st) (Hst : st <> StatusOK)
    (Hwf : well_formed_config (rConfig rendered)) :
  exists w', run (app_step a) (Install Render fuel id (abs_path (root ++ [id])) ns values) w =
      (w', Err (errorf ("Could not allocate port " +:+ Itoa (pfSourcePort p) +:+ ", status code: " +:+ Itoa st))) /\
    remote (w_repo w') = T /\ w_ns w' = w_ns w ++ [ns] /\
    w_ports w' = w_ports w ++ map (fun p => (Allocator p, encode_port p)) (pre ++ [p]) /\
    find_in w' id = Ok (with_id id (rConfig rendered)).
Proof using Hclean Hroot Hid Hidk Hfuel Hok Henv Hdata Hres.
  destruct (run_Install Hns Hrender) as [n ->]. rewrite run_mbind, Hports.
  rewrite (run_openPorts_refused pre p post st) by done. eexists. split; [reflexivity|]. do 3 (split; [done|]).
  by apply (fun v H => proj1 (find_committed v H Hwf)).
Qed.

(** Update renders the app for the namespace its stored configuration
    names, whatever the caller knows, and replaces the instance with one
    commit; no port and no namespace is touched, and the answers of
    FindInstance change for this instance only. *)
Theorem Update_replaces (old : AppInstanceConfig)
    (Hold : find_after_pull id = Ok old)
    (Hrender : Render (MkRelease id (relNamespace (cfgRelease old)) addr (abs_path (root ++ [id]))) env values = Ok rendered)
    (Hwf : well_formed_config (rConfig rendered)) :
  exists w', run (app_step a) (Update (abs_path root) Render fuel id values false) w = (w', Ok tt) /\
    w_ns w' = w_ns w /\ w_ports w' = w_ports w /\
    log (w_repo w') = log (w_repo w) ++ [msg] /\ remote (w_repo w') = T /\
    find_in w' id = Ok (with_id id (rConfig rendered)) /\
    forall i cfg, seg_ok i -> i <> id -> find_in w' i = Ok cfg <-> find_after_pull i = Ok cfg.
Proof using Hclean Hroot Hid Hidk Hfuel Hok Henv Hdata Hres.
  rewrite find_pulled in Hold. apply find_instance_stored in Hold as (cfg & Hcfg & ->); [|done..].
  destruct (run_Update cfg Hcfg Hrender) as [n ->]. eexists. split; [reflexivity|].
  do 4 (split; [done|]). by apply find_committed.
Qed.
End Commands.

(** C15. Remove makes an instance unknown to FindInstance and changes no answer
    for another one; it pushes one commit. The namespace and the ports of the
    instance are not given back. *)
Theorem Remove_uninstalls (root : list string) (id : string) (k : Kustomization) (w : world)
    (Hclean : clean (w_repo w)) (Hroot : Forall seg_ok root) (Hid : seg_ok id) (Hidk : id <> "kustomization.yaml")
    (Hk : read_doc decode_kust (kust_key root) (remote (w_repo w)) = Ok k) (Hd : NoDup (kResources k)) :
  exists w', run (app_step a) (Remove (abs_path root) id) w = (w', Ok tt) /\
    w_ns w' = w_ns w /\ w_ports w' = w_ports w /\
    log (w_repo w') = log (w_repo w) ++ ["uninstall: " +:+ id] /\
    (run (app_step a) (FindInstance (abs_path root) id) w').2 = Err ErrorNotFound /\
    forall i, seg_ok i -> i <> id ->
      (run (app_step a) (FindInstance (abs_path root) i) w').2 =
      (run (app_step a) (_ ← Pull; FindInstance (abs_path root) i) w).2.
Proof.
  destruct (run_Remove root id k w) as [n ->]; [done..|]. eexists. split; [reflexivity|]. split_and!; [done..| |].
  - rewrite run_FindInstance by done. apply find_removed; done.
  - intros i Hi Hne. rewrite run_FindInstance, find_pulled by done. by apply find_other_removed.
Qed.
End Theorems.

(** ** The theorems at concrete inputs *)

Lemma kusts_ok_empty : kusts_ok ∅.
Proof. intros key. left. by eexists. Qed.

Lemma kustomization_chain_witness :
  exists f', does (MkAnswers (fun _ => Ok tt) (fun _ _ => Ok StatusOK)) (createKustomizationChain (RepoIO0 := app_repo "")
    3 (abs_path ["apps"; "rpuppy"; "resources"])) ∅ (Ok tt) f' /\
    exists k, kust_at ∅ (kust_key ["apps"]) = Some k /\
      f' !! kust_key ["apps"] = Some (Doc (encode_kust (AddResource k "rpuppy"))).
Proof.
  destruct (kustomization_chain "" (MkAnswers (fun _ => Ok tt) (fun _ _ => Ok StatusOK))
    ["apps"; "rpuppy"; "resources"] ∅ 3) as (f' & Hrun & Hk & _).
  - repeat constructor; try done.
  - exact kusts_ok_empty.
  - done.
  - exists f'. split; [exact Hrun|]. by apply (Hk ["apps"] "rpuppy" ["resources"]).
Defined.

Lemma relative_path_never_returns_witness :
  exists f', does (MkAnswers (fun _ => Ok tt) (fun _ _ => Ok StatusOK))
    (createKustomizationChain (RepoIO0 := app_repo "") 100 "apps/rpuppy") ∅ Diverge f'.
Proof.
  apply (relative_path_never_returns "" (MkAnswers (fun _ => Ok tt) (fun _ _ => Ok StatusOK)) "apps/rpuppy" eq_refl).
  intros key. by eexists.
Defined.

Definition demo_env : EnvConfig :=
  MkEnvConfig "lekva" "dodo" "lekva.me" "p.lekva.me" "gio@lekva.me" "ssh-rsa AAAA" ["46.49.35.44"] ["135.181.48.180"] "lekva-"
    (MkEnvNetwork "10.1.0.1" "10.1.0.2" "10.44.0.3" "10.44.0.4" "10.44.0.5" "10.44.0.6").

Definition demo_config : AppInstanceConfig :=
  MkAppConfig "rpuppy" "rpuppy" demo_env (MkRelease "rpuppy" "lekva-app-rpuppy" "ssh://repo" "/apps/rpuppy")
    (JObj []) (JObj []) "" (JArr []) "".

Definition demo_port : PortForward := MkPortForward "http://ports/api/allocate" "TCP" 2222 "rpuppy/web" 22.

Definition demo_rendered : EnvAppRendered :=
  MkRendered "rpuppy" [demo_port]
    [("rpuppy.yaml", Doc (JObj [("metadata", JObj [("name", JStr "rpuppy"); ("namespace", JStr "lekva-app-rpuppy")])]))]
    [("rendered.json", Doc (JObj []))] demo_config.

Definition demo_world : world :=
  MkWorld (MkRepo ∅ ∅ {[ "/config.yaml" := Doc (encode_env demo_env) ]} [] 0) [] [].

Definition demo_render : Release -> EnvConfig -> json -> outcome EnvAppRendered := fun _ _ _ => Ok demo_rendered.

Definition accepting : answers := MkAnswers (fun _ => Ok tt) (fun _ _ => Ok StatusOK).
Definition refusing : answers := MkAnswers (fun _ => Ok tt) (fun _ _ => Ok StatusConflict).

Lemma apps_ok : Forall seg_ok ["apps"].
Proof. by repeat constructor. Qed.

Lemma rpuppy_ok : seg_ok "rpuppy".
Proof. by split_and!. Qed.

Lemma demo_kusts_ok : kusts_ok (remote (w_repo demo_world)).
Proof. change (kusts_ok (<[file_key [] "config.yaml" := Doc (encode_env demo_env)]> ∅)). by apply kusts_ok_put, kusts_ok_empty. Qed.

Lemma demo_env_read : read_doc decode_env_strict (fs_key "config.yaml") (remote (w_repo demo_world)) = Ok demo_env.
Proof. vm_compute. reflexivity. Qed.

Lemma demo_data_ok : data_ok (rData demo_rendered).
Proof.
  split_and!.
  - by repeat constructor.
  - by apply NoDup_singleton.
  - by intros n ->%list_elem_of_singleton.
Qed.

Lemma demo_names_ok : names_ok (rResources demo_rendered).
Proof. by repeat constructor. Qed.

Lemma demo_wf : well_formed_config (rConfig demo_rendered).
Proof. done. Qed.

Lemma Install_installs_witness :
  exists w', run (app_step accepting) (Install (RepoIO0 := app_repo "ssh://repo") demo_render 3 "rpuppy" "/apps/rpuppy"
      "lekva-app-rpuppy" (JObj [])) demo_world = (w', Ok [MkResource "rpuppy" "lekva-app-rpuppy"]) /\
    (run (app_step accepting) (FindInstance (RepoIO0 := app_repo "ssh://repo") "/apps" "rpuppy") w').2 = Ok demo_config.
Proof.
  destruct (Install_installs "ssh://repo" accepting ["apps"] "rpuppy" "lekva-app-rpuppy" (JObj []) demo_world 3
    demo_render demo_env demo_rendered eq_refl apps_ok rpuppy_ok ltac:(done) ltac:(simpl; lia) demo_kusts_ok demo_env_read
    demo_data_ok demo_names_ok [MkResource "rpuppy" "lekva-app-rpuppy"] eq_refl eq_refl
    ltac:(by repeat constructor) ltac:(vm_compute; reflexivity) demo_wf) as (w' & Hrun & _ & _ & _ & _ & Hfind & _).
  exists w'. split; [exact Hrun|exact Hfind].
Defined.

Lemma Install_refused_port_witness :
  exists w', run (app_step refusing) (Install (RepoIO0 := app_repo "ssh://repo") demo_render 3 "rpuppy" "/apps/rpuppy"
      "lekva-app-rpuppy" (JObj [])) demo_world =
      (w', Err (errorf "Could not allocate port 2222, status code: 409")) /\
    (run (app_step refusing) (FindInstance (RepoIO0 := app_repo "ssh://repo") "/apps" "rpuppy") w').2 = Ok demo_config.
Proof.
  destruct (Install_refused_port "ssh://repo" refusing ["apps"] "rpuppy" "lekva-app-rpuppy" (JObj []) demo_world 3
    demo_render demo_env demo_rendered eq_refl apps_ok rpuppy_ok ltac:(done) ltac:(simpl; lia) demo_kusts_ok demo_env_read
    demo_data_ok demo_names_ok [] [] demo_port StatusConflict eq_refl eq_refl eq_refl ltac:(constructor) eq_refl
    ltac:(done) demo_wf) as (w' & Hrun & _ & _ & _ & Hfind).
  exists w'. split; [exact Hrun|exact Hfind].
Defined.

(** The world after the installation, without its counter. *)
Definition installed_world : world :=
  after_commit (install_tree ["apps"; "rpuppy"] (encode_app_config demo_config) (rResources demo_rendered)
    (rData demo_rendered) (remote (w_repo demo_world))) "install: rpuppy" ["lekva-app-rpuppy"] 0 demo_world.

Lemma installed_kusts_ok : kusts_ok (remote (w_repo installed_world)).
Proof.
  change (kusts_ok (<[kust_key ["apps"; "rpuppy"; "resources"] := Doc (encode_kust (AddResources NewKustomization ["rpuppy.yaml"]))]>
    (put_keys ["apps"; "rpuppy"; "resources"] (rResources demo_rendered) (chain (rev ["apps"; "rpuppy"; "resources"])
      (put_keys ["apps"; "rpuppy"] (rData demo_rendered)
        (<[file_key ["apps"; "rpuppy"] "config.json" := Doc (encode_app_config demo_config)]>
          (<[file_key ["apps"; "rpuppy"] "config.yaml" := Doc (encode_app_config demo_config)]>
            (without (abs_path ["apps"; "rpuppy"]) (remote (w_repo demo_world)))))))))).
  apply kusts_ok_insert, kusts_ok_put; [done|done|]. do 3 apply kusts_ok_link.
  apply kusts_ok_put; [done|done|]. apply kusts_ok_put; [done|done|]. apply kusts_ok_put; [done|done|].
  apply kusts_ok_without, demo_kusts_ok.
Qed.

Lemma Update_replaces_witness :
  exists w', run (app_step refusing) (Update (RepoIO0 := app_repo "ssh://repo") "/apps" demo_render 3 "rpuppy" (JObj []) false)
      installed_world = (w', Ok tt) /\ w_ports w' = [] /\
    (run (app_step refusing) (FindInstance (RepoIO0 := app_repo "ssh://repo") "/apps" "rpuppy") w').2 = Ok demo_config.
Proof.
  destruct (Update_replaces "ssh://repo" refusing ["apps"] "rpuppy" (JObj []) installed_world 3
    demo_render demo_env demo_rendered eq_refl apps_ok rpuppy_ok ltac:(done) ltac:(simpl; lia) installed_kusts_ok
    ltac:(vm_compute; reflexivity) demo_data_ok demo_names_ok demo_config ltac:(vm_compute; reflexivity) eq_refl demo_wf)
    as (w' & Hrun & _ & Hports & _ & _ & Hfind & _).
  exists w'. split; [exact Hrun|]. split; [exact Hports|exact Hfind].
Defined.

Lemma Remove_uninstalls_witness :
  exists w', run (app_step refusing) (Remove (RepoIO0 := app_repo "ssh://repo") "/apps" "rpuppy") installed_world = (w', Ok tt) /\
    (run (app_step refusing) (FindInstance (RepoIO0 := app_repo "ssh://repo") "/apps" "rpuppy") w').2 = Err ErrorNotFound.
Proof.
  destruct (Remove_uninstalls "ssh://repo" refusing ["apps"] "rpuppy" (MkKust "kustomize.config.k8s.io/v1beta1" "Kustomization" ["rpuppy"])
    installed_world eq_refl apps_ok rpuppy_ok ltac:(done) ltac:(vm_compute; reflexivity) ltac:(apply NoDup_singleton))
    as (w' & Hrun & _ & _ & _ & Hfind & _).
  exists w'. split; [exact Hrun|exact Hfind].
Defined.
