(* ===== verification/InfraManager.v ===== *)
(** * The application manager of the infrastructure (core/installer/app_manager.go)

    InfraAppManager: the same repository operations as AppManager, in
    /infrastructure, with the configuration of the whole installation. *)
From S2P Require Import Prelude GoLib GoStrings GoPath RepoIO InstallerTypes AppManager.
Open Scope string_scope.
Open Scope list_scope.

(** InfraConfig; keys and addresses in their text form. *)
Record InfraConfig := MkInfra {
  infraName : string;
  infraPublicIP : list string;
  InfraNamespacePrefix : string;
  InfraAdminPublicKey : string;
}.

Record InfraAppInstanceConfig := MkInfraApp {
  iId : string;
  iAppId : string;
  iInfra : InfraConfig;
  iRelease : Release;
  iValues : json;
  iInput : json;
  iURL : string;
  iHelp : json;
  iIcon : string;
}.

Definition zero_infra : InfraConfig := MkInfra "" [] "" "".

Definition infra_fields : list string := ["pcloudEnvName"; "publicIP"; "namespacePrefix"; "infraAdminPublicKey"].

Definition encode_infra (c : InfraConfig) : json :=
  JObj (omit_str "pcloudEnvName" (infraName c) ++ omit_strs "publicIP" (infraPublicIP c) ++
        omit_str "namespacePrefix" (InfraNamespacePrefix c) ++ omit_str "infraAdminPublicKey" (InfraAdminPublicKey c)).

Definition decode_infra (v : json) : outcome InfraConfig :=
  a ← json_field "pcloudEnvName" json_string "" v;
  b ← json_field "publicIP" (json_array json_string) [] v;
  c ← json_field "namespacePrefix" json_string "" v;
  d ← json_field "infraAdminPublicKey" json_string "" v;
  Ok (MkInfra a b c d).

Definition decode_infra_strict (v : json) : outcome InfraConfig :=
  if negb (known_fields infra_fields v) then Err (errorf "unknown field") else decode_infra v.

Definition encode_infra_app (c : InfraAppInstanceConfig) : json :=
  JObj [("id", JStr (iId c)); ("appId", JStr (iAppId c)); ("infra", encode_infra (iInfra c));
        ("release", encode_release (iRelease c)); ("values", iValues c); ("input", iInput c); ("url", JStr (iURL c));
        ("help", iHelp c); ("icon", JStr (iIcon c))].

Definition decode_infra_app (v : json) : outcome InfraAppInstanceConfig :=
  a ← json_field "id" json_string "" v;
  b ← json_field "appId" json_string "" v;
  c ← json_field "infra" decode_infra zero_infra v;
  d ← json_field "release" decode_release zero_release v;
  e ← json_field "values" json_map JNull v;
  f ← json_field "input" json_map JNull v;
  g ← json_field "url" json_string "" v;
  h ← json_field "help" json_slice JNull v;
  i ← json_field "icon" json_string "" v;
  Ok (MkInfraApp a b c d e f g h i).

(** InfraAppRendered *)
Record InfraAppRendered := MkInfraRendered {
  irName : string;
  irPorts : list PortForward;
  irResources : CueAppData;
  irData : CueAppData;
  irConfig : InfraAppInstanceConfig;
}.

Definition zero_infra_app : InfraAppInstanceConfig :=
  MkInfraApp "" "" zero_infra zero_release JNull JNull "" JNull "".

Definition infra_with_id (id : string) (c : InfraAppInstanceConfig) : InfraAppInstanceConfig :=
  MkInfraApp id (iAppId c) (iInfra c) (iRelease c) (iValues c) (iInput c) (iURL c) (iHelp c) (iIcon c).

Module InfraAppManager.
Section Manager.
Context {E : Type -> Type} `{!RepoIO E} `{!NamespaceCreator E}.
Context (Render : Release -> InfraConfig -> json -> outcome InfraAppRendered).

Definition Config : go E InfraConfig := ReadYaml decode_infra_strict "config.yaml".

Definition appConfig (path : string) : go E InfraAppInstanceConfig := ReadJson decode_infra_app path.

(** An instance that is not listed is answered with a zero configuration and no error. *)
Definition FindInstance (id : string) : go E InfraAppInstanceConfig :=
  kust ← ReadKustomization (JoinPath ["/infrastructure"; "kustomization.yaml"]);
  (fix loop (apps : list string) : go E InfraAppInstanceConfig :=
    match apps with
    | [] => mret zero_infra_app
    | app :: apps' =>
        if String.eqb app id then
          cfg ← appConfig (JoinPath ["/infrastructure"; app; "config.json"]);
          mret (infra_with_id id cfg)
        else loop apps'
    end) (kResources kust).

(** The ports of the rendered app are not opened. *)
Definition Install (fuel : nat) (appDir namespace : string) (values : json) : go E unit :=
  let appDir := Clean appDir in
  _ ← Pull;
  _ ← CreateNamespace namespace;
  infra ← Config;
  rendered ← lift (Render (MkRelease "" namespace FullAddress appDir) infra values);
  InstallApp fuel appDir (irName rendered) (encode_infra_app (irConfig rendered))
    (irResources rendered) (irData rendered) false.

Definition Update (fuel : nat) (instanceId : string) (values : json) (NoCommit : bool) : go E unit :=
  _ ← Pull;
  infra ← Config;
  let instanceDir := JoinPath ["/infrastructure"; instanceId] in
  config ← appConfig (JoinPath [instanceDir; "config.json"]);
  rendered ← lift (Render (MkRelease instanceId (relNamespace (iRelease config)) FullAddress instanceDir) infra values);
  InstallApp fuel instanceDir (irName rendered) (encode_infra_app (irConfig rendered))
    (irResources rendered) (irData rendered) NoCommit.
End Manager.
End InfraAppManager.
