(* ===== verification/InfraManagerTheorems.v ===== *)
(** * What the infrastructure manager does to its repository

    FindInstance and Update of InfraAppManager as functions of the work tree,
    from the lemmas on installations in AppManager. *)
From S2P Require Import Prelude GoLib GoStrings GoPath RepoIO InstallerTypes AppManager InfraManager AppManagerTheorems.
Open Scope string_scope.
Open Scope list_scope.

#[local] Set Default Proof Using "Type*".

Abbreviation infra_root := ["infrastructure"].

Lemma infra_root_ok : Forall seg_ok infra_root.
Proof. by repeat constructor. Qed.

(** Values of a map or slice type: null or the container. *)
Definition well_formed_infra (c : InfraAppInstanceConfig) : Prop :=
  json_map (iValues c) = Ok (iValues c) /\ json_map (iInput c) = Ok (iInput c) /\ json_slice (iHelp c) = Ok (iHelp c).

Lemma decode_encode_infra c : decode_infra (encode_infra c) = Ok c.
Proof.
  destruct c as [a b c d]. unfold decode_infra, encode_infra. cbn [infraName infraPublicIP InfraNamespacePrefix InfraAdminPublicKey].
  rewrite (omit_str_nil "infraAdminPublicKey"). repeat (json_enc; json_bind).
Qed.

Lemma decode_encode_infra_app c : well_formed_infra c -> decode_infra_app (encode_infra_app c) = Ok c.
Proof.
  destruct c as [a b c d e f g h i]. intros (He & Hf & Hh). unfold decode_infra_app, encode_infra_app.
  cbn [iId iAppId iInfra iRelease iValues iInput iURL iHelp iIcon] in *.
  eapply bind_ok; [by json_enc|]. eapply bind_ok; [by json_enc|].
  eapply bind_ok; [json_enc; by rewrite decode_encode_infra|].
  eapply bind_ok; [json_enc; by rewrite decode_encode_release|].
  eapply bind_ok; [json_enc; by rewrite (json_null_hit "values" json_map e)|].
  eapply bind_ok; [json_enc; by rewrite (json_null_hit "input" json_map f)|].
  eapply bind_ok; [by json_enc|].
  eapply bind_ok; [json_enc; by rewrite (json_null_hit "help" json_slice h)|].
  eapply bind_ok; [by json_enc|]. by destruct d.
Qed.

(** FindInstance on a work tree: an instance that is not listed is a zero
    configuration. *)
Definition find_infra_in (f : tree) (id : string) : outcome InfraAppInstanceConfig :=
  k ← read_doc decode_kust (kust_key infra_root) f;
  if decide (id ∈ kResources k) then
    cfg ← read_doc decode_infra_app (config_key infra_root id) f;
    Ok (infra_with_id id cfg)
  else Ok zero_infra_app.

Lemma kusts_ok_chain rsegs f : kusts_ok f -> kusts_ok (chain rsegs f).
Proof. revert f. induction rsegs as [|x l IH]; intros f Hok; [done|]. by apply IH, kusts_ok_link. Qed.

(** A directory of resources: whatever their names, its kustomization is one. *)
Lemma kusts_ok_resources dir l f k :
  names_ok l -> kusts_ok f -> kusts_ok (<[kust_key dir := Doc (encode_kust k)]> (put_keys dir l f)).
Proof.
  intros Hl Hok key. destruct (decide (key = kust_key dir)) as [->|Hne].
  { left. exists k. apply kust_at_doc. by rewrite lookup_insert_eq. }
  unfold kust_at. rewrite lookup_insert_ne by done. fold (kust_at (put_keys dir l f) key).
  destruct (decide (key ∈ map (file_key dir) (map fst l))) as [Hin|Hout].
  - apply list_elem_of_fmap in Hin as (n & -> & Hn). right. intros d. apply not_kust_key.
    + apply (name_ok l n Hl Hn).
    + intros ->. by apply Hne.
  - destruct (Hok key) as [Hs|]; [left|by right]. unfold kust_at in *. rewrite put_keys_other; [done|].
    intros n Hn He. apply Hout. rewrite He. by apply list_elem_of_fmap_2.
Qed.

Lemma kusts_ok_installed segs config resources data f :
  data_ok data -> names_ok resources -> kusts_ok f -> kusts_ok (install_tree segs config resources data f).
Proof.
  intros Hd Hr Hok. unfold install_tree. apply kusts_ok_resources; [done|]. apply kusts_ok_chain, kusts_ok_put_keys; [done|].
  by apply kusts_ok_put, kusts_ok_put, kusts_ok_without.
Qed.

Section Infra.
Context (addr : string) (a : answers).
#[local] Instance TheRepo : RepoIO appE := app_repo addr.

Lemma infra_config_key id : seg_ok id -> fs_key (JoinPath ["/infrastructure"; id; "config.json"]) = config_key infra_root id.
Proof.
  intros Hid. change "/infrastructure" with (abs_path infra_root).
  assert (H : Forall seg_ok (infra_root ++ [id; "config.json"])).
  { apply Forall_app. split; [apply infra_root_ok|]. constructor; [done|]. apply Forall_singleton. by split_and!. }
  rewrite JoinPath_abs2 by done. by apply fs_key_abs.
Qed.

Lemma does_infra_find f id :
  seg_ok id -> does a (InfraAppManager.FindInstance id) f (find_infra_in f id) f.
Proof.
  intros Hid. unfold InfraAppManager.FindInstance, find_infra_in. apply does_mbind_any.
  { exact (does_read_doc addr a decode_kust (JoinPath ["/infrastructure"; "kustomization.yaml"]) f). }
  intros k _. cbv beta. induction (kResources k) as [|x l IH]; [apply does_ret|].
  destruct (String.eqb_spec x id) as [->|Hne].
  - rewrite decide_True by by left. apply does_mbind_any; [|intros cfg _; apply does_ret].
    rewrite <- (infra_config_key id Hid). apply (does_read_doc addr a decode_infra_app).
  - assert (Hd : id ∈ x :: l <-> id ∈ l) by set_solver.
    rewrite (decide_ext (id ∈ x :: l) (id ∈ l)) by exact Hd. exact IH.
Qed.

Lemma run_infra_pull w : clean (w_repo w) -> exists n, run (app_step a) Pull w =
  (MkWorld (MkRepo (remote (w_repo w)) (remote (w_repo w)) (remote (w_repo w)) (log (w_repo w)) n) (w_ns w) (w_ports w), Ok tt).
Proof. exact (run_Pull addr a w). Qed.

Lemma run_infra_read {A} (dec : json -> outcome A) p f h r l n ns ports : exists m,
  run (app_step a) (ReadYaml dec p) (MkWorld (MkRepo f h r l n) ns ports) =
    (MkWorld (MkRepo f h r l m) ns ports, read_doc dec (fs_key p) f).
Proof. exact (does_read_doc addr a dec p f (MkWorld (MkRepo f h r l n) ns ports) eq_refl). Qed.

Section Update.
Context (id : string) (fuel : nat) (infra : InfraConfig) (rendered : InfraAppRendered).
Context (Render : Release -> InfraConfig -> json -> outcome InfraAppRendered).
Context (Hid : seg_ok id) (Hidk : id <> "kustomization.yaml") (Hfuel : 2 < fuel).
Context (Hdata : data_ok (irData rendered)) (Hres : names_ok (irResources rendered)).

(** The tree once the rendered app is installed. *)
Definition infra_tree (f : tree) : tree :=
  install_tree (infra_root ++ [id]) (encode_infra_app (irConfig rendered)) (irResources rendered) (irData rendered) f.

Lemma find_infra_installed f :
  kusts_ok f -> well_formed_infra (irConfig rendered) ->
  find_infra_in (infra_tree f) id = Ok (infra_with_id id (irConfig rendered)).
Proof.
  intros Hok Hwf. unfold find_infra_in, infra_tree.
  destruct (installed_root infra_root id (encode_infra_app (irConfig rendered)) (irResources rendered) (irData rendered) f)
    as (k & _ & HT); [apply infra_root_ok|done..|].
  rewrite (read_kust _ _ _ HT). cbn [mbind outcome_bind].
  rewrite decide_True by (apply AddResource_elem; by left). unfold read_doc.
  rewrite installed_config by (apply infra_root_ok || done). cbn [parsed mbind outcome_bind].
  by rewrite decode_encode_infra_app.
Qed.

Lemma infra_config_kept f :
  read_doc decode_infra_strict (fs_key "config.yaml") f = Ok infra ->
  read_doc decode_infra_strict (fs_key "config.yaml") (infra_tree f) = Ok infra.
Proof.
  intros Hf. rewrite <- Hf. apply read_doc_frame. change (fs_key "config.yaml") with (abs_path ["config.yaml"]).
  unfold infra_tree. apply installed_out; [apply infra_root_ok|done|done|done|by repeat constructor| |].
  - intros c. done.
  - intros [|d [|d' dir]]; discriminate.
Qed.

Lemma infra_root_listed f k :
  kusts_ok f -> read_doc decode_kust (kust_key infra_root) f = Ok k ->
  read_doc decode_kust (kust_key infra_root) (infra_tree f) = Ok (AddResource k id).
Proof.
  intros Hok Hk. destruct (installed_root infra_root id (encode_infra_app (irConfig rendered)) (irResources rendered)
    (irData rendered) f) as (k' & Hk' & HT); [apply infra_root_ok|done..|].
  unfold infra_tree. rewrite (read_kust _ _ _ HT). do 2 f_equal. unfold kust_at in Hk'. unfold read_doc in Hk.
  destruct (f !! kust_key infra_root) as [c|]; [|done].
  destruct (v ← parsed c; decode_kust v) as [k2| | |]; by simplify_eq.
Qed.

(** The other instances are as they were. *)
Lemma infra_config_other f i :
  seg_ok i -> i <> id -> infra_tree f !! config_key infra_root i = f !! config_key infra_root i.
Proof.
  intros Hi Hne. unfold infra_tree. apply installed_out; [apply infra_root_ok|done|done|done|
    apply config_path; [apply infra_root_ok|done]|by apply other_config_out|].
  intros dir He. rewrite (config_split infra_root i) in He. by apply app_inj_tail in He as [_ ?].
Qed.

Lemma find_infra_other f k i :
  kusts_ok f -> read_doc decode_kust (kust_key infra_root) f = Ok k -> seg_ok i -> i <> id ->
  find_infra_in (infra_tree f) i = find_infra_in f i.
Proof.
  intros Hok Hk Hi Hne. unfold find_infra_in. rewrite (infra_root_listed f k), Hk by done. cbn [mbind outcome_bind].
  rewrite (read_doc_frame decode_infra_app (config_key infra_root i) (infra_tree f) f) by by apply infra_config_other.
  rewrite (decide_ext (i ∈ kResources (AddResource k id)) (i ∈ kResources k)); [done|].
  rewrite AddResource_elem. naive_solver.
Qed.

(** The kustomization of another directory at the top. *)
Lemma infra_kust_other f d : seg_ok d -> d <> "infrastructure" -> infra_tree f !! kust_key [d] = f !! kust_key [d].
Proof.
  intros Hd Hne. unfold infra_tree. rewrite (install_kust_key infra_root id _ _ _ f infra_root_ok Hid Hres [d]);
    [|by apply Forall_singleton|done|done].
  assert (Hdir : forall dir rest, ["infrastructure"; id; "resources"] = dir ++ rest -> kust_key [d] <> kust_key dir).
  { intros dir rest He Hk. assert (Hseg : Forall seg_ok dir).
    { assert (H : Forall seg_ok ["infrastructure"; id; "resources"]) by (repeat constructor; done || apply Hid).
      rewrite He in H. by apply Forall_app in H as [? _]. }
    apply kust_key_inj in Hk; [|by apply Forall_singleton|done]. rewrite <- Hk in He. by injection He as <-. }
  rewrite chain_other.
  - apply before_chain; [apply infra_root_ok|done|done| |].
    + apply Forall_cons. split; [done|]. apply Forall_singleton, seg_ok_kustomization.
    + intros c. by intros [= -> _].
  - intros dir rest He _. rewrite rev_involutive in He. by eapply Hdir.
Qed.

(** A document of the root directory that is not a kustomization. *)
Lemma infra_top_kept {A} (dec : json -> outcome A) n f :
  seg_ok n -> n <> "kustomization.yaml" -> n <> "infrastructure" ->
  read_doc dec (abs_path [n]) (infra_tree f) = read_doc dec (abs_path [n]) f.
Proof.
  intros Hn Hne Hni. apply read_doc_frame. unfold infra_tree.
  apply installed_out; [apply infra_root_ok|done|done|done|by apply Forall_singleton| |].
  - intros c. cbn [app]. by intros [= -> _].
  - intros [|d dir]; [by intros [= ->]|intros [= _ He]; by apply app_cons_not_nil in He].
Qed.

Lemma run_infra_Install ns values w :
  clean (w_repo w) -> kusts_ok (remote (w_repo w)) -> ns_answer a ns = Ok tt ->
  read_doc decode_infra_strict (fs_key "config.yaml") (remote (w_repo w)) = Ok infra ->
  Render (MkRelease "" ns addr (abs_path (infra_root ++ [id]))) infra values = Ok rendered ->
  exists n, run (app_step a) (InfraAppManager.Install Render fuel (abs_path (infra_root ++ [id])) ns values) w =
    (committed (infra_tree (remote (w_repo w))) ("install: " +:+ irName rendered) n
       (MkWorld (w_repo w) (w_ns w ++ [ns]) (w_ports w)), Ok tt).
Proof.
  intros Hclean Hok Hns Hinfra Hrender. unfold InfraAppManager.Install.
  assert (Hseg : Forall seg_ok (infra_root ++ [id])) by (apply Forall_snoc; [apply infra_root_ok|done]).
  rewrite Clean_abs_path by done. rewrite run_mbind. destruct (run_infra_pull w Hclean) as [n ->]. rewrite run_mbind.
  destruct w as [[f h r l k] nss ports]. cbn [w_repo remote log w_ns w_ports] in *.
  unfold CreateNamespace, app_ns. rewrite run_call. cbn [app_step w_repo w_ns w_ports]. rewrite Hns, run_mbind.
  unfold InfraAppManager.Config. edestruct (run_infra_read decode_infra_strict) as [m ->]. rewrite Hinfra.
  rewrite run_mbind. change (@FullAddress _ TheRepo) with addr. rewrite Hrender. cbn [run lift].
  unfold InstallApp.
  edestruct (run_Do addr a (install_op (RepoIO0 := TheRepo) fuel (abs_path (infra_root ++ [id])) (irName rendered)
    (encode_infra_app (irConfig rendered)) (irResources rendered) (irData rendered))) as [i Hi]; [| |exists i; exact Hi]; [reflexivity|].
  cbn [w_repo remote]. by apply does_install.
Qed.

Lemma run_infra_Update values old w :
  clean (w_repo w) -> kusts_ok (remote (w_repo w)) ->
  read_doc decode_infra_strict (fs_key "config.yaml") (remote (w_repo w)) = Ok infra ->
  read_doc decode_infra_app (config_key infra_root id) (remote (w_repo w)) = Ok old ->
  Render (MkRelease id (relNamespace (iRelease old)) addr (abs_path (infra_root ++ [id]))) infra values = Ok rendered ->
  exists n, run (app_step a) (InfraAppManager.Update Render fuel id values false) w =
    (committed (infra_tree (remote (w_repo w))) ("install: " +:+ irName rendered) n w, Ok tt).
Proof.
  intros Hclean Hok Hinfra Hold Hrender. unfold InfraAppManager.Update.
  rewrite run_mbind. destruct (run_infra_pull w Hclean) as [n ->]. rewrite run_mbind.
  destruct w as [[f h r l k] ns ports]. cbn [w_repo remote log w_ns w_ports] in *.
  unfold InfraAppManager.Config. edestruct (run_infra_read decode_infra_strict) as [m ->]. rewrite Hinfra.
  change "/infrastructure" with (abs_path infra_root).
  assert (Hseg : Forall seg_ok (infra_root ++ [id])) by (apply Forall_snoc; [apply infra_root_ok|done]).
  rewrite JoinPath_abs by (done || apply infra_root_ok). rewrite run_mbind. unfold InfraAppManager.appConfig.
  unfold ReadJson. fold (ReadYaml (RepoIO0 := TheRepo) decode_infra_app (JoinPath [abs_path (infra_root ++ [id]); "config.json"])).
  edestruct (run_infra_read decode_infra_app) as [j ->].
  rewrite key_file by (done || by split_and!). change (file_key (infra_root ++ [id]) "config.json") with (config_key infra_root id).
  rewrite Hold, run_mbind. change (@FullAddress _ TheRepo) with addr. rewrite Hrender. cbn [run lift].
  unfold InstallApp.
  edestruct (run_Do addr a (install_op (RepoIO0 := TheRepo) fuel (abs_path (infra_root ++ [id])) (irName rendered)
    (encode_infra_app (irConfig rendered)) (irResources rendered) (irData rendered))) as [i Hi]; [| |exists i; exact Hi]; [reflexivity|].
  cbn [w_repo remote]. by apply does_install.
Qed.
End Update.
End Infra.
