(* ===== verification/Footprints.v ===== *)
(** * Footprints of the managers

    Which calls installing and updating make: those of their repository, one
    that creates a namespace, and one per port.  For any world. *)
From S2P Require Import Prelude GoLib GoStrings GoPath RepoIO InstallerTypes AppManager InfraManager.

Section Footprints.
Context {E : Type -> Type} (P : forall X, E X -> Prop).
Context `{R : !RepoIO E} `{!NamespaceCreator E} `{!HttpPost E}.

(** A repository that makes only calls of a kind. *)
Class RepoCalls : Prop := MkRepoCalls {
  rc_Reader p : calls P (Reader p);
  rc_Writer p : calls P (Writer p);
  rc_WriteTo p c : calls P (WriteTo p c);
  rc_CreateDir p : calls P (CreateDir p);
  rc_RemoveDir p : calls P (RemoveDir p);
  rc_Pull : calls P Pull;
  rc_Do op nc : calls P op -> calls P (Do op nc);
}.

Context `{HR : !RepoCalls}.
#[local] Hint Resolve rc_Reader rc_Writer rc_WriteTo rc_CreateDir rc_RemoveDir rc_Pull rc_Do : go_calls.

Lemma calls_ReadYaml {A} (dec : json -> outcome A) p : calls P (ReadYaml dec p).
Proof using HR. unfold ReadYaml. solve_calls. Qed.

Lemma calls_WriteYaml p v : calls P (WriteYaml p v).
Proof using HR. unfold WriteYaml. solve_calls. Qed.
#[local] Hint Resolve calls_ReadYaml calls_WriteYaml : go_calls.

Lemma calls_kustomization_loop fuel p : calls P (kustomization_loop fuel p).
Proof using HR.
  revert p. induction fuel as [|fuel IH]; intros p; cbn [kustomization_loop]; destruct (String.eqb p "/"); try done.
  destruct (split_last p) as [parent child]. unfold ReadKustomization, WriteKustomization. solve_calls.
Qed.
#[local] Hint Resolve calls_kustomization_loop : go_calls.

Lemma calls_InstallApp fuel appDir name config resources data nc :
  calls P (InstallApp fuel appDir name config resources data nc).
Proof using HR.
  unfold InstallApp. apply rc_Do. unfold install_op, WriteJson, write_file, WriteKustomization, createKustomizationChain.
  change (forall p v, calls P (_ ← Writer p; WriteTo p (Doc v))) with (forall p v, calls P (WriteYaml p v)) in *.
  solve_calls.
Qed.
#[local] Hint Resolve calls_InstallApp : go_calls.

Lemma calls_Install {V : Type} (Render : Release -> EnvConfig -> V -> outcome EnvAppRendered) fuel instanceId appDir ns values :
  (forall n, calls P (CreateNamespace n)) -> (forall ad b, calls P (post_json ad b)) ->
  calls P (Install Render fuel instanceId appDir ns values).
Proof using HR. intros Hn Hp. unfold Install, Config, openPorts. solve_calls. Qed.

Lemma calls_infra_Install Render fuel appDir ns values :
  (forall n, calls P (CreateNamespace n)) -> calls P (InfraAppManager.Install Render fuel appDir ns values).
Proof using HR. intros Hn. unfold InfraAppManager.Install, InfraAppManager.Config. solve_calls. Qed.

Lemma calls_infra_FindInstance id : calls P (InfraAppManager.FindInstance id).
Proof using HR.
  unfold InfraAppManager.FindInstance, ReadKustomization, InfraAppManager.appConfig, ReadJson. apply calls_mbind; [auto with go_calls|].
  intros k. induction (kResources k) as [|x l IH]; [done|]. destruct (String.eqb x id); [solve_calls|exact IH].
Qed.

Lemma calls_infra_Update Render fuel id values nc : calls P (InfraAppManager.Update Render fuel id values nc).
Proof using HR. unfold InfraAppManager.Update, InfraAppManager.Config, InfraAppManager.appConfig, ReadJson. solve_calls. Qed.
End Footprints.

(** An embedded repository makes the injected calls only. *)
Lemma calls_embed {E F : Type -> Type} (inj : forall X, E X -> F X) (P : forall X, F X -> Prop) {A} (p : prog E A) :
  (forall X e, P X (inj X e)) -> calls P (embed inj p).
Proof. intros H. induction p as [|X e k IH]; cbn; [done|]. split; [apply H|exact IH]. Qed.

Lemma repo_in_calls {F : Type -> Type} (inj : forall X, repoE X -> F X) (P : forall X, F X -> Prop) addr :
  (forall X e, P X (inj X e)) -> RepoCalls P (R := repo_in inj addr).
Proof.
  intros H. constructor; intros; cbn [Reader Writer WriteTo CreateDir RemoveDir Pull Do repo_in]; try (by apply calls_embed).
  apply calls_mbind; [by apply calls_embed|]. intros _. apply calls_mbind; [done|]. intros msg.
  destruct nc; [done|by apply calls_embed].
Qed.
