(* ===== verification/Leftovers.v ===== *)
(** * What a failed operation leaves behind (core/installer/soft/repoio.go)

    [Do] neither undoes what a failed operation wrote nor throws away a commit
    it could not push; the checkout is shared by all operations of a process. *)
From S2P Require Import Prelude GoLib GoStrings GoPath RepoIO InstallerTypes AppManager.
Open Scope string_scope.
Open Scope list_scope.

(** What an operation does on the repository it is given: it works on files. *)
Definition edits (X : Type) (e : repoE X) : Prop :=
  match e with WtPull | WtAddGlob | WtCommit _ | RepoPush => False | _ => True end.

(** The last commit of the remote is the one the checkout is on, or the one its
    local commits are on. *)
Definition on_top (s : repo_state) : Prop := default (head_ s) (base s) = remote s.

Section Leftovers.
Context (fault : nat -> option error).
Abbreviation repo_run := (run (repo_step fault)).

Lemma on_top_pull s : on_top s -> (repo_run repo.pullWithoutLock s) = (tick s, Ok tt).
Proof.
  intros Ht. unfold repo.pullWithoutLock. rewrite run_handle, run_call. cbn [repo_step].
  destruct (fault (ops s)); [done|]. cbn [run mret go_ret]. unfold pulled_state. case_decide as Hd; [|done].
  destruct Hd as [Hb Hh]. unfold on_top in Ht. by rewrite Hb in Ht.
Qed.

(** Only the files change, and the clock goes on. *)
Definition edited (s s' : repo_state) : Prop := exists f n, ops s <= n /\ s' = on_files f n s.

Lemma run_edits {A} (op : go repoE A) s : calls edits op -> edited s (repo_run op s).1.
Proof.
  intros Hop. apply (run_calls_rel (repo_step fault) edits edited); [| | |done].
  - intros x. exists (files x), (ops x). split; [lia|]. by destruct x.
  - intros x y z (f & n & Hn & ->) (g & m & Hm & ->). exists g, m. split; [cbn in Hm; lia|done].
  - intros X e x He. unfold edited. destruct e; cbn in He; try done; cbn [repo_step];
      destruct (fault (ops x)); cbn [fst]; do 2 eexists; (split; [|reflexivity]); lia.
Qed.

Lemma edited_on_top s s' : edited s s' -> on_top s -> on_top s'.
Proof. intros (f & n & _ & ->). done. Qed.

(** Commit and push on top of the remote: done, or a failure that keeps the files. *)
Lemma run_push_on_top m s :
  on_top s ->
  let '(s', o) := repo_run (repo.CommitAndPush m) s in
  match o with
  | Ok _ => remote s' = files s
  | Err _ => remote s' = remote s /\ files s' = files s /\ on_top s'
  | _ => False
  end.
Proof.
  intros Ht. unfold repo.CommitAndPush. rewrite run_mbind, run_call. cbn [repo_step].
  destruct (fault (ops s)); [done|]. rewrite run_mbind, run_call. cbn [repo_step].
  destruct (fault (ops (tick s))); [done|]. rewrite run_call. cbn [repo_step].
  destruct (fault (ops (committed_state m (tick s)))); [done|].
  unfold pushed_state. cbn [base committed_state]. by rewrite decide_True.
Qed.

Lemma quiet_push m s :
  on_top s -> (forall n, ops s <= n -> fault n = None) ->
  exists s', repo_run (repo.CommitAndPush m) s = (s', Ok tt) /\ remote s' = files s.
Proof.
  intros Ht Hq. unfold repo.CommitAndPush. rewrite run_mbind, run_call. cbn [repo_step].
  rewrite Hq by lia. rewrite run_mbind, run_call. cbn [repo_step].
  rewrite Hq by (cbn; lia). rewrite run_call. cbn [repo_step]. rewrite Hq by (cbn; lia).
  unfold pushed_state. cbn [base committed_state]. rewrite decide_True by done. eexists. by split.
Qed.

(** C16. What a failed operation wrote is published by the next one. Wherever
    [Do] fails - in the operation, committing or pushing - the remote is
    unchanged, and what the operation wrote is still in the checkout; as soon as
    the repository works again, any operation that succeeds is run on top of it
    and pushes both. *)
Theorem failed_work_is_published (op1 op2 : go repoE string) (s s1 : repo_state) (e : error)
    (Htop : on_top s) (Hop1 : calls edits op1) (Hop2 : calls edits op2)
    (Hfail : repo_run (repo.Do op1 false) s = (s1, Err e))
    (Hquiet : forall n, ops s1 <= n -> fault n = None) :
  remote s1 = remote s /\ files s1 = files (repo_run op1 (tick s)).1 /\ on_top s1 /\
  forall s2 msg, repo_run op2 (tick s1) = (s2, Ok msg) ->
    exists s3, repo_run (repo.Do op2 false) s1 = (s3, Ok tt) /\ remote s3 = files s2.
Proof.
  assert (H1 : remote s1 = remote s /\ files s1 = files (repo_run op1 (tick s)).1 /\ on_top s1).
  { unfold repo.Do in Hfail. rewrite run_mbind, on_top_pull, run_mbind in Hfail by done.
    pose proof (run_edits op1 (tick s) Hop1) as He. destruct (repo_run op1 (tick s)) as [x [m|e'|y|]]; cbn [fst] in *;
      [|injection Hfail as <- _; destruct He as (f & n & _ & ->); done|done..].
    cbn [negb] in Hfail. pose proof (run_push_on_top m x) as Hp. rewrite Hfail in Hp.
    destruct Hp as (Hr & Hf & Ht); [by eapply edited_on_top|]. split; [|done].
    rewrite Hr. by destruct He as (f & n & _ & ->). }
  destruct H1 as (Hr & Hf & Ht). split; [done|]. split; [done|]. split; [done|].
  intros s2 msg Hrun. unfold repo.Do. rewrite run_mbind, on_top_pull, run_mbind, Hrun by done. cbn [negb].
  pose proof (run_edits op2 (tick s1) Hop2) as (f & n & Hn & He). rewrite Hrun in He. cbn [fst] in He. subst s2.
  apply quiet_push; [done|]. intros i Hi. apply Hquiet. cbn in *. lia.
Qed.
End Leftovers.

(** ** States but for the clock

    Without faults nothing looks at the clock, so programs do not tell two
    states apart that differ only there. *)

#[export] Instance repo_equiv : Equiv repo_state := fun s s' => exists n, s' = on_files (files s) n s.

#[export] Instance repo_equivalence : Equivalence (≡@{repo_state}).
Proof.
  split.
  - intros s. exists (ops s). by destruct s.
  - intros s s' [n ->]. exists (ops s). by destruct s.
  - intros s s' s'' [n ->] [m ->]. by exists m.
Qed.

#[export] Instance files_proper : Proper ((≡) ==> (=)) files.
Proof. by intros s s' [n ->]. Qed.
#[export] Instance remote_proper : Proper ((≡) ==> (=)) remote.
Proof. by intros s s' [n ->]. Qed.
#[export] Instance on_files_proper : Proper ((=) ==> (fun _ _ => True) ==> (≡) ==> (≡)) on_files.
Proof. intros f _ <- n m _ s s' [i ->]. by exists m. Qed.
#[export] Instance tick_proper : Proper ((≡) ==> (≡)) tick.
Proof. intros s s' [n ->]. by eexists. Qed.
#[export] Instance pulled_state_proper : Proper ((≡) ==> (≡)) pulled_state.
Proof. intros s s' [n ->]. unfold pulled_state. cbn [base head_ remote on_files]. by case_decide; eexists. Qed.
#[export] Instance committed_state_proper m : Proper ((≡) ==> (≡)) (committed_state m).
Proof. intros s s' [n ->]. by eexists. Qed.

(** An answer and the state it was given in. *)
Definition same_answer {X} (p q : repo_state * X) : Prop := p.1 ≡ q.1 /\ p.2 = q.2.

#[export] Instance pushed_state_proper : Proper ((≡) ==> same_answer) pushed_state.
Proof.
  intros s s' [n ->]. unfold pushed_state. cbn [base remote on_files]. destruct (base s); [case_decide|];
    (split; [by eexists|done]).
Qed.

Abbreviation quiet := (fun _ : nat => @None error).

#[export] Instance step_quiet_proper X (e : repoE X) : Proper ((≡) ==> same_answer) (repo_step quiet X e).
Proof.
  intros s s' H. destruct e; cbn [repo_step]; try (by destruct H as [n ->]; (split; [by eexists|])).
  - by split; [apply pulled_state_proper|].
  - by apply pushed_state_proper.
Qed.

#[export] Instance run_quiet_proper {A} (p : prog repoE A) : Proper ((≡) ==> same_answer) (run (repo_step quiet) p).
Proof.
  induction p as [a|X e k IH]; intros s s' H; [by split|]. cbn [run].
  pose proof (step_quiet_proper X e s s' H) as [H1 H2].
  destruct (repo_step quiet X e s) as [t x], (repo_step quiet X e s') as [t' x']. cbn [fst snd] in H1, H2. subst x'. by apply IH.
Qed.

(** A pull of a clean checkout is a fresh clone: no program can tell them apart. *)
Theorem pull_is_clone {A} (p : prog repoE A) (s : repo_state) (n : nat) (Hclean : clean s) :
  same_answer (run (repo_step quiet) (bindp repo.Pull (fun _ => p)) s)
    (run (repo_step quiet) p (MkRepo (remote s) (remote s) (remote s) (log s) n)).
Proof.
  rewrite run_bindp. unfold repo.Pull. rewrite run_pullWithoutLock by done. apply run_quiet_proper. by exists n.
Qed.

(** ** The operations of the application manager work on files *)

Section Editing.
Context (addr : string).
Abbreviation R := (billy_repo addr).

Lemma edits_Reader p : calls edits (@Reader _ R p).
Proof. by cbn. Qed.
Lemma edits_Writer p : calls edits (@Writer _ R p).
Proof. cbn [Writer billy_repo]. unfold repo.Writer. solve_calls; by apply calls_call. Qed.
Lemma edits_WriteTo p c : calls edits (@WriteTo _ R p c).
Proof. by cbn. Qed.
Lemma edits_CreateDir p : calls edits (@CreateDir _ R p).
Proof. by cbn. Qed.
Lemma edits_RemoveDir p : calls edits (@RemoveDir _ R p).
Proof. cbn [RemoveDir billy_repo]. unfold repo.RemoveDir. solve_calls. by apply calls_call. Qed.
#[local] Hint Resolve edits_Reader edits_Writer edits_WriteTo edits_CreateDir edits_RemoveDir : go_calls.

Lemma edits_WriteYaml p v : calls edits (WriteYaml (RepoIO0 := R) p v).
Proof. unfold WriteYaml. solve_calls. Qed.
Lemma edits_ReadYaml {A} (dec : json -> outcome A) p : calls edits (ReadYaml (RepoIO0 := R) dec p).
Proof. unfold ReadYaml. solve_calls. Qed.
#[local] Hint Resolve edits_WriteYaml edits_ReadYaml : go_calls.

Lemma edits_kustomization_loop fuel p : calls edits (kustomization_loop (RepoIO0 := R) fuel p).
Proof.
  revert p. induction fuel as [|fuel IH]; intros p; cbn [kustomization_loop]; destruct (String.eqb p "/"); try done.
  destruct (split_last p) as [parent child]. unfold ReadKustomization, WriteKustomization. solve_calls.
Qed.
#[local] Hint Resolve edits_kustomization_loop : go_calls.

Lemma edits_install_op fuel appDir name config resources data :
  calls edits (install_op (RepoIO0 := R) fuel appDir name config resources data).
Proof. unfold install_op, WriteJson, write_file, WriteKustomization, createKustomizationChain. solve_calls. Qed.
End Editing.

(** ** The theorem at a concrete input *)

(** An app with a file of a reserved name is refused after some of it is written. *)
Definition refused_app : go repoE string :=
  install_op (RepoIO0 := billy_repo "ssh://repo") 3 "/apps/a" "a" (JObj [("app", JStr "a")]) [] [("resources", Doc JNull)].

Definition next_app : go repoE string :=
  install_op (RepoIO0 := billy_repo "ssh://repo") 3 "/apps/b" "b" (JObj [("app", JStr "b")]) [] [].

Definition empty_repo : repo_state := MkRepo ∅ ∅ ∅ [] 0.

Lemma failed_work_is_published_witness :
  exists s1 e s3, run (repo_step (fun _ => None)) (repo.Do refused_app false) empty_repo = (s1, Err e) /\
    run (repo_step (fun _ => None)) (repo.Do next_app false) s1 = (s3, Ok tt) /\
    remote s3 !! "/apps/a/config.yaml" = Some (Doc (JObj [("app", JStr "a")])).
Proof.
  destruct (run (repo_step (fun _ => None)) (repo.Do refused_app false) empty_repo) as [s1 o] eqn:H1.
  assert (Ho : exists e, o = Err e) by (vm_compute in H1; injection H1 as _ <-; eexists; reflexivity). destruct Ho as [e ->].
  destruct (failed_work_is_published (fun _ => None) refused_app next_app empty_repo s1 e eq_refl
    (edits_install_op _ _ _ _ _ _ _) (edits_install_op _ _ _ _ _ _ _) H1 (fun _ _ => eq_refl)) as (_ & _ & _ & Hnext).
  destruct (run (repo_step (fun _ => None)) next_app (tick s1)) as [s2 o2] eqn:H2.
  assert (Ho : exists m, o2 = Ok m /\ files s2 !! "/apps/a/config.yaml" = Some (Doc (JObj [("app", JStr "a")]))).
  { vm_compute in H1. injection H1 as <- _. vm_compute in H2. injection H2 as <- <-. eexists. split; reflexivity. }
  destruct Ho as (m & -> & Hf). destruct (Hnext s2 m eq_refl) as (s3 & H3 & Hr).
  exists s1, e, s3. split; [reflexivity|]. split; [exact H3|]. by rewrite Hr.
Defined.
