(* ===== verification/Simulations.v ===== *)
(** * The same program over two kinds of calls

    Code written against the interfaces RepoIO and NamespaceCreator behaves the
    same whichever implementation it is given: its programs over two kinds of
    calls are similar, call by call, and so are their runs. *)
From S2P Require Import Prelude GoLib GoStrings GoPath RepoIO InstallerTypes AppManager InfraManager.

Section Simulation.
Context {E F : Type -> Type} (R : forall X, E X -> F X -> Prop).

Inductive sim {A} : prog E A -> prog F A -> Prop :=
  | sim_ret a : sim (Ret a) (Ret a)
  | sim_vis X (e : E X) (f : F X) k k' : R X e f -> (forall x, sim (k x) (k' x)) -> sim (Vis e k) (Vis f k').

Lemma sim_bindp {A B} (p : prog E A) q (k : A -> prog E B) k' :
  sim p q -> (forall a, sim (k a) (k' a)) -> sim (bindp p k) (bindp q k').
Proof. intros Hp Hk. induction Hp as [a|X e f c c' He _ IH]; cbn; [done|]. by constructor. Qed.

Lemma sim_mbind {A B} (p : go E A) (q : go F A) (k : A -> go E B) (k' : A -> go F B) :
  sim p q -> (forall a, sim (k a) (k' a)) -> sim (p ≫= k) (q ≫= k').
Proof. intros Hp Hk. apply sim_bindp; [done|]. intros []; [done|constructor..]. Qed.

Lemma sim_handle {A B} (p : go E A) (q : go F A) (c : error -> go E B) (c' : error -> go F B) (k : A -> go E B) (k' : A -> go F B) :
  sim p q -> (forall e, sim (c e) (c' e)) -> (forall a, sim (k a) (k' a)) -> sim (handle p c k) (handle q c' k').
Proof. intros Hp Hc Hk. apply sim_bindp; [done|]. intros []; [done..|constructor|constructor]. Qed.

Lemma sim_call {A} (e : E (outcome A)) f : R _ e f -> sim (call e) (call f).
Proof. intros H. constructor; [done|constructor]. Qed.

Lemma sim_foreach {A} (f : A -> go E unit) (g : A -> go F unit) l : (forall a, sim (f a) (g a)) -> sim (foreach f l) (foreach g l).
Proof. intros H. induction l as [|a l IH]; cbn [foreach]; [constructor|]. by apply sim_mbind. Qed.

(** A handler of the one kind of calls, and a part of the state of a handler of
    the other one on which similar calls do the same. *)
Lemma run_sim {S T} (hE : handler E S) (hF : handler F T) (get : T -> S) (put : S -> T -> T) :
  (forall X e f t, R X e f -> hF X f t = let '(s, x) := hE X e (get t) in (put s t, x)) ->
  (forall t, put (get t) t = t) -> (forall s t, get (put s t) = s) -> (forall s s' t, put s' (put s t) = put s' t) ->
  forall A (p : prog E A) q t, sim p q -> run hF q t = let '(s, x) := run hE p (get t) in (put s t, x).
Proof.
  intros Hh Hpg Hgp Hpp A p q t Hs. revert t. induction Hs as [a|X e f k k' He _ IH]; intros t; cbn [run].
  - by rewrite Hpg.
  - rewrite (Hh X e f t He). destruct (hE X e (get t)) as [s x]. rewrite IH, Hgp.
    destruct (run hE (k x) s) as [s' y]. by rewrite Hpp.
Qed.

(** Two implementations of the interfaces. *)
Context `{RE : !RepoIO E} `{RF : !RepoIO F} `{NE : !NamespaceCreator E} `{NF : !NamespaceCreator F}.

Class RepoSim : Prop := MkRepoSim {
  rs_Reader p : sim (Reader (RepoIO := RE) p) (Reader (RepoIO := RF) p);
  rs_Writer p : sim (Writer (RepoIO := RE) p) (Writer (RepoIO := RF) p);
  rs_WriteTo p c : sim (WriteTo (RepoIO := RE) p c) (WriteTo (RepoIO := RF) p c);
  rs_CreateDir p : sim (CreateDir (RepoIO := RE) p) (CreateDir (RepoIO := RF) p);
  rs_RemoveDir p : sim (RemoveDir (RepoIO := RE) p) (RemoveDir (RepoIO := RF) p);
  rs_Pull : sim (Pull (RepoIO := RE)) (Pull (RepoIO := RF));
  rs_Do op op' nc : sim op op' -> sim (Do (RepoIO := RE) op nc) (Do (RepoIO := RF) op' nc);
  rs_Address : FullAddress (RepoIO := RE) = FullAddress (RepoIO := RF);
}.

Class NsSim : Prop := ns_sim n : sim (CreateNamespace (NamespaceCreator := NE) n) (CreateNamespace (NamespaceCreator := NF) n).

End Simulation.

Arguments RepoSim {E F} R {RE RF}.
Arguments NsSim {E F} R {NE NF}.

(** One step of a proof that two programs of the same text are similar. *)
Ltac sim_step :=
  match goal with
  | |- forall _, _ => intro
  | |- RepoSim _ => assumption
  | |- NsSim _ => assumption
  | |- sim _ (Ret _) _ => constructor
  | |- sim _ (mret _) _ => constructor
  | |- sim _ (lift _) _ => constructor
  | |- sim _ (fail _) _ => constructor
  | |- sim _ (_ ≫= _) _ => apply sim_mbind
  | |- sim _ (handle _ _ _) _ => apply sim_handle
  | |- sim _ (foreach _ _) _ => apply sim_foreach
  | |- sim _ (if ?b then _ else _) _ => destruct b
  | |- sim _ (match ?x with _ => _ end) _ => destruct x
  | |- _ => first [apply rs_Reader | apply rs_Writer | apply rs_WriteTo | apply rs_CreateDir | apply rs_RemoveDir
                  | apply rs_Pull | apply rs_Do]
  end.

Section Managers.
Context {E F : Type -> Type} (R : forall X, E X -> F X -> Prop).
Context `{RE : !RepoIO E} `{RF : !RepoIO F} `{NE : !NamespaceCreator E} `{NF : !NamespaceCreator F}.
Context `{HR : !RepoSim R}.

Lemma sim_ReadYaml {A} (dec : json -> outcome A) p : sim R (ReadYaml (RepoIO0 := RE) dec p) (ReadYaml (RepoIO0 := RF) dec p).
Proof using HR. unfold ReadYaml. repeat sim_step. Qed.

Lemma sim_WriteYaml p v : sim R (WriteYaml (RepoIO0 := RE) p v) (WriteYaml (RepoIO0 := RF) p v).
Proof using HR. unfold WriteYaml. repeat sim_step. Qed.

Lemma sim_kustomization_loop fuel p :
  sim R (kustomization_loop (RepoIO0 := RE) fuel p) (kustomization_loop (RepoIO0 := RF) fuel p).
Proof using HR.
  revert p. induction fuel as [|fuel IH]; intros p; cbn [kustomization_loop]; destruct (String.eqb p "/"); try constructor.
  destruct (split_last p) as [parent child]. unfold ReadKustomization, WriteKustomization.
  repeat first [apply IH | apply sim_ReadYaml | apply sim_WriteYaml | sim_step].
Qed.

Lemma sim_InstallApp fuel dir name config resources data nc :
  sim R (InstallApp (RepoIO0 := RE) fuel dir name config resources data nc)
    (InstallApp (RepoIO0 := RF) fuel dir name config resources data nc).
Proof using HR.
  unfold InstallApp, install_op, WriteJson, write_file, WriteKustomization, createKustomizationChain.
  repeat first [apply sim_kustomization_loop | apply sim_WriteYaml | sim_step].
Qed.

Lemma sim_infra_Install `{HN : !NsSim R} Render fuel dir ns values :
  sim R (InfraAppManager.Install (RepoIO0 := RE) Render fuel dir ns values)
    (InfraAppManager.Install (RepoIO0 := RF) Render fuel dir ns values).
Proof using HR.
  unfold InfraAppManager.Install, InfraAppManager.Config. rewrite (rs_Address (RepoSim := HR) R).
  repeat first [apply ns_sim | apply sim_ReadYaml | apply sim_InstallApp | sim_step].
Qed.
End Managers.

(** An embedded program is similar to itself. *)
Lemma sim_embed {G E F : Type -> Type} (R : forall X, E X -> F X -> Prop) (iE : forall X, G X -> E X) (iF : forall X, G X -> F X)
    {A} (p : prog G A) :
  (forall X e, R X (iE X e) (iF X e)) -> sim R (embed iE p) (embed iF p).
Proof. intros H. induction p as [a|X e k IH]; cbn; [constructor|]. by constructor. Qed.

Lemma repo_in_sim {E F : Type -> Type} (R : forall X, E X -> F X -> Prop) (iE : forall X, repoE X -> E X)
    (iF : forall X, repoE X -> F X) addr :
  (forall X e, R X (iE X e) (iF X e)) -> RepoSim R (RE := repo_in iE addr) (RF := repo_in iF addr).
Proof.
  intros H. constructor; intros; cbn [Reader Writer WriteTo CreateDir RemoveDir Pull Do FullAddress repo_in];
    try (by apply sim_embed); try done.
  apply sim_mbind; [by apply sim_embed|]. intros _. apply sim_mbind; [done|]. intros msg.
  destruct nc; [constructor|by apply sim_embed].
Qed.
