(* ===== verification/Derived.v ===== *)
(** * Values of an application's input (core/installer/derived.go, schema.go)

    [deriveValues] turns the values a user entered into the input of the CUE
    definition: names of networks become networks, missing SSH keys are made.
    [derivedToConfig] goes back, from the input stored in config.json to values
    a form can show and Update can derive again. *)
From S2P Require Import Prelude GoLib GoStrings RepoIO InstallerTypes.
Open Scope string_scope.
Open Scope list_scope.

(** ** Schemas *)

Inductive Kind :=
  | KindBoolean | KindInt | KindString | KindStruct | KindNetwork | KindAuth | KindSSHKey | KindNumber
  | KindArrayString.

#[export] Instance Kind_eq_dec : EqDecision Kind.
Proof. solve_decision. Defined.

Inductive Schema :=
  | basicSchema (name : string) (kind : Kind) (advanced : bool)
  | structSchema (name : string) (fields : list (string * Schema)) (advanced : bool).

Abbreviation Field := (string * Schema)%type.

Definition schema_name (s : Schema) : string :=
  match s with basicSchema n _ _ | structSchema n _ _ => n end.

Definition schema_kind (s : Schema) : Kind :=
  match s with basicSchema _ k _ => k | structSchema _ _ _ => KindStruct end.

Definition Fields (s : Schema) : list Field :=
  match s with basicSchema _ _ _ => [] | structSchema _ fs _ => fs end.

Definition Advanced (s : Schema) : bool :=
  match s with basicSchema _ _ a | structSchema _ _ a => a end.

Definition AuthSchema : Schema :=
  structSchema "Auth"
    [("enabled", basicSchema "Enabled" KindBoolean false);
     ("groups", basicSchema "Groups" KindString false)] false.

Definition SSHKeySchema : Schema :=
  structSchema "SSH Key"
    [("public", basicSchema "Public Key" KindString false);
     ("private", basicSchema "Private Key" KindString false)] true.

(** ** Values of type any *)

Inductive gval :=
  | VNil
  | VBool (b : bool)
  | VNum (n : Z)
  | VStr (s : string)
  | VStrs (l : list string)                  (* []string *)
  | VArr (l : list gval)                     (* []any *)
  | VMap (m : list (string * gval))          (* map[string]any *)
  | VStrMap (m : list (string * string))     (* map[string]string *)
  | VNet (n : Network).

Abbreviation amap := (list (string * gval)).

Fixpoint amap_get (k : string) (m : amap) : option gval :=
  match m with
  | [] => None
  | (k', v) :: m' => if String.eqb k' k then Some v else amap_get k m'
  end.

Fixpoint amap_set (k : string) (v : gval) (m : amap) : amap :=
  match m with
  | [] => [(k, v)]
  | (k', v') :: m' => if String.eqb k' k then (k, v) :: m' else (k', v') :: amap_set k v m'
  end.

(** json.Marshal, and json.Unmarshal into an any. *)
Fixpoint json_of (v : gval) : json :=
  match v with
  | VNil => JNull
  | VBool b => JBool b
  | VNum n => JNum n
  | VStr s => JStr s
  | VStrs l => JArr (map JStr l)
  | VArr l => JArr (map json_of l)
  | VMap m => JObj (map (fun kv => (kv.1, json_of kv.2)) m)
  | VStrMap m => JObj (map (fun kv => (kv.1, JStr kv.2)) m)
  | VNet n => encode_network n
  end.

Fixpoint of_json (j : json) : gval :=
  match j with
  | JNull => VNil
  | JBool b => VBool b
  | JNum n => VNum n
  | JStr s => VStr s
  | JArr l => VArr (map of_json l)
  | JObj fs => VMap (map (fun kv => (kv.1, of_json kv.2)) fs)
  end.

(** The type assertions of the source. *)
Definition as_map (v : gval) : outcome amap :=
  match v with VMap m => Ok m | _ => Panic "interface conversion: not map[string]interface {}" end.

Definition as_string (v : gval) : outcome string :=
  match v with VStr s => Ok s | _ => Panic "interface conversion: not string" end.

(** ** Deriving *)

(** NewECDSASSHKeyPair: a fresh pair of keys in text form. *)
Inductive keyE : Type -> Type :=
  | NewECDSASSHKeyPair (title : string) : keyE (outcome (string * string)).

Fixpoint findNetwork (networks : list Network) (name : string) : outcome Network :=
  match networks with
  | [] => Err (errorf ("Network not found: " +:+ name))
  | n :: networks' => if String.eqb (netName n) name then Ok n else findNetwork networks' name
  end.

(** for _, f := range schema.Fields(): [ret[f.Name] = x], or nothing. *)
Fixpoint collect_fields {M : Type -> Type} `{!MRet M, !MBind M} (g : Field -> M (option gval)) (fs : list Field)
    (ret : amap) : M amap :=
  match fs with
  | [] => mret ret
  | f :: fs' =>
      o ← g f;
      collect_fields g fs' (match o with Some x => amap_set f.1 x ret | None => ret end)
  end.

Definition derive_field (rec : gval -> Schema -> go keyE amap) (networks : list Network) (values : gval) (f : Field)
    : go keyE (option gval) :=
  let '(k, def) := f in
  m ← lift (as_map values);
  match amap_get k m with
  | None =>
      if decide (schema_kind def = KindSSHKey) then
        key ← call (NewECDSASSHKeyPair "tmp");
        mret (Some (VStrMap [("public", key.1); ("private", key.2)]))
      else mret None
  | Some v =>
      match schema_kind def with
      | KindBoolean | KindString | KindInt => mret (Some v)
      | KindArrayString =>
          match v with VStrs a => mret (Some (VStrs a)) | _ => fail (errorf "expected string array") end
      | KindNetwork =>
          name ← lift (as_string v);
          n ← lift (findNetwork networks name);
          mret (Some (VNet n))
      | KindAuth => r ← rec v AuthSchema; mret (Some (VMap r))
      | KindSSHKey => r ← rec v SSHKeySchema; mret (Some (VMap r))
      | KindStruct => r ← rec v def; mret (Some (VMap r))
      | KindNumber => fail (errorf "Should not reach!")
      end
  end.

(** The fuel bounds the nesting of the schema. *)
Fixpoint deriveValues (fuel : nat) (values : gval) (schema : Schema) (networks : list Network) : go keyE amap :=
  match fuel with
  | 0 => Ret Diverge
  | S fuel' =>
      collect_fields (derive_field (fun v s => deriveValues fuel' v s networks) networks values) (Fields schema) []
  end.

(** ** Back to values *)

Definition config_map (v : gval) : outcome amap :=
  match v with VMap m => Ok m | _ => Err (errorf "expected map") end.

Definition config_field (rec : amap -> Schema -> outcome amap) (derived : amap) (f : Field) : outcome (option gval) :=
  let '(k, def) := f in
  match amap_get k derived with
  | None => Ok None
  | Some v =>
      match schema_kind def with
      | KindBoolean | KindString | KindInt => Ok (Some v)
      | KindArrayString =>
          match v with VStrs a => Ok (Some (VStrs a)) | _ => Err (errorf "expected string array") end
      | KindNetwork =>
          vm ← config_map v;
          match amap_get "name" vm with
          | Some name => Ok (Some name)
          | None => Err (errorf "expected network name")
          end
      | KindAuth => vm ← config_map v; r ← rec vm AuthSchema; Ok (Some (VMap r))
      | KindSSHKey => vm ← config_map v; r ← rec vm SSHKeySchema; Ok (Some (VMap r))
      | KindStruct => vm ← config_map v; r ← rec vm def; Ok (Some (VMap r))
      | KindNumber => Err (errorf "Should not reach!")
      end
  end.

Fixpoint derivedToConfig (fuel : nat) (derived : amap) (schema : Schema) : outcome amap :=
  match fuel with
  | 0 => Diverge
  | S fuel' => collect_fields (config_field (derivedToConfig fuel') derived) (Fields schema) []
  end.

(** [a.Input] is null or an object; the zero map of the first has no keys. *)
Definition input_map (j : json) : amap :=
  match of_json j with VMap m => m | _ => [] end.

Definition InputToValues (fuel : nat) (a : AppInstanceConfig) (schema : Schema) : outcome amap :=
  match derivedToConfig fuel (input_map (Input a)) schema with
  | Err e => Panic (emsg e)
  | o => o
  end.

(** * Proofs *)

(** ** Fields one by one *)

(** The entries of [new] come from the fields [fs] in order: each field gave an
    option that satisfies [R]. *)
Fixpoint filled (R : Field -> option gval -> Prop) (fs : list Field) (new : amap) : Prop :=
  match fs with
  | [] => new = []
  | f :: fs' => exists o, R f o /\
      match o with
      | Some x => exists new', new = (f.1, x) :: new' /\ filled R fs' new'
      | None => filled R fs' new
      end
  end.

Lemma filled_keys R fs new k : filled R fs new -> k ∈ map fst new -> k ∈ map fst fs.
Proof.
  revert new. induction fs as [|f fs IH]; intros new; [intros ->; done|].
  intros (o & _ & H) Hk. destruct o as [x|]; [|right; by eapply IH].
  destruct H as (new' & -> & H). apply elem_of_cons in Hk as [->|Hk]; [by left|right; by eapply IH].
Qed.

Lemma amap_get_None k (m : amap) : k ∉ map fst m -> amap_get k m = None.
Proof.
  induction m as [|[k' v] m IH]; [done|]. cbn [map fst]. intros [Hne Hk]%not_elem_of_cons.
  cbn [amap_get]. destruct (String.eqb_spec k' k); [by subst|]. by apply IH.
Qed.

Lemma filled_impl (R R' : Field -> option gval -> Prop) fs new :
  (forall f o, f ∈ fs -> R f o -> R' f o) -> filled R fs new -> filled R' fs new.
Proof.
  revert new. induction fs as [|f fs IH]; intros new HR; [done|]. intros (o & Ho & H).
  exists o. split; [apply HR; [by left|done]|].
  assert (HR' : forall g o, g ∈ fs -> R g o -> R' g o) by (intros; apply HR; [by right|done]).
  destruct o as [x|]; [|by apply IH]. destruct H as (new' & -> & H). exists new'. split; [done|]. by apply IH.
Qed.

Lemma amap_get_skip k k' x (m : amap) : k <> k' -> amap_get k' ((k, x) :: m) = amap_get k' m.
Proof. intros Hne. cbn [amap_get]. by rewrite (proj2 (String.eqb_neq k k')). Qed.

(** With distinct names the option of a field is what the map holds. *)
Lemma filled_get R fs new : NoDup (map fst fs) -> filled R fs new ->
  filled (fun f o => R f o /\ amap_get f.1 new = o) fs new.
Proof.
  revert new. induction fs as [|f fs IH]; intros new; [done|]. cbn [map]. intros [Hf Hd]%NoDup_cons (o & Ho & H).
  exists o. destruct o as [x|].
  - destruct H as (new' & -> & H). split.
    + split; [done|]. cbn [amap_get]. by rewrite String.eqb_refl.
    + exists new'. split; [done|]. apply IH in H; [|done]. eapply filled_impl; [|exact H].
      intros g o Hg [HR Hgo]. split; [done|]. rewrite amap_get_skip; [done|].
      intros He. apply Hf. rewrite He. by apply list_elem_of_fmap_2.
  - split; [split; [done|]|by apply IH]. apply amap_get_None. intros Hk. apply Hf. by eapply filled_keys.
Qed.

Lemma filled_exists (R : Field -> option gval -> Prop) fs : (forall f, f ∈ fs -> exists o, R f o) -> exists new, filled R fs new.
Proof.
  induction fs as [|f fs IH]; intros HR; [by exists []|].
  destruct (HR f) as [o Ho]; [by left|]. destruct IH as [new Hnew]; [intros; apply HR; by right|].
  destruct o as [x|].
  - exists ((f.1, x) :: new), (Some x). split; [done|]. by exists new.
  - exists new, None. done.
Qed.

Lemma filled_elem R fs new f : filled R fs new -> f ∈ fs -> exists o, R f o.
Proof.
  revert new. induction fs as [|g fs IH]; intros new; [by intros _ ?%not_elem_of_nil|].
  intros (o & Ho & H) [->|Hf]%elem_of_cons; [eauto|].
  destruct o as [x|]; [destruct H as (new' & -> & H)|]; by eapply IH.
Qed.

Lemma filled_json R R' fs d d' :
  (forall f o o', f ∈ fs -> R f o -> R' f o' -> option_map json_of o' = option_map json_of o) ->
  filled R fs d -> filled R' fs d' -> json_of (VMap d') = json_of (VMap d).
Proof.
  intros HR Hd Hd'. cbn [json_of]. f_equal. revert d d' Hd Hd'.
  induction fs as [|f fs IH]; intros d d' Hd Hd'; [by rewrite Hd, Hd'|].
  destruct Hd as (o & Ho & Hd), Hd' as (o' & Ho' & Hd').
  pose proof (HR f o o' ltac:(by left) Ho Ho') as He.
  assert (HR' : forall g o o', g ∈ fs -> R g o -> R' g o' -> option_map json_of o' = option_map json_of o)
    by (intros g ? ? Hg; apply HR; by right).
  destruct o as [x|], o' as [x'|]; try done; [|by apply IH].
  destruct Hd as (n & -> & Hd), Hd' as (n' & -> & Hd'). cbn [map fst snd]. injection He as He.
  f_equal; [by rewrite He|]. by apply IH.
Qed.

Lemma amap_set_new k v (m : amap) : k ∉ map fst m -> amap_set k v m = m ++ [(k, v)].
Proof.
  induction m as [|[k' v'] m IH]; [done|]. cbn [map fst]. intros [Hne Hk]%not_elem_of_cons.
  cbn [amap_set app]. destruct (String.eqb_spec k' k); [by subst|]. by rewrite IH.
Qed.

Definition new_names (fs : list Field) (ret : amap) : Prop :=
  NoDup (map fst fs) /\ forall k, k ∈ map fst fs -> k ∉ map fst ret.

Lemma new_names_cons f fs ret : new_names (f :: fs) ret ->
  new_names fs ret /\ forall x, amap_set f.1 x ret = ret ++ [(f.1, x)] /\ new_names fs (ret ++ [(f.1, x)]).
Proof.
  intros [[Hf Hd]%NoDup_cons Hn]. split; [split; [done|]; intros k Hk; apply Hn; by right|]. intros x.
  split; [apply amap_set_new, Hn; by left|]. split; [done|]. intros k Hk Hin. rewrite map_app in Hin.
  apply elem_of_app in Hin as [Hin|Hin]; [by apply (Hn k); [right|]|].
  apply list_elem_of_singleton in Hin as ->. done.
Qed.

Section Collect.
Context {St : Type} (h : handler keyE St) (g : Field -> go keyE (option gval)).

Lemma collect_run_ok fs ret st st' d :
  new_names fs ret -> run h (collect_fields g fs ret) st = (st', Ok d) ->
  exists new, d = ret ++ new /\ filled (fun f o => exists st st', run h (g f) st = (st', Ok o)) fs new.
Proof.
  revert ret st. induction fs as [|f fs IH]; intros ret st Hn.
  - intros [= <- <-]. exists []. by rewrite app_nil_r.
  - cbn [collect_fields]. rewrite run_mbind. destruct (run h (g f) st) as [st1 [o| | |]] eqn:Hg; [|done..].
    apply new_names_cons in Hn as [Hn Hx]. intros Hrun. destruct o as [x|].
    + destruct (Hx x) as [He Hn']. rewrite He in Hrun. apply IH in Hrun as (new & -> & Hf); [|done].
      exists ((f.1, x) :: new). rewrite <- (assoc_L (++)). split; [done|].
      exists (Some x). split; [eauto|]. by exists new.
    + apply IH in Hrun as (new & -> & Hf); [|done]. exists new. split; [done|]. exists None. eauto.
Qed.

Lemma collect_run_make fs ret new st :
  new_names fs ret -> filled (fun f o => forall st, run h (g f) st = (st, Ok o)) fs new ->
  run h (collect_fields g fs ret) st = (st, Ok (ret ++ new)).
Proof.
  revert ret new. induction fs as [|f fs IH]; intros ret new Hn; [intros ->; by rewrite app_nil_r|].
  intros (o & Hg & Hf). apply new_names_cons in Hn as [Hn Hx]. cbn [collect_fields]. rewrite run_mbind, Hg.
  destruct o as [x|]; [|by apply IH]. destruct Hf as (new' & -> & Hf). destruct (Hx x) as [-> Hn'].
  rewrite (IH _ new') by done. by rewrite <- (assoc_L (++)).
Qed.
End Collect.

Lemma collect_pure_make (g : Field -> outcome (option gval)) fs ret new :
  new_names fs ret -> filled (fun f o => g f = Ok o) fs new -> collect_fields g fs ret = Ok (ret ++ new).
Proof.
  revert ret new. induction fs as [|f fs IH]; intros ret new Hn; [intros ->; by rewrite app_nil_r|].
  intros (o & Hg & Hf). apply new_names_cons in Hn as [Hn Hx]. cbn [collect_fields]. rewrite Hg. cbn [mbind outcome_bind].
  destruct o as [x|]; [|by apply IH]. destruct Hf as (new' & -> & Hf). destruct (Hx x) as [-> Hn'].
  rewrite (IH _ new') by done. by rewrite <- (assoc_L (++)).
Qed.

Lemma new_names_nil fs : NoDup (map fst fs) -> new_names fs [].
Proof. intros Hd. split; [done|]. intros k _. apply not_elem_of_nil. Qed.

(** ** Stored values *)

Definition reload (v : gval) : gval := of_json (json_of v).
Definition reload_map (m : amap) : amap := map (fun kv => (kv.1, reload kv.2)) m.

(** Values read from JSON are what they are read back as. *)
Definition stored (v : gval) : Prop := reload v = v.

Lemma reload_VMap m : reload (VMap m) = VMap (reload_map m).
Proof. unfold reload, reload_map. cbn [json_of of_json]. by rewrite map_map. Qed.

Lemma stored_of_json j : stored (of_json j).
Proof.
  unfold stored, reload. f_equal. revert j. fix IH 1. intros [|b|n|s|l|fs]; cbn [of_json json_of]; [reflexivity..| |]; f_equal.
  - induction l as [|x l IHl]; cbn [map]; [done|]. by rewrite IH, IHl.
  - induction fs as [|[k x] fs IHf]; cbn [map fst snd]; [done|]. by rewrite IH, IHf.
Qed.

Lemma amap_get_reload k m : amap_get k (reload_map m) = option_map reload (amap_get k m).
Proof.
  induction m as [|[k' v] m IH]; [done|]. cbn [reload_map map amap_get fst snd].
  by destruct (String.eqb k' k).
Qed.

Lemma stored_get m k v : stored (VMap m) -> amap_get k m = Some v -> stored v.
Proof.
  unfold stored at 1. rewrite reload_VMap. intros [= Hm] Hv.
  pose proof (amap_get_reload k m) as Hr. rewrite Hm, Hv in Hr. cbn in Hr. congruence.
Qed.

(** ** Schemas *)

(** Field names are distinct at every level and no field is an array. *)
Fixpoint schema_ok (s : Schema) : Prop :=
  match s with
  | basicSchema _ k _ => k <> KindArrayString
  | structSchema _ fs _ =>
      NoDup (map fst fs) /\
      (fix all (l : list Field) : Prop := match l with [] => True | f :: l' => schema_ok f.2 /\ all l' end) fs
  end.

Lemma schema_ok_fields s : schema_ok s -> NoDup (map fst (Fields s)) /\ forall f, f ∈ Fields s -> schema_ok f.2.
Proof.
  destruct s as [|n fs a]; [split; [constructor|intros f; by intros ?%not_elem_of_nil]|]. intros [Hd Hall].
  split; [done|]. cbn [Fields]. clear Hd. induction fs as [|g fs IH]; intros f; [by intros ?%not_elem_of_nil|].
  destruct Hall as [Hg Hall]. intros [->|Hf]%elem_of_cons; [done|by apply IH].
Qed.

(** The fuel a schema takes. *)
Definition kind_depth (sub : Schema -> nat) (def : Schema) : nat :=
  match schema_kind def with
  | KindAuth | KindSSHKey => 1
  | KindStruct => sub def
  | _ => 0
  end.

Fixpoint depth (s : Schema) : nat :=
  match s with
  | basicSchema _ _ _ => 1
  | structSchema _ fs _ =>
      S ((fix deepest (l : list Field) : nat :=
            match l with [] => 0 | f :: l' => Nat.max (kind_depth depth f.2) (deepest l') end) fs)
  end.

Lemma depth_fields s f : f ∈ Fields s -> kind_depth depth f.2 < depth s.
Proof.
  destruct s as [|n fs a]; [by intros ?%not_elem_of_nil|]. cbn [Fields depth].
  induction fs as [|g fs IH]; [by intros ?%not_elem_of_nil|]. intros [->|Hf]%elem_of_cons; [lia|].
  specialize (IH Hf). lia.
Qed.

Lemma depth_pos s : 0 < depth s.
Proof. destruct s; simpl; lia. Qed.

Definition networks_ok (networks : list Network) : Prop := Forall (fun n => netName n <> "") networks.

Lemma CreateNetworks_ok env : networks_ok (CreateNetworks env).
Proof. by repeat constructor. Qed.

Lemma findNetwork_ok networks name n : findNetwork networks name = Ok n -> n ∈ networks /\ netName n = name.
Proof.
  induction networks as [|m l IH]; [done|]. cbn [findNetwork]. destruct (String.eqb_spec (netName m) name) as [<-|].
  - intros [= <-]. split; [by left|done].
  - intros H. destruct (IH H). split; [by right|done].
Qed.

Lemma reload_network n : netName n <> "" -> exists m, reload (VNet n) = VMap m /\ amap_get "name" m = Some (VStr (netName n)).
Proof.
  intros Hn. unfold reload. cbn [json_of encode_network of_json]. eexists. split; [reflexivity|].
  unfold omit_str at 1. rewrite (proj2 (String.eqb_neq _ _) Hn). done.
Qed.

(** ** Deriving the stored input again *)

Section Rederive.
Context {St : Type} (h : handler keyE St) (networks : list Network) (Hnets : networks_ok networks).

(** The input [d], stored and read back, turns into values that derive to the
    same input, without a new key. *)
Definition goes_back (fuel : nat) (s : Schema) (d : amap) : Prop :=
  exists c, derivedToConfig fuel (reload_map d) s = Ok c /\
    exists d', (forall st, run h (deriveValues fuel (VMap c) s networks) st = (st, Ok d')) /\
      json_of (VMap d') = json_of (VMap d).

Abbreviation derive fuel := (derive_field (fun v s => deriveValues fuel v s networks) networks).

Definition field_back (fuel : nat) (f : Field) (o : option gval) : Prop :=
  forall dm, amap_get f.1 dm = option_map reload o ->
  exists y, config_field (derivedToConfig fuel) dm f = Ok y /\
    forall c, amap_get f.1 c = y -> exists o', (forall st, run h (derive fuel (VMap c) f) st = (st, Ok o')) /\
      option_map json_of o' = option_map json_of o.

Lemma run_derive_missing fuel c k def st :
  amap_get k c = None -> schema_kind def <> KindSSHKey -> run h (derive fuel (VMap c) (k, def)) st = (st, Ok None).
Proof.
  intros Hc Hk. unfold derive_field. rewrite run_mbind. cbn [run lift as_map]. rewrite Hc.
  by rewrite decide_False.
Qed.

(** A field of kind auth, key or struct is derived from the map below it. *)
Definition sub_schema (def : Schema) : option Schema :=
  match schema_kind def with
  | KindAuth => Some AuthSchema
  | KindSSHKey => Some SSHKeySchema
  | KindStruct => Some def
  | _ => None
  end.

Lemma derive_sub fuel v k def x s' : sub_schema def = Some s' -> amap_get k v = Some x ->
  derive fuel (VMap v) (k, def) = (r ← deriveValues fuel x s' networks; mret (Some (VMap r))).
Proof.
  intros Hs Hx. unfold derive_field. cbn [as_map]. unfold sub_schema in Hs.
  change (lift (Ok v) ≫= ?f) with (f v). cbv beta. rewrite Hx. by destruct (schema_kind def); simplify_eq.
Qed.

Lemma config_sub fuel dm k def m s' : sub_schema def = Some s' -> amap_get k dm = Some (VMap m) ->
  config_field (derivedToConfig fuel) dm (k, def) = (r ← derivedToConfig fuel m s'; Ok (Some (VMap r))).
Proof.
  intros Hs Hx. unfold config_field. rewrite Hx. unfold sub_schema in Hs. by destruct (schema_kind def); simplify_eq.
Qed.

Lemma sub_back fuel k def s' r : sub_schema def = Some s' -> goes_back fuel s' r -> field_back fuel (k, def) (Some (VMap r)).
Proof.
  intros Hs (c' & Hc & d' & Hd & Hj) dm. cbn [fst option_map]. rewrite reload_VMap. intros Hdm.
  exists (Some (VMap c')). rewrite (config_sub _ _ _ _ _ _ Hs Hdm), Hc. split; [done|]. intros c Hcc.
  exists (Some (VMap d')). cbn [option_map]. rewrite Hj. split; [|done]. intros st.
  rewrite (derive_sub _ _ _ _ _ _ Hs Hcc), run_mbind, Hd. done.
Qed.

(** A leaf is stored as it is. *)
Definition is_leaf (k : Kind) : Prop := k = KindBoolean \/ k = KindString \/ k = KindInt.

Lemma leaf_back fuel k def x : is_leaf (schema_kind def) -> stored x -> field_back fuel (k, def) (Some x).
Proof.
  intros Hk Hx dm. cbn [fst option_map]. rewrite Hx. intros Hdm. exists (Some x). split.
  - unfold config_field. rewrite Hdm. by destruct Hk as [-> |[-> | ->]].
  - intros c Hc. exists (Some x). split; [|done]. intros st. unfold derive_field. rewrite run_mbind.
    cbn [run lift as_map]. rewrite Hc. by destruct Hk as [-> |[-> | ->]].
Qed.

Lemma network_back fuel k def n : schema_kind def = KindNetwork -> netName n <> "" ->
  findNetwork networks (netName n) = Ok n -> field_back fuel (k, def) (Some (VNet n)).
Proof.
  intros Hk Hn Hfind dm. cbn [fst option_map]. destruct (reload_network n Hn) as (m & -> & Hm). intros Hdm.
  exists (Some (VStr (netName n))). split.
  - unfold config_field. rewrite Hdm, Hk. cbn [config_map mbind outcome_bind]. by rewrite Hm.
  - intros c Hc. exists (Some (VNet n)). split; [|done]. intros st. unfold derive_field. rewrite run_mbind.
    cbn [run lift as_map]. rewrite Hc, Hk, run_mbind. cbn [run lift as_string]. rewrite run_mbind, Hfind. done.
Qed.

(** A key that was made is kept. *)
Lemma key_back fuel k def pub priv : schema_kind def = KindSSHKey -> 0 < fuel ->
  field_back fuel (k, def) (Some (VStrMap [("public", pub); ("private", priv)])).
Proof.
  intros Hk Hf dm. cbn [fst option_map]. destruct fuel as [|fuel]; [lia|].
  change (reload (VStrMap [("public", pub); ("private", priv)])) with (VMap [("public", VStr pub); ("private", VStr priv)]).
  assert (Hs : sub_schema def = Some SSHKeySchema) by (unfold sub_schema; by rewrite Hk).
  intros Hdm. exists (Some (VMap [("public", VStr pub); ("private", VStr priv)])). split.
  - by rewrite (config_sub _ _ _ _ _ _ Hs Hdm).
  - intros c Hc. eexists. split; [intros st; rewrite (derive_sub _ _ _ _ _ _ Hs Hc); reflexivity|]. reflexivity.
Qed.

Lemma missing_back fuel k def : schema_kind def <> KindSSHKey -> field_back fuel (k, def) None.
Proof.
  intros Hk dm. cbn [fst option_map]. intros Hdm. exists None. split; [unfold config_field; by rewrite Hdm|].
  intros c Hc. exists None. split; [|done]. intros st. by apply run_derive_missing.
Qed.

Lemma AuthSchema_ok : schema_ok AuthSchema.
Proof. split; [|done]. apply NoDup_cons; split; [by intros ?%list_elem_of_singleton|apply NoDup_singleton]. Qed.

Lemma SSHKeySchema_ok : schema_ok SSHKeySchema.
Proof. split; [|done]. apply NoDup_cons; split; [by intros ?%list_elem_of_singleton|apply NoDup_singleton]. Qed.

Lemma sub_schema_ok fuel def s' : sub_schema def = Some s' -> schema_ok def -> kind_depth depth def <= fuel ->
  schema_ok s' /\ depth s' <= fuel.
Proof.
  unfold sub_schema, kind_depth. destruct (schema_kind def); intros [= <-] Hok Hf;
    [done|split; [apply AuthSchema_ok|done]|split; [apply SSHKeySchema_ok|done]].
Qed.

(** One field: what it was derived to goes back, given that maps below do. *)
Lemma field_goes_back fuel m f o st st' :
  (forall s v st st' d, schema_ok s -> depth s <= fuel -> stored v ->
     run h (deriveValues fuel v s networks) st = (st', Ok d) -> goes_back fuel s d) ->
  schema_ok f.2 -> kind_depth depth f.2 <= fuel -> stored (VMap m) ->
  run h (derive fuel (VMap m) f) st = (st', Ok o) -> field_back fuel f o.
Proof using Hnets.
  intros IH Hok Hf Hst. destruct f as [k def]. cbn [snd] in Hok, Hf.
  destruct (amap_get k m) as [x|] eqn:Hx.
  - pose proof (stored_get _ _ _ Hst Hx) as Hsx.
    destruct (sub_schema def) as [s'|] eqn:Hs.
    + rewrite (derive_sub _ _ _ _ _ _ Hs Hx), run_mbind.
      destruct (run h (deriveValues fuel x s' networks) st) as [st1 [r| | |]] eqn:Hr; intros [= <- <-].
      destruct (sub_schema_ok fuel def s') as [Hok' Hf']; [done..|].
      eapply sub_back; [exact Hs|]. by eapply IH.
    + unfold derive_field. rewrite run_mbind. cbn [run lift as_map]. rewrite Hx.
      unfold sub_schema in Hs. destruct (schema_kind def) eqn:Hk; try done.
      1-3: intros [= <- <-]; apply leaf_back; [rewrite Hk; unfold is_leaf; tauto|done].
      * rewrite run_mbind. destruct x; try done. cbn [as_string run lift]. rewrite run_mbind.
        destruct (findNetwork networks s) as [n| | |] eqn:Hn; [|done..]. intros [= <- <-].
        pose proof (findNetwork_ok _ _ _ Hn) as [Hin <-]. apply network_back; [done| |done].
        unfold networks_ok in Hnets. rewrite Forall_forall in Hnets. by apply Hnets.
      * destruct def; done.
  - unfold derive_field. rewrite run_mbind. cbn [run lift as_map]. rewrite Hx.
    destruct (decide (schema_kind def = KindSSHKey)) as [Hk|Hk].
    + rewrite run_mbind, run_call. destruct (h _ _ st) as [st1 [[pub priv]| | |]]; intros [= <- <-].
      apply key_back; [done|]. unfold kind_depth in Hf. rewrite Hk in Hf. lia.
    + intros [= <- <-]. by apply missing_back.
Qed.

Lemma derived_goes_back fuel s v st st' d :
  schema_ok s -> depth s <= fuel -> stored v ->
  run h (deriveValues fuel v s networks) st = (st', Ok d) -> goes_back fuel s d.
Proof using Hnets.
  revert s v st st' d. induction fuel as [|fuel IH]; intros s v st st' d Hok Hf Hst.
  { pose proof (depth_pos s). lia. }
  cbn [deriveValues]. intros Hrun. destruct (schema_ok_fields s Hok) as [Hd Hfs].
  apply collect_run_ok in Hrun as (new & Hnew & Hfill); [|by apply new_names_nil]. cbn [app] in Hnew. subst new.
  apply filled_get in Hfill; [|done].
  assert (Hback : filled (fun f o => field_back fuel f o /\ amap_get f.1 d = o) (Fields s) d).
  { eapply filled_impl; [|exact Hfill]. intros f o Hin [(st1 & st2 & Hr) Hg]. split; [|done].
    destruct v; try (destruct f; unfold derive_field in Hr; by rewrite run_mbind in Hr).
    eapply field_goes_back; [exact IH|by apply Hfs| |exact Hst|exact Hr].
    pose proof (depth_fields s f Hin). lia. }
  clear Hfill Hst. set (dm := reload_map d).
  destruct (filled_exists (fun f y => config_field (derivedToConfig fuel) dm f = Ok y) (Fields s)) as [c Hc].
  { intros f Hin. destruct (filled_elem _ _ _ f Hback Hin) as (o & Ho & Hg).
    destruct (Ho dm) as (y & Hy & _); [|by exists y]. unfold dm. by rewrite amap_get_reload, Hg. }
  exists c. cbn [derivedToConfig]. split; [by apply (collect_pure_make _ _ [] c), Hc; apply new_names_nil|].
  apply filled_get in Hc; [|done].
  assert (Hagain : forall f o, f ∈ Fields s -> field_back fuel f o /\ amap_get f.1 d = o ->
    exists o', (forall st, run h (derive fuel (VMap c) f) st = (st, Ok o')) /\ option_map json_of o' = option_map json_of o).
  { intros f o Hin [Ho Hg]. destruct (Ho dm) as (y & Hy & Hk); [unfold dm; by rewrite amap_get_reload, Hg|].
    apply Hk. destruct (filled_elem _ _ _ f Hc Hin) as (y' & Hy' & Hgy). rewrite Hy in Hy'. by injection Hy' as ->. }
  destruct (filled_exists (fun f o' => forall st, run h (derive fuel (VMap c) f) st = (st, Ok o')) (Fields s)) as [d' Hd'].
  { intros f Hin. destruct (filled_elem _ _ _ f Hback Hin) as (o & Ho).
    destruct (Hagain f o Hin Ho) as (o' & Ho' & _). by exists o'. }
  exists d'. split.
  - intros st0. apply (collect_run_make _ _ _ [] d'); [by apply new_names_nil|exact Hd'].
  - eapply filled_json; [|exact Hback|exact Hd']. intros f o o' Hin Ho Ho'.
    destruct (Hagain f o Hin Ho) as (o2 & Ho2 & <-). specialize (Ho' st). specialize (Ho2 st).
    rewrite Ho' in Ho2. by injection Ho2 as ->.
Qed.
End Rederive.

(** C18. Input survives storage: whatever [deriveValues] made of values that
    came from JSON, including the SSH keys it generated, InputToValues on the
    stored configuration gives values that derive to the same input again and
    generate no key. The fuel is the nesting of the schema. *)
Theorem stored_input_derives_again {St} (h : handler keyE St) (networks : list Network) (schema : Schema) (fuel : nat)
    (values : gval) (d : amap) (cfg : AppInstanceConfig) (st st' : St)
    (Hok : schema_ok schema) (Hfuel : depth schema <= fuel) (Hnets : networks_ok networks) (Hvalues : stored values)
    (Hrun : run h (deriveValues fuel values schema networks) st = (st', Ok d)) (Hcfg : Input cfg = json_of (VMap d)) :
  exists c, InputToValues fuel cfg schema = Ok c /\
    exists d', (forall st, run h (deriveValues fuel (VMap c) schema networks) st = (st, Ok d')) /\
      json_of (VMap d') = Input cfg.
Proof.
  apply derived_goes_back in Hrun as (c & Hc & d' & Hd & Hj); [|done..]. exists c. split.
  - unfold InputToValues, input_map. rewrite Hcfg. fold (reload (VMap d)). by rewrite reload_VMap, Hc.
  - exists d'. by rewrite Hcfg.
Qed.

(** ** Array fields *)

Lemma collect_pure_cases (g : Field -> outcome (option gval)) fs ret :
  (exists m, collect_fields g fs ret = Ok m /\ forall f, f ∈ fs -> is_ok (g f)) \/
  exists f, f ∈ fs /\ is_ok (g f) = false /\ collect_fields g fs ret = outcome_map (fun _ => []) (g f).
Proof.
  revert ret. induction fs as [|f fs IH]; intros ret.
  - left. exists ret. split; [done|]. by intros f ?%not_elem_of_nil.
  - cbn [collect_fields]. destruct (g f) as [o|e|w|] eqn:Hg; cbn [mbind outcome_bind].
    2-4: right; exists f; rewrite Hg; split_and!; [by left|done..].
    destruct (IH (match o with Some x => amap_set f.1 x ret | None => ret end)) as [(m & -> & Hm)|(f' & Hf & Hn & ->)].
    + left. exists m. split; [done|]. intros f' [->|Hf]%elem_of_cons; [by rewrite Hg|by apply Hm].
    + right. exists f'. split_and!; [by right|done..].
Qed.

Definition errs_only {A} (o : outcome A) : Prop := match o with Ok _ | Err _ => True | _ => False end.

Lemma derivedToConfig_errs fuel s m : depth s <= fuel -> errs_only (derivedToConfig fuel m s).
Proof.
  revert s m. induction fuel as [|fuel IH]; intros s m Hf; [pose proof (depth_pos s); lia|]. cbn [derivedToConfig].
  destruct (collect_pure_cases (config_field (derivedToConfig fuel) m) (Fields s) [])
    as [(r & -> & _)|([k def] & Hin & _ & ->)]; [done|].
  pose proof (depth_fields s _ Hin) as Hd. cbn [snd] in Hd.
  destruct (amap_get k m) as [v|] eqn:Hv; [|unfold config_field; by rewrite Hv].
  destruct (sub_schema def) as [s'|] eqn:Hs.
  - assert (Hs' : depth s' <= fuel).
    { unfold sub_schema, kind_depth in *. destruct (schema_kind def); simplify_eq; cbn; lia. }
    destruct v; try (unfold config_field; rewrite Hv; unfold sub_schema in Hs; by destruct (schema_kind def)).
    rewrite (config_sub _ _ _ _ _ _ Hs Hv). specialize (IH s' m0 Hs').
    by destruct (derivedToConfig fuel m0 s').
  - unfold config_field. rewrite Hv. unfold sub_schema in Hs. destruct (schema_kind def); simplify_eq; try done.
    + destruct v; try done. cbn [config_map mbind outcome_bind]. by destruct (amap_get "name" m0).
    + by destruct v.
Qed.

(** Array fields cannot be stored: values read from JSON are never accepted
    for one, and when a Go caller passes a []string, InputToValues panics on
    the configuration the installation stored. *)
Theorem array_input_unreadable {St} (h : handler keyE St) (networks : list Network) (schema : Schema) (fuel : nat)
    (k : string) (def : Schema) (values d : amap) (cfg : AppInstanceConfig) (st st' : St)
    (Hfield : (k, def) ∈ Fields schema) (Hkind : schema_kind def = KindArrayString)
    (Hk : is_Some (amap_get k values)) (Hnames : NoDup (map fst (Fields schema))) (Hfuel : depth schema <= fuel)
    (Hrun : run h (deriveValues fuel (VMap values) schema networks) st = (st', Ok d))
    (Hcfg : Input cfg = json_of (VMap d)) :
  ~ stored (VMap values) /\ exists why, InputToValues fuel cfg schema = Panic why.
Proof.
  destruct fuel as [|fuel]; [done|]. destruct Hk as [x Hx]. cbn [deriveValues] in Hrun.
  apply collect_run_ok in Hrun as (new & Hnew & Hfill); [|by apply new_names_nil]. cbn [app] in Hnew. subst new.
  apply filled_get in Hfill; [|done]. destruct (filled_elem _ _ _ _ Hfill Hfield) as (o & (st1 & st2 & Hr) & Hg).
  unfold derive_field in Hr. rewrite run_mbind in Hr. cbn [run lift as_map] in Hr. rewrite Hx, Hkind in Hr.
  destruct x; try done. injection Hr as _ <-. split.
  - intros Hs. apply (stored_get _ _ _ Hs) in Hx. done.
  - unfold InputToValues, input_map. rewrite Hcfg. fold (reload (VMap d)). rewrite reload_VMap.
    pose proof (derivedToConfig_errs (S fuel) schema (reload_map d) Hfuel) as Herr. cbn [derivedToConfig] in *.
    destruct (collect_pure_cases (config_field (derivedToConfig fuel) (reload_map d)) (Fields schema) [])
      as [(r & _ & Hall)|(f & _ & Hn & He)].
    + specialize (Hall _ Hfield). unfold config_field in Hall. cbn [fst] in Hg.
      rewrite amap_get_reload, Hg, Hkind in Hall. done.
    + rewrite He in *. destruct (config_field _ _ f); try done. by eexists.
Qed.

(** ** The theorems at concrete inputs *)

(** The n-th key is named after n. *)
Definition numbered_keys : handler keyE nat := fun X e n =>
  match e in keyE X return nat * X with
  | NewECDSASSHKeyPair _ => (S n, Ok ("pub" +:+ Itoa (Z.of_nat n), "priv" +:+ Itoa (Z.of_nat n)))
  end.

Definition demo_schema : Schema :=
  structSchema "input"
    [("name", basicSchema "name" KindString false);
     ("network", basicSchema "network" KindNetwork false);
     ("auth", basicSchema "auth" KindAuth false);
     ("key", basicSchema "key" KindSSHKey true)] false.

Definition demo_networks : list Network := CreateNetworks zero_env.

Definition demo_values : gval :=
  of_json (JObj [("network", JStr "Private"); ("name", JStr "x"); ("auth", JObj [("enabled", JBool true)])]).

Definition demo_derived : amap :=
  [("name", VStr "x"); ("network", VNet (nth 1 demo_networks (MkNetwork "" "" "" "" "")));
   ("auth", VMap [("enabled", VBool true)]); ("key", VStrMap [("public", "pub0"); ("private", "priv0")])].

Definition demo_cfg (d : amap) : AppInstanceConfig :=
  MkAppConfig "x" "x" zero_env zero_release JNull (json_of (VMap d)) "" JNull "".

Lemma demo_schema_ok : schema_ok demo_schema.
Proof.
  split; [|done]. by apply (bool_decide_unpack _).
Qed.

Lemma stored_input_derives_again_witness :
  run numbered_keys (deriveValues 2 demo_values demo_schema demo_networks) 0 = (1, Ok demo_derived) /\
  exists c, InputToValues 2 (demo_cfg demo_derived) demo_schema = Ok c /\
    exists d', (forall n, run numbered_keys (deriveValues 2 (VMap c) demo_schema demo_networks) n = (n, Ok d')) /\
      json_of (VMap d') = Input (demo_cfg demo_derived).
Proof.
  split; [vm_compute; reflexivity|].
  apply (stored_input_derives_again numbered_keys demo_networks demo_schema 2 demo_values demo_derived
    (demo_cfg demo_derived) 0 1 demo_schema_ok); [vm_compute; lia|apply CreateNetworks_ok|apply stored_of_json|..];
    vm_compute; reflexivity.
Defined.

Definition tags_schema : Schema := structSchema "input" [("tags", basicSchema "tags" KindArrayString false)] false.

Lemma array_input_unreadable_witness :
  exists why, InputToValues 1 (demo_cfg [("tags", VStrs ["a"; "b"])]) tags_schema = Panic why.
Proof.
  apply (array_input_unreadable numbered_keys demo_networks tags_schema 1 "tags" (basicSchema "tags" KindArrayString false)
    [("tags", VStrs ["a"; "b"])] [("tags", VStrs ["a"; "b"])] (demo_cfg [("tags", VStrs ["a"; "b"])]) 0 0).
  - by left.
  - done.
  - by eexists.
  - apply NoDup_singleton.
  - vm_compute; lia.
  - vm_compute. reflexivity.
  - reflexivity.
Defined.
