(* ===== verification/Rendering.v ===== *)
(** * Rendering an application (core/installer/app.go)

    [cueApp.render] reads what the CUE evaluation of the app's definition gives;
    [cueEnvApp.Render] derives the input first.  The evaluation itself is the
    CUE library's: the app carries it as a function. *)
From S2P Require Import Prelude GoLib GoStrings GoPath RepoIO InstallerTypes Derived AppManager AppManagerTheorems.
From Stdlib Require Import Ascii.
Open Scope string_scope.
Open Scope list_scope.

(** What the lookups in an evaluated and validated CUE value answer. *)
Record cue_value := MkCue {
  full_json : outcome content;                              (* json.MarshalIndent *)
  cue_readme : outcome string;
  cue_portForward : outcome (list PortForward);
  cue_output : outcome (list (string * outcome content));   (* selectors and their YAML *)
  cue_help : option (outcome json);
  cue_url : outcome string;
  cue_icon : outcome string;
}.

Record cueApp := MkCueApp {
  appName : string;
  appDescription : string;
  appIcon : string;
  appNamespace : string;
  appSchema : Schema;
  appData : CueAppData;
  appCfg : json -> outcome cue_value;                       (* a.cfg.Unify(d).Eval(), validated *)
}.

Record rendered := MkPlainRendered {
  rdName : string;
  rdReadme : string;
  rdResources : CueAppData;
  rdPorts : list PortForward;
  rdData : CueAppData;
  rdURL : string;
  rdHelp : json;
  rdIcon : string;
}.

Definition Slug (a : cueApp) : string := ReplaceAll (ToLower (appName a)) " "%char "-".

Definition cleanName (s : string) : string := ReplaceAll (ReplaceAll s (ascii_of_nat 34) "") (ascii_of_nat 39) "".

(** m[name] = c *)
Fixpoint data_set (name : string) (c : content) (m : CueAppData) : CueAppData :=
  match m with
  | [] => [(name, c)]
  | (n, x) :: m' => if String.eqb n name then (name, c) :: m' else (n, x) :: data_set name c m'
  end.

(** for i.Next(): one file per field of output. *)
Fixpoint render_output (l : list (string * outcome content)) (resources : CueAppData) : outcome CueAppData :=
  match l with
  | [] => Ok resources
  | (selector, c) :: l' =>
      contents ← c;
      render_output l' (data_set (cleanName selector +:+ ".yaml") contents resources)
  end.

(** The data of the app and of the result are one map, which gets rendered.json. *)
Definition render (a : cueApp) (values : json) : outcome rendered :=
  res ← appCfg a values;
  full ← full_json res;
  let data := data_set "rendered.json" full (appData a) in
  readme ← cue_readme res;
  ports ← cue_portForward res;
  output ← cue_output res;
  resources ← render_output output [];
  help ← match cue_help res with Some h => h | None => Ok JNull end;
  url ← cue_url res;
  icon ← cue_icon res;
  Ok (MkPlainRendered (Slug a) readme resources ports data url help icon).

Definition zero_app_config : AppInstanceConfig :=
  MkAppConfig "" "" zero_env zero_release JNull JNull "" JNull "".

(** EnvAppRendered{} *)
Definition zero_rendered : EnvAppRendered := MkRendered "" [] [] [] zero_app_config.

(** cueEnvApp.Render: an error of deriveValues is answered with
    [EnvAppRendered{}, nil]. *)
Definition EnvRender (fuel : nat) (a : cueApp) (release : Release) (env : EnvConfig) (values : gval)
    : go keyE EnvAppRendered :=
  let networks := CreateNetworks env in
  check derived := deriveValues fuel values (appSchema a) networks onerr _e => mret zero_rendered in
  ret ← lift (render a (JObj [("global", encode_env env); ("release", encode_release release);
                              ("input", json_of (VMap derived))]));
  mret (MkRendered (rdName ret) (rdPorts ret) (rdResources ret) (rdData ret)
          (MkAppConfig "" (Slug a) env release (json_of values) (json_of (VMap derived)) (rdURL ret) (rdHelp ret) (rdIcon ret))).

(** The renderer an application manager works with: values come from JSON, keys
    from [h]. *)
Definition render_with {St} (h : handler keyE St) (st : St) (fuel : nat) (a : cueApp)
    (release : Release) (env : EnvConfig) (values : json) : outcome EnvAppRendered :=
  (run h (EnvRender fuel a release env (of_json values)) st).2.

(** ** An update with a bad input *)

Lemma EnvRender_bad {St} (h : handler keyE St) st fuel a release env values st' e :
  run h (deriveValues fuel (of_json values) (appSchema a) (CreateNetworks env)) st = (st', Err e) ->
  render_with h st fuel a release env values = Ok zero_rendered.
Proof. intros Hd. unfold render_with, EnvRender. rewrite run_handle, Hd. done. Qed.

(** When the values of an update cannot be derived, say because they name
    an unknown network, Render hides the error and Update wipes the app: it
    reports success, commits a directory with an empty list of resources, and
    from then on FindInstance answers with an empty configuration. *)
Theorem Update_bad_values_wipe {St} (addr : string) (ans : answers) (h : handler keyE St) (st st' : St) (e : error)
    (root : list string) (id : string) (values : json) (w : world) (fuel : nat) (env : EnvConfig) (a : cueApp)
    (old : AppInstanceConfig)
    (Hclean : clean (w_repo w)) (Hroot : Forall seg_ok root) (Hid : seg_ok id) (Hidk : id <> "kustomization.yaml") (Hfuel : S (length root) < fuel)
    (Hok : kusts_ok (remote (w_repo w)))
    (Henv : read_doc decode_env_strict (fs_key "config.yaml") (remote (w_repo w)) = Ok env)
    (Hold : find_instance_in root (remote (w_repo w)) id = Ok old)
    (Hbad : run h (deriveValues fuel (of_json values) (appSchema a) (CreateNetworks env)) st = (st', Err e)) :
  exists w', run (app_step ans) (Update (RepoIO0 := app_repo addr) (abs_path root) (render_with h st fuel a) fuel id values false) w
      = (w', Ok tt) /\
    remote (w_repo w') !! kust_key (root ++ [id; "resources"]) = Some (Doc (encode_kust NewKustomization)) /\
    (run (app_step ans) (FindInstance (RepoIO0 := app_repo addr) (abs_path root) id) w').2 = Ok (with_id id zero_app_config).
Proof.
  apply find_instance_stored in Hold as (c & Hc & _); [|done..].
  destruct (run_Update addr ans root id values w fuel (render_with h st fuel a) env zero_rendered Hclean Hroot Hid Hidk Hfuel Hok Henv)
    with (old := c) as [n Hrun]; [|by constructor|done|by apply (EnvRender_bad h st _ _ _ _ _ st' e)|].
  { split_and!; [by constructor|by constructor|]. by intros ? ?%not_elem_of_nil. }
  eexists. split; [exact Hrun|]. split.
  - cbn [after_commit w_repo remote]. unfold install_tree. rewrite <- (assoc_L (++)). apply lookup_insert_eq.
  - rewrite run_FindInstance by done. apply find_installed; try done; [|by constructor].
    split_and!; [by constructor|by constructor|]. by intros ? ?%not_elem_of_nil.
Qed.

(** ** The theorem at a concrete input *)

Definition demo_app : cueApp :=
  MkCueApp "rpuppy" "" "" "app-rpuppy" (structSchema "input" [("network", basicSchema "network" KindNetwork false)] false) []
    (fun _ => Err (errorf "not reached")).

Lemma Update_bad_values_wipe_witness :
  exists w', run (app_step accepting) (Update (RepoIO0 := app_repo "ssh://repo") "/apps" (render_with numbered_keys 0 3 demo_app) 3
      "rpuppy" (JObj [("network", JStr "Nowhere")]) false) installed_world = (w', Ok tt) /\
    (run (app_step accepting) (FindInstance (RepoIO0 := app_repo "ssh://repo") "/apps" "rpuppy") w').2 =
      Ok (with_id "rpuppy" zero_app_config).
Proof.
  destruct (Update_bad_values_wipe "ssh://repo" accepting numbered_keys 0 0 (errorf "Network not found: Nowhere")
    ["apps"] "rpuppy" (JObj [("network", JStr "Nowhere")]) installed_world 3 demo_env demo_app demo_config
    eq_refl apps_ok rpuppy_ok ltac:(done) ltac:(simpl; lia) installed_kusts_ok ltac:(vm_compute; reflexivity)
    ltac:(vm_compute; reflexivity) ltac:(vm_compute; reflexivity)) as (w' & Hrun & _ & Hfind).
  exists w'. split; [exact Hrun|exact Hfind].
Defined.
