(* ===== verification/CueApps.v ===== *)
(** * Apps and where they are found (core/installer/app.go, schema.go, app_repository.go)

    What an app definition gives once CUE has parsed it: the schema of its input
    and its renderers; the repository of built-in apps, and the one fetched from
    an HTTP catalogue of archives. *)
From S2P Require Import Prelude GoLib GoStrings GoPath RepoIO InstallerTypes Derived AppManager InfraManager Rendering.
Open Scope string_scope.
Open Scope list_scope.

(** ** schema.go *)

Inductive cue_kind := CueString | CueBool | CueNumber | CueInt | CueList | CueStruct | CueOther.

#[export] Instance cue_kind_eq_dec : EqDecision cue_kind.
Proof. solve_decision. Defined.

(** A value of the input as the CUE library presents it: its name attribute, its
    incomplete kind, which of #Network, #Auth and #SSHKey subsume it, and its
    fields. *)
Inductive cue_node := CueNode (nameAttr : option string) (kind : cue_kind) (network auth sshkey : bool)
  (fields_err : option error) (fields : list (string * cue_node)).

Definition node_kind (v : cue_node) : cue_kind := match v with CueNode _ k _ _ _ _ _ => k end.

Definition isNetwork (v : cue_node) : bool :=
  match v with CueNode _ k subsumed _ _ _ _ => if decide (k = CueStruct) then subsumed else false end.
Definition isAuth (v : cue_node) : bool :=
  match v with CueNode _ k _ subsumed _ _ _ => if decide (k = CueStruct) then subsumed else false end.
Definition isSSHKey (v : cue_node) : bool :=
  match v with CueNode _ k _ _ subsumed _ _ => if decide (k = CueStruct) then subsumed else false end.

Fixpoint NewCueSchema (name : string) (v : cue_node) : outcome Schema :=
  match v with
  | CueNode nameAttr kind _ _ _ fields_err fields =>
      let name := default name nameAttr in
      match kind with
      | CueString => Ok (basicSchema name KindString false)
      | CueBool => Ok (basicSchema name KindBoolean false)
      | CueNumber => Ok (basicSchema name KindNumber false)
      | CueInt => Ok (basicSchema name KindInt false)
      | CueList => Ok (basicSchema name KindArrayString false)
      | CueStruct =>
          if isNetwork v then Ok (basicSchema name KindNetwork false)
          else if isAuth v then Ok (basicSchema name KindAuth false)
          else if isSSHKey v then Ok (basicSchema name KindSSHKey true)
          else
            match fields_err with
            | Some e => Err e
            | None =>
                fs ← (fix each (l : list (string * cue_node)) : outcome (list Field) :=
                        match l with
                        | [] => Ok []
                        | (selector, x) :: l' => scm ← NewCueSchema selector x; fs ← each l'; Ok ((selector, scm) :: fs)
                        end) fields;
                Ok (structSchema name fs false)
            end
      | CueOther => Err (errorf "SHOULD NOT REACH!")
      end
  end.

(** ** app.go *)

(** A parsed definition: what its fields decode to, its input, and its
    unification with the values. *)
Record cue_config := MkCueConfig {
  cc_decode : outcome (string * string * string * string);   (* name, namespace, description, icon *)
  cc_input : cue_node;
  cc_eval : json -> outcome cue_value;
}.

Definition newCueApp (config : cue_config) (data : CueAppData) : outcome cueApp :=
  '(name, namespace, description, icon) ← cc_decode config;
  schema ← NewCueSchema "input" (cc_input config);
  Ok (MkCueApp name description icon namespace schema data (cc_eval config)).

Inductive AppType := AppTypeInfra | AppTypeEnv.

Inductive App := CueEnvApp (a : cueApp) | CueInfraApp (a : cueApp).

Definition app_cue (a : App) : cueApp := match a with CueEnvApp c | CueInfraApp c => c end.
Definition app_type (a : App) : AppType := match a with CueEnvApp _ => AppTypeEnv | CueInfraApp _ => AppTypeInfra end.

(** cueInfraApp.Render: the values are the input; the icon is not kept. *)
Definition InfraRender (a : cueApp) (release : Release) (infra : InfraConfig) (values : json) : outcome InfraAppRendered :=
  ret ← render a (JObj [("global", encode_infra infra); ("release", encode_release release); ("input", values)]);
  Ok (MkInfraRendered (rdName ret) (rdPorts ret) (rdResources ret) (rdData ret)
        (MkInfraApp "" (Slug a) infra release values values (rdURL ret) (rdHelp ret) "")).

Section Parse.
(** ParseCueAppConfig: the files of a definition through the CUE loader. *)
Context (ParseCueAppConfig : CueAppData -> outcome cue_config).

Definition ParseAndCreateNewCueApp (data : CueAppData) : outcome cueApp :=
  config ← ParseCueAppConfig data; newCueApp config data.

Definition NewCueEnvApp (data : CueAppData) : outcome App :=
  app ← ParseAndCreateNewCueApp data; Ok (CueEnvApp app).

Definition NewCueInfraApp (data : CueAppData) : outcome App :=
  app ← ParseAndCreateNewCueApp data; Ok (CueInfraApp app).

(** ** app_repository.go: built-in apps *)

(** The texts compiled into the binary. *)
Context (cueBaseConfig cueEnvAppGlobal cueInfraAppGlobal : content).
Context (valuesTmpls : string -> outcome content).

Definition or_panic {A} (o : outcome A) : outcome A :=
  match o with Err e => Panic (emsg e) | o => o end.

Definition definition_of (global contents : content) : CueAppData :=
  [("base.cue", cueBaseConfig); ("global.cue", global); ("app.cue", contents)].

Fixpoint create_apps (new : CueAppData -> outcome App) (global : content) (configs : list string) : outcome (list App) :=
  match configs with
  | [] => Ok []
  | cfgFile :: configs' =>
      contents ← or_panic (valuesTmpls cfgFile);
      app ← or_panic (new (definition_of global contents));
      apps ← create_apps new global configs';
      Ok (app :: apps)
  end.

Definition values_tmpl (name : string) : string := "values-tmpl/" +:+ name +:+ ".cue".

Definition storeEnvAppConfigs : list string :=
  map values_tmpl ["url-shortener"; "matrix"; "vaultwarden"; "gerrit"; "jenkins"; "zot"; "soft-serve"; "pihole"; "rpuppy"].

Definition envAppConfigs : list string :=
  map values_tmpl ["certificate-issuer-private"; "certificate-issuer-public"; "appmanager"; "core-auth"; "headscale-user";
    "metallb-ipaddresspool"; "private-network"; "welcome"; "memberships"; "headscale"; "launcher"; "env-dns"; "launcher"].

Definition infraAppConfigs : list string :=
  map values_tmpl ["cert-manager"; "config-repo"; "csi-driver-smb"; "dns-gateway"; "env-manager"; "fluxcd-reconciler";
    "headscale-controller"; "ingress-public"; "resource-renderer-controller"; "hydra-maester"].

Definition CreateEnvApps (configs : list string) : outcome (list App) := create_apps NewCueEnvApp cueEnvAppGlobal configs.
Definition createInfraApps : outcome (list App) := create_apps NewCueInfraApp cueInfraAppGlobal infraAppConfigs.
Definition CreateStoreApps : outcome (list App) := CreateEnvApps storeEnvAppConfigs.

Definition CreateAllApps : outcome (list App) :=
  infra ← createInfraApps;
  store ← CreateEnvApps storeEnvAppConfigs;
  env ← CreateEnvApps envAppConfigs;
  Ok (infra ++ store ++ env).
End Parse.

(** InMemoryAppRepository: the first app of that slug, of whatever type. *)
Definition Find (apps : list App) (name : string) : outcome App :=
  match list_find (fun a => Slug (app_cue a) = name) apps with
  | Some (_, a) => Ok a
  | None => Err (errorf ("Application not found: " +:+ name))
  end.

Definition FindEnvApp (apps : list App) (name : string) : outcome cueApp :=
  app ← Find apps name;
  match app with CueEnvApp a => Ok a | CueInfraApp _ => Err (errorf "not found") end.

Definition FindInfraApp (apps : list App) (name : string) : outcome cueApp :=
  app ← Find apps name;
  match app with CueInfraApp a => Ok a | CueEnvApp _ => Err (errorf "not found") end.

(** ** app_repository.go: an HTTP catalogue unpacked into a file system *)

Inductive tar_entry :=
  | TarDir (name : string)
  | TarReg (name : string) (body : outcome content)      (* what io.Copy reads *)
  | TarOther (name : string).

(** A response: its body read whole, and as a gzipped archive whose entries end
    with the end of the file or with an error. *)
Record http_body := MkBody {
  read_all : outcome content;
  gzip_tar : outcome (list tar_entry * option error);
}.

Inductive catalogE : Type -> Type :=
  | GetUrl (addr : string) : catalogE (outcome http_body)
  | Mkdir (dir name : string) : catalogE (outcome unit)          (* fs.Chroot(dir).MkdirAll(name) *)
  | Chroot (dir : string) : catalogE (outcome unit)
  | CreateFile (dir name : string) : catalogE (outcome unit)
  | CopyTo (dir name : string) (c : content) : catalogE (outcome unit)
  | ReadDir (dir : string) : catalogE (outcome (list (string * bool)))   (* names, and whether directories *)
  | OpenFile (dir name : string) : catalogE (outcome content).

Record appVersion := MkVersion { avVersion : string; avUrls : list string }.

Definition decode_version (v : json) : outcome appVersion :=
  n ← json_field "version" json_string "" v;
  u ← json_field "urls" (json_array json_string) [] v;
  Ok (MkVersion n u).

(** A map of names, in the order Go happens to range over it. *)
Definition json_entries {A} (dec : json -> outcome A) (v : json) : outcome (list (string * A)) :=
  match v with
  | JNull => Ok []
  | JObj fs => json_list (fun kv => match kv with JObj [(k, x)] => a ← dec x; Ok (k, a) | _ => Err err_json end)
                 (map (fun kv => JObj [kv]) fs)
  | _ => Err err_json
  end.

(** allAppsResp *)
Definition decode_all_apps (v : json) : outcome (string * list (string * list appVersion)) :=
  a ← json_field "apiVersion" json_string "" v;
  e ← json_field "entries" (json_entries (json_array decode_version)) [] v;
  Ok (a, e).

Definition extract_entry (dir : string) (entry : tar_entry) : go catalogE unit :=
  match entry with
  | TarDir name => call (Mkdir dir name)
  | TarReg name body => _ ← call (CreateFile dir name); c ← lift body; call (CopyTo dir name c)
  | TarOther name => fail (errorf ("Uknown type: " +:+ name))
  end.

Definition extractApp (archive : http_body) (dir : string) : go catalogE unit :=
  '(entries, tail) ← lift (gzip_tar archive);
  _ ← foreach (extract_entry dir) entries;
  match tail with None => mret tt | Some e => fail e end.

Definition fetch_version (name : string) (version : appVersion) : go catalogE unit :=
  match avUrls version with
  | [] => panic "index out of range [0] with length 0"
  | url :: _ =>
      resp ← call (GetUrl url);
      let nameVersion := name +:+ "-" +:+ avVersion version in
      _ ← call (Mkdir "" nameVersion);
      _ ← call (Chroot nameVersion);
      extractApp resp nameVersion
  end.

Definition FetchAppsFromHTTPRepository (addr : string) : go catalogE unit :=
  resp ← call (GetUrl addr);
  b ← lift (read_all resp);
  apps ← lift (v ← parsed b; decode_all_apps v);
  foreach (fun entry => foreach (fetch_version entry.1) entry.2) apps.2.

Section FsRepository.
Context (ParseCueAppConfig : CueAppData -> outcome cue_config).
Context (cueBaseConfig : content).
(** io.Copy of the files of a directory into one buffer. *)
Context (concat : list content -> content).

Fixpoint load_files (dir : string) (items : list (string * bool)) : go catalogE (list content) :=
  match items with
  | [] => mret []
  | (name, is_dir) :: items' =>
      if is_dir : bool then load_files dir items'
      else (c ← call (OpenFile dir name); cs ← load_files dir items'; mret (c :: cs))
  end.

Definition loadApp (dir : string) : go catalogE App :=
  items ← call (ReadDir dir);
  contents ← load_files dir items;
  lift (NewCueEnvApp ParseCueAppConfig [("base.cue", cueBaseConfig); ("app.cue", concat contents)]).

Fixpoint load_apps (all : list (string * bool)) : go catalogE (list App) :=
  match all with
  | [] => mret []
  | (name, is_dir) :: all' =>
      if is_dir : bool then
        _ ← call (Chroot name);
        check app := loadApp name onerr _e => load_apps all' in
        apps ← load_apps all';
        mret (app :: apps)
      else load_apps all'
  end.

Definition NewFSAppRepository : go catalogE (list App) :=
  all ← call (ReadDir "");
  load_apps all.
End FsRepository.

(** * Proofs *)

(** ** Schemas of apps *)

(** Labels are distinct at every level, as CUE guarantees, and there are no lists. *)
Fixpoint plain_node (v : cue_node) : Prop :=
  match v with
  | CueNode _ kind _ _ _ _ fields =>
      kind <> CueList /\ NoDup (map fst fields) /\
      (fix all (l : list (string * cue_node)) : Prop := match l with [] => True | f :: l' => plain_node f.2 /\ all l' end) fields
  end.

(** The schema of such an input is one whose values survive being stored. *)
Lemma NewCueSchema_ok : forall v name s, plain_node v -> NewCueSchema name v = Ok s -> schema_ok s.
Proof.
  fix IH 1. intros [attr kind n a k err fields] name s. cbn [plain_node]. intros (Hkind & Hdup & Hall).
  cbn [NewCueSchema]. destruct kind; try done; try (by intros [= <-]).
  destruct (isNetwork _); [by intros [= <-]|]. destruct (isAuth _); [by intros [= <-]|].
  destruct (isSSHKey _); [by intros [= <-]|]. destruct err as [e|]; [done|].
  set (each := fix each (l : list (string * cue_node)) : outcome (list Field) := _).
  assert (He : forall fs, each fields = Ok fs -> map fst fs = map fst fields /\ forall f, f ∈ fs -> schema_ok f.2).
  { clear Hdup. induction fields as [|[sel x] fields IHf]; intros fs.
    - intros [= <-]. split; [done|]. by intros f ?%not_elem_of_nil.
    - cbn [each]. destruct Hall as [Hx Hall]. destruct (NewCueSchema sel x) as [scm| | |] eqn:Hs; cbn [mbind outcome_bind]; [|done..].
      destruct (each fields) as [fs'| | |]; cbn [mbind outcome_bind]; [|done..]. intros [= <-].
      destruct (IHf Hall fs' eq_refl) as [Hm Hf]. split; [cbn [map fst]; by rewrite Hm|].
      intros f [->|Hin]%elem_of_cons; [exact (IH x sel scm Hx Hs)|by apply Hf]. }
  destruct (each fields) as [fs| | |]; cbn [mbind outcome_bind]; [|done..]. intros [= <-].
  destruct (He fs eq_refl) as [Hm Hf]. cbn [schema_ok]. rewrite Hm. split; [done|]. clear -Hf.
  induction fs as [|f fs IHfs]; [done|]. split; [apply Hf; by left|]. apply IHfs. intros g Hg. apply Hf. by right.
Qed.

(** ** Renderers *)

Lemma InfraRender_config a rel infra values r :
  InfraRender a rel infra values = Ok r ->
  iValues (irConfig r) = values /\ iInput (irConfig r) = values /\ iRelease (irConfig r) = rel /\ iAppId (irConfig r) = Slug a.
Proof. unfold InfraRender. destruct (render _ _); cbn [mbind outcome_bind]; [|done..]. by intros [= <-]. Qed.

(** ** Repositories *)

Lemma create_apps_type build global tmpls base ty :
  (forall data app, build data = Ok app -> app_type app = ty) ->
  forall configs apps, create_apps base tmpls build global configs = Ok apps -> Forall (fun a => app_type a = ty) apps.
Proof.
  intros Hb. induction configs as [|c configs IH]; intros apps; cbn [create_apps]; [intros [= <-]; constructor|].
  destruct (or_panic (tmpls c)) as [contents| | |]; cbn [mbind outcome_bind]; [|done..].
  destruct (build (definition_of base global contents)) as [app| | |] eqn:Ha; cbn [or_panic mbind outcome_bind]; [|done..].
  destruct (create_apps _ _ _ _ configs) as [apps'| | |]; cbn [mbind outcome_bind]; [|done..].
  intros [= <-]. constructor; [by eapply Hb|by apply IH].
Qed.

(** Find answers an app with the slug, and none before it in the list has it. *)
Lemma Find_first apps name a : Find apps name = Ok a <->
  exists before after, apps = before ++ a :: after /\ Slug (app_cue a) = name /\
    Forall (fun b => Slug (app_cue b) <> name) before.
Proof.
  unfold Find. destruct (list_find _ apps) as [[i b]|] eqn:Hf.
  - apply list_find_Some in Hf as (Hi & Hb & Hlt). split.
    + intros [= <-]. exists (take i apps), (drop (S i) apps). split; [by rewrite take_drop_middle|]. split; [done|].
      apply Forall_forall. intros x Hx. apply list_elem_of_lookup in Hx as [j Hj].
      apply lookup_take_Some in Hj as [Hj Hji]. by eapply Hlt.
    + intros (before & after & -> & Ha & Hall). do 2 f_equal.
      assert (i = length before) as ->.
      { destruct (Nat.lt_trichotomy i (length before)) as [Hl|[He|Hg]]; [|done|].
        - rewrite lookup_app_l in Hi by done. rewrite Forall_forall in Hall.
          exfalso. apply (Hall b); [by eapply list_elem_of_lookup_2|done].
        - exfalso. apply (Hlt (length before) a); [|done|done]. by rewrite list_lookup_middle. }
      rewrite list_lookup_middle in Hi by done. by simplify_eq.
  - apply list_find_None in Hf. split; [done|]. intros (before & after & -> & Ha & _).
    rewrite Forall_app, Forall_cons in Hf. destruct Hf as (_ & Hn & _). by apply Hn in Ha.
Qed.

(** An app of the other type hides the apps of its slug that come after it. *)
Lemma hidden_by_type before after a b name :
  Forall (fun x => Slug (app_cue x) <> name) before -> Slug a = name -> Slug b = name ->
  FindEnvApp (before ++ CueInfraApp a :: after ++ [CueEnvApp b]) name = Err (errorf "not found").
Proof.
  intros Hb Ha _. unfold FindEnvApp.
  rewrite (proj2 (Find_first _ name (CueInfraApp a))); [done|]. by exists before, (after ++ [CueEnvApp b]).
Qed.
