(* ===== verification/CueText.v ===== *)
(** * The CUE text of the installer (core/installer/app.go: cueBaseConfig, cueEnvAppGlobal)

    Every definition of an app is read together with two texts compiled into the
    binary.  They complete its images and charts, turn its ingresses into Helm
    releases, with an authenticating proxy in front where one is asked for, and
    collect what is written to the repository.

    A text of CUE is a function here: of what the app says, once its own
    references are resolved, to the value the library evaluates it to.  Fields
    that come from several places are unified. *)
From S2P Require Import Prelude GoLib GoStrings AuthProxy RepoIO InstallerTypes Derived Rendering.
Open Scope string_scope.
Open Scope list_scope.

(** ** Unification *)

Definition conflict : error := errorf "conflicting values".
Definition incomplete : error := errorf "incomplete value".
Definition not_allowed : error := errorf "field not allowed".

Definition find_field {A} (k : string) (l : list (string * A)) : option A :=
  match list_find (fun kv => kv.1 = k) l with Some (_, (_, v)) => Some v | None => None end.

Definition has_field {A} (k : string) (fs : list (string * A)) : bool := existsb (fun kv => String.eqb kv.1 k) fs.

(** Concrete values: structs are open, lists are not. *)
Fixpoint unify (a b : json) : outcome json :=
  match a, b with
  | JNull, JNull => Ok a
  | JBool x, JBool y => if Bool.eqb x y then Ok a else Err conflict
  | JNum x, JNum y => if Z.eqb x y then Ok a else Err conflict
  | JStr x, JStr y => if String.eqb x y then Ok a else Err conflict
  | JArr l, JArr m =>
      l' ← (fix each (l m : list json) : outcome (list json) :=
              match l, m with
              | [], [] => Ok []
              | x :: l', y :: m' => z ← unify x y; rest ← each l' m'; Ok (z :: rest)
              | _, _ => Err conflict
              end) l m;
      Ok (JArr l')
  | JObj fs, JObj gs =>
      hs ← (fix each (fs : list (string * json)) : outcome (list (string * json)) :=
              match fs with
              | [] => Ok []
              | (k, x) :: fs' =>
                  z ← match get_field k gs with Some y => unify x y | None => Ok x end;
                  rest ← each fs';
                  Ok ((k, z) :: rest)
              end) fs;
      Ok (JObj (hs ++ List.filter (fun kv => negb (has_field kv.1 fs)) gs))
  | _, _ => Err conflict
  end.

(** A field [k] added to a struct. *)
Fixpoint add_field {A} (u : A -> A -> outcome A) (k : string) (y : A) (l : list (string * A)) : outcome (list (string * A)) :=
  match l with
  | [] => Ok [(k, y)]
  | (k', x) :: l' =>
      if String.eqb k' k then z ← u x y; Ok ((k', z) :: l')
      else rest ← add_field u k y l'; Ok ((k', x) :: rest)
  end.

Fixpoint add_fields {A} (u : A -> A -> outcome A) (fs l : list (string * A)) : outcome (list (string * A)) :=
  match fs with
  | [] => Ok l
  | (k, y) :: fs' => l' ← add_field u k y l; add_fields u fs' l'
  end.

(** [None]: nothing is said, so a default applies if there is one. *)
Definition unify_opt {A} `{EqDecision A} (a b : option A) : outcome (option A) :=
  match a, b with
  | Some x, Some y => if decide (x = y) then Ok a else Err conflict
  | Some _, None => Ok a
  | None, _ => Ok b
  end.

Definition required {A} (a : option A) : outcome A := match a with Some x => Ok x | None => Err incomplete end.

Definition unify_eq {A} `{EqDecision A} (a b : A) : outcome A := if decide (a = b) then Ok a else Err conflict.

(** ** Images and charts *)

(** An image as it is given. *)
Record image := MkImage {
  registry_ : option string;
  repository_ : option string;
  name_ : option string;
  tag_ : option string;
  pullPolicy_ : option string;
}.

(** #Image *)
Record Image := MkFullImage {
  registry : string;
  repository : string;
  imgName : string;
  tag : string;
  pullPolicy : string;
}.

Definition imageName (i : Image) : string := repository i +:+ "/" +:+ imgName i.
Definition fullName (i : Image) : string := registry i +:+ "/" +:+ imageName i.
Definition fullNameWithTag (i : Image) : string := fullName i +:+ ":" +:+ tag i.

Definition unify_image (a b : image) : outcome image :=
  r ← unify_opt (registry_ a) (registry_ b);
  p ← unify_opt (repository_ a) (repository_ b);
  n ← unify_opt (name_ a) (name_ b);
  t ← unify_opt (tag_ a) (tag_ b);
  l ← unify_opt (pullPolicy_ a) (pullPolicy_ b);
  Ok (MkImage r p n t l).

Definition complete_image (i : image) : outcome Image :=
  p ← required (repository_ i);
  n ← required (name_ i);
  t ← required (tag_ i);
  Ok (MkFullImage (default "docker.io" (registry_ i)) p n t (default "IfNotPresent" (pullPolicy_ i))).

Inductive source_kind := GitRepository | HelmRepository.

#[export] Instance source_kind_eq_dec : EqDecision source_kind.
Proof. solve_decision. Defined.

(** #Chart with its #SourceRef *)
Record Chart := MkChart {
  chart : string;
  srcKind : source_kind;
  srcName : string;
  srcNamespace : string;
}.

#[export] Instance Chart_eq_dec : EqDecision Chart.
Proof. solve_decision. Defined.

Definition kind_text (k : source_kind) : string :=
  match k with GitRepository => "GitRepository" | HelmRepository => "HelmRepository" end.

Definition chart_doc (c : Chart) : json :=
  JObj [("chart", JStr (chart c));
        ("sourceRef", JObj [("kind", JStr (kind_text (srcKind c))); ("name", JStr (srcName c)); ("namespace", JStr (srcNamespace c))])].

(** ** Helm releases *)

(** #ResourceReference *)
Record ResourceReference := MkRef { refName : string; refNamespace : string }.

#[export] Instance ResourceReference_eq_dec : EqDecision ResourceReference.
Proof. solve_decision. Defined.

(** #Helm *)
Record Helm := MkHelm {
  hChart : Chart;
  hValues : json;
  hDependsOn : option (list ResourceReference);
}.

Definition unify_helm (a b : Helm) : outcome Helm :=
  c ← unify_eq (hChart a) (hChart b);
  v ← unify (hValues a) (hValues b);
  d ← unify_opt (hDependsOn a) (hDependsOn b);
  Ok (MkHelm c v d).

Definition ref_doc (r : ResourceReference) : json := JObj [("name", JStr (refName r)); ("namespace", JStr (refNamespace r))].

(** #HelmRelease: its hidden fields are not written. *)
Definition HelmRelease (release : Release) (name : string) (h : Helm) : json :=
  JObj [("apiVersion", JStr "helm.toolkit.fluxcd.io/v2beta1");
        ("kind", JStr "HelmRelease");
        ("metadata", JObj [("name", JStr name); ("namespace", JStr (relNamespace release))]);
        ("spec", JObj [("interval", JStr "1m0s");
                       ("dependsOn", JArr (map ref_doc (default [] (hDependsOn h))));
                       ("chart", JObj [("spec", chart_doc (hChart h))]);
                       ("values", hValues h)])].

(** ** The environment an app is rendered for: #Global, #Release, networks *)

(** The fields of a struct that has no others. *)
Definition closed (allowed : list string) (v : json) : outcome (list (string * json)) :=
  match v with
  | JObj fs => if forallb (fun kv => existsb (String.eqb kv.1) allowed) fs then Ok fs else Err not_allowed
  | _ => Err conflict
  end.

Definition opt_string (k : string) (fs : list (string * json)) : outcome (option string) :=
  match get_field k fs with None => Ok None | Some (JStr s) => Ok (Some s) | Some _ => Err conflict end.

Definition string_or (d k : string) (fs : list (string * json)) : outcome string := o ← opt_string k fs; Ok (default d o).

Definition string_of_field (k : string) (fs : list (string * json)) : outcome string := o ← opt_string k fs; required o.

Fixpoint all_strings (l : list json) : outcome (list string) :=
  match l with
  | [] => Ok []
  | JStr s :: l' => rest ← all_strings l'; Ok (s :: rest)
  | _ => Err conflict
  end.

Definition strings_or_none (k : string) (fs : list (string * json)) : outcome (list string) :=
  match get_field k fs with None => Ok [] | Some (JArr l) => all_strings l | Some _ => Err conflict end.

Section Evaluation.
(** net.IPv4 of CUE *)
Context (IPv4 : string -> bool).

Definition address_of_field (k : string) (fs : list (string * json)) : outcome string :=
  s ← string_of_field k fs; if IPv4 s then Ok s else Err conflict.

(** #EnvNetwork *)
Definition eval_env_network (v : json) : outcome EnvNetwork :=
  fs ← closed ["dns"; "dnsInClusterIP"; "ingress"; "headscale"; "servicesFrom"; "servicesTo"] v;
  a ← address_of_field "dns" fs;
  b ← address_of_field "dnsInClusterIP" fs;
  c ← address_of_field "ingress" fs;
  d ← address_of_field "headscale" fs;
  e ← address_of_field "servicesFrom" fs;
  f ← address_of_field "servicesTo" fs;
  Ok (MkEnvNetwork a b c d e f).

(** #Global *)
Definition eval_global (v : json) : outcome EnvConfig :=
  fs ← closed ["id"; "pcloudEnvName"; "domain"; "privateDomain"; "contactEmail"; "adminPublicKey"; "publicIP"; "nameserverIP";
               "namespacePrefix"; "network"] v;
  a ← string_or "" "id" fs;
  b ← string_or "" "pcloudEnvName" fs;
  c ← string_or "" "domain" fs;
  d ← string_or "" "privateDomain" fs;
  e ← string_or "" "contactEmail" fs;
  f ← string_or "" "adminPublicKey" fs;
  g ← strings_or_none "publicIP" fs;
  h ← strings_or_none "nameserverIP" fs;
  i ← string_or "" "namespacePrefix" fs;
  n ← (n ← required (get_field "network" fs); eval_env_network n);
  Ok (MkEnvConfig a b c d e f g h i n).

(** #Release *)
Definition eval_release (v : json) : outcome Release :=
  fs ← closed ["appInstanceId"; "namespace"; "repoAddr"; "appDir"] v;
  a ← string_of_field "appInstanceId" fs;
  b ← string_of_field "namespace" fs;
  c ← string_of_field "repoAddr" fs;
  d ← string_of_field "appDir" fs;
  Ok (MkRelease a b c d).

(** #Network *)
Definition eval_network (v : json) : outcome Network :=
  fs ← closed ["name"; "ingressClass"; "certificateIssuer"; "domain"; "allocatePortAddr"] v;
  a ← string_of_field "name" fs;
  b ← string_of_field "ingressClass" fs;
  c ← string_or "" "certificateIssuer" fs;
  d ← string_of_field "domain" fs;
  e ← string_of_field "allocatePortAddr" fs;
  Ok (MkNetwork a b c d e).

Definition network_public (global : EnvConfig) : Network :=
  MkNetwork "Public" (InfraName global +:+ "-ingress-public") (envId global +:+ "-public") (envDomain global)
    ("http://port-allocator." +:+ InfraName global +:+ "-ingress-public.svc.cluster.local/api/allocate").

Definition network_private (global : EnvConfig) : Network :=
  MkNetwork "Private" (envId global +:+ "-ingress-private") "" (PrivateDomain global)
    ("http://port-allocator." +:+ envId global +:+ "-ingress-private.svc.cluster.local/api/allocate").

(** #Auth *)
Record Auth := MkAuth { enabled : bool; groups : string }.

Definition eval_auth (v : json) : outcome Auth :=
  fs ← closed ["enabled"; "groups"] v;
  e ← match get_field "enabled" fs with None => Ok false | Some (JBool b) => Ok b | Some _ => Err conflict end;
  g ← string_or "" "groups" fs;
  Ok (MkAuth e g).

(** #PortForward, for what is given *)
Definition eval_port (allocator : string) (protocol : option string) (sourcePort : Z) (service : string) (port : Z) : outcome PortForward :=
  let p := default "TCP" protocol in
  if String.eqb p "TCP" || String.eqb p "UDP" then Ok (MkPortForward allocator p sourcePort service port) else Err conflict.

(** ** #Ingress *)

Inductive service_port := PortName (name : string) | PortNumber (number : Z).

Record IngressSpec := MkIngress {
  auth : Auth;
  network : Network;
  subdomain : string;
  service : string;
  port : service_port;
}.

Definition _domain (i : IngressSpec) : string := subdomain i +:+ "." +:+ netDomain (network i).

Definition valid_port (p : service_port) : bool := match p with PortName _ => true | PortNumber n => (0 <? n)%Z end.

(** out.images *)
Definition authProxy_image : image := MkImage None (Some "giolekva") (Some "auth-proxy") (Some "latest") (Some "Always").

(** out.charts *)
Definition ingress_chart (global : EnvConfig) : Chart := MkChart "charts/ingress" GitRepository "pcloud" (envId global).
Definition authProxy_chart (global : EnvConfig) : Chart := MkChart "charts/auth-proxy" GitRepository "pcloud" (envId global).

Definition portName : string := "http".

Definition proxy_values (global : EnvConfig) (release : Release) (img : Image) (i : IngressSpec) : json :=
  JObj [("image", JObj [("repository", JStr (fullName img)); ("tag", JStr (tag img)); ("pullPolicy", JStr (pullPolicy img))]);
        ("upstream", JStr (service i +:+ "." +:+ relNamespace release +:+ ".svc.cluster.local"));
        ("whoAmIAddr", JStr ("https://accounts." +:+ envDomain global +:+ "/sessions/whoami"));
        ("loginAddr", JStr ("https://accounts-ui." +:+ envDomain global +:+ "/login"));
        ("membershipAddr", JStr ("http://memberships-api." +:+ envId global +:+ "-core-auth-memberships.svc.cluster.local/api/user"));
        ("groups", JStr (groups (auth i)));
        ("portName", JStr portName)].

Definition ingress_service (i : IngressSpec) : json :=
  if enabled (auth i) then JObj [("name", JStr "auth-proxy"); ("port", JObj [("name", JStr portName)])]
  else JObj [("name", JStr (service i));
             ("port", match port i with PortName n => JObj [("name", JStr n)] | PortNumber n => JObj [("number", JNum n)] end)].

Definition ingress_values (i : IngressSpec) : json :=
  JObj [("domain", JStr (_domain i));
        ("ingressClassName", JStr (IngressClass (network i)));
        ("certificateIssuer", JStr (CertificateIssuer (network i)));
        ("service", ingress_service i)].

(** out.helm *)
Definition ingress_helm (global : EnvConfig) (release : Release) (i : IngressSpec) : outcome (list (string * Helm)) :=
  img ← complete_image authProxy_image;
  Ok ((if enabled (auth i) then [("auth-proxy", MkHelm (authProxy_chart global) (proxy_values global release img i) None)] else []) ++
      [("ingress", MkHelm (ingress_chart global) (ingress_values i) None)]).

(** ** The whole value *)

(** What the text of an app says, with its references to the input, to #Global
    and #Release resolved; its Helm releases refer to the completed images and
    charts.  [avFull]: the JSON text of the whole value. *)
Record app_values := MkAppValues {
  avReadme : string;
  avURL : string;
  avIcon : string;
  avHelp : json;
  avPorts : list PortForward;
  avImages : list (string * image);
  avCharts : list (string * Chart);
  avIngress : list (string * IngressSpec);
  avHelm : list (string * Image) -> list (string * Chart) -> outcome (list (string * Helm));
  avFull : content;
}.

Definition app_text := json -> EnvConfig -> Release -> outcome app_values.

Fixpoint on_fields {A B} (f : A -> outcome B) (l : list (string * A)) : outcome (list (string * B)) :=
  match l with
  | [] => Ok []
  | (k, x) :: l' => y ← f x; rest ← on_fields f l'; Ok ((k, y) :: rest)
  end.

(** #Ingress & value, of every ingress. *)
Fixpoint valid_ingresses (l : list (string * IngressSpec)) : outcome unit :=
  match l with
  | [] => Ok tt
  | (_, i) :: l' => if valid_port (port i) then valid_ingresses l' else Err conflict
  end.

Definition eval_images (v : app_values) : outcome (list (string * Image)) :=
  l ← add_fields unify_image (map (fun _ => ("authProxy", authProxy_image)) (avIngress v)) (avImages v);
  on_fields complete_image l.

Definition ingress_charts (global : EnvConfig) : list (string * Chart) :=
  [("ingress", ingress_chart global); ("authProxy", authProxy_chart global)].

Definition eval_charts (global : EnvConfig) (v : app_values) : outcome (list (string * Chart)) :=
  add_fields unify_eq (concat (map (fun _ => ingress_charts global) (avIngress v))) (avCharts v).

Fixpoint ingress_helms (global : EnvConfig) (release : Release) (l : list (string * IngressSpec)) : outcome (list (string * Helm)) :=
  match l with
  | [] => Ok []
  | (_, i) :: l' => h ← ingress_helm global release i; rest ← ingress_helms global release l'; Ok (h ++ rest)
  end.

(** _helmValidate *)
Definition eval_helm (global : EnvConfig) (release : Release) (v : app_values) : outcome (list (string * Helm)) :=
  _ ← valid_ingresses (avIngress v);
  images ← eval_images v;
  charts ← eval_charts global v;
  own ← avHelm v images charts;
  fromIngress ← ingress_helms global release (avIngress v);
  add_fields unify_helm fromIngress own.

(** Labels that are not identifiers are printed with quotes. *)
Definition is_letter (c : Ascii.ascii) : bool :=
  let n := Ascii.nat_of_ascii c in ((97 <=? n) && (n <=? 122) || (65 <=? n) && (n <=? 90) || (n =? 36))%nat.

Definition label_char (c : Ascii.ascii) : bool :=
  let n := Ascii.nat_of_ascii c in is_letter c || ((48 <=? n) && (n <=? 57) || (n =? 95))%nat.

Definition identifier (k : string) : bool :=
  match k with "" => false | String c k' => is_letter c && forall_char label_char k' end.

Definition selector (k : string) : string :=
  if identifier k then k else String (Ascii.ascii_of_nat 34) (k +:+ String (Ascii.ascii_of_nat 34) "").

Definition output (release : Release) (helm : list (string * Helm)) : list (string * outcome content) :=
  map (fun kh => (selector kh.1, Ok (Doc (HelmRelease release kh.1 kh.2)))) helm.

(** The definition unified with {global, release, input} and evaluated. *)
Definition eval_env_app (text : app_text) (values : json) : outcome cue_value :=
  fs ← closed ["global"; "release"; "input"] values;
  global ← (g ← required (get_field "global" fs); eval_global g);
  release ← (r ← required (get_field "release" fs); eval_release r);
  input ← required (get_field "input" fs);
  v ← text input global release;
  helm ← eval_helm global release v;
  Ok (MkCue (Ok (avFull v)) (Ok (avReadme v)) (Ok (avPorts v)) (Ok (output release helm))
        (Some (Ok (avHelp v))) (Ok (avURL v)) (Ok (avIcon v))).
End Evaluation.

(** ** The charts (charts/ingress, charts/auth-proxy: templates/install.yaml) *)

Fixpoint at_path (ks : list string) (v : json) : option json :=
  match ks, v with
  | [], _ => Some v
  | k :: ks', JObj fs => find_field k fs ≫= at_path ks'
  | _, _ => None
  end.

Definition text_at (ks : list string) (v : json) : option string :=
  match at_path ks v with Some (JStr s) => Some s | _ => None end.

(** The rule of the Ingress a release of charts/ingress makes: a host of a class
    of ingresses, and the service behind it. *)
Record rule := MkRule { ruClass : string; ruHost : string; ruService : string; ruPort : service_port }.

Definition backend_port (values : json) : option service_port :=
  match text_at ["service"; "port"; "name"] values with
  | Some (String _ _ as n) => Some (PortName n)
  | _ => match at_path ["service"; "port"; "number"] values with Some (JNum n) => Some (PortNumber n) | _ => None end
  end.

Definition ingress_rule (release : json) : option rule :=
  values ← at_path ["spec"; "values"] release;
  class ← text_at ["ingressClassName"] values;
  host ← text_at ["domain"] values;
  name ← text_at ["service"; "name"] values;
  p ← backend_port values;
  Some (MkRule class host name p).

(** The flags of the container a release of charts/auth-proxy starts. *)
Definition proxy_flags (release : json) : option flags :=
  values ← at_path ["spec"; "values"] release;
  w ← text_at ["whoAmIAddr"] values;
  l ← text_at ["loginAddr"] values;
  m ← text_at ["membershipAddr"] values;
  g ← text_at ["groups"] values;
  u ← text_at ["upstream"] values;
  Some (MkFlags w l m g u).

(** ** An app: values-tmpl/rpuppy.cue *)

(** The icon and the text of the whole value stay parameters. *)
Definition rpuppy (icon : string) (full : content) : app_text := fun input global release =>
  fs ← closed ["network"; "subdomain"; "auth"] input;
  net ← (n ← required (get_field "network" fs); eval_network n);
  sub ← string_of_field "subdomain" fs;
  a ← eval_auth (default (JObj []) (get_field "auth" fs));
  let domain := sub +:+ "." +:+ netDomain net in
  Ok (MkAppValues
    ("rpuppy application will be installed on " +:+ netName net +:+
     " network and be accessible to any user on https://" +:+ domain)
    ("https://" +:+ domain) icon (JArr []) []
    [("rpuppy", MkImage None (Some "giolekva") (Some "rpuppy") (Some "latest") (Some "Always"))]
    [("rpuppy", MkChart "charts/rpuppy" GitRepository "pcloud" (envId global))]
    [("rpuppy", MkIngress a net sub "rpuppy" (PortName "http"))]
    (fun images charts =>
       img ← required (find_field "rpuppy" images);
       c ← required (find_field "rpuppy" charts);
       Ok [("rpuppy", MkHelm c
              (JObj [("image", JObj [("repository", JStr (fullName img)); ("tag", JStr (tag img)); ("pullPolicy", JStr (pullPolicy img))]);
                     ("portName", JStr "http")]) None)])
    full).
