(* ===== verification/CueTextTheorems.v ===== *)
(** * What the CUE text of the installer makes of an app (core/installer/app.go)

    Facts said in one place survive unification with whatever is said elsewhere;
    so the releases of an ingress reach the repository as they are made. *)
From Stdlib Require Import Ascii.
From S2P Require Import Prelude GoLib GoStrings AuthProxy RepoIO InstallerTypes Derived Rendering CueText.
Open Scope string_scope.
Open Scope list_scope.

(** ** Fields *)

Lemma find_cons {A} k k' (x : A) l : find_field k ((k', x) :: l) = if String.eqb k' k then Some x else find_field k l.
Proof.
  unfold find_field. cbn [list_find fst]. destruct (String.eqb_spec k' k) as [->|Hne]; [by rewrite decide_True|].
  rewrite decide_False by done. by destruct (list_find _ l) as [[? []]|].
Qed.

Lemma find_app {A} k (l m : list (string * A)) : find_field k (l ++ m) = match find_field k l with Some x => Some x | None => find_field k m end.
Proof. induction l as [|[k' x] l IH]; [done|]. cbn [app]. rewrite !find_cons. by destruct (String.eqb k' k). Qed.

Lemma find_elem {A} k (x : A) l : find_field k l = Some x -> (k, x) ∈ l.
Proof.
  induction l as [|[k' y] l IH]; [done|]. rewrite find_cons. destruct (String.eqb_spec k' k) as [->|]; [intros [= ->]; by left|].
  intros H. right. by apply IH.
Qed.

Lemma has_field_find {A} k (l : list (string * A)) : has_field k l = true <-> is_Some (find_field k l).
Proof.
  induction l as [|[k' x] l IH]; [split; [done|by intros []]|]. unfold has_field in *. cbn [existsb fst]. rewrite find_cons.
  destruct (String.eqb k' k); cbn [orb]; [split; [by eexists|done]|exact IH].
Qed.

Lemma find_filter {A} k (f : string -> bool) (l : list (string * A)) :
  f k = true -> find_field k (List.filter (fun kv => f kv.1) l) = find_field k l.
Proof.
  intros Hf. induction l as [|[k' x] l IH]; [done|]. cbn [List.filter fst]. rewrite find_cons.
  destruct (String.eqb_spec k' k) as [->|Hne]; [by rewrite Hf, find_cons, String.eqb_refl|].
  destruct (f k'); [rewrite find_cons, (proj2 (String.eqb_neq _ _) Hne)|]; exact IH.
Qed.

(** ** What a value says survives unification *)

(** Every text in [a] is in [b]. *)
Definition texts_kept (a b : json) : Prop := forall ks s, at_path ks a = Some (JStr s) -> at_path ks b = Some (JStr s).

Definition unify_each (gs : list (string * json)) : list (string * json) -> outcome (list (string * json)) :=
  fix each fs :=
    match fs with
    | [] => Ok []
    | (k, x) :: fs' => z ← match get_field k gs with Some y => unify x y | None => Ok x end; rest ← each fs'; Ok ((k, z) :: rest)
    end.

Lemma unify_objects fs gs :
  unify (JObj fs) (JObj gs) = hs ← unify_each gs fs; Ok (JObj (hs ++ List.filter (fun kv => negb (has_field kv.1 fs)) gs)).
Proof. reflexivity. Qed.

Lemma unify_each_find gs fs hs k : unify_each gs fs = Ok hs ->
  match find_field k fs with
  | Some x => exists z, find_field k hs = Some z /\ match find_field k gs with Some y => unify x y = Ok z | None => z = x end
  | None => find_field k hs = None
  end.
Proof.
  revert hs. induction fs as [|[k' x] fs IH]; intros hs; [by intros [= <-]|]. cbn [unify_each].
  change (get_field k' gs) with (find_field k' gs).
  destruct (match find_field k' gs with Some y => unify x y | None => Ok x end) as [z| | |] eqn:Hz; try done. cbn [mbind outcome_bind].
  destruct (unify_each gs fs) as [rest| | |] eqn:Hr; try done. intros [= <-]. specialize (IH rest eq_refl).
  rewrite !find_cons. destruct (String.eqb_spec k' k) as [->|Hne]; [|exact IH].
  exists z. split; [done|]. destruct (find_field k gs); [done|]. by injection Hz.
Qed.

Lemma unify_kept a b c : unify a b = Ok c -> texts_kept a c /\ texts_kept b c.
Proof.
  intros Hu. enough (H : forall ks, forall a b c, unify a b = Ok c -> forall s,
    (at_path ks a = Some (JStr s) -> at_path ks c = Some (JStr s)) /\ (at_path ks b = Some (JStr s) -> at_path ks c = Some (JStr s))).
  { split; intros ks s; by apply (H ks a b c Hu s). }
  clear a b c Hu. induction ks as [|k ks IH]; intros a b c Hu s.
  - cbn [at_path]. split; intros [= ->].
    + destruct b; try done. cbn [unify] in Hu. destruct (String.eqb s s0); congruence.
    + destruct a; try done. cbn [unify] in Hu. destruct (String.eqb_spec s0 s) as [->|]; congruence.
  - split; intros Hp.
    + destruct a as [| | | | |fs]; try done. destruct b as [| | | | |gs]; try done. rewrite unify_objects in Hu.
      destruct (unify_each gs fs) as [hs| | |] eqn:He; try done. injection Hu as <-. cbn [at_path] in *.
      pose proof (unify_each_find gs fs hs k He) as Hf. rewrite find_app. destruct (find_field k fs) as [x|]; [|done].
      destruct Hf as (z & -> & Hz). cbn [mbind option_bind] in *. destruct (find_field k gs) as [y|]; [|by subst]. by apply (proj1 (IH x y z Hz s)).
    + destruct b as [| | | | |gs]; try done. destruct a as [| | | | |fs]; try done. rewrite unify_objects in Hu.
      destruct (unify_each gs fs) as [hs| | |] eqn:He; try done. injection Hu as <-. cbn [at_path] in *.
      pose proof (unify_each_find gs fs hs k He) as Hf. rewrite find_app. pose proof (has_field_find k fs) as Hh.
      destruct (find_field k fs) as [x|].
      * destruct Hf as (z & -> & Hz). destruct (find_field k gs) as [y|]; [|done]. cbn [mbind option_bind] in *. by apply (proj2 (IH x y z Hz s)).
      * rewrite Hf, (find_filter k (fun k => negb (has_field k fs))); [done|].
        destruct (has_field k fs); [|done]. destruct (proj1 Hh eq_refl) as [? [=]].
Qed.

(** ** Structs put together from several places *)

Lemma add_field_find {A} (u : A -> A -> outcome A) k y l l' : add_field u k y l = Ok l' ->
  (exists z, find_field k l' = Some z /\ match find_field k l with Some x => u x y = Ok z | None => z = y end) /\
  (forall k', k' <> k -> find_field k' l' = find_field k' l).
Proof.
  revert l'. induction l as [|[k1 x] l IH]; intros l'; cbn [add_field].
  - intros [= <-]. split; [exists y; by rewrite find_cons, String.eqb_refl|].
    intros k' Hne. by rewrite find_cons, (proj2 (String.eqb_neq k k') (not_eq_sym Hne)).
  - rewrite !find_cons. destruct (String.eqb_spec k1 k) as [->|Hne].
    + destruct (u x y) as [z| | |] eqn:Hz; try done. intros [= <-]. split; [exists z; by rewrite find_cons, String.eqb_refl|].
      intros k' Hne. rewrite find_cons. by rewrite find_cons, (proj2 (String.eqb_neq k k') (not_eq_sym Hne)).
    + destruct (add_field u k y l) as [rest| | |]; try done. intros [= <-]. destruct (IH rest eq_refl) as [(z & Hz & Hx) Hrest].
      split; [exists z|intros k' Hk'].
      * rewrite find_cons, (proj2 (String.eqb_neq k1 k) Hne). by split.
      * rewrite !find_cons. by rewrite (Hrest k' Hk').
Qed.

Section Keep.
(** What the addition of a field keeps of both sides. *)
Context {A : Type} (u : A -> A -> outcome A) (P : A -> Prop).
Hypothesis keep_l : forall x y z, u x y = Ok z -> P x -> P z.
Hypothesis keep_r : forall x y z, u x y = Ok z -> P y -> P z.

Definition holds (k : string) (l : list (string * A)) : Prop := exists z, find_field k l = Some z /\ P z.

Lemma add_field_keeps k y l l' k' : add_field u k y l = Ok l' -> holds k' l -> holds k' l'.
Proof using keep_l.
  intros H (x & Hx & HP). apply add_field_find in H as [(z & Hz & Hu) Hrest]. destruct (decide (k' = k)) as [->|Hne].
  - exists z. split; [done|]. rewrite Hx in Hu. by apply (keep_l x y).
  - exists x. by rewrite Hrest.
Qed.

Lemma add_field_holds k y l l' : add_field u k y l = Ok l' -> P y -> holds k l'.
Proof using keep_r.
  intros H HP. apply add_field_find in H as [(z & Hz & Hu) _]. exists z. split; [done|].
  destruct (find_field k l) as [x|]; [by apply (keep_r x y)|by subst].
Qed.

Lemma add_fields_keeps fs l l' k : add_fields u fs l = Ok l' -> holds k l -> holds k l'.
Proof using keep_l.
  revert l. induction fs as [|[k1 y] fs IH]; intros l; cbn [add_fields]; [by intros [= <-]|].
  destruct (add_field u k1 y l) as [l1| | |] eqn:H1; try done. intros H Hk. by apply (IH l1 H), (add_field_keeps k1 y l).
Qed.

Lemma add_fields_holds fs l l' k y : add_fields u fs l = Ok l' -> (k, y) ∈ fs -> P y -> holds k l'.
Proof using keep_l keep_r.
  revert l. induction fs as [|[k1 y1] fs IH]; intros l; cbn [add_fields]; [intros _ []%not_elem_of_nil|].
  destruct (add_field u k1 y1 l) as [l1| | |] eqn:H1; try done. cbn [mbind outcome_bind].
  intros H [Heq|Hin]%elem_of_cons HP; [|by apply (IH l1 H)].
  injection Heq as <- <-. by apply (add_fields_keeps fs l1 _ _ H), (add_field_holds _ _ l _ H1).
Qed.
End Keep.

Lemma add_field_keys {A} (u : A -> A -> outcome A) k y l l' : add_field u k y l = Ok l' ->
  map fst l' = if has_field k l then map fst l else map fst l ++ [k].
Proof.
  revert l'. induction l as [|[k1 x] l IH]; intros l'; cbn [add_field]; [by intros [= <-]|].
  unfold has_field. cbn [existsb fst]. fold (has_field k l). destruct (String.eqb k1 k); cbn [orb].
  - destruct (u x y); try done. by intros [= <-].
  - destruct (add_field u k y l) as [rest| | |]; try done. intros [= <-]. cbn [map fst]. rewrite (IH rest eq_refl). by destruct (has_field k l).
Qed.

Lemma has_field_elem {A} k (l : list (string * A)) : has_field k l = true <-> k ∈ map fst l.
Proof.
  unfold has_field. induction l as [|[k1 x] l IH]; cbn [existsb map fst]; [by rewrite elem_of_nil|].
  rewrite elem_of_cons. destruct (String.eqb_spec k1 k) as [->|Hne]; cbn [orb]; [split; [by left|done]|].
  rewrite IH. split; [by right|]. intros [?|?]; congruence.
Qed.

Lemma add_fields_labels {A} (u : A -> A -> outcome A) (Q : string -> Prop) fs l l' : add_fields u fs l = Ok l' ->
  Forall Q (map fst fs) -> NoDup (map fst l) /\ Forall Q (map fst l) -> NoDup (map fst l') /\ Forall Q (map fst l').
Proof.
  revert l. induction fs as [|[k y] fs IH]; intros l; cbn [add_fields map fst]; [by intros [= <-]|].
  destruct (add_field u k y l) as [l1| | |] eqn:H1; try done. intros H [Hk Hfs]%Forall_cons [Hn Hq]. apply (IH l1 H Hfs).
  rewrite (add_field_keys _ _ _ _ _ H1). destruct (has_field k l) eqn:Hh; [done|]. split.
  - apply NoDup_app. split; [done|]. split; [|apply NoDup_singleton]. intros x Hx ->%list_elem_of_singleton.
    apply has_field_elem in Hx. congruence.
  - apply Forall_app. by split; [|constructor].
Qed.

(** ** The releases of an ingress *)

Definition proxy_image : Image := MkFullImage "docker.io" "giolekva" "auth-proxy" "latest" "Always".

(** A release that is made with a chart and keeps the texts of some values. *)
Definition made_from (c : Chart) (values : json) (h : Helm) : Prop := hChart h = c /\ texts_kept values (hValues h).

Lemma unify_helm_keeps c values x y z : unify_helm x y = Ok z ->
  (made_from c values x -> made_from c values z) /\ (made_from c values y -> made_from c values z).
Proof.
  unfold unify_helm, unify_eq. destruct (decide (hChart x = hChart y)) as [He|]; [|done]. cbn [mbind outcome_bind].
  destruct (unify (hValues x) (hValues y)) as [v| | |] eqn:Hv; try done. cbn [mbind outcome_bind].
  destruct (unify_opt _ _); try done. intros [= <-]. apply unify_kept in Hv as [Hx Hy].
  split; intros [Hc Ht]; (split; [cbn [hChart]; congruence|]); intros ks s Hs; cbn [hValues]; [by apply Hx, Ht|by apply Hy, Ht].
Qed.

Lemma add_helms_hold c values k h fs own helm :
  add_fields unify_helm fs own = Ok helm -> (k, h) ∈ fs -> hChart h = c -> hValues h = values -> holds (made_from c values) k helm.
Proof.
  intros H Hin Hc Hv. apply (add_fields_holds unify_helm (made_from c values)) with fs own h; try done.
  - intros x y z Hz. apply (proj1 (unify_helm_keeps c values x y z Hz)).
  - intros x y z Hz. apply (proj2 (unify_helm_keeps c values x y z Hz)).
  - split; [done|]. rewrite Hv. by intros ks s.
Qed.

Lemma ingress_helms_spec global release l hs : ingress_helms global release l = Ok hs ->
  Forall (fun k => k = "ingress" \/ k = "auth-proxy") (map fst hs) /\
  forall n i, (n, i) ∈ l ->
    ("ingress", MkHelm (ingress_chart global) (ingress_values i) None) ∈ hs /\
    (enabled (auth i) = true -> ("auth-proxy", MkHelm (authProxy_chart global) (proxy_values global release proxy_image i) None) ∈ hs).
Proof.
  revert hs. induction l as [|[m j] l IH]; intros hs; cbn [ingress_helms].
  - intros [= <-]. split; [constructor|]. by intros n i ?%not_elem_of_nil.
  - change (ingress_helm global release j) with (Ok ((if enabled (auth j) then [("auth-proxy", MkHelm (authProxy_chart global)
      (proxy_values global release proxy_image j) None)] else []) ++ [("ingress", MkHelm (ingress_chart global) (ingress_values j) None)])).
    cbn [mbind outcome_bind]. destruct (ingress_helms global release l) as [rest| | |]; try done. intros [= <-].
    destruct (IH rest eq_refl) as [Hk Hi]. split.
    + rewrite !map_app, !Forall_app. split_and!; [by destruct (enabled _); repeat constructor; right|by repeat constructor; left|done].
    + intros n i [[= -> ->]|Hin]%elem_of_cons.
      * split; [set_solver|]. intros ->. set_solver.
      * destruct (Hi n i Hin). split; [set_solver|]. intros He. set_solver.
Qed.

(** What [avHelm] answers has labels that are distinct and without quotes. *)
Definition plain_label (k : string) : Prop := no_char (Ascii.ascii_of_nat 34) k /\ no_char (Ascii.ascii_of_nat 39) k.

Definition labels_ok (v : app_values) : Prop :=
  forall images charts own, avHelm v images charts = Ok own -> NoDup (map fst own) /\ Forall plain_label (map fst own).

Lemma eval_helm_spec global release v helm : eval_helm global release v = Ok helm -> labels_ok v ->
  (NoDup (map fst helm) /\ Forall plain_label (map fst helm)) /\
  forall n i, (n, i) ∈ avIngress v ->
    holds (made_from (ingress_chart global) (ingress_values i)) "ingress" helm /\
    (enabled (auth i) = true -> holds (made_from (authProxy_chart global) (proxy_values global release proxy_image i)) "auth-proxy" helm).
Proof.
  unfold eval_helm. intros H Hl. destruct (valid_ingresses _); try done. cbn [mbind outcome_bind] in H.
  destruct (eval_images v) as [images| | |]; try done. cbn [mbind outcome_bind] in H.
  destruct (eval_charts global v) as [charts| | |]; try done. cbn [mbind outcome_bind] in H.
  destruct (avHelm v images charts) as [own| | |] eqn:Hown; try done. cbn [mbind outcome_bind] in H.
  destruct (ingress_helms global release (avIngress v)) as [fs| | |] eqn:Hfs; try done. cbn [mbind outcome_bind] in H.
  apply ingress_helms_spec in Hfs as [Hk Hi]. split.
  - apply (add_fields_labels unify_helm plain_label fs own helm H); [|by apply (Hl images charts)].
    apply (Forall_impl _ _ _ Hk). by intros k [->| ->].
  - intros n i Hin. destruct (Hi n i Hin) as [Hing Hpx].
    split; [|intros He]; eapply add_helms_hold; [exact H|exact Hing|done|done|exact H|exact (Hpx He)|done|done].
Qed.

(** Ingresses of one app are one release: they agree on everything it says. *)
Lemma one_release {A} (P Q : A -> Prop) k l : holds P k l -> holds Q k l -> exists z, find_field k l = Some z /\ P z /\ Q z.
Proof. intros (z & Hz & HP) (z' & Hz' & HQ). exists z. split_and!; [done|done|congruence]. Qed.

(** ** The values Render passes *)

Lemma find_omit k k' v rest : find_field k (omit_str k' v ++ rest) =
  if String.eqb k' k && negb (String.eqb v "") then Some (JStr v) else find_field k rest.
Proof. unfold omit_str. destruct (String.eqb v ""); cbn [app negb]; [by rewrite andb_false_r|]. rewrite find_cons. by destruct (String.eqb k' k). Qed.

Lemma find_omits k k' l rest : String.eqb k' k = false -> find_field k (omit_strs k' l ++ rest) = find_field k rest.
Proof. intros Hk. destruct l; [done|]. cbn [omit_strs app]. by rewrite find_cons, Hk. Qed.

Lemma all_strings_texts l : all_strings (map JStr l) = Ok l.
Proof. induction l as [|x l IH]; [done|]. cbn [map all_strings]. by rewrite IH. Qed.

(** Walk to the field that is asked for. *)
Ltac find_it :=
  repeat first [ rewrite find_omit; cbn [String.eqb Ascii.eqb Bool.eqb andb negb]
               | rewrite find_omits by reflexivity
               | rewrite find_cons; cbn [String.eqb Ascii.eqb Bool.eqb] ].

Lemma closed_fields allowed fs fs' : closed allowed (JObj fs) = Ok fs' -> fs' = fs.
Proof. unfold closed. destruct (forallb _ _); [by intros [= <-]|done]. Qed.

Lemma address_eq IPv4 k v rest s : find_field k rest = None ->
  address_of_field IPv4 k (omit_str k v ++ rest) = Ok s -> s = v.
Proof.
  intros Hr. unfold address_of_field, string_of_field, opt_string. change (get_field k) with (@find_field json k).
  rewrite find_omit, String.eqb_refl, Hr. cbn [andb]. destruct (String.eqb v ""); [done|]. cbn [negb mbind outcome_bind required].
  destruct (IPv4 v); [by intros [= <-]|done].
Qed.

Lemma string_or_eq k v rest s : find_field k rest = None -> string_or "" k (omit_str k v ++ rest) = Ok s -> s = v.
Proof.
  intros Hr. unfold string_or, opt_string. change (get_field k) with (@find_field json k).
  rewrite find_omit, String.eqb_refl, Hr. cbn [andb]. destruct (String.eqb_spec v "") as [->|]; cbn; by intros [= <-].
Qed.

Lemma strings_eq k l rest s : find_field k rest = None -> strings_or_none k (omit_strs k l ++ rest) = Ok s -> s = l.
Proof.
  intros Hr. unfold strings_or_none. change (get_field k) with (@find_field json k). destruct l as [|x l]; cbn [omit_strs app]; [rewrite Hr; by intros [= <-]|].
  rewrite find_cons, String.eqb_refl, all_strings_texts. by intros [= <-].
Qed.

Lemma string_or_skip k k' v rest : String.eqb k' k = false -> string_or "" k (omit_str k' v ++ rest) = string_or "" k rest.
Proof. intros Hk. unfold string_or, opt_string. change (get_field k) with (@find_field json k). by rewrite find_omit, Hk. Qed.
Lemma string_or_skips k k' l rest : String.eqb k' k = false -> string_or "" k (omit_strs k' l ++ rest) = string_or "" k rest.
Proof. intros Hk. unfold string_or, opt_string. change (get_field k) with (@find_field json k). by rewrite find_omits. Qed.
Lemma strings_skip k k' v rest : String.eqb k' k = false -> strings_or_none k (omit_str k' v ++ rest) = strings_or_none k rest.
Proof. intros Hk. unfold strings_or_none. change (get_field k) with (@find_field json k). by rewrite find_omit, Hk. Qed.
Lemma strings_skips k k' l rest : String.eqb k' k = false -> strings_or_none k (omit_strs k' l ++ rest) = strings_or_none k rest.
Proof. intros Hk. unfold strings_or_none. change (get_field k) with (@find_field json k). by rewrite find_omits. Qed.
Lemma address_skip IPv4 k k' v rest : String.eqb k' k = false -> address_of_field IPv4 k (omit_str k' v ++ rest) = address_of_field IPv4 k rest.
Proof.
  intros Hk. unfold address_of_field, string_of_field, opt_string. change (get_field k) with (@find_field json k). by rewrite find_omit, Hk.
Qed.

Ltac next_field H :=
  repeat first [ rewrite string_or_skip in H by reflexivity | rewrite string_or_skips in H by reflexivity
               | rewrite strings_skip in H by reflexivity | rewrite strings_skips in H by reflexivity
               | rewrite address_skip in H by reflexivity ].

Ltac read_field H x :=
  match type of H with
  | (?o ≫= _) = Ok _ => let E := fresh in destruct o as [x| | |] eqn:E; try discriminate H; cbn [mbind outcome_bind] in H; next_field E;
      first [apply string_or_eq in E; [|by find_it] | apply strings_eq in E; [|by find_it] | apply address_eq in E; [|by find_it]]; subst x
  end.

Lemma eval_env_network_encoded IPv4 n n' : eval_env_network IPv4 (encode_env_network n) = Ok n' -> n' = n.
Proof.
  destruct n as [a b c d e f]. unfold eval_env_network, encode_env_network. cbn [DNS DNSInClusterIP Ingress Headscale ServicesFrom ServicesTo].
  rewrite (omit_str_nil "servicesTo"). intros H.
  destruct (closed _ _) as [fs| | |] eqn:Hc; try done. apply closed_fields in Hc as ->. cbn [mbind outcome_bind] in H.
  read_field H x1. read_field H x2. read_field H x3. read_field H x4. read_field H x5. read_field H x6. by injection H.
Qed.

Lemma eval_global_encoded IPv4 env g : eval_global IPv4 (encode_env env) = Ok g -> g = env.
Proof.
  destruct env as [a b c d e f g0 h i n]. unfold eval_global, encode_env.
  cbn [envId InfraName envDomain PrivateDomain ContactEmail AdminPublicKey PublicIP NameserverIP NamespacePrefix envNetwork]. intros H.
  destruct (closed _ _) as [fs| | |] eqn:Hc; try done. apply closed_fields in Hc as ->. cbn [mbind outcome_bind] in H.
  read_field H x1. read_field H x2. read_field H x3. read_field H x4. read_field H x5. read_field H x6. read_field H x7.
  read_field H x8. read_field H x9. change (get_field "network") with (@find_field json "network") in H. revert H. find_it. cbn [required mbind outcome_bind].
  destruct (eval_env_network IPv4 (encode_env_network n)) as [n'| | |] eqn:Hn; try done. apply eval_env_network_encoded in Hn as ->.
  by intros [= <-].
Qed.

Lemma eval_release_encoded r : eval_release (encode_release r) = Ok r.
Proof. by destruct r. Qed.

(** ** Networks *)

(** networks of the environment in both languages. *)
Lemma networks_agree env : CreateNetworks env = [network_public env; network_private env].
Proof. reflexivity. Qed.

Lemma eval_network_encoded n :
  netName n <> "" -> IngressClass n <> "" -> netDomain n <> "" -> AllocatePortAddr n <> "" -> eval_network (encode_network n) = Ok n.
Proof.
  destruct n as [a b c d e]. cbn [netName IngressClass netDomain AllocatePortAddr]. intros Ha Hb Hd He.
  unfold eval_network, encode_network, omit_str, closed, string_of_field, string_or, opt_string. cbn [netName IngressClass netDomain AllocatePortAddr CertificateIssuer].
  rewrite (proj2 (String.eqb_neq a "") Ha), (proj2 (String.eqb_neq b "") Hb), (proj2 (String.eqb_neq d "") Hd), (proj2 (String.eqb_neq e "") He).
  destruct (String.eqb_spec c "") as [->|]; reflexivity.
Qed.

(** ** The files Render makes *)

Lemma ReplaceAll_none c new s : no_char c s -> ReplaceAll s c new = s.
Proof.
  induction s as [|d s IH]; [done|]. intros [Hd Hs]%no_char_cons. cbn [ReplaceAll].
  rewrite (proj2 (Ascii.eqb_neq d c) Hd), (IH Hs). by rewrite str_app_cons, str_app_l_nil.
Qed.

Lemma ReplaceAll_app c new a b : ReplaceAll (a +:+ b) c new = ReplaceAll a c new +:+ ReplaceAll b c new.
Proof.
  induction a as [|d a IH]; [by rewrite !str_app_l_nil|]. rewrite str_app_cons. cbn [ReplaceAll]. by rewrite IH, str_app_assoc.
Qed.

Lemma cleanName_selector k : plain_label k -> cleanName (selector k) = k.
Proof.
  intros [H34 H39]. unfold cleanName, selector. destruct (identifier k); [by rewrite (ReplaceAll_none _ _ k H34), ReplaceAll_none|].
  cbn [ReplaceAll]. rewrite Ascii.eqb_refl, str_app_l_nil, ReplaceAll_app, (ReplaceAll_none _ _ k H34).
  cbn [ReplaceAll]. rewrite Ascii.eqb_refl. cbn [String.append]. rewrite str_app_nil. by apply ReplaceAll_none.
Qed.

Lemma data_set_new name c m : name ∉ map fst m -> data_set name c m = m ++ [(name, c)].
Proof.
  induction m as [|[n x] m IH]; [done|]. intros Hn. cbn [data_set app]. destruct (String.eqb_spec n name) as [->|Hne]; [set_solver|].
  rewrite IH; [done|]. set_solver.
Qed.

Definition file_of (release : Release) (kh : string * Helm) : string * content := (kh.1 +:+ ".yaml", Doc (HelmRelease release kh.1 kh.2)).

Lemma render_output_files release helm files :
  Forall plain_label (map fst helm) -> NoDup (map fst files ++ map (fun kh => kh.1 +:+ ".yaml") helm) ->
  render_output (output release helm) files = Ok (files ++ map (file_of release) helm).
Proof.
  revert files. induction helm as [|[k h] helm IH]; intros files Hp Hn; cbn [output map render_output fst snd]; [by rewrite app_nil_r|].
  apply Forall_cons in Hp as [Hk Hp]. cbn [mbind outcome_bind]. rewrite cleanName_selector by done.
  cbn [map fst] in Hn. rewrite data_set_new.
  - fold (output release helm). rewrite IH; [by rewrite <- (assoc_L (++))|done|].
    rewrite map_app, <- (assoc_L (++)). exact Hn.
  - apply NoDup_app in Hn as (_ & Hn & _). intros Hin. apply (Hn _ Hin). by left.
Qed.

Lemma rendered_app IPv4 text a env rel input v ret :
  appCfg a = eval_env_app IPv4 text -> text input env rel = Ok v -> labels_ok v ->
  render a (JObj [("global", encode_env env); ("release", encode_release rel); ("input", input)]) = Ok ret ->
  exists helm, eval_helm env rel v = Ok helm /\
    rdResources ret = map (file_of rel) helm /\ rdPorts ret = avPorts v /\ rdURL ret = avURL v /\ rdReadme ret = avReadme v.
Proof.
  intros Ha Ht Hl H. unfold render in H. rewrite Ha in H. unfold eval_env_app at 1 in H.
  change (closed ["global"; "release"; "input"] _) with
    (Ok [("global", encode_env env); ("release", encode_release rel); ("input", input)]) in H. cbn [mbind outcome_bind] in H.
  change (get_field "global" _) with (Some (encode_env env)) in H. change (get_field "release" _) with (Some (encode_release rel)) in H.
  change (get_field "input" _) with (Some input) in H. cbn [required mbind outcome_bind] in H.
  destruct (eval_global IPv4 (encode_env env)) as [g| | |] eqn:Hg; try done. apply eval_global_encoded in Hg as ->. cbn [mbind outcome_bind] in H.
  rewrite eval_release_encoded in H. cbn [mbind outcome_bind] in H. rewrite Ht in H. cbn [mbind outcome_bind] in H.
  destruct (eval_helm env rel v) as [helm| | |] eqn:Hh; try done.
  cbn [mbind outcome_bind full_json cue_readme cue_portForward cue_output cue_help cue_url cue_icon] in H.
  destruct (eval_helm_spec env rel v helm Hh Hl) as [[Hn Hp] _]. rewrite render_output_files in H; [|done|].
  - cbn [mbind outcome_bind app] in H. injection H as <-. by exists helm.
  - cbn [map app]. rewrite <- (map_map fst (fun k => k +:+ ".yaml")). 
    assert (Inj (=) (=) (fun k => k +:+ ".yaml")) by (intros x y; apply str_app_inj_r). by apply (NoDup_fmap_2 (fun k => k +:+ ".yaml")).
Qed.

(** ** Properties *)

Lemma text_kept ks s a b : texts_kept a b -> text_at ks a = Some s -> text_at ks b = Some s.
Proof. unfold text_at. intros Hk. destruct (at_path ks a) as [[]|] eqn:Ha; try done. intros [= ->]. by rewrite (Hk ks s Ha). Qed.

(** The flags of the proxy in front of an ingress. *)
Definition flags_for (env : EnvConfig) (rel : Release) (i : IngressSpec) : flags :=
  MkFlags ("https://accounts." +:+ envDomain env +:+ "/sessions/whoami") ("https://accounts-ui." +:+ envDomain env +:+ "/login")
    ("http://memberships-api." +:+ envId env +:+ "-core-auth-memberships.svc.cluster.local/api/user") (groups (auth i))
    (service i +:+ "." +:+ relNamespace rel +:+ ".svc.cluster.local").

Lemma proxy_release_flags env rel i name h :
  texts_kept (proxy_values env rel proxy_image i) (hValues h) -> proxy_flags (HelmRelease rel name h) = Some (flags_for env rel i).
Proof.
  intros Hk. unfold proxy_flags. change (at_path ["spec"; "values"] (HelmRelease rel name h)) with (Some (hValues h)). cbn [mbind option_bind].
  rewrite (text_kept ["whoAmIAddr"] _ _ _ Hk eq_refl), (text_kept ["loginAddr"] _ _ _ Hk eq_refl),
    (text_kept ["membershipAddr"] _ _ _ Hk eq_refl), (text_kept ["groups"] _ _ _ Hk eq_refl), (text_kept ["upstream"] _ _ _ Hk eq_refl).
  reflexivity.
Qed.

Definition backend (i : IngressSpec) : string := if enabled (auth i) then "auth-proxy" else service i.

Lemma ingress_texts i v : texts_kept (ingress_values i) v ->
  text_at ["domain"] v = Some (_domain i) /\ text_at ["ingressClassName"] v = Some (IngressClass (network i)) /\
  text_at ["service"; "name"] v = Some (backend i).
Proof.
  intros Hk. rewrite (text_kept ["domain"] _ _ _ Hk eq_refl), (text_kept ["ingressClassName"] _ _ _ Hk eq_refl). split_and!; [done..|].
  apply (text_kept _ _ _ _ Hk). unfold ingress_values, ingress_service, backend. by destruct (enabled (auth i)).
Qed.

Lemma protected_rule rel i name h : enabled (auth i) = true -> texts_kept (ingress_values i) (hValues h) ->
  ingress_rule (HelmRelease rel name h) = Some (MkRule (IngressClass (network i)) (_domain i) "auth-proxy" (PortName "http")).
Proof.
  intros He Hk. unfold ingress_rule. change (at_path ["spec"; "values"] (HelmRelease rel name h)) with (Some (hValues h)). cbn [mbind option_bind].
  destruct (ingress_texts i _ Hk) as (-> & -> & ->). cbn [mbind option_bind]. unfold backend_port, backend. rewrite He.
  rewrite (text_kept ["service"; "port"; "name"] "http" _ _ Hk); [done|]. unfold ingress_values, ingress_service. by rewrite He.
Qed.

Lemma held_file rel (P : Helm -> Prop) k helm : holds P k helm -> exists h, P h /\ (k +:+ ".yaml", Doc (HelmRelease rel k h)) ∈ map (file_of rel) helm.
Proof.
  intros (h & Hf & HP). exists h. split; [done|]. apply find_elem in Hf. apply (list_elem_of_fmap_2 (file_of rel) helm (k, h) Hf).
Qed.

(** C6. An app that asks for authentication is behind the proxy. When it renders,
    and the releases it makes itself have distinct labels without quotes - a
    quoted one could take the file of the ingress -, the Ingress made from the
    files sends the domain of the app to the service of the proxy; and the proxy
    started from them passes a request on to the service of the app exactly when
    its session has a user and, if the app names groups, the memberships service
    of the environment lists the user in one of them. An app that names none is
    open to every session. *)
Theorem protected_app (IPv4 : string -> bool) (text : app_text) (a : cueApp) (env : EnvConfig) (rel : Release) (input : json)
    (v : app_values) (ret : rendered) (n : string) (i : IngressSpec) (w : AuthProxy.world) (url_parse : string -> outcome string)
    (r : request) (ru : string) (log : list upstream_request)
    (Ha : appCfg a = eval_env_app IPv4 text) (Ht : text input env rel = Ok v) (Hl : labels_ok v)
    (Hret : render a (JObj [("global", encode_env env); ("release", encode_release rel); ("input", input)]) = Ok ret)
    (Hi : (n, i) ∈ avIngress v) (He : enabled (auth i) = true)
    (Hwho : url_parse (whoAmIAddr (flags_for env rel i)) = Ok (whoAmIAddr (flags_for env rel i)))
    (Hru : url_parse ("http://" +:+ service i +:+ "." +:+ relNamespace rel +:+ ".svc.cluster.local" +:+ rpath r) = Ok ru) :
  exists ing px, ("ingress.yaml", Doc ing) ∈ rdResources ret /\ ("auth-proxy.yaml", Doc px) ∈ rdResources ret /\
    ingress_rule ing = Some (MkRule (IngressClass (network i)) (_domain i) "auth-proxy" (PortName "http")) /\
    proxy_flags px = Some (flags_for env rel i) /\
    let log' := (run (serve_world w) (handle_request (flags_for env rel i) url_parse r) log).1 in
    let listed u := exists tg g, groups_of w (flags_for env rel i) u = Ok tg /\
      g ∈ Split (groups (auth i)) ","%char /\ TrimSpace g ∈ tg in
    (exists u, session_user w r = Ok (Some u) /\ (groups (auth i) = "" \/ listed u) /\ log' = log ++ [upstream_of r u ru]) \/
    (log' = log /\ forall u, session_user w r = Ok (Some u) -> ~ (groups (auth i) = "" \/ listed u)).
Proof.
  destruct (rendered_app IPv4 text a env rel input v ret Ha Ht Hl Hret) as (helm & Hh & Hres & _).
  destruct (eval_helm_spec env rel v helm Hh Hl) as [_ Hings]. destruct (Hings n i Hi) as [Hing Hpx]. specialize (Hpx He).
  apply (held_file rel) in Hing as (h & [_ Hk] & Hin). apply (held_file rel) in Hpx as (h' & [_ Hk'] & Hin'). rewrite Hres.
  eexists _, _. split_and!; [exact Hin|exact Hin'| | |].
  - by apply protected_rule.
  - by apply (proxy_release_flags env rel i).
  - apply (proxy_forwards_iff w (flags_for env rel i) url_parse r ru log); [done|].
    cbn [upstream flags_for]. by rewrite <- !str_app_assoc.
Qed.

(** C7. An app has one Ingress: the ingresses of an app that renders name the same
    domain in the same class and end at the same service, so an app cannot ask for
    authentication on one and not on another, unless that one leads to the proxy
    too; and those that ask for it share one proxy. *)
Theorem one_ingress (IPv4 : string -> bool) (text : app_text) (a : cueApp) (env : EnvConfig) (rel : Release) (input : json)
    (v : app_values) (ret : rendered) (m n : string) (i j : IngressSpec)
    (Ha : appCfg a = eval_env_app IPv4 text) (Ht : text input env rel = Ok v) (Hl : labels_ok v)
    (Hret : render a (JObj [("global", encode_env env); ("release", encode_release rel); ("input", input)]) = Ok ret)
    (Hi : (m, i) ∈ avIngress v) (Hj : (n, j) ∈ avIngress v) :
  _domain i = _domain j /\ IngressClass (network i) = IngressClass (network j) /\ backend i = backend j /\
  (enabled (auth i) = true -> enabled (auth j) = true -> service i = service j /\ groups (auth i) = groups (auth j)).
Proof.
  destruct (rendered_app IPv4 text a env rel input v ret Ha Ht Hl Hret) as (helm & Hh & _).
  destruct (eval_helm_spec env rel v helm Hh Hl) as [_ Hings].
  destruct (Hings m i Hi) as [Hi1 Hi2], (Hings n j Hj) as [Hj1 Hj2].
  destruct (one_release _ _ _ _ Hi1 Hj1) as (h & _ & [_ Hk1] & [_ Hk2]).
  apply ingress_texts in Hk1 as (Hd1 & Hc1 & Hs1), Hk2 as (Hd2 & Hc2 & Hs2). split_and!; [congruence..|].
  intros Hei Hej. destruct (one_release _ _ _ _ (Hi2 Hei) (Hj2 Hej)) as (h' & _ & [_ Hk1'] & [_ Hk2']).
  apply (proxy_release_flags env rel i "auth-proxy") in Hk1'. apply (proxy_release_flags env rel j "auth-proxy") in Hk2'.
  assert (flags_for env rel i = flags_for env rel j) as Hf by congruence. split; [|by apply (f_equal groupsFlag) in Hf].
  apply (f_equal upstream) in Hf. cbn [upstream flags_for] in Hf. by apply str_app_inj_r in Hf.
Qed.

(** ** The theorems at a concrete input *)

Definition demo_cue_env : EnvConfig :=
  MkEnvConfig "env" "dodo" "example.org" "p.example.org" "" "" ["1.2.3.4"] [] "env-"
    (MkEnvNetwork "10.1.0.1" "10.44.1.0" "10.1.0.2" "10.1.0.3" "10.1.0.10" "10.1.0.254").

Definition demo_cue_release : Release := MkRelease "rpuppy" "env-app-rpuppy" "ssh://repo" "/apps/rpuppy".

Definition demo_cue_input : json :=
  JObj [("network", encode_network (network_public demo_cue_env)); ("subdomain", JStr "puppy");
        ("auth", JObj [("enabled", JBool true); ("groups", JStr "friends")])].

Definition demo_ingress : IngressSpec :=
  MkIngress (MkAuth true "friends") (network_public demo_cue_env) "puppy" "rpuppy" (PortName "http").

Definition rpuppy_app (text : app_text) : cueApp :=
  MkCueApp "rPuppy" "" "" "app-rpuppy" (structSchema "input" [] false) [] (eval_env_app (fun _ => true) text).

Definition demo_text : app_text := rpuppy "<svg/>" (Doc JNull).

Definition app_or (o : outcome app_values) : app_values :=
  match o with Ok v => v | _ => MkAppValues "" "" "" JNull [] [] [] [] (fun _ _ => Ok []) (Doc JNull) end.

Definition rendered_or (o : outcome rendered) : rendered :=
  match o with Ok r => r | _ => MkPlainRendered "" "" [] [] [] "" JNull "" end.

Definition demo_call : json :=
  JObj [("global", encode_env demo_cue_env); ("release", encode_release demo_cue_release); ("input", demo_cue_input)].

Lemma own_releases_ok (k : string) images charts own (values : Image -> json) :
  plain_label k -> (img ← required (find_field "rpuppy" images); c ← required (find_field "rpuppy" charts); Ok [(k, MkHelm c (values img) None)]) = Ok own ->
  NoDup (map fst own) /\ Forall plain_label (map fst own).
Proof.
  intros Hk. destruct (find_field "rpuppy" images) as [img|]; [|done]. destruct (find_field "rpuppy" charts) as [c|]; [|done].
  intros [= <-]. split; [apply NoDup_singleton|constructor; [done|constructor]].
Qed.

Definition demo_world : AuthProxy.world :=
  MkWorld (fun _ => Ok (200%Z, Ok (JObj [("identity", JObj [("traits", JObj [("username", JStr "ann")])])])))
    (fun _ => Ok (Ok (JObj [("memberOf", JArr [JStr "friends"])]))) (fun _ => Err (errorf "down")).

Lemma demo_listed : exists tg g, groups_of demo_world (flags_for demo_cue_env demo_cue_release demo_ingress) "ann" = Ok tg /\
  g ∈ Split "friends" ","%char /\ TrimSpace g ∈ tg.
Proof. exists ["friends"], "friends". split_and!; [done|by left|by left]. Qed.

Definition demo_request : request := MkRequest "GET" "/" ∅ ∅ ∅ ∅ None "".

Lemma demo_labels : labels_ok (app_or (demo_text demo_cue_input demo_cue_env demo_cue_release)).
Proof.
  intros images charts own. apply (own_releases_ok "rpuppy" images charts own (fun img => JObj [("image", JObj [("repository", JStr (fullName img));
    ("tag", JStr (tag img)); ("pullPolicy", JStr (pullPolicy img))]); ("portName", JStr "http")])). by split.
Qed.

(** A friend reaches the puppies. *)
Lemma protected_app_witness :
  exists ing px, ("ingress.yaml", Doc ing) ∈ rdResources (rendered_or (render (rpuppy_app demo_text) demo_call)) /\
    ("auth-proxy.yaml", Doc px) ∈ rdResources (rendered_or (render (rpuppy_app demo_text) demo_call)) /\
    ingress_rule ing = Some (MkRule "dodo-ingress-public" "puppy.example.org" "auth-proxy" (PortName "http")) /\
    proxy_flags px = Some (flags_for demo_cue_env demo_cue_release demo_ingress) /\
    (run (serve_world demo_world) (handle_request (flags_for demo_cue_env demo_cue_release demo_ingress) Ok demo_request) []).1 =
      [upstream_of demo_request "ann" "http://rpuppy.env-app-rpuppy.svc.cluster.local/"].
Proof.
  destruct (protected_app (fun _ => true) demo_text (rpuppy_app demo_text) demo_cue_env demo_cue_release demo_cue_input
    (app_or (demo_text demo_cue_input demo_cue_env demo_cue_release)) (rendered_or (render (rpuppy_app demo_text) demo_call))
    "rpuppy" demo_ingress demo_world Ok demo_request "http://rpuppy.env-app-rpuppy.svc.cluster.local/" []
    eq_refl eq_refl demo_labels eq_refl (list_elem_of_here _ _) eq_refl eq_refl eq_refl) as (ing & px & H1 & H2 & H3 & H4 & H5).
  exists ing, px. split_and!; [exact H1|exact H2|exact H3|exact H4|].
  destruct H5 as [(u & Hu & _ & Hl) | [_ H5]].
  - injection Hu as <-. exact Hl.
  - destruct (H5 "ann" eq_refl). right. exact demo_listed.
Defined.

(** The same ingress under two names. *)
Definition twice (t : app_text) : app_text := fun input global release =>
  v ← t input global release;
  Ok (MkAppValues (avReadme v) (avURL v) (avIcon v) (avHelp v) (avPorts v) (avImages v) (avCharts v)
    (avIngress v ++ map (fun ki => ("also-" +:+ ki.1, ki.2)) (avIngress v)) (avHelm v) (avFull v)).

Lemma one_ingress_witness :
  rdResources (rendered_or (render (rpuppy_app (twice demo_text)) demo_call)) <> [] /\ _domain demo_ingress = "puppy.example.org".
Proof.
  pose proof (one_ingress (fun _ => true) (twice demo_text) (rpuppy_app (twice demo_text)) demo_cue_env demo_cue_release demo_cue_input
    (app_or (twice demo_text demo_cue_input demo_cue_env demo_cue_release))
    (rendered_or (render (rpuppy_app (twice demo_text)) demo_call)) "rpuppy" "also-rpuppy" demo_ingress demo_ingress
    eq_refl eq_refl demo_labels eq_refl (list_elem_of_here _ _) (list_elem_of_further _ _ _ (list_elem_of_here _ _))) as (H & _).
  split; [by vm_compute|exact H].
Defined.
