(* ===== verification/Catalogue.v ===== *)
(** * The catalogue of apps (apps/app-repository)

    A directory of archives read into a list of apps, and the HTTP server that
    lists and serves them; with CueApps.FetchAppsFromHTTPRepository, which
    unpacks such a catalogue. *)
From S2P Require Import Prelude GoLib GoStrings RepoIO CueApps.
From Stdlib Require Import Ascii.
Open Scope string_scope.
Open Scope list_scope.

(** ** loader.go: archives by their names *)


Record fsApp := MkFsApp {
  Name : string;
  Version : string;
  path : string;
}.

Record dir_entry := MkDirEntry { deName : string; deIsDir : bool }.

Inductive appsE : Type -> Type :=
  | ListFiles : appsE (outcome (list dir_entry))
  | OpenArchive (path : string) : appsE (outcome http_body).

Section Loader.
(** semver.IsValid *)
Context (IsValid : string -> bool).

Definition load_entry (e : dir_entry) : option fsApp :=
  if negb (deIsDir e) && HasSuffix (deName e) ".tar.gz" then
    let items := Split (TrimSuffix (deName e) ".tar.gz") "-"%char in
    if (length items <=? 1)%nat then None
    else
      let version := List.last items "" in
      if IsValid version || IsValid ("v" +:+ version) then
        Some (MkFsApp (Join (removelast items) "-") (TrimPrefix version "v") (deName e))
      else None
  else None.

Definition Load : go appsE (list fsApp) :=
  entries ← call ListFiles; mret (@omap list _ _ _ load_entry entries).
End Loader.

(** ** app.go *)

(** [entries\[name\] = append(entries\[name\], x)]; the keys of the map in the
    order they come up. *)
Fixpoint add_entry {A} (k : string) (x : A) (l : list (string * list A)) : list (string * list A) :=
  match l with
  | [] => [(k, [x])]
  | (k', xs) :: l' => if String.eqb k k' then (k', xs ++ [x]) :: l' else (k', xs) :: add_entry k x l'
  end.

Definition app_url (schemeWithHost : string) (a : fsApp) : string :=
  schemeWithHost +:+ "/app/" +:+ Name a +:+ "/" +:+ Version a +:+ ".tar.gz".

Definition version_entry (schemeWithHost : string) (a : fsApp) : json :=
  JObj [("version", JStr (Version a)); ("urls", JArr [JStr (app_url schemeWithHost a)])].

Definition allApps (schemeWithHost : string) (apps : list fsApp) : json :=
  JObj [("apiVersion", JStr "v1");
        ("entries", JObj (map (fun e => (e.1, JArr e.2))
          (foldl (fun es a => add_entry (Name a) (version_entry schemeWithHost a) es) [] apps)))].

(** What the server sends. *)
Inductive catalogue_answer := Listing (v : json) | Archive (b : http_body) | NoApp | OpenError (e : error).

(** io.Copy: an error in the middle is not reported. *)
Definition serve_app (apps : list fsApp) (name version : string) : go appsE catalogue_answer :=
  match list_find (fun a => Name a = name /\ Version a = version) apps with
  | Some (_, a) => check r := call (OpenArchive (path a)) onerr e => mret (OpenError e) in mret (Archive r)
  | None => mret NoApp
  end.

(** The routes "/" and "/app/{name}/{version}.tar.gz". *)
Definition serve_catalogue (schemeWithHost : string) (apps : list fsApp) (path : string) : go appsE catalogue_answer :=
  match Split path "/"%char with
  | [""; ""] => mret (Listing (allApps schemeWithHost apps))
  | [""; "app"; name; file] =>
      if negb (String.eqb name "") && HasSuffix file ".tar.gz" && negb (String.eqb file ".tar.gz")
      then serve_app apps name (TrimSuffix file ".tar.gz") else mret NoApp
  | _ => mret NoApp
  end.
