(* ===== verification/CatalogueTheorems.v ===== *)
(** * Theorems on the catalogue of apps

    The server of the catalogue and its client: what is in the directory of
    archives is what the client unpacks. *)
From S2P Require Import Prelude GoLib GoStrings GoPath RepoIO CueApps Catalogue.
From Stdlib Require Import Ascii.
Open Scope string_scope.
Open Scope list_scope.

(** ** Names of archives *)

Lemma last_items (l : list string) x : List.last (l ++ [x]) "" = x /\ removelast (l ++ [x]) = l.
Proof. split; [apply last_last|apply removelast_last]. Qed.

(** A name, a version without a dash, and the extension. *)
Lemma load_archive IsValid n v : no_char "-"%char v -> IsValid v || IsValid ("v" +:+ v) = true ->
  load_entry IsValid (MkDirEntry (n +:+ "-" +:+ v +:+ ".tar.gz") false) =
    Some (MkFsApp n (TrimPrefix v "v") (n +:+ "-" +:+ v +:+ ".tar.gz")).
Proof.
  intros Hv Hvalid. unfold load_entry. cbn [deName deIsDir negb andb].
  change (n +:+ "-" +:+ v +:+ ".tar.gz") with (n +:+ String "-" (v +:+ ".tar.gz")).
  rewrite <- str_app_cons, str_app_assoc, HasSuffix_app, TrimSuffix_app, Split_app_any, (Split_none v) by done.
  destruct (last_items (Split n "-"%char) v) as [-> ->]. rewrite length_app. cbn [length].
  assert (Hlen : (length (Split n "-"%char) + 1 <=? 1)%nat = false).
  { destruct (Split n "-"%char) eqn:Hn; [by apply Split_nonempty in Hn|]. apply Nat.leb_gt. cbn [length]. lia. }
  rewrite Hlen, Hvalid. change "-" with (String "-" "") at 1.
  by rewrite (Join_Split n "-"%char).
Qed.

(** A version with a dash is cut in two, and its last part is no version. *)
Lemma prerelease_dropped IsValid n v pre : no_char "-"%char pre -> IsValid pre = false -> IsValid ("v" +:+ pre) = false ->
  load_entry IsValid (MkDirEntry (n +:+ "-" +:+ v +:+ "-" +:+ pre +:+ ".tar.gz") false) = None.
Proof.
  intros Hp H1 H2. unfold load_entry. cbn [deName deIsDir negb andb].
  change (n +:+ "-" +:+ v +:+ "-" +:+ pre +:+ ".tar.gz") with (n +:+ "-" +:+ v +:+ String "-" (pre +:+ ".tar.gz")).
  rewrite <- str_app_cons, !str_app_assoc, HasSuffix_app, TrimSuffix_app, Split_app_any, (Split_none pre) by done.
  destruct (last_items (Split ((n +:+ "-") +:+ v) "-"%char) pre) as [-> ->]. rewrite H1, H2. by destruct (_ <=? 1)%nat.
Qed.

Lemma loaded_version IsValid e a : load_entry IsValid e = Some a -> no_char "-"%char (Version a).
Proof.
  unfold load_entry. destruct (negb _ && _); [|done]. destruct (_ <=? 1)%nat; [done|]. destruct (_ || _); [|done]. intros [= <-].
  cbn [Version]. set (items := Split _ _). assert (Hi : Forall (no_char "-"%char) items) by apply Split_no_sep.
  assert (Hl : no_char "-"%char (List.last items "")).
  { destruct items as [|x l] using rev_ind; [done|]. rewrite last_last. apply Forall_app in Hi as [_ Hi]. by apply Forall_cons in Hi as [Hi _]. }
  unfold TrimPrefix. destruct (HasPrefix _ "v") eqn:Hv; [|done]. apply HasPrefix_spec in Hv as [t Ht]. rewrite Ht in Hl |- *.
  apply no_char_app in Hl as [_ Hl]. by rewrite str_drop_app.
Qed.

(** ** Groups *)

Lemma add_entry_map {A B} (f : A -> B) k x (l : list (string * list A)) :
  add_entry k (f x) (map (prod_map id (map f)) l) = map (prod_map id (map f)) (add_entry k x l).
Proof.
  induction l as [|[k' xs] l IH]; [done|]. cbn [map add_entry prod_map fst snd id].
  destruct (String.eqb k k'); cbn [map prod_map fst snd id]; [by rewrite map_app|by rewrite IH].
Qed.

Definition groups (apps : list fsApp) : list (string * list fsApp) := foldl (fun es a => add_entry (Name a) a es) [] apps.

Lemma listing_groups base apps :
  foldl (fun es a => add_entry (Name a) (version_entry base a) es) [] apps = map (prod_map id (map (version_entry base))) (groups apps).
Proof.
  unfold groups. change (@nil (string * list json)) with (map (prod_map id (map (version_entry base))) ([] : list (string * list fsApp))).
  generalize (@nil (string * list fsApp)) as es. induction apps as [|a apps IH]; intros es; [done|]. cbn [foldl].
  by rewrite add_entry_map, IH.
Qed.

Lemma add_entry_perm {A} k (x : A) l : concat (map snd (add_entry k x l)) ≡ₚ concat (map snd l) ++ [x].
Proof.
  induction l as [|[k' xs] l IH]; [done|]. cbn [add_entry]. destruct (String.eqb k k'); cbn [map snd concat].
  - rewrite <- (assoc_L (++)), <- (assoc_L (++)). apply Permutation_app_head. apply Permutation_app_comm.
  - by rewrite IH, (assoc_L (++)).
Qed.

Lemma groups_perm apps : concat (map snd (groups apps)) ≡ₚ apps.
Proof.
  unfold groups. enough (H : forall es, concat (map snd (foldl (fun es a => add_entry (Name a) a es) es apps)) ≡ₚ concat (map snd es) ++ apps).
  { by rewrite H. }
  induction apps as [|a apps IH]; intros es; cbn [foldl]; [by rewrite app_nil_r|]. rewrite IH, add_entry_perm. by rewrite <- (assoc_L (++)).
Qed.

Lemma groups_named apps : Forall (fun g => Forall (fun a => Name a = g.1) g.2) (groups apps).
Proof.
  unfold groups. assert (H : Forall (fun g : string * list fsApp => Forall (fun a => Name a = g.1) g.2) []) by constructor.
  revert H. generalize (@nil (string * list fsApp)) as es. induction apps as [|a apps IH]; intros es Hes; [done|]. cbn [foldl]. apply IH.
  induction es as [|[k xs] es IHes]; cbn [add_entry]; [by repeat constructor|]. apply Forall_cons in Hes as [Hx Hes].
  destruct (String.eqb_spec (Name a) k) as [Hk|Hne]; constructor; try done; [|by apply IHes].
  cbn [fst snd] in *. apply Forall_app. split; [done|]. by apply Forall_singleton.
Qed.

(** ** A server and a client *)

(** What decodes from the listing. *)
Definition listed (base : string) (a : fsApp) : appVersion := MkVersion (Version a) [app_url base a].

Lemma decode_listing base apps :
  decode_all_apps (allApps base apps) = Ok ("v1", map (prod_map id (map (listed base))) (groups apps)).
Proof.
  unfold decode_all_apps, allApps. rewrite listing_groups. json_simp. cbn [json_string mbind outcome_bind].
  assert (Hv : forall l, json_list decode_version (map (version_entry base) l) = Ok (map (listed base) l)).
  { induction l as [|a l IH]; [done|]. cbn [map json_list]. rewrite IH. reflexivity. }
  assert (Hg : forall gs, json_entries (json_array decode_version) (JObj (map (fun e => (e.1, JArr e.2)) (map (prod_map id (map (version_entry base))) gs))) =
    Ok (map (prod_map id (map (listed base))) gs)).
  { unfold json_entries. induction gs as [|[k l] gs IH]; [done|]. cbn [map json_list prod_map fst snd id json_array] in *. by rewrite Hv, IH. }
  by rewrite Hg.
Qed.

(** The file system billy shows of a directory refuses names that lead out of it. *)
Definition leads_out (name : string) : bool := HasPrefix (Clean name) "..".

(** An archive unpacked: its regular files, under the cleaned paths inside the
    directory, the later over the earlier. *)
Definition unpack_entry (dir : string) (fs : gmap (string * string) content) (e : tar_entry) : gmap (string * string) content :=
  match e with TarReg f (Ok c) => <[(dir, fs_key f) := c]> fs | _ => fs end.

Definition unpack (dir : string) (entries : list tar_entry) (fs : gmap (string * string) content) : gmap (string * string) content :=
  foldl (unpack_entry dir) fs entries.

(** Regular files, read to their ends, and directories, all inside the directory. *)
Definition good_entry (e : tar_entry) : Prop :=
  match e with TarReg name (Ok _) | TarDir name => leads_out name = false | _ => False end.

Section Served.
Context (base : string) (listing : list dir_entry) (apps : list fsApp) (archive : string -> outcome http_body).

Definition open_step : handler appsE unit := fun X e s =>
  match e in appsE X return unit * X with
  | ListFiles => (s, Ok listing)
  | OpenArchive p => (s, archive p)
  end.

(** Addresses without characters that are escaped reach the server as they are. *)
Definition url_char (c : ascii) : bool := unreserved c || Ascii.eqb c "/"%char.

Definition answer_body (a : catalogue_answer) : http_body :=
  match a with
  | Listing v => MkBody (Ok (Doc v)) (Err (errorf "gzip: invalid header"))
  | Archive b => b
  | NoApp => MkBody (Ok (Raw "Not found" (Err err_json))) (Err (errorf "gzip: invalid header"))
  | OpenError e => MkBody (Ok (Raw (emsg e) (Err err_json))) (Err (errorf "gzip: invalid header"))
  end.

Definition get_url (url : string) : outcome http_body :=
  let path := TrimPrefix url base in
  if HasPrefix url base && forall_char url_char path then
    a ← (run open_step (serve_catalogue base apps path) tt).2; Ok (answer_body a)
  else Err (errorf "no such host").

Definition inside {A : Type} (name : string) (fs : gmap (string * string) content) (r : gmap (string * string) content * outcome A) :
    gmap (string * string) content * outcome A :=
  if leads_out name then (fs, Err (errorf "chroot boundary crossed")) else r.

(** The file system takes every file and directory that is inside; where an
    archive has one path for a file and for a directory is not looked into. *)
Definition cat_step : handler catalogE (gmap (string * string) content) := fun X e fs =>
  match e in catalogE X return gmap (string * string) content * X with
  | GetUrl url => (fs, get_url url)
  | Mkdir _ name | Chroot name => inside name fs (fs, Ok tt)
  | CreateFile dir name => inside name fs (<[(dir, fs_key name) := Raw "" (Ok JNull)]> fs, Ok tt)
  | CopyTo dir name c => (<[(dir, fs_key name) := c]> fs, Ok tt)
  | ReadDir _ => (fs, Err (errorf "not implemented"))
  | OpenFile dir name => inside name fs (fs, match fs !! (dir, fs_key name) with Some c => Ok c | None => Err (errorf "file does not exist") end)
  end.

Lemma run_extract dir entries fs b :
  gzip_tar b = Ok (entries, None) -> Forall good_entry entries ->
  run cat_step (extractApp b dir) fs = (unpack dir entries fs, Ok tt).
Proof.
  intros Hb Hgood. unfold extractApp. rewrite run_mbind. cbn [run lift]. rewrite Hb, run_mbind.
  assert (H : run cat_step (foreach (extract_entry dir) entries) fs = (unpack dir entries fs, Ok tt)).
  { clear Hb. revert fs. induction Hgood as [|e entries He Hgood IH]; intros fs; [done|]. cbn [foreach]. rewrite run_mbind.
    destruct e as [name|name [c| | |]|name]; try done; cbn [extract_entry good_entry] in *.
    - rewrite run_call. cbn [cat_step]. unfold inside. rewrite He. by rewrite IH.
    - rewrite run_mbind, run_call. cbn [cat_step]. unfold inside. rewrite He, run_mbind. cbn [run lift]. rewrite run_call. cbn [cat_step].
      rewrite IH, insert_insert_eq. reflexivity. }
  by rewrite H.
Qed.

Definition app_dir (a : fsApp) : string := Name a +:+ "-" +:+ Version a.

(** Names that need no escaping in an address, for a directory inside. *)
Definition well_named (a : fsApp) : Prop :=
  leads_out (app_dir a) = false /\
  Name a <> "" /\ Version a <> "" /\ forall_char unreserved (Name a) = true /\ forall_char unreserved (Version a) = true.

Lemma forall_char_app p a b : forall_char p (a +:+ b) = forall_char p a && forall_char p b.
Proof. induction a as [|c a IH]; [done|]. rewrite str_app_cons. cbn [forall_char]. by rewrite IH, andb_assoc. Qed.

Lemma unreserved_url s : forall_char unreserved s = true -> forall_char url_char s = true /\ no_char "/"%char s.
Proof.
  induction s as [|c s IH]; [done|]. cbn [forall_char]. intros [Hc Hs]%andb_true_iff. destruct (IH Hs) as [H1 H2].
  split; [cbn [forall_char]; rewrite H1; unfold url_char; by rewrite Hc|]. apply no_char_cons. split; [|done]. by intros ->.
Qed.

(** The archive of an app is found under the address of its version. *)
Lemma get_app a : well_named a -> NoDup (map (fun a => (Name a, Version a)) apps) -> a ∈ apps ->
  get_url (app_url base a) = archive (path a) \/ exists e, archive (path a) = Err e.
Proof.
  intros (_ & Hn & Hv & [Hcn Hsn]%unreserved_url & [Hcv Hsv]%unreserved_url) Hnodup Ha.
  unfold get_url, app_url. rewrite HasPrefix_app, TrimPrefix_app.
  assert (Hchars : forall_char url_char ("/app/" +:+ Name a +:+ "/" +:+ Version a +:+ ".tar.gz") = true).
  { rewrite !forall_char_app, Hcn, Hcv. reflexivity. }
  rewrite Hchars. cbn [andb]. unfold serve_catalogue.
  change ("/app/" +:+ Name a +:+ "/" +:+ Version a +:+ ".tar.gz") with ("" +:+ String "/" ("app" +:+ String "/" (Name a +:+ String "/" (Version a +:+ ".tar.gz")))).
  rewrite !Split_app by done. rewrite Split_none by by (apply no_char_app).
  rewrite (proj2 (String.eqb_neq _ _) Hn), HasSuffix_app, TrimSuffix_app. cbn [negb andb].
  destruct (String.eqb_spec (Version a +:+ ".tar.gz") ".tar.gz") as [He|_].
  { by apply (str_app_inj_r _ "") in He. }
  cbn [negb]. unfold serve_app. destruct (list_find _ apps) as [[i b]|] eqn:Hfind.
  - apply list_find_Some in Hfind as (Hi & [H1 H2] & _).
    apply list_elem_of_lookup in Ha as [j Hj].
    assert (i = j) as ->.
    { eapply (NoDup_lookup _ _ _ (Name a, Version a) Hnodup); rewrite list_lookup_fmap; [rewrite Hi|rewrite Hj]; cbn; congruence. }
    assert (b = a) as -> by congruence. rewrite run_handle, run_call. cbn [open_step].
    destruct (archive (path a)) as [r|e|w|]; [by left|right; by eexists|by left|by left].
  - apply list_find_None in Hfind. rewrite Forall_forall in Hfind. by destruct (Hfind a Ha).
Qed.

(** What the server's directory is, and what an archive holds. *)
Context (contents : string -> list tar_entry).

Definition served (a : fsApp) : Prop :=
  well_named a /\ Forall good_entry (contents (path a)) /\
  exists b, archive (path a) = Ok b /\ gzip_tar b = Ok (contents (path a), None).

Lemma run_fetch_version a fs : served a -> NoDup (map (fun a => (Name a, Version a)) apps) -> a ∈ apps ->
  run cat_step (fetch_version (Name a) (listed base a)) fs = (unpack (app_dir a) (contents (path a)) fs, Ok tt).
Proof.
  intros (Hn & Hgood & b & Hb & Hgz) Hnodup Ha. unfold fetch_version. cbn [avUrls listed avVersion].
  rewrite run_mbind, run_call. cbn [cat_step].
  destruct (get_app a Hn Hnodup Ha) as [->|[e He]]; [|congruence]. rewrite Hb. cbn [mbind outcome_bind].
  rewrite run_mbind, run_call. cbn [cat_step]. unfold inside. change (_ +:+ "-" +:+ _) with (app_dir a). rewrite (proj1 Hn), run_mbind, run_call.
  cbn [cat_step]. unfold inside. rewrite (proj1 Hn). by apply run_extract.
Qed.

Lemma run_fetch_groups (gs : list (string * list fsApp)) fs :
  NoDup (map (fun a => (Name a, Version a)) apps) -> Forall served apps ->
  Forall (fun g => Forall (fun a => Name a = g.1 /\ a ∈ apps) g.2) gs ->
  run cat_step (foreach (fun entry => foreach (fetch_version entry.1) entry.2) (map (prod_map id (map (listed base))) gs)) fs =
    (foldl (fun fs a => unpack (app_dir a) (contents (path a)) fs) fs (concat (map snd gs)), Ok tt).
Proof.
  intros Hnodup Hserved Hgs. revert fs. induction gs as [|[k l] gs IH]; intros fs; [done|]. apply Forall_cons in Hgs as [Hl Hgs].
  cbn [map prod_map fst snd id foreach concat] in *. rewrite run_mbind, foldl_app.
  assert (H : run cat_step (foreach (fetch_version k) (map (listed base) l)) fs = (foldl (fun fs a => unpack (app_dir a) (contents (path a)) fs) fs l, Ok tt)).
  { clear IH Hgs. revert fs. induction Hl as [|a l [<- Ha] Hl IHl]; intros fs; [done|]. cbn [map foreach foldl].
    rewrite run_mbind, run_fetch_version by (try done; by eapply Forall_forall in Hserved). apply IHl. }
  rewrite H. by apply IH.
Qed.

Lemma unpack_other dir entries fs d f : d <> dir -> unpack dir entries fs !! (d, f) = fs !! (d, f).
Proof.
  intros Hd. revert fs. induction entries as [|e entries IH]; intros fs; [done|]. unfold unpack in *. cbn [foldl]. rewrite IH.
  destruct e as [|name [c| | |]|]; try done. cbn [unpack_entry]. rewrite lookup_insert_ne; [done|]. congruence.
Qed.

Lemma unpack_local dir entries fs fs' f : fs !! (dir, f) = fs' !! (dir, f) -> unpack dir entries fs !! (dir, f) = unpack dir entries fs' !! (dir, f).
Proof.
  revert fs fs'. induction entries as [|e entries IH]; intros fs fs' He; [done|]. unfold unpack in *. cbn [foldl]. apply IH.
  destruct e as [|name [c| | |]|]; try done. cbn [unpack_entry]. destruct (decide (fs_key name = f)) as [->|Hn]; [by rewrite !lookup_insert_eq|].
  by rewrite !lookup_insert_ne by congruence.
Qed.

Lemma unpack_all_other l fs d f : (forall a, a ∈ l -> d <> app_dir a) ->
  foldl (fun fs a => unpack (app_dir a) (contents (path a)) fs) fs l !! (d, f) = fs !! (d, f).
Proof.
  revert fs. induction l as [|a l IH]; intros fs Hd; [done|]. cbn [foldl].
  rewrite IH by (intros b Hb; apply Hd; by right). apply unpack_other, Hd. by left.
Qed.

Lemma unpack_all l fs a f : NoDup (map app_dir l) -> a ∈ l ->
  foldl (fun fs a => unpack (app_dir a) (contents (path a)) fs) fs l !! (app_dir a, f) = unpack (app_dir a) (contents (path a)) fs !! (app_dir a, f).
Proof.
  revert fs. induction l as [|b l IH]; intros fs Hnd Ha; [by apply elem_of_nil in Ha|]. cbn [foldl map] in *.
  apply NoDup_cons in Hnd as [Hb Hnd]. apply elem_of_cons in Ha as [->|Ha].
  - apply unpack_all_other. intros c Hc He. apply Hb. rewrite He. by apply (list_elem_of_fmap_2 app_dir l c).
  - rewrite IH by done. apply unpack_local, unpack_other. intros He. apply Hb. rewrite <- He. by apply (list_elem_of_fmap_2 app_dir l a).
Qed.

(** Versions have no dash: the directories are as different as the apps. *)
Lemma app_dirs_distinct l : Forall (fun a => no_char "-"%char (Version a)) l ->
  NoDup (map (fun a => (Name a, Version a)) l) -> NoDup (map app_dir l).
Proof.
  induction l as [|a l IH]; intros Hv Hnd; cbn [map] in *; [constructor|]. apply NoDup_cons in Hnd as [Ha Hnd]. apply Forall_cons in Hv as [Hva Hv].
  apply NoDup_cons. split; [|by apply IH]. intros (b & He & Hb)%list_elem_of_fmap_1. rewrite Forall_forall in Hv.
  apply (app_sep_inj (Name a) (Version a) (Name b) (Version b) "-"%char Hva (Hv b Hb)) in He as [H1 H2]. apply Ha. rewrite H1, H2.
  by apply (list_elem_of_fmap_2 (fun a => (Name a, Version a)) l b).
Qed.

(** C36. What the catalogue publishes is what its client unpacks: the server loads
    a directory of archives, each with its own name and version, of characters
    that stand for themselves in an address, and with nothing in it but regular
    files and directories that stay inside; a client that fetches the catalogue
    finds every archive, unpacks it into the directory named after the app and
    its version, and touches nothing else. *)
Theorem published_apps_fetched (IsValid : string -> bool) (fs0 : gmap (string * string) content)
    (Hload : (run open_step (Load IsValid) tt).2 = Ok apps)
    (Hnodup : NoDup (map (fun a => (Name a, Version a)) apps)) (Hserved : Forall served apps) :
  exists fs, run cat_step (FetchAppsFromHTTPRepository (base +:+ "/")) fs0 = (fs, Ok tt) /\
    (forall a f, a ∈ apps -> fs !! (app_dir a, f) = unpack (app_dir a) (contents (path a)) fs0 !! (app_dir a, f)) /\
    (forall d f, (forall a, a ∈ apps -> d <> app_dir a) -> fs !! (d, f) = fs0 !! (d, f)).
Proof.
  assert (Hversions : Forall (fun a => no_char "-"%char (Version a)) apps).
  { unfold Load in Hload. rewrite run_mbind, run_call in Hload. cbn [open_step run mret go_ret snd] in Hload. injection Hload as <-.
    apply Forall_forall. intros a (e & _ & He)%list_elem_of_omap. by eapply loaded_version. }
  pose proof (groups_perm apps) as Hperm.
  assert (Hgs : Forall (fun g => Forall (fun a => Name a = g.1 /\ a ∈ apps) g.2) (groups apps)).
  { apply Forall_forall. intros g Hg. apply Forall_forall. intros a Ha. split.
    - pose proof (groups_named apps) as H. rewrite Forall_forall in H. specialize (H g Hg). rewrite Forall_forall in H. by apply H.
    - rewrite <- Hperm. apply list_elem_of_In, in_concat. exists g.2. split; [apply in_map|]; by apply list_elem_of_In. }
  exists (foldl (fun fs a => unpack (app_dir a) (contents (path a)) fs) fs0 (concat (map snd (groups apps)))). split_and!.
  - unfold FetchAppsFromHTTPRepository. rewrite run_mbind, run_call. cbn [cat_step].
    unfold get_url. rewrite HasPrefix_app, TrimPrefix_app. change (forall_char url_char "/") with true. cbn [andb].
    unfold serve_catalogue. change (Split "/" "/"%char) with [""; ""]. cbn [run mret go_ret snd mbind outcome_bind answer_body].
    rewrite run_mbind. cbn [run lift read_all]. rewrite run_mbind. cbn [run lift parsed mbind outcome_bind]. rewrite decode_listing.
    by apply run_fetch_groups.
  - intros a f Ha. apply unpack_all; [|by rewrite Hperm]. rewrite (Permutation_map app_dir Hperm). by apply app_dirs_distinct.
  - intros d f Hd. apply unpack_all_other. intros a Ha. apply Hd. by rewrite <- Hperm.
Qed.
End Served.

(** ** The theorem at a concrete input *)

Definition demo_valid (v : string) : bool :=
  HasPrefix v "v" && (1 <? String.length v)%nat && forall_char (fun c => is_digit c || Ascii.eqb c ".") (str_drop 1 v).

Definition demo_listing : list dir_entry :=
  [MkDirEntry "rpuppy-0.0.1.tar.gz" false; MkDirEntry "README.md" false; MkDirEntry "url-shortener-v0.1.0.tar.gz" false; MkDirEntry "old-0.0.1.tar.gz" true].

Definition demo_apps : list fsApp :=
  [MkFsApp "rpuppy" "0.0.1" "rpuppy-0.0.1.tar.gz"; MkFsApp "url-shortener" "0.1.0" "url-shortener-v0.1.0.tar.gz"].

Definition demo_contents (p : string) : list tar_entry :=
  [TarDir "./"; TarReg "app.cue" (Ok (Raw p (Err err_json)))].

Definition demo_archive (p : string) : outcome http_body := Ok (MkBody (Err (errorf "binary")) (Ok (demo_contents p, None))).

Lemma published_apps_fetched_witness :
  exists fs, run (cat_step "https://apps.dodo.cloud" demo_listing demo_apps demo_archive) (FetchAppsFromHTTPRepository "https://apps.dodo.cloud/") ∅ = (fs, Ok tt) /\
    fs !! ("rpuppy-0.0.1", "/app.cue") = Some (Raw "rpuppy-0.0.1.tar.gz" (Err err_json)) /\
    fs !! ("url-shortener-0.1.0", "/app.cue") = Some (Raw "url-shortener-v0.1.0.tar.gz" (Err err_json)) /\ fs !! ("old-0.0.1", "/app.cue") = None.
Proof.
  destruct (published_apps_fetched "https://apps.dodo.cloud" demo_listing demo_apps demo_archive demo_contents demo_valid ∅) as (fs & Hrun & Hin & Hout).
  - reflexivity.
  - apply (bool_decide_unpack _). vm_compute. exact I.
  - repeat (constructor; [split_and!; try done; [repeat constructor|by eexists]|]). constructor.
  - exists fs. split; [exact Hrun|]. split; [|split].
    + rewrite (Hin (MkFsApp "rpuppy" "0.0.1" "rpuppy-0.0.1.tar.gz")) by by left. reflexivity.
    + rewrite (Hin (MkFsApp "url-shortener" "0.1.0" "url-shortener-v0.1.0.tar.gz")) by by right; left. reflexivity.
    + rewrite Hout; [reflexivity|]. intros a Ha He. repeat (apply elem_of_cons in Ha as [->|Ha]; [discriminate|]). by apply elem_of_nil in Ha.
Defined.
