(* ===== verification/EnvNetwork.v ===== *)
(** * Addresses of environments (core/installer/app.go, welcome/env.go)

    Which /24 a new environment gets ([findNextStartIP]) and the addresses it
    uses there ([NewEnvNetwork]).  Addresses are big-endian bytes. *)
From S2P Require Import Prelude GoLib GoStrings GoNet InstallerTypes.
From Stdlib Require Import Ascii.
Open Scope string_scope.
Open Scope list_scope.

(** ** netip.Addr *)

(** [a.Next()] on the little-endian bytes; nothing after the last address. *)
Fixpoint next_le (l : bytes) : option bytes :=
  match l with
  | [] => None
  | b :: l' => if (b =? 255)%Z then (l'' ← next_le l'; Some (0%Z :: l'')) else Some ((b + 1)%Z :: l')
  end.

Definition Next (a : bytes) : bytes :=
  match next_le (rev a) with Some l => rev l | None => [] end.

(** [a.Compare(b)]: by length, then by value. *)
Fixpoint compare_bytes (a b : bytes) : comparison :=
  match a, b with
  | x :: a', y :: b' => match (x ?= y)%Z with Eq => compare_bytes a' b' | c => c end
  | _, _ => Eq
  end.

Definition Compare (a b : bytes) : comparison :=
  match Nat.compare (length a) (length b) with Eq => compare_bytes a b | c => c end.

(** [s[i]++] on a byte. *)
Definition incr_byte (i : nat) (s : bytes) : bytes :=
  match s !! i with Some b => <[i := ((b + 1) mod 256)%Z]> s | None => s end.

Definition byte_at (s : bytes) (i : nat) : Z := default 0%Z (s !! i).

(** ** NewEnvNetwork *)

Definition NewEnvNetwork (subnet : bytes) : outcome EnvNetwork :=
  addr ← addr_of_ip subnet;
  if negb (Is4 addr) then Err (errorf "Expected IPv4")
  else
    let dns := Next addr in
    let ingress := Next dns in
    let headscale := Next ingress in
    if negb (byte_at addr 3 =? 0)%Z then Err (errorf ("Expected last byte to be zero, got " +:+ Itoa (byte_at addr 3) +:+ " instead"))
    else
      let servicesFrom := <[3 := 10%Z]> addr in
      let servicesTo := <[3 := 254%Z]> addr in
      let dnsInClusterIP := [10; 44; byte_at addr 1; byte_at addr 2]%Z in
      Ok (MkEnvNetwork (dotted dns) (dotted dnsInClusterIP) (dotted ingress) (dotted headscale)
            (dotted servicesFrom) (dotted servicesTo)).

(** ** findNextStartIP *)

Record EnvCIDR := MkCIDR { cidrName : string; cidrIP : bytes }.

Fixpoint max_addr (cidrs : list EnvCIDR) (m : bytes) : outcome bytes :=
  match cidrs with
  | [] => Ok m
  | cidr :: cidrs' =>
      i ← addr_of_ip (cidrIP cidr);
      max_addr cidrs' (match Compare i m with Gt => i | _ => m end)
  end.

Definition findNextStartIP (cidrs : list EnvCIDR) : outcome bytes :=
  m ← max_addr cidrs [10; 0; 0; 0]%Z;
  let sl := incr_byte 2 m in
  let sl := if (byte_at sl 2 =? 255)%Z then incr_byte 1 (<[2 := 0%Z]> sl) else sl in
  if (byte_at sl 1 =? 255)%Z then Err (errorf "Can not allocate") else Ok (ip_of_addr sl).

Example first_start_ip : findNextStartIP [] = Ok (v4_prefix ++ [10; 0; 1; 0]%Z).
Proof. reflexivity. Qed.

Example skips_255 : findNextStartIP [MkCIDR "a" [10; 3; 254; 0]%Z] = Ok (ip_of_addr [10; 4; 0; 0]%Z).
Proof. reflexivity. Qed.

Example network_example : NewEnvNetwork [10; 0; 1; 0]%Z =
  Ok (MkEnvNetwork "10.0.1.1" "10.44.0.1" "10.0.1.2" "10.0.1.3" "10.0.1.10" "10.0.1.254").
Proof. reflexivity. Qed.

(** * Proofs *)

(** The subnet of the k-th environment. *)
Definition nth_subnet (k : Z) : bytes := [10; k / 255; k mod 255; 0]%Z.

Definition subnet_ip (k : Z) : bytes := ip_of_addr (nth_subnet k).

(** There is room for this many environments. *)
Definition capacity : Z := (255 * 255 - 1)%Z.

Lemma Compare_subnet j k : (0 <= j)%Z -> (0 <= k)%Z -> Compare (nth_subnet j) (nth_subnet k) = (j ?= k)%Z.
Proof.
  intros Hj Hk. unfold Compare, nth_subnet. cbn [length Nat.compare compare_bytes]. rewrite !Z.compare_refl.
  pose proof (Z.div_mod j 255 ltac:(lia)). pose proof (Z.div_mod k 255 ltac:(lia)).
  pose proof (Z.mod_pos_bound j 255 ltac:(lia)). pose proof (Z.mod_pos_bound k 255 ltac:(lia)).
  symmetry. destruct (Z.compare_spec (j / 255) (k / 255)) as [He|Hl|Hl].
  - destruct (Z.compare_spec (j mod 255) (k mod 255)); [apply Z.compare_eq_iff|apply Z.compare_lt_iff|apply Z.compare_gt_iff]; lia.
  - apply Z.compare_lt_iff. lia.
  - apply Z.compare_gt_iff. lia.
Qed.

(** Environments in the order they were created, after the i-th. *)
Fixpoint numbered (i : Z) (names : list string) : list EnvCIDR :=
  match names with
  | [] => []
  | name :: names' => MkCIDR name (subnet_ip (i + 1)) :: numbered (i + 1) names'
  end.

Lemma numbered_snoc i names name :
  numbered i (names ++ [name]) = numbered i names ++ [MkCIDR name (subnet_ip (i + Z.of_nat (length names) + 1))].
Proof.
  revert i. induction names as [|n names IH]; intros i; cbn [numbered app length].
  - by replace (i + Z.of_nat 0 + 1)%Z with (i + 1)%Z by lia.
  - rewrite IH. by replace (i + 1 + Z.of_nat (length names) + 1)%Z with (i + Z.of_nat (S (length names)) + 1)%Z by lia.
Qed.

Lemma max_numbered i names :
  (0 <= i)%Z -> max_addr (numbered i names) (nth_subnet i) = Ok (nth_subnet (i + Z.of_nat (length names))).
Proof.
  revert i. induction names as [|n names IH]; intros i Hi; cbn [numbered max_addr length].
  - by replace (i + Z.of_nat 0)%Z with i by lia.
  - cbn [cidrIP]. change (addr_of_ip (subnet_ip (i + 1))) with (Ok (nth_subnet (i + 1))). cbn [mbind outcome_bind].
    rewrite Compare_subnet by lia. rewrite (proj2 (Z.compare_gt_iff (i + 1) i)) by lia.
    rewrite IH by lia. by replace (i + 1 + Z.of_nat (length names))%Z with (i + Z.of_nat (S (length names)))%Z by lia.
Qed.

Lemma bump_subnet k : (0 <= k <= capacity)%Z ->
  let sl := incr_byte 2 (nth_subnet k) in
  let sl := if (byte_at sl 2 =? 255)%Z then incr_byte 1 (<[2 := 0%Z]> sl) else sl in
  sl = nth_subnet (k + 1).
Proof.
  intros Hk. unfold capacity in Hk. cbv zeta.
  change (incr_byte 2 (nth_subnet k)) with [10; k / 255; (k mod 255 + 1) mod 256; 0]%Z.
  change (byte_at [10; k / 255; (k mod 255 + 1) mod 256; 0]%Z 2) with ((k mod 255 + 1) mod 256)%Z.
  pose proof (Z.mod_pos_bound k 255 ltac:(lia)). rewrite (Z.mod_small (k mod 255 + 1)) by lia.
  pose proof (Z.div_mod k 255 ltac:(lia)) as Hd. unfold nth_subnet.
  destruct (Z.eqb_spec (k mod 255 + 1) 255) as [He|Hne].
  - change (incr_byte 1 (<[2:=0%Z]> [10; k / 255; k mod 255 + 1; 0]%Z)) with [10; (k / 255 + 1) mod 256; 0; 0]%Z.
    assert (Hq : (k / 255 < 255)%Z) by (apply Z.div_lt_upper_bound; lia).
    pose proof (Z.div_pos k 255 ltac:(lia) ltac:(lia)). rewrite Z.mod_small by lia.
    replace ((k + 1) / 255)%Z with (k / 255 + 1)%Z by (apply (Z.div_unique _ _ _ 0); lia).
    by replace ((k + 1) mod 255)%Z with 0%Z by (apply (Z.mod_unique _ _ (k / 255 + 1)); lia).
  - replace ((k + 1) / 255)%Z with (k / 255)%Z by (apply (Z.div_unique _ _ _ (k mod 255 + 1)); lia).
    by replace ((k + 1) mod 255)%Z with (k mod 255 + 1)%Z by (apply (Z.mod_unique _ _ (k / 255)); lia).
Qed.

Lemma next_numbered names : (Z.of_nat (length names) <= capacity)%Z ->
  findNextStartIP (numbered 0 names) =
    if decide (Z.of_nat (length names) = capacity) then Err (errorf "Can not allocate")
    else Ok (subnet_ip (Z.of_nat (length names) + 1)).
Proof.
  intros Hn. unfold findNextStartIP. change [10; 0; 0; 0]%Z with (nth_subnet 0). rewrite max_numbered by lia.
  cbn [mbind outcome_bind]. rewrite Z.add_0_l. set (k := Z.of_nat (length names)) in *.
  pose proof (bump_subnet k ltac:(lia)) as Hb. cbv zeta in Hb. rewrite Hb.
  change (byte_at (nth_subnet (k + 1)) 1) with ((k + 1) / 255)%Z. unfold capacity in *.
  destruct (decide _) as [->|Hne]; [done|].
  rewrite (proj2 (Z.eqb_neq _ _)); [done|]. assert ((k + 1) / 255 < 255)%Z by (apply Z.div_lt_upper_bound; lia). lia.
Qed.

(** What createEnv makes of the list of allocated ranges. *)
Definition allocate (cidrs : list EnvCIDR) (name : string) : list EnvCIDR :=
  match findNextStartIP cidrs with
  | Ok ip => cidrs ++ [MkCIDR name ip]
  | _ => cidrs
  end.

(** C19. From the empty list of the bootstrapper the n-th environment gets
    10.(n / 255).(n mod 255).0; after 65024 environments every request is
    refused and the list stays as it is. *)
Theorem nth_environment_subnet (names : list string) :
  foldl allocate [] names = numbered 0 (take (Z.to_nat capacity) names) /\
  ((Z.of_nat (length names) < capacity)%Z ->
     findNextStartIP (foldl allocate [] names) = Ok (subnet_ip (Z.of_nat (length names) + 1))) /\
  ((capacity <= Z.of_nat (length names))%Z ->
     findNextStartIP (foldl allocate [] names) = Err (errorf "Can not allocate")).
Proof.
  assert (Hc : (0 <= capacity)%Z) by (unfold capacity; lia).
  assert (Heq : foldl allocate [] names = numbered 0 (take (Z.to_nat capacity) names)).
  { induction names as [|name names IH] using rev_ind; [by rewrite take_nil|]. rewrite foldl_snoc, IH. unfold allocate.
    rewrite next_numbered by (rewrite length_take; lia). rewrite length_take.
    destruct (decide _) as [Hd|Hd].
    - rewrite take_app_le by lia. done.
    - assert (Hl : (length names < Z.to_nat capacity)%nat) by lia. rewrite !take_ge by (rewrite ?length_app; simpl; lia).
      rewrite numbered_snoc. by replace (Z.to_nat capacity `min` length names) with (length names) by lia. }
  split; [done|]. rewrite Heq. split; intros Hn; rewrite next_numbered by (rewrite length_take; lia); rewrite length_take.
  - rewrite decide_False by lia. by rewrite Nat.min_r by lia.
  - by rewrite decide_True by lia.
Qed.

(** ** Texts of addresses *)

Lemma dot_app t : "." +:+ t = String "."%char t.
Proof. done. Qed.

Lemma dotted_inj (a b : bytes) :
  length a = length b -> a <> [] -> Forall (fun x => 0 <= x)%Z a -> Forall (fun x => 0 <= x)%Z b -> dotted a = dotted b -> a = b.
Proof.
  unfold dotted. revert b. induction a as [|x a IH]; intros [|y b] Hl Hne Ha Hb He; try done.
  apply Forall_cons in Ha as [Hx Ha]. apply Forall_cons in Hb as [Hy Hb].
  destruct a as [|x' a], b as [|y' b]; try done.
  - cbn in He. by apply Itoa_inj in He as ->.
  - cbn [map] in He. rewrite (Join_cons (Itoa x)), (Join_cons (Itoa y)) in He by done.
    rewrite !dot_app in He. apply (f_equal (fun s => Split s "."%char)) in He. cbv beta in He.
    rewrite (Split_app (Itoa x)), (Split_app (Itoa y)) in He by by apply Itoa_no_dot. injection He as Hxy Ht. apply Itoa_inj in Hxy as ->.
    f_equal. apply IH; [simpl in *; lia|done..|].
    apply (f_equal (fun l => Join l ".")) in Ht. by rewrite !(Join_Split _ "."%char) in Ht.
Qed.

Lemma dotted4_eq a b c d a' b' c' d' :
  Forall (fun x => 0 <= x)%Z [a; b; c; d; a'; b'; c'; d'] ->
  dotted [a; b; c; d] = dotted [a'; b'; c'; d'] <-> [a; b; c; d] = [a'; b'; c'; d'].
Proof.
  intros H. split; [|by intros ->]. rewrite !Forall_cons in H. intros He.
  apply dotted_inj in He; [done|done|done|..]; rewrite !Forall_cons; naive_solver.
Qed.

(** ** The networks of two environments *)

(** The last bytes an environment uses in its own range. *)
Definition own_bytes : list Z := [1; 2; 3; 10; 254]%Z.

Definition own_addresses (n : EnvNetwork) : list string :=
  [DNS n; Ingress n; Headscale n; ServicesFrom n; ServicesTo n].

Lemma Next_subnet k b : (0 <= b < 255)%Z -> Next [10; k / 255; k mod 255; b]%Z = [10; k / 255; k mod 255; b + 1]%Z.
Proof. intros Hb. unfold Next. cbn [rev app next_le]. by rewrite (proj2 (Z.eqb_neq b 255)) by lia. Qed.

Lemma network_of k : NewEnvNetwork (subnet_ip k) = Ok (MkEnvNetwork
  (dotted [10; k / 255; k mod 255; 1]%Z) (dotted [10; 44; k / 255; k mod 255]%Z)
  (dotted [10; k / 255; k mod 255; 2]%Z) (dotted [10; k / 255; k mod 255; 3]%Z)
  (dotted [10; k / 255; k mod 255; 10]%Z) (dotted [10; k / 255; k mod 255; 254]%Z)).
Proof.
  unfold NewEnvNetwork. change (addr_of_ip (subnet_ip k)) with (Ok (nth_subnet k)). cbn [mbind outcome_bind].
  unfold nth_subnet. rewrite !Next_subnet by lia. reflexivity.
Qed.

Lemma own_addresses_of k n : NewEnvNetwork (subnet_ip k) = Ok n ->
  own_addresses n = map (fun b => dotted [10; k / 255; k mod 255; b]%Z) own_bytes /\
  DNSInClusterIP n = dotted [10; 44; k / 255; k mod 255]%Z.
Proof. rewrite network_of. by intros [= <-]. Qed.

Lemma quotient_eq j k : (j / 255 = k / 255)%Z -> (j mod 255 = k mod 255)%Z -> j = k.
Proof. intros Hd Hm. pose proof (Z.div_mod j 255). pose proof (Z.div_mod k 255). lia. Qed.

(** Two environments never share an address of their own ranges, nor the
    in-cluster address of their name servers.  But the in-cluster addresses lie
    in 10.44.0.0/16, which is allocated too: the address of the k-th one is used
    by the j-th environment exactly when the j-th one has the range
    10.44.(k / 255).0 and the last byte is one of the five it uses. *)
Theorem env_networks_apart (j k : Z) (nj nk : EnvNetwork)
    (Hj : (0 < j <= capacity)%Z) (Hk : (0 < k <= capacity)%Z) (Hne : j <> k)
    (Hnj : NewEnvNetwork (subnet_ip j) = Ok nj) (Hnk : NewEnvNetwork (subnet_ip k) = Ok nk) :
  (forall x, x ∈ own_addresses nj -> x ∉ own_addresses nk) /\
  DNSInClusterIP nj <> DNSInClusterIP nk /\
  (DNSInClusterIP nk ∈ own_addresses nj <-> j = (44 * 255 + k / 255)%Z /\ (k mod 255)%Z ∈ own_bytes).
Proof.
  destruct (own_addresses_of j nj Hnj) as [Hoj Hcj], (own_addresses_of k nk Hnk) as [Hok Hck].
  rewrite Hoj, Hok, Hcj, Hck.
  assert (Hown : forall b, b ∈ own_bytes -> (0 <= b)%Z) by (unfold own_bytes; intros b Hb; set_solver by lia).
  pose proof (Z.mod_pos_bound j 255 ltac:(lia)). pose proof (Z.mod_pos_bound k 255 ltac:(lia)).
  assert (0 <= j / 255)%Z by (apply Z.div_pos; lia). assert (0 <= k / 255)%Z by (apply Z.div_pos; lia).
  split_and!.
  - intros x (b & -> & Hb)%list_elem_of_fmap (b' & He & Hb')%list_elem_of_fmap.
    apply dotted4_eq in He; [|rewrite !Forall_cons; pose proof (Hown b Hb); pose proof (Hown b' Hb'); split_and!; try lia; done].
    injection He as Hd Hm _. by apply Hne, quotient_eq.
  - intros He. apply dotted4_eq in He; [|rewrite !Forall_cons; split_and!; try lia; done].
    injection He as Hd Hm. by apply Hne, quotient_eq.
  - rewrite list_elem_of_fmap. split.
    + intros (b & He & Hb). apply dotted4_eq in He; [|rewrite !Forall_cons; pose proof (Hown b Hb); split_and!; try lia; done].
      injection He as Hd Hm <-. split; [|done]. pose proof (Z.div_mod j 255). lia.
    + intros [-> Hb]. exists (k mod 255)%Z. split; [|done].
      assert (k / 255 < 255)%Z by (apply Z.div_lt_upper_bound; unfold capacity in *; lia).
      replace ((44 * 255 + k / 255) / 255)%Z with 44%Z by (apply (Z.div_unique _ _ _ (k / 255)); lia).
      by replace ((44 * 255 + k / 255) mod 255)%Z with (k / 255)%Z by (apply (Z.mod_unique _ _ 44); lia).
Qed.

Lemma env_networks_apart_witness :
  exists nj nk, NewEnvNetwork (subnet_ip 11220) = Ok nj /\ NewEnvNetwork (subnet_ip 1) = Ok nk /\
    DNS nj = "10.44.0.1" /\ DNSInClusterIP nk = "10.44.0.1" /\ DNSInClusterIP nk ∈ own_addresses nj.
Proof.
  eexists _, _. split; [vm_compute; reflexivity|]. split; [vm_compute; reflexivity|]. split; [reflexivity|]. split; [reflexivity|].
  apply (env_networks_apart 11220 1); [unfold capacity; lia|unfold capacity; lia|lia|vm_compute; reflexivity..|].
  split; [reflexivity|by left].
Defined.
