(* ===== verification/EnvServer.v ===== *)
(** * The server that creates environments (core/installer/welcome/env.go)

    Handlers of EnvServer over the infrastructure repository, with the services
    it calls as an interface.  The maps it keeps in memory are passed along. *)
From S2P Require Import Prelude GoLib GoStrings GoNet GoPath RepoIO InstallerTypes AppManager InfraManager EnvNetwork.
From Stdlib Require Import Ascii.
Open Scope string_scope.
Open Scope list_scope.

(** ** Documents: env-cidrs.yaml and invitations *)

(** [ip.MarshalText()] and [UnmarshalText]. *)
Definition ip_text (ip : bytes) : string :=
  match addr_of_ip ip with Ok a => dotted a | _ => "" end.

Definition ip_of_json (v : json) : outcome bytes :=
  s ← json_string v;
  if String.eqb s "" then Ok [] else ParseIP4 s.

Definition encode_cidr (c : EnvCIDR) : json :=
  JObj [("Name", JStr (cidrName c)); ("IP", JStr (ip_text (cidrIP c)))].

Definition encode_cidrs (l : list EnvCIDR) : json := JArr (map encode_cidr l).

Definition decode_cidr (v : json) : outcome EnvCIDR :=
  if negb (known_fields ["Name"; "IP"] v) then Err (errorf "unknown field")
  else
    n ← json_field "Name" json_string "" v;
    i ← json_field "IP" ip_of_json [] v;
    Ok (MkCIDR n i).

Definition decode_cidrs (v : json) : outcome (list EnvCIDR) := json_array decode_cidr v.

Inductive InvitationStatus := StatusActive | StatusAccepted | StatusOther (s : string).

Definition status_text (s : InvitationStatus) : string :=
  match s with StatusActive => "ACTIVE" | StatusAccepted => "ACCEPTED" | StatusOther s => s end.

Definition status_of_text (s : string) : InvitationStatus :=
  if String.eqb s "ACTIVE" then StatusActive
  else if String.eqb s "ACCEPTED" then StatusAccepted else StatusOther s.

Record invitation := MkInvitation { Token : string; iStatus : InvitationStatus }.

Definition encode_invitation (i : invitation) : json :=
  JObj [("token", JStr (Token i)); ("status", JStr (status_text (iStatus i)))].

(** What Decode leaves in the struct, whatever error it gives. *)
Definition text_or_empty (o : outcome string) : string := match o with Ok s => s | _ => "" end.

Definition decoded_invitation (v : json) : invitation :=
  MkInvitation (text_or_empty (json_field "token" json_string "" v))
    (status_of_text (text_or_empty (json_field "status" json_string "" v))).

(** The values a json.Decoder finds in a file, and what follows them. *)
Definition stream_of (c : content) : list json * option error :=
  match c with
  | Doc v => ([v], None)
  | Stream vs tail => (vs, tail)
  | Raw _ (Ok v) => ([v], None)
  | Raw _ (Err e) => ([], Some e)
  | Raw _ _ => ([], None)
  end.

(** ** The services the server calls *)

Record EnvDNS := MkEnvDNS { Zone : string; dnsAddress : string }.

Class EnvServices (E : Type -> Type) := {
  Generate : go E string;                                  (* nameGenerator *)
  RandomToken : go E string;                               (* NewFixedLengthRandomNameGenerator(100) *)
  Fetch : string -> go E string;                           (* dnsFetcher *)
  UpdateZone : string -> string -> list string -> go E unit;   (* NewGandiUpdater(token).Update *)
  StartTask : string -> EnvConfig -> go E unit;            (* go t.Start() *)
}.

(** The maps of EnvServer; the task of a key is known by its environment. *)
Record env_maps := MkMaps {
  Tasks : gmap string EnvConfig;
  envInfo : gmap string string;
  envDNS : gmap string EnvDNS;
  dnsPublished : gset string;
}.

Inductive env_page :=
  | FormPage
  | StatusPage (root : EnvConfig) (info : string) (records : string)
  | OKPage.

Record createEnvReq := MkEnvReq {
  reqName : string;
  reqContactEmail : string;
  reqDomain : string;
  reqAdminPublicKey : string;
  reqSecretToken : string;
}.

(** The DNS service of an environment, as NewCreateEnvTask returns it. *)
Definition env_dns (env : EnvConfig) : EnvDNS :=
  MkEnvDNS (envDomain env) ("http://dns-api." +:+ NamespacePrefix env +:+ "dns.svc.cluster.local/records-to-publish").

Definition getFormValue (v : gmap string (list string)) (name : string) : outcome string :=
  match v !! name with
  | Some [item] => Ok item
  | _ => Err (errorf (name +:+ " not found"))
  end.

(** The fields of the form up to the first one that is missing. *)
Definition form_fields (v : gmap string (list string)) : createEnvReq * bool :=
  match getFormValue v "secret-token" with
  | Ok t =>
      match getFormValue v "domain" with
      | Ok d =>
          match getFormValue v "contact-email" with
          | Ok c =>
              match getFormValue v "admin-public-key" with
              | Ok k => (MkEnvReq "" c d k t, true)
              | _ => (MkEnvReq "" c d "" t, false)
              end
          | _ => (MkEnvReq "" "" d "" t, false)
          end
      | _ => (MkEnvReq "" "" "" "" t, false)
      end
  | _ => (MkEnvReq "" "" "" "" "", false)
  end.

(** [body]: what a JSON decoder finds where the form parser stopped. *)
Definition extractRequest (r : request) (body : outcome json) : outcome createEnvReq :=
  let '(req, complete) :=
    match rform_err r with Some _ => (MkEnvReq "" "" "" "" "", false) | None => form_fields (rpost r) end in
  if complete then Ok req
  else
    v ← body;
    n ← json_field "Name" json_string (reqName req) v;
    c ← json_field "contactEmail" json_string (reqContactEmail req) v;
    d ← json_field "domain" json_string (reqDomain req) v;
    k ← json_field "adminPublicKey" json_string (reqAdminPublicKey req) v;
    t ← json_field "secretToken" json_string (reqSecretToken req) v;
    Ok (MkEnvReq n c d k t).

(** ** The handlers *)

Section Server.
Context {E : Type -> Type} `{!RepoIO E} `{!EnvServices E}.
(** Execute of the templates may fail. *)
Context (Execute : env_page -> outcome unit).

Abbreviation answer := (go E (env_maps * reply env_page)).

Definition internal_error (m : env_maps) (e : error) : answer :=
  mret (m, HttpError (emsg e) StatusInternalServerError).

Definition show (m : env_maps) (p : env_page) : answer :=
  check _u := lift (Execute p) onerr e => internal_error m e in
  mret (m, Page p).

Definition monitorTask (m : env_maps) (r : request) : answer :=
  match rvars r !! "key" with
  | None => mret (m, HttpError "Task key not provided" StatusBadRequest)
  | Some key =>
      match Tasks m !! key with
      | None => mret (m, HttpError "Task not found" StatusBadRequest)
      | Some t =>
          if decide (key ∈ dnsPublished m) then show m (StatusPage t (default "" (envInfo m !! key)) "")
          else
            match envDNS m !! key with
            | None => mret (m, HttpError "Task dns configuration not found" StatusInternalServerError)
            | Some dnsRef =>
                check records := Fetch (dnsAddress dnsRef) onerr _e => show m (StatusPage t (default "" (envInfo m !! key)) "") in
                show m (StatusPage t (default "" (envInfo m !! key)) records)
            end
      end
  end.

(** The zone without its first label: strings.Split(dnsRef.Zone, ".")[1:]. *)
Definition parent_zone (zone : string) : string := Join (tail (Split zone "."%char)) ".".

Definition publishDNSRecords (m : env_maps) (r : request) : answer :=
  match rvars r !! "key" with
  | None => mret (m, HttpError "Task key not provided" StatusBadRequest)
  | Some key =>
      match envDNS m !! key with
      | None => mret (m, HttpError "Task dns configuration not found" StatusInternalServerError)
      | Some dnsRef =>
          check records := Fetch (dnsAddress dnsRef) onerr _e =>
            mret (m, HttpError "Task dns configuration not found" StatusInternalServerError) in
          check apiToken := lift (getFormValue (rpost r) "api-token") onerr e =>
            mret (m, HttpError (emsg e) StatusBadRequest) in
          check _u := UpdateZone apiToken (parent_zone (Zone dnsRef)) (Split records (ascii_of_nat 10)) onerr e =>
            internal_error m e in
          mret (MkMaps (Tasks m) (<[key := "Successfully published DNS records, waiting to propagate."]> (envInfo m))
                  (envDNS m) ({[key]} ∪ dnsPublished m),
                Redirect ("/env/" +:+ key) StatusSeeOther)
      end
  end.

Definition createEnvForm (m : env_maps) : answer := show m FormPage.

(** for { dec.Decode(&i) ... }: only the end of the file stops the loop; at
    garbage the decoder answers the same error for ever. *)
Fixpoint read_loop (vs : list json) (tail : option error) (invitations : list invitation) : go E (list invitation) :=
  match vs with
  | v :: vs' => read_loop vs' tail (invitations ++ [decoded_invitation v])
  | [] => match tail with None => mret invitations | Some _ => Ret Diverge end
  end.

Definition readInvitations : go E (list invitation) :=
  check r := Reader "invitations" onerr e =>
    (if decide (ekind e = KNotExist) then mret [] else fail e) in
  let '(vs, tail) := stream_of r in read_loop vs tail [].

Definition writeInvitations (invitations : list invitation) : go E unit :=
  _ ← Writer "invitations";
  _ ← WriteTo "invitations" (Stream (map encode_invitation invitations) None);
  CommitAndPush "Generated new invitation".

Definition createInvitation (m : env_maps) : answer :=
  check invitations := readInvitations onerr e => internal_error m e in
  check token := RandomToken onerr e => internal_error m e in
  check _u := writeInvitations (invitations ++ [MkInvitation token StatusActive]) onerr e => internal_error m e in
  mret (m, Page OKPage).

(** The first active invitation with the token is accepted. *)
Fixpoint accept_in (token : string) (l : list invitation) : option (list invitation) :=
  match l with
  | [] => None
  | i :: l' =>
      match String.eqb (Token i) token, iStatus i with
      | true, StatusActive => Some (MkInvitation token StatusAccepted :: l')
      | _, _ => option_map (cons i) (accept_in token l')
      end
  end.

Definition acceptInvitation (token : string) : go E unit :=
  invitations ← readInvitations;
  match accept_in token invitations with
  | None => fail (errorf "Invitation not found")
  | Some l => writeInvitations l
  end.

(** for { key, err := s.nameGenerator.Generate(); if err == nil { return key } } *)
Fixpoint key_loop (fuel : nat) : go E string :=
  match fuel with
  | 0 => Ret Diverge
  | S fuel' => check key := Generate onerr _e => key_loop fuel' in mret key
  end.

Definition new_env (infra : InfraConfig) (req : createEnvReq) (name : string) (network : EnvNetwork) : EnvConfig :=
  MkEnvConfig name (infraName infra) (reqDomain req) ("p." +:+ reqDomain req) (reqContactEmail req) (reqAdminPublicKey req)
    (infraPublicIP infra) (infraPublicIP infra) (name +:+ "-") network.

(** What follows the reading of the allocated ranges. *)
Definition allocate_env (fuel : nat) (m : env_maps) (infra : InfraConfig) (req : createEnvReq) (name : string)
    (cidrs : list EnvCIDR) : answer :=
  check startIP := lift (findNextStartIP cidrs) onerr e => internal_error m e in
  check _u := WriteYaml "env-cidrs.yaml" (encode_cidrs (cidrs ++ [MkCIDR name startIP])) onerr e => internal_error m e in
  check _v := CommitAndPush ("Allocate CIDR for " +:+ name) onerr e => internal_error m e in
  check envNetwork := lift (NewEnvNetwork startIP) onerr e => internal_error m e in
  let env := new_env infra req name envNetwork in
  key ← key_loop fuel;
  _ ← StartTask key env;
  mret (MkMaps (<[key := env]> (Tasks m)) (envInfo m) (<[key := env_dns env]> (envDNS m)) (dnsPublished m),
        Redirect ("/env/" +:+ key) StatusSeeOther).

(** The invitation of the request is not looked at: the call of
    acceptInvitation is commented out in the source. *)
Definition createEnv (fuel : nat) (m : env_maps) (r : request) (body : outcome json) : answer :=
  check _u := Pull onerr e => internal_error m e in
  check req := lift (extractRequest r body) onerr e => internal_error m e in
  check infra := ReadYaml decode_infra_strict "config.yaml" onerr e => internal_error m e in
  check name := Generate onerr e => internal_error m e in
  check cidrs := ReadYaml decode_cidrs "env-cidrs.yaml" onerr e => internal_error m e in
  allocate_env fuel m infra req name cidrs.

(** Start: the routes. *)
Inductive env_route := GetEnv | PostEnv | GetRoot | PostRoot | GetCreateInvitation.

Definition serve_env (fuel : nat) (m : env_maps) (rt : env_route) (r : request) (body : outcome json) : answer :=
  match rt with
  | GetEnv => monitorTask m r
  | PostEnv => publishDNSRecords m r
  | GetRoot => createEnvForm m
  | PostRoot => createEnv fuel m r body
  | GetCreateInvitation => createInvitation m
  end.
End Server.

(** * Proofs *)

(** ** Documents are read back *)

Definition is_range (ip : bytes) : Prop :=
  exists a b c d, ip = ip_of_addr [a; b; c; d] /\ Forall (fun x => 0 <= x <= 255)%Z [a; b; c; d].

Lemma dotted_nonempty a b c d : dotted [a; b; c; d] <> "".
Proof. unfold dotted. cbn [map Join]. by destruct (Itoa a). Qed.

Lemma ip_roundtrip ip : is_range ip -> ip_of_json (JStr (ip_text ip)) = Ok ip.
Proof.
  intros (a & b & c & d & -> & Hr). unfold ip_of_json, ip_text.
  change (addr_of_ip (ip_of_addr [a; b; c; d])) with (Ok [a; b; c; d]). cbn [json_string mbind outcome_bind].
  rewrite (proj2 (String.eqb_neq _ _) (dotted_nonempty a b c d)). by apply ParseIP4_dotted.
Qed.

Definition ranges_ok (cidrs : list EnvCIDR) : Prop := Forall (fun c => is_range (cidrIP c)) cidrs.

Lemma decode_encode_cidrs cidrs : ranges_ok cidrs -> decode_cidrs (encode_cidrs cidrs) = Ok cidrs.
Proof.
  intros Hr. unfold decode_cidrs, encode_cidrs. cbn [json_array]. induction Hr as [|[n ip] l Hip _ IH]; [done|].
  cbn [map json_list]. assert (decode_cidr (encode_cidr (MkCIDR n ip)) = Ok (MkCIDR n ip)) as ->.
  { unfold decode_cidr, encode_cidr. cbn [known_fields forallb existsb]. cbn [cidrIP cidrName].
    match goal with |- context [negb ?b] => change b with true end. cbn [negb].
    json_simp. cbn [json_string mbind outcome_bind]. by rewrite (ip_roundtrip ip Hip). }
  by rewrite IH.
Qed.

(** ** A world for the server *)

Inductive envE : Type -> Type :=
  | EnvRepo {X} (e : repoE X) : envE X
  | EnvGenerate : envE (outcome string)
  | EnvFetch (addr : string) : envE (outcome string)
  | EnvZone (token zone : string) (records : list string) : envE (outcome unit)
  | EnvStart (key : string) (env : EnvConfig) : envE (outcome unit).

Abbreviation in_env := (embed (@EnvRepo)).

#[export] Instance env_repo : RepoIO envE := repo_in (@EnvRepo) "".

#[export] Instance env_services : EnvServices envE := {|
  Generate := call EnvGenerate;
  RandomToken := call EnvGenerate;
  Fetch a := call (EnvFetch a);
  UpdateZone t z l := call (EnvZone t z l);
  StartTask k env := call (EnvStart k env);
|}.

Record env_world := MkEnvWorld {
  ew_repo : repo_state;
  ew_draws : nat;                             (* names drawn so far *)
  ew_started : list (string * EnvConfig);
}.

(** A repository without faults and a generator that always has a name. *)
Definition env_step (names : nat -> string) : handler envE env_world := fun X e w =>
  match e in envE X return env_world * X with
  | EnvRepo e => let '(s, x) := repo_step (fun _ => None) _ e (ew_repo w) in (MkEnvWorld s (ew_draws w) (ew_started w), x)
  | EnvGenerate => (MkEnvWorld (ew_repo w) (S (ew_draws w)) (ew_started w), Ok (names (ew_draws w)))
  | EnvFetch _ => (w, Ok "")
  | EnvZone _ _ _ => (w, Ok tt)
  | EnvStart k env => (MkEnvWorld (ew_repo w) (ew_draws w) (ew_started w ++ [(k, env)]), Ok tt)
  end.

Lemma run_in_env names {A} (p : prog repoE A) w :
  run (env_step names) (in_env p) w =
    let '(s, x) := run (repo_step (fun _ => None)) p (ew_repo w) in (MkEnvWorld s (ew_draws w) (ew_started w), x).
Proof.
  by rewrite (run_embed (@EnvRepo) (repo_step (fun _ => None)) (env_step names) ew_repo
    (fun s w => MkEnvWorld s (ew_draws w) (ew_started w))) by (try intros []; done).
Qed.

Section Race.
Context (names : nat -> string).
Abbreviation step := (env_step names).

Definition on_tree (f r : gmap string content) (l : list string) (n d : nat) (st : list (string * EnvConfig)) : env_world :=
  MkEnvWorld (MkRepo f f r l n) d st.

Lemma run_Pull_env f r l n d st : exists m,
  run step Pull (on_tree f r l n d st) = (on_tree r r l m d st, Ok tt).
Proof.
  cbn [Pull env_repo repo_in]. rewrite run_in_env. unfold repo.Pull, repo.pullWithoutLock. rewrite run_handle, run_call.
  cbn [repo_step ew_repo on_tree]. rewrite pulled_clean by done. eexists. reflexivity.
Qed.

Lemma run_ReadYaml_env {A} (dec : json -> outcome A) p c x f r l n d st :
  f !! fs_key p = Some c -> (v ← parsed c; dec v) = Ok x ->
  exists m, run step (ReadYaml dec p) (on_tree f r l n d st) = (on_tree f r l m d st, Ok x).
Proof.
  intros Hc Hx. unfold ReadYaml. rewrite run_mbind. cbn [Reader env_repo repo_in]. rewrite run_in_env.
  cbn [run repo.Reader call repo_step ew_repo on_tree files]. rewrite Hc. cbn [run lift]. rewrite Hx. by eexists.
Qed.

(** Writing a document and pushing it. *)
Definition pushed_doc (key : string) (v : json) (msg : string) (f : gmap string content) (l : list string) (n d : nat)
    (st : list (string * EnvConfig)) : env_world :=
  on_tree (<[key := Doc v]> f) (<[key := Doc v]> f) (l ++ [msg]) n d st.

Lemma run_allocate fuel m infra req name cidrs ip net f l n d st :
  findNextStartIP cidrs = Ok ip -> NewEnvNetwork ip = Ok net ->
  exists n' m', run step (allocate_env (S fuel) m infra req name cidrs) (on_tree f f l n d st) =
    (pushed_doc (fs_key "env-cidrs.yaml") (encode_cidrs (cidrs ++ [MkCIDR name ip])) ("Allocate CIDR for " +:+ name)
       f l n' (S d) (st ++ [(names d, new_env infra req name net)]),
     Ok (m', Redirect ("/env/" +:+ names d) StatusSeeOther)).
Proof.
  intros Hip Hnet. unfold allocate_env. rewrite run_handle. cbn [run lift]. rewrite Hip, run_handle.
  unfold WriteYaml. rewrite run_mbind. cbn [Writer WriteTo env_repo repo_in]. rewrite !run_in_env.
  cbn [run repo.Writer repo.WriteTo mbind go_bind bindp call repo_step ew_repo on_tree files with_files on_files head_ remote log ops
       ew_draws ew_started].
  rewrite run_in_env. cbn [run call repo.WriteTo repo_step ew_repo files with_files on_files head_ remote log ops ew_draws ew_started].
  rewrite insert_insert_eq, run_handle. cbn [CommitAndPush env_repo repo_in]. rewrite run_in_env.
  cbn [ew_repo]. rewrite run_CommitAndPush; [|done]. cbn [files log ops ew_draws ew_started].
  rewrite run_handle. cbn [run lift]. rewrite Hnet, run_mbind. cbn [key_loop]. rewrite run_handle.
  cbn [Generate env_services run call env_step mret go_ret]. rewrite run_mbind.
  cbn [StartTask env_services run call env_step mret go_ret ew_repo ew_draws ew_started]. do 2 eexists. reflexivity.
Qed.

(** Up to the reading of the allocated ranges. *)
Lemma createEnv_reads fuel m r body req infra cidrs c1 c2 f R l n d st :
  extractRequest r body = Ok req ->
  R !! fs_key "config.yaml" = Some c1 -> (v ← parsed c1; decode_infra_strict v) = Ok infra ->
  R !! fs_key "env-cidrs.yaml" = Some c2 -> (v ← parsed c2; decode_cidrs v) = Ok cidrs ->
  exists k, reaches step (createEnv fuel m r body) (on_tree f R l n d st)
    (allocate_env fuel m infra req (names d) cidrs) (on_tree R R l k (S d) st).
Proof.
  intros Hreq Hc1 Hinfra Hc2 Hcidrs. unfold createEnv.
  destruct (run_Pull_env f R l n d st) as [n1 H1].
  destruct (run_ReadYaml_env decode_infra_strict "config.yaml" c1 infra R R l n1 d st Hc1 Hinfra) as [n2 H2].
  destruct (run_ReadYaml_env decode_cidrs "env-cidrs.yaml" c2 cidrs R R l n2 (S d) st Hc2 Hcidrs) as [n3 H3].
  exists n3. eapply reaches_trans; [by apply reaches_handle|]. cbv beta.
  eapply reaches_trans; [apply reaches_handle; cbn [run lift]; by rewrite Hreq|]. cbv beta.
  eapply reaches_trans; [by apply reaches_handle|]. cbv beta.
  eapply reaches_trans; [apply reaches_handle; reflexivity|]. cbv beta.
  by apply reaches_handle.
Qed.

(** C20. createEnv reads the allocated ranges, picks one and writes the list
    back without a lock: when a second request comes in between, both answer
    with success, both environments are started on the same network, and the
    list in the repository knows only one of them. *)
Theorem overlapping_createEnv_share_network (fuel : nat) (m : env_maps) (r1 r2 : request) (b1 b2 : outcome json)
    (req1 req2 : createEnvReq) (infra : InfraConfig) (cidrs : list EnvCIDR) (c1 c2 : content) (ip : bytes)
    (net : EnvNetwork) (w : env_world)
    (Hclean : clean (ew_repo w)) (Hreq1 : extractRequest r1 b1 = Ok req1) (Hreq2 : extractRequest r2 b2 = Ok req2)
    (Hc1 : remote (ew_repo w) !! fs_key "config.yaml" = Some c1) (Hinfra : (v ← parsed c1; decode_infra_strict v) = Ok infra)
    (Hc2 : remote (ew_repo w) !! fs_key "env-cidrs.yaml" = Some c2) (Hcidrs : (v ← parsed c2; decode_cidrs v) = Ok cidrs)
    (Hip : findNextStartIP cidrs = Ok ip) (Hnet : NewEnvNetwork ip = Ok net) :
  exists sched w' m1 m2 key1 key2 name1 name2,
    run_sched step sched [createEnv (S fuel) m r1 b1; createEnv (S fuel) m r2 b2] w =
      ([Ret (Ok (m1, Redirect ("/env/" +:+ key1) StatusSeeOther)); Ret (Ok (m2, Redirect ("/env/" +:+ key2) StatusSeeOther))], w') /\
    ew_started w' = ew_started w ++ [(key2, new_env infra req2 name2 net); (key1, new_env infra req1 name1 net)] /\
    remote (ew_repo w') !! fs_key "env-cidrs.yaml" = Some (Doc (encode_cidrs (cidrs ++ [MkCIDR name1 ip]))).
Proof.
  destruct w as [[f h R l n b] d st]. unfold clean in Hclean. cbn [ew_repo files head_ remote log ops base] in *. injection Hclean as <- ->.
  destruct (createEnv_reads (S fuel) m r1 b1 req1 infra cidrs c1 c2 f R l n d st) as [k1 H1]; [done..|].
  destruct (createEnv_reads (S fuel) m r2 b2 req2 infra cidrs c1 c2 R R l k1 (S d) st) as [k2 H2]; [done..|].
  destruct (overtaken step _ _ (createEnv (S fuel) m r2 b2) _ _ H1) as [sched Hs].
  (* the second request alone *)
  destruct (run_allocate fuel m infra req2 (names (S d)) cidrs ip net R l k2 (S (S d)) st Hip Hnet) as (n2 & m2 & Ha2).
  assert (Hrun2 : run step (createEnv (S fuel) m r2 b2) (on_tree R R l k1 (S d) st) =
    run step (allocate_env (S fuel) m infra req2 (names (S d)) cidrs) (on_tree R R l k2 (S (S d)) st)) by by apply reaches_run.
  rewrite Hrun2, Ha2 in Hs. cbn [fst snd] in Hs. unfold pushed_doc at 1 2 in Hs.
  destruct (run_allocate fuel m infra req1 (names d) cidrs ip net
    (<[fs_key "env-cidrs.yaml" := Doc (encode_cidrs (cidrs ++ [MkCIDR (names (S d)) ip]))]> R)
    (l ++ ["Allocate CIDR for " +:+ names (S d)]) n2 (S (S (S d)))
    (st ++ [(names (S (S d)), new_env infra req2 (names (S d)) net)]) Hip Hnet) as (n1 & m1 & Ha1).
  rewrite Ha1 in Hs. cbn [fst snd] in Hs. do 8 eexists. split; [exact Hs|].
  unfold pushed_doc, on_tree. cbn [ew_started ew_repo remote]. rewrite <- (assoc_L (++)).
  split; [reflexivity|]. by rewrite lookup_insert_eq.
Qed.
End Race.

(** ** The theorem at a concrete input *)

(** The n-th name drawn. *)
Definition Itoa_name (n : nat) : string := "env" +:+ Itoa (Z.of_nat n).

Definition demo_form (domain : string) : request :=
  MkRequest "POST" "/" ∅ ∅ ∅
    {[ "secret-token" := ["t"]; "domain" := [domain]; "contact-email" := ["a@b"]; "admin-public-key" := ["ssh"] ]} None "".

Definition demo_env_world : env_world :=
  MkEnvWorld (MkRepo ∅ ∅ {[ "/config.yaml" := Doc (encode_infra (MkInfra "dodo" ["1.2.3.4"] "dodo-" ""));
                            "/env-cidrs.yaml" := Doc (encode_cidrs [MkCIDR "x" (subnet_ip 1)]) ]} [] 0) 0 [].

Lemma overlapping_createEnv_share_network_witness :
  exists sched pool w', run_sched (env_step Itoa_name) sched
      [createEnv 1 (MkMaps ∅ ∅ ∅ ∅) (demo_form "a.io") (Err (errorf "EOF"));
       createEnv 1 (MkMaps ∅ ∅ ∅ ∅) (demo_form "b.io") (Err (errorf "EOF"))] demo_env_world = (pool, w') /\
    map (fun ke => DNS (envNetwork ke.2)) (ew_started w') = ["10.0.2.1"; "10.0.2.1"].
Proof.
  destruct (overlapping_createEnv_share_network Itoa_name 0 (MkMaps ∅ ∅ ∅ ∅) (demo_form "a.io") (demo_form "b.io")
    (Err (errorf "EOF")) (Err (errorf "EOF"))
    (MkEnvReq "" "a@b" "a.io" "ssh" "t") (MkEnvReq "" "a@b" "b.io" "ssh" "t") (MkInfra "dodo" ["1.2.3.4"] "dodo-" "")
    [MkCIDR "x" (subnet_ip 1)] (Doc (encode_infra (MkInfra "dodo" ["1.2.3.4"] "dodo-" "")))
    (Doc (encode_cidrs [MkCIDR "x" (subnet_ip 1)])) (subnet_ip 2)
    (MkEnvNetwork "10.0.2.1" "10.44.0.2" "10.0.2.2" "10.0.2.3" "10.0.2.10" "10.0.2.254") demo_env_world)
    as (sched & w' & m1 & m2 & k1 & k2 & n1 & n2 & Hrun & Hst & _); [vm_compute; reflexivity..|].
  exists sched. do 2 eexists. split; [exact Hrun|]. by rewrite Hst.
Defined.
