(* ===== verification/Welcome.v ===== *)
(** * Creating accounts (core/installer/welcome/welcome.go)

    The welcome server: the account is created at the accounts API, the first
    one initialises the memberships, and each gets a headscale user installed by
    the application manager. *)
From S2P Require Import Prelude GoLib GoStrings GoPath RepoIO InstallerTypes AppManager EnvServer.
Open Scope string_scope.
Open Scope list_scope.

Record createAccountReq := MkAccountReq { Username : string; Password : string; SecretToken : string }.

Record ValidationError := MkValidation { vField : string; vMessage : string }.

Record formData := MkFormData { UsernameErrors : list string; PasswordErrors : list string; formReq : createAccountReq }.

Inductive welcome_page :=
  | RegistrationForm (data : formData)
  | RegistrationSuccess (loginAddr : string).

Definition decode_validation (v : json) : outcome ValidationError :=
  f ← json_field "field" json_string "" v;
  m ← json_field "message" json_string "" v;
  Ok (MkValidation f m).

(** ErrorResponse *)
Definition decode_errors (v : json) : outcome (list ValidationError) :=
  json_field "errors" (json_array decode_validation) [] v.

(** The fields of the form up to the first one that is missing. *)
Definition account_fields (v : gmap string (list string)) : createAccountReq * bool :=
  match getFormValue v "username" with
  | Ok u =>
      match getFormValue v "password" with
      | Ok p =>
          match getFormValue v "secret-token" with
          | Ok t => (MkAccountReq u p t, true)
          | _ => (MkAccountReq u p "", false)
          end
      | _ => (MkAccountReq u "" "", false)
      end
  | _ => (MkAccountReq "" "" "", false)
  end.

(** [body]: what a JSON decoder finds where the form parser stopped. *)
Definition extractReq (r : request) (body : outcome json) : outcome createAccountReq :=
  let '(req, complete) :=
    match rform_err r with Some _ => (MkAccountReq "" "" "", false) | None => account_fields (rpost r) end in
  if complete then Ok req
  else
    v ← body;
    u ← json_field "username" json_string (Username req) v;
    p ← json_field "password" json_string (Password req) v;
    t ← json_field "secretToken" json_string (SecretToken req) v;
    Ok (MkAccountReq u p t).

(** apiCreateAccountReq *)
Definition encode_account (req : createAccountReq) : json :=
  JObj (omit_str "username" (Username req) ++ omit_str "password" (Password req)).

(** firstaccount *)
Record firstaccount := MkFirst { Created : bool; Groups : list string }.

Definition json_bool (v : json) : outcome bool :=
  match v with JBool b => Ok b | JNull => Ok false | _ => Err err_json end.

Definition encode_first (fa : firstaccount) : json :=
  JObj [("created", JBool (Created fa)); ("groups", JArr (map JStr (Groups fa)))].

Definition decode_first (v : json) : outcome firstaccount :=
  if negb (known_fields ["created"; "groups"] v) then Err (errorf "unknown field")
  else
    c ← json_field "created" json_bool false v;
    g ← json_field "groups" (json_array json_string) [] v;
    Ok (MkFirst c g).

(** initRequest *)
Definition encode_init (owner : string) (groups : list string) : json :=
  JObj [("owner", JStr owner); ("groups", JArr (map JStr groups))].

(** The headscale-user app of the built-in repository. *)
Record env_app := MkEnvApp {
  eaSlug : string;
  eaNamespace : string;
  eaRender : Release -> EnvConfig -> json -> outcome EnvAppRendered;
}.

Section Server.
Context {E : Type -> Type} `{!RepoIO E} `{!NamespaceCreator E} `{!HttpPost E} `{!PostReply E}.
Context (createAccountAddr loginAddr membershipsInitAddr : string).
Context (Execute : welcome_page -> outcome unit).
(** FindEnvApp(appsRepo, name) on the built-in apps. *)
Context (FindEnvApp : string -> outcome env_app).

Abbreviation answer := (go E (reply welcome_page)).

Definition internal_error (e : error) : answer := mret (HttpError (emsg e) StatusInternalServerError).

Definition renderRegistrationForm (data : formData) : answer :=
  check _u := lift (Execute (RegistrationForm data)) onerr e => internal_error e in
  mret (Page (RegistrationForm data)).

Definition renderRegistrationSuccess : answer :=
  check _u := lift (Execute (RegistrationSuccess loginAddr)) onerr e => internal_error e in
  mret (Page (RegistrationSuccess loginAddr)).

Definition createAccountForm : answer := renderRegistrationForm (MkFormData [] [] (MkAccountReq "" "" "")).

(** The function initMemberships hands to [repo.Do]; the status of the answer
    is not looked at. *)
Definition init_op (username : string) : go E string :=
  fa ← ReadYaml decode_first "first-account.yaml";
  if Created fa then mret ""
  else
    _ ← post_reply membershipsInitAddr "applications/json" (encode_init username (Groups fa));
    _ ← WriteYaml "first-account.yaml" (encode_first (MkFirst true (Groups fa)));
    mret "initialized groups for first account".

Definition initMemberships (username : string) : go E unit := Do (init_op username) false.

Definition account_values (username : string) : json :=
  JObj [("username", JStr username); ("preAuthKey", JObj [("enabled", JBool false)])].

Definition messages (field : string) (l : list ValidationError) : list string :=
  map vMessage (filter (fun e => vField e = field) l).

(** When Post fails there is no response, and the source reads its body. *)
Definition createAccount (fuel : nat) (r : request) (body : outcome json) : answer :=
  check req := lift (extractReq r body) onerr e => internal_error e in
  check resp := post_reply createAccountAddr "application/json" (encode_account req) onerr _e =>
    panic "invalid memory address or nil pointer dereference" in
  if negb (Z.eqb resp.1 StatusOK) then
    check errs := lift (v ← resp.2; decode_errors v) onerr _e =>
      mret (HttpError "Error Decoding JSON" StatusInternalServerError) in
    renderRegistrationForm (MkFormData (messages "username" errs) (messages "password" errs) req)
  else
    check _u := initMemberships (Username req) onerr e => internal_error e in
    check env := Config onerr e => internal_error e in
    check app := lift (FindEnvApp "headscale-user") onerr e => internal_error e in
    let instanceId := eaSlug app +:+ "-" +:+ Username req in
    check _rr := Install (eaRender app) fuel instanceId ("/apps/" +:+ instanceId) (NamespacePrefix env +:+ eaNamespace app)
                  (account_values (Username req)) onerr e => internal_error e in
    renderRegistrationSuccess.

(** Start: the routes. *)
Inductive welcome_route := PostAccount | GetAccountForm.

Definition serve_welcome (fuel : nat) (rt : welcome_route) (r : request) (body : outcome json) : answer :=
  match rt with
  | PostAccount => createAccount fuel r body
  | GetAccountForm => createAccountForm
  end.
End Server.

(** * Proofs *)

(** ** The memberships are initialised once *)

Inductive welcomeE : Type -> Type :=
  | WRepo {X} (e : repoE X) : welcomeE X
  | WPost (addr ctype : string) (body : json) : welcomeE (outcome (Z * outcome json)).

#[local] Instance welcome_repo : RepoIO welcomeE := repo_in (@WRepo) "".
#[local] Instance welcome_post : PostReply welcomeE := fun addr ctype body => call (WPost addr ctype body).

(** The bodies of the requests, and which of them were answered. *)
Record welcome_world := MkWelcome { wl_repo : repo_state; wl_posts : list (json * bool) }.

Definition delivered (w : welcome_world) : list json := map fst (filter (fun p => p.2 = true) (wl_posts w)).

(** [answers n]: the answer to the n-th request, an error when it is not delivered. *)
Definition welcome_step (answers : nat -> outcome (Z * outcome json)) : handler welcomeE welcome_world := fun X e w =>
  match e in welcomeE X return welcome_world * X with
  | WRepo e => let '(s, x) := repo_step (fun _ => None) _ e (wl_repo w) in (MkWelcome s (wl_posts w), x)
  | WPost _ _ body =>
      let a := answers (length (wl_posts w)) in
      (MkWelcome (wl_repo w) (wl_posts w ++ [(body, is_ok a)]), a)
  end.

Lemma run_wrepo answers {A} (p : prog repoE A) w :
  run (welcome_step answers) (embed (@WRepo) p) w =
    let '(s, x) := run (repo_step (fun _ => None)) p (wl_repo w) in (MkWelcome s (wl_posts w), x).
Proof.
  by rewrite (run_embed (@WRepo) (repo_step (fun _ => None)) (welcome_step answers) wl_repo
    (fun s w => MkWelcome s (wl_posts w))) by (try intros []; done).
Qed.

Lemma decode_encode_first fa : decode_first (encode_first fa) = Ok fa.
Proof.
  destruct fa as [c g]. unfold decode_first, encode_first. cbn [Created Groups].
  match goal with |- context [negb ?b] => change b with true end. cbn [negb]. json_simp.
  cbn [json_bool mbind outcome_bind json_array]. by rewrite json_list_strings.
Qed.

Section Once.
Context (answers : nat -> outcome (Z * outcome json)) (addr : string).
Abbreviation step := (welcome_step answers).
Abbreviation init := (initMemberships addr).

Definition first_key : string := fs_key "first-account.yaml".

Definition first_account (w : welcome_world) (fa : firstaccount) : Prop :=
  remote (wl_repo w) !! first_key = Some (Doc (encode_first fa)).

Lemma run_init user fa w :
  clean (wl_repo w) -> first_account w fa ->
  let w' := (run step (init user) w).1 in
  clean (wl_repo w') /\
  if Created fa then wl_posts w' = wl_posts w /\ first_account w' fa
  else
    let a := answers (length (wl_posts w)) in
    wl_posts w' = wl_posts w ++ [(encode_init user (Groups fa), is_ok a)] /\
    first_account w' (MkFirst (is_ok a) (Groups fa)).
Proof.
  intros Hc Hfa. unfold first_account in *. destruct w as [[f h r l n b] posts]. cbn [wl_repo remote] in Hfa, Hc.
  unfold initMemberships. cbn [Do welcome_repo repo_in]. rewrite run_mbind, run_wrepo.
  cbn [wl_repo]. rewrite run_pullWithoutLock by done.
  cbn [remote log ops]. rewrite run_mbind. unfold init_op. rewrite run_mbind. unfold ReadYaml. rewrite run_mbind. cbn [Reader welcome_repo repo_in]. rewrite run_wrepo.
  cbn [run repo.Reader call repo_step wl_repo wl_posts files head_ remote log ops]. fold first_key. rewrite Hfa. cbn [parsed lift run mbind outcome_bind].
  rewrite decode_encode_first. destruct fa as [[] g]; cbn [Created Groups].
  { cbn [run mret go_ret negb]. rewrite run_wrepo. cbn [wl_repo]. by rewrite run_CommitAndPush. }
  rewrite run_mbind. unfold post_reply, welcome_post. rewrite run_call. cbn [welcome_step wl_posts wl_repo].
  destruct (answers (length posts)) as [x|e|y|]; [|by cbn..].
  rewrite run_mbind. unfold WriteYaml. rewrite run_mbind. cbn [Writer WriteTo welcome_repo repo_in]. rewrite run_wrepo.
  cbn [run repo.Writer mbind go_bind bindp call repo_step wl_repo wl_posts with_files on_files tick files head_ remote log ops].
  rewrite run_wrepo. cbn [run repo.WriteTo call repo_step wl_repo wl_posts with_files on_files tick files head_ remote log ops mret go_ret negb].
  rewrite run_wrepo. cbn [wl_repo]. rewrite run_CommitAndPush by done. cbn [wl_repo wl_posts files head_ remote log ops is_ok fst].
  split; [done|]. split; [done|]. fold first_key. cbn. by rewrite lookup_insert_eq.
Qed.

Definition run_all (users : list string) (w : welcome_world) : welcome_world :=
  foldl (fun w user => (run step (init user) w).1) w users.

(** The first user whose request gets through, from the n-th request on. *)
Fixpoint first_delivered (n : nat) (users : list string) : option string :=
  match users with
  | [] => None
  | u :: users' => if is_ok (answers n) then Some u else first_delivered (S n) users'
  end.

Lemma delivered_snoc w b posts repo :
  wl_posts w = posts ++ [b] -> delivered w = delivered (MkWelcome repo posts) ++ (if b.2 then [b.1] else []).
Proof.
  intros Hw. unfold delivered. rewrite Hw. cbn [wl_posts]. rewrite filter_app, map_app. f_equal. by destruct b as [x []].
Qed.

(** The memberships are initialised once: however many accounts are created
    and whichever requests fail, one request at most is delivered, for the first
    user whose request gets through, with the groups of first-account.yaml; an
    environment that is initialised sends none. *)
Theorem memberships_initialised_once (users : list string) (fa : firstaccount) (w : welcome_world)
    (Hclean : clean (wl_repo w)) (Hfa : first_account w fa) (Hnone : delivered w = []) :
  delivered (run_all users w) =
    match Created fa, first_delivered (length (wl_posts w)) users with
    | false, Some u => [encode_init u (Groups fa)]
    | _, _ => []
    end.
Proof.
  assert (Hdone : forall us w fa, clean (wl_repo w) -> first_account w fa -> Created fa = true -> delivered (run_all us w) = delivered w).
  { induction us as [|u us IH]; intros w0 fa0 Hcl H0 Hc; [done|]. cbn [run_all foldl].
    pose proof (run_init u fa0 w0 Hcl H0) as Hr. cbv zeta in Hr. rewrite Hc in Hr. destruct Hr as (Hcl' & Hp & Hf).
    change (delivered (run_all us (run step (init u) w0).1) = delivered w0). rewrite (IH _ fa0) by done.
    unfold delivered. by rewrite Hp. }
  destruct (Created fa) eqn:Hc; [by rewrite (Hdone _ _ fa)|]. revert w fa Hclean Hfa Hnone Hc.
  induction users as [|u users IH]; intros w fa Hclean Hfa Hnone Hc; [done|]. cbn [run_all foldl first_delivered].
  pose proof (run_init u fa w Hclean Hfa) as Hr. cbv zeta in Hr. rewrite Hc in Hr. destruct Hr as (Hcl & Hp & Hf).
  set (w' := (run step (init u) w).1) in *.
  change (delivered (run_all users w') = match (if is_ok (answers (length (wl_posts w))) then Some u
    else first_delivered (S (length (wl_posts w))) users) with Some u => [encode_init u (Groups fa)] | None => [] end).
  pose proof (delivered_snoc w' _ _ (wl_repo w) Hp) as Hd.
  assert (Hw : delivered (MkWelcome (wl_repo w) (wl_posts w)) = []) by exact Hnone. rewrite Hw in Hd. cbn [fst snd app] in Hd.
  destruct (is_ok (answers (length (wl_posts w)))).
  - by rewrite (Hdone _ _ _ Hcl Hf eq_refl).
  - rewrite (IH w' _ Hcl Hf Hd eq_refl). rewrite Hp, length_app. cbn [length Groups]. by rewrite Nat.add_1_r.
Qed.
End Once.

(** ** The theorem at a concrete input *)

Definition demo_answers (n : nat) : outcome (Z * outcome json) :=
  match n with 0 => Err (errorf "connection refused") | _ => Ok (500%Z, Ok JNull) end.

Definition demo_welcome : welcome_world :=
  MkWelcome (MkRepo ∅ ∅ {[ "/first-account.yaml" := Doc (encode_first (MkFirst false ["admin"])) ]} [] 0) [].

Lemma memberships_initialised_once_witness :
  delivered (run_all demo_answers "http://memberships" ["ann"; "bob"; "cid"] demo_welcome) = [encode_init "bob" ["admin"]].
Proof.
  rewrite (memberships_initialised_once demo_answers "http://memberships" ["ann"; "bob"; "cid"] (MkFirst false ["admin"])
    demo_welcome); [reflexivity|reflexivity|vm_compute; reflexivity|reflexivity].
Defined.
