(* ===== verification/AppServer.v ===== *)
(** * The web servers over the application manager (core/installer/welcome)

    AppManagerServer (appmanager.go) and the launcher (launcher.go). *)
From S2P Require Import Prelude GoLib GoStrings GoUtf GoPath RepoIO InstallerTypes AppManager Welcome.
From stdpp Require Import sorting.
From Stdlib Require Import Ascii.
Open Scope string_scope.
Open Scope list_scope.

(** ** AppManagerServer *)

(** What the handlers use of an app of the repository; the renderer is there
    for an EnvApp only. *)
Record repo_app := MkApp {
  apName : string;
  apIcon : string;
  apDescription : string;
  apSlug : string;
  apNamespace : string;
  apRender : option (Release -> EnvConfig -> json -> outcome EnvAppRendered);
}.

(** app: the answer of the API. *)
Record app := MkAppJson {
  ajName : string;
  ajIcon : string;
  ajShortDescription : string;
  ajSlug : string;
  ajInstances : list AppInstanceConfig;
}.

Class AppServices (E : Type -> Type) := {
  Suffix : go E string;                        (* NewFixedLengthRandomSuffixGenerator(3).Generate() *)
  Reconcile : go E unit;                       (* go s.reconciler.Reconcile(ctx) *)
  Monitor : string -> list Resource -> go E unit;   (* go t.Start() of NewMonitorRelease *)
}.

(** What a handler answers; an error goes to echo. *)
Inductive app_answer :=
  | AppsJson (l : list app)
  | AppJson (a : app)
  | Text (s : string)
  | IndexPage (l : list app)
  | AppPage (a : repo_app) (instance : option AppInstanceConfig) (instances : list AppInstanceConfig)
      (networks : list Network) (in_progress : bool).

Definition app_json (a : repo_app) (instances : list AppInstanceConfig) : app :=
  MkAppJson (apName a) (apIcon a) (apDescription a) (apSlug a) instances.

Section Server.
Context {E : Type -> Type} `{!RepoIO E} `{!NamespaceCreator E} `{!HttpPost E} `{!AppServices E}.
Context (appDirRoot : string).
(** The app repository s.r, and Execute of the templates. *)
Context (GetAll : outcome (list repo_app)) (Find : string -> outcome repo_app).
Context (Execute : app_answer -> outcome unit).

(** s.tasks: the instances with a task in progress. *)
Abbreviation answer := (go E (gset string * app_answer)).

Definition FindEnvApp (slug : string) : outcome (repo_app * (Release -> EnvConfig -> json -> outcome EnvAppRendered)) :=
  a ← Find slug;
  match apRender a with
  | Some render => Ok (a, render)
  | None => Err (errorf "not found")
  end.

Definition handleAppRepo (tasks : gset string) : answer :=
  all ← lift GetAll;
  mret (tasks, AppsJson (map (fun a => app_json a []) all)).

Definition handleApp (tasks : gset string) (slug : string) : answer :=
  a ← lift (Find slug);
  instances ← FindAllAppInstances appDirRoot slug;
  mret (tasks, AppJson (app_json a instances)).

Definition handleInstance (tasks : gset string) (slug : string) : answer :=
  instance ← FindInstance appDirRoot slug;
  a ← lift (Find (AppId instance));
  mret (tasks, AppJson (app_json a [instance])).

(** The body of a request as a map[string]any. *)
Definition decode_values (body : outcome json) : outcome json := v ← body; json_map v.

Definition handleAppInstall (fuel : nat) (tasks : gset string) (slug : string) (body : outcome json) : answer :=
  values ← lift (decode_values body);
  ar ← lift (FindEnvApp slug);
  env ← Config;
  suffix ← Suffix;
  let instanceId := apSlug ar.1 +:+ suffix in
  rr ← Install ar.2 fuel instanceId ("/apps/" +:+ instanceId) (NamespacePrefix env +:+ apNamespace ar.1 +:+ suffix) values;
  _ ← Reconcile;
  if decide (instanceId ∈ tasks) then panic "MUST NOT REACH!"
  else
    _ ← Monitor instanceId rr;
    mret ({[instanceId]} ∪ tasks, Text ("/instance/" +:+ instanceId)).

(** Update returns no resources, so the task that follows monitors nothing. *)
Definition handleAppUpdate (fuel : nat) (tasks : gset string) (slug : string) (body : outcome json) : answer :=
  cfg ← AppConfig appDirRoot slug;
  values ← lift (decode_values body);
  ar ← lift (FindEnvApp (AppId cfg));
  if decide (slug ∈ tasks) then fail (errorf "Update already in progress")
  else
    _ ← Update appDirRoot ar.2 fuel slug values false;
    _ ← Reconcile;
    _ ← Monitor slug [];
    mret ({[slug]} ∪ tasks, Text ("/instance/" +:+ slug)).

Definition handleAppRemove (tasks : gset string) (slug : string) : answer :=
  _ ← Remove appDirRoot slug;
  _ ← Reconcile;
  mret (tasks, Text "/").

Definition execute (tasks : gset string) (p : app_answer) : answer :=
  _ ← lift (Execute p); mret (tasks, p).

Definition handleIndex (tasks : gset string) : answer :=
  all ← lift GetAll;
  execute tasks (IndexPage (map (fun a => app_json a []) all)).

Definition handleAppUI (tasks : gset string) (slug : string) : answer :=
  global ← Config;
  ar ← lift (FindEnvApp slug);
  instances ← FindAllAppInstances appDirRoot slug;
  execute tasks (AppPage ar.1 None instances (CreateNetworks global) false).

Definition handleInstanceUI (tasks : gset string) (slug : string) : answer :=
  global ← Config;
  instance ← FindInstance appDirRoot slug;
  ar ← lift (FindEnvApp (AppId instance));
  instances ← FindAllAppInstances appDirRoot (apSlug ar.1);
  execute tasks (AppPage ar.1 (Some instance) instances (CreateNetworks global) (bool_decide (slug ∈ tasks))).
End Server.

(** ** The launcher *)

(** AppLauncherInfo, with the help documents before their conversion to HTML. *)
Record AppLauncherInfo := MkLauncherInfo { liName : string; liIcon : string; liHelp : json; liUrl : string }.

Definition no_help (h : json) : bool := match h with JArr (_ :: _) => false | _ => true end.

(** a < b on strings, byte by byte. *)
Fixpoint string_less (a b : string) : bool :=
  match a, b with
  | _, "" => false
  | "", String _ _ => true
  | String c a', String d b' =>
      if Ascii.eqb c d then string_less a' b' else (ascii_code c <? ascii_code d)%nat
  end.

(** The comparison handed to sort.Slice. *)
Definition less (x y : AppLauncherInfo) : bool :=
  if String.eqb (liName x) "app-manager" then true
  else if String.eqb (liName y) "app-manager" then false
  else if String.eqb (liName x) "headscale" then negb (String.eqb (liName y) "app-manager")
  else if String.eqb (liName y) "headscale" then false
  else string_less (liName x) (liName y).

(** sort.Slice: up to twelve elements it is this insertion sort, which moves
    each element back over those it is less than; beyond, another order of
    comparisons, with the same result when the names are distinct. *)
Fixpoint insert_back (x : AppLauncherInfo) (rl : list AppLauncherInfo) : list AppLauncherInfo :=
  match rl with
  | [] => [x]
  | y :: rl' => if less x y then y :: insert_back x rl' else x :: rl
  end.

Definition sort_infos (l : list AppLauncherInfo) : list AppLauncherInfo :=
  rev (foldl (fun rl x => insert_back x rl) [] l).

Definition launcher_info (a : AppInstanceConfig) : option AppLauncherInfo :=
  if String.eqb (cfgURL a) "" && no_help (Help a) then None
  else Some (MkLauncherInfo (AppId a) (cfgIcon a) (Help a) (cfgURL a)).

Definition GetAllApps {E} `{!RepoIO E} (appDirRoot : string) : go E (list AppLauncherInfo) :=
  all ← FindAllInstances appDirRoot;
  mret (sort_infos (omap launcher_info all)).

Definition launcher_user (r : request) : outcome string :=
  if negb (String.eqb (HeaderGet r "X-User") "") then Ok (HeaderGet r "X-User") else Err (errorf "unauthenticated").

(** An error of the directory is written to the client, and the page after it
    all the same: the handler does not return. *)
Inductive launcher_answer :=
  | NotLoggedIn
  | HomePage (user : string) (apps : list AppLauncherInfo) (written_before : option error).

Definition homeHandler {E} `{!RepoIO E} (appDirRoot : string) (r : request) : go E launcher_answer :=
  check user := lift (launcher_user r) onerr _e => mret NotLoggedIn in
  check apps := GetAllApps appDirRoot onerr e => mret (HomePage user [] (Some e)) in
  mret (HomePage user apps None).

(** * Proofs *)

(** ** The order of the launcher *)

(** app-manager, then headscale, then the others by name. *)
Definition rank (x : AppLauncherInfo) : nat :=
  if String.eqb (liName x) "app-manager" then 0 else if String.eqb (liName x) "headscale" then 1 else 2.

(** [before x y]: x may stand before y. *)
Definition before (x y : AppLauncherInfo) : Prop :=
  rank x < rank y \/ (rank x = rank y /\ (rank x = 2 -> string_less (liName y) (liName x) = false)).

Lemma string_less_asym a b : string_less a b = true -> string_less b a = false.
Proof.
  revert b. induction a as [|c a IH]; intros [|d b]; cbn [string_less]; try done.
  destruct (Ascii.eqb_spec c d) as [->|Hne].
  - rewrite Ascii.eqb_refl. apply IH.
  - rewrite (proj2 (Ascii.eqb_neq d c)) by done. rewrite Nat.ltb_lt, Nat.ltb_ge. lia.
Qed.

Lemma less_before x y : less x y = true -> before x y.
Proof.
  unfold less, before, rank. destruct (String.eqb (liName x) "app-manager"), (String.eqb (liName y) "app-manager"),
    (String.eqb (liName x) "headscale"), (String.eqb (liName y) "headscale"); try done; try (intros _; left; lia);
    try (intros _; right; split; [done|discriminate]).
  intros H. right. split; [done|]. intros _. by apply string_less_asym.
Qed.

Lemma not_less_before x y : less x y = false -> before y x.
Proof.
  unfold less, before, rank. destruct (String.eqb (liName x) "app-manager"), (String.eqb (liName y) "app-manager"),
    (String.eqb (liName x) "headscale"), (String.eqb (liName y) "headscale"); try done; try (intros _; left; lia).
  intros H. right. split; [done|]. by intros _.
Qed.

Lemma insert_back_perm x rl : insert_back x rl ≡ₚ x :: rl.
Proof.
  induction rl as [|y rl IH]; cbn [insert_back]; [done|]. destruct (less x y); [|done]. rewrite IH. apply Permutation_swap.
Qed.

Lemma string_le_trans a b c : string_less b a = false -> string_less c b = false -> string_less c a = false.
Proof.
  revert b c. induction a as [|x a IH]; intros [|y b] [|z c]; cbn [string_less]; try done.
  destruct (Ascii.eqb_spec z y) as [->|H1]; [destruct (Ascii.eqb y x); [apply IH|done]|].
  destruct (Ascii.eqb_spec y x) as [->|H2]; [by rewrite (proj2 (Ascii.eqb_neq z x))|].
  destruct (Ascii.eqb_spec z x) as [->|H3]; rewrite !Nat.ltb_ge; [|lia]. intros Ha Hb.
  destruct H1. unfold ascii_code in *. rewrite <- (ascii_nat_embedding y), <- (ascii_nat_embedding x). f_equal. lia.
Qed.

Lemma before_trans x y z : before x y -> before y z -> before x z.
Proof.
  intros [H1|[H1 H1']] [H2|[H2 H2']]; [left; lia..|]. right. split; [lia|]. intros Hr.
  apply (string_le_trans _ (liName y)); [apply H1'|apply H2']; lia.
Qed.

Abbreviation sorted_back := (StronglySorted (flip before)).

Lemma insert_back_sorted x rl : sorted_back rl -> sorted_back (insert_back x rl).
Proof.
  induction 1 as [|y rl Hrl IH Hy]; cbn [insert_back]; [by repeat constructor|]. destruct (less x y) eqn:Hxy.
  - constructor; [done|]. rewrite insert_back_perm. constructor; [by apply less_before|done].
  - constructor; [by constructor|]. apply not_less_before in Hxy. constructor; [done|].
    eapply Forall_impl; [exact Hy|]. intros z Hz. by apply (before_trans _ y).
Qed.

Lemma StronglySorted_rev (l : list AppLauncherInfo) : sorted_back l -> StronglySorted before (rev l).
Proof.
  induction 1 as [|x l _ IH Hx]; cbn [rev]; [constructor|]. apply StronglySorted_app. split_and!; [|done|by repeat constructor].
  intros y z Hy ->%list_elem_of_singleton. rewrite Forall_forall in Hx. apply (Hx y).
  by rewrite list_elem_of_In, <- in_rev, <- list_elem_of_In in Hy.
Qed.

Lemma sort_infos_spec l : sort_infos l ≡ₚ l /\ StronglySorted before (sort_infos l).
Proof.
  assert (H : forall l rl, sorted_back rl -> foldl (fun rl x => insert_back x rl) rl l ≡ₚ l ++ rl /\
    sorted_back (foldl (fun rl x => insert_back x rl) rl l)).
  { clear l. induction l as [|x l IH]; intros rl Hrl; [done|]. cbn [foldl]. destruct (IH _ (insert_back_sorted x rl Hrl)) as [Hp Hs].
    split; [|done]. rewrite Hp, insert_back_perm. symmetry. apply Permutation_middle. }
  destruct (H l [] ltac:(constructor)) as [Hp Hs]. rewrite app_nil_r in Hp. split; [|by apply StronglySorted_rev].
  unfold sort_infos. by rewrite <- Permutation_rev.
Qed.

(** The launcher shows every instance with an address or a help text once, the
    application manager first, then headscale, then the others by name. *)
Theorem launcher_order {E S} `{!RepoIO E} (h : handler E S) (root : string) (r : request) (s s' : S) (all : list AppInstanceConfig)
    (Huser : HeaderGet r "X-User" <> "") (Hall : run h (FindAllInstances root) s = (s', Ok all)) :
  exists infos, run h (homeHandler root r) s = (s', Ok (HomePage (HeaderGet r "X-User") infos None)) /\
    infos ≡ₚ omap launcher_info all /\ StronglySorted before infos.
Proof.
  exists (sort_infos (omap launcher_info all)). split; [|apply sort_infos_spec].
  unfold homeHandler, launcher_user. destruct (String.eqb_spec (HeaderGet r "X-User") ""); [done|]. cbn [negb].
  rewrite run_handle. cbn [lift run]. rewrite run_handle. unfold GetAllApps. by rewrite run_mbind, Hall.
Qed.

(** * The page of the launcher (launcher.go, launcher-tmpl/launcher.html, static/launcher.js)

    What the templates make of users and apps, and which dialog a help button opens. *)

(** ** launcher.go *)

Definition upper_char (c : ascii) : ascii := if is_lower c then ascii_of_nat (ascii_code c - 32) else c.

(** strings.ToUpper(username[:1]): the first byte; when it is a part of a longer
    form it becomes the replacement character. *)
Definition getUserInitials (username : string) : string :=
  match username with
  | "" => ""
  | String c _ => if (ascii_code c <? 128)%nat then String (upper_char c) "" else text_of_runes [RuneError]
  end.

Definition cleanAppName (name : string) : string := ReplaceAll (ToLower name) " "%char "-".

Inductive HelpDocument := Help (title contents : string) (children : list HelpDocument).
Inductive HelpDocumentRendered := HelpRendered (title html : string) (children : list HelpDocumentRendered).

(** [ToHTML] of gomarkdown is a parameter. *)
Fixpoint rendered_help (ToHTML : string -> string) (h : HelpDocument) : HelpDocumentRendered :=
  let '(Help title contents children) := h in HelpRendered title (ToHTML contents) (map (rendered_help ToHTML) children).

Definition toMarkdown (ToHTML : string -> string) (help : list HelpDocument) : list HelpDocumentRendered := map (rendered_help ToHTML) help.

(** Every document is there, in its place. *)
Fixpoint titles (h : HelpDocument) : list string :=
  let '(Help title _ children) := h in title :: concat (map titles children).
Fixpoint rendered_titles (h : HelpDocumentRendered) : list string :=
  let '(HelpRendered title _ children) := h in title :: concat (map rendered_titles children).

Lemma toMarkdown_titles ToHTML help : map rendered_titles (toMarkdown ToHTML help) = map titles help.
Proof.
  assert (Hone : forall h, rendered_titles (rendered_help ToHTML h) = titles h).
  { fix go 1. intros [t c l]. cbn [rendered_help rendered_titles titles]. f_equal. f_equal. induction l as [|h l IH]; [done|].
    cbn [map]. by rewrite go, IH. }
  unfold toMarkdown. induction help as [|h help IH]; [done|]. cbn [map]. by rewrite Hone, IH.
Qed.

(** ** The elements of the page *)

Definition button_id (a : AppLauncherInfo) : string := "help-button-" +:+ cleanAppName (liName a).
Definition modal_id (a : AppLauncherInfo) : string := "modal-" +:+ cleanAppName (liName a).

(** document.getElementById: the first of the page. *)
Definition getElementById (page : list AppLauncherInfo) (id : string) : option AppLauncherInfo :=
  find (fun a => String.eqb (modal_id a) id) page.

(** 'modal-' + buttonId.substring("help-button-".length) *)
Definition opened_by (page : list AppLauncherInfo) (button : string) : option AppLauncherInfo :=
  getElementById page ("modal-" +:+ str_drop (String.length "help-button-") button).

Lemma modal_of_button a : "modal-" +:+ str_drop (String.length "help-button-") (button_id a) = modal_id a.
Proof. unfold button_id. by rewrite str_drop_app. Qed.

(** A help button opens a dialog; it is that of its own app when no app before
    it on the page has the same name, up to case and spaces. *)
Theorem help_button_opens (before after : list AppLauncherInfo) (a : AppLauncherInfo) :
  exists b, opened_by (before ++ a :: after) (button_id a) = Some b /\ cleanAppName (liName b) = cleanAppName (liName a) /\
    ((forall x, x ∈ before -> cleanAppName (liName x) <> cleanAppName (liName a)) -> b = a) /\
    (forall x, x ∈ before -> cleanAppName (liName x) = cleanAppName (liName a) -> b ∈ before).
Proof.
  unfold opened_by. rewrite modal_of_button. unfold getElementById.
  assert (Hid : forall x, modal_id x = modal_id a <-> cleanAppName (liName x) = cleanAppName (liName a)).
  { intros x. unfold modal_id. split; [apply str_app_inj_l|by intros ->]. }
  induction before as [|y before IH]; cbn [Datatypes.app find].
  - rewrite String.eqb_refl. exists a. split_and!; try done. intros x Hx. by apply elem_of_nil in Hx.
  - destruct (String.eqb_spec (modal_id y) (modal_id a)) as [Heq|Hne].
    + exists y. apply Hid in Heq. split_and!; [done|done| |].
      * intros Hall. by destruct (Hall y ltac:(by left)).
      * intros _ _ _. by left.
    + destruct IH as (b & Hb & Hc & H1 & H2). exists b. split_and!; [done|done| |].
      * intros Hall. apply H1. intros x Hx. apply Hall. by right.
      * intros x Hx Hx'. apply elem_of_cons in Hx as [->|Hx]; [by apply Hid in Hx'|]. right. by eapply H2.
Qed.

(** Two instances of an app have one dialog: the button of the second opens the
    help of the first. *)
Lemma instances_share_help (i1 i2 : AppInstanceConfig) (x1 x2 : AppLauncherInfo) :
  launcher_info i1 = Some x1 -> launcher_info i2 = Some x2 -> AppId i1 = AppId i2 -> opened_by [x1; x2] (button_id x2) = Some x1.
Proof.
  unfold launcher_info. intros H1 H2 Hid. repeat case_match; simplify_eq. unfold opened_by. rewrite modal_of_button.
  unfold getElementById, modal_id. cbn [find liName]. by rewrite Hid, String.eqb_refl.
Qed.

(** The initial of a name that is not ASCII is no letter. *)
Example initials : map getUserInitials ["gio"; text_of_runes [4306; 4312; 4317]%Z] = ["G"; text_of_runes [RuneError]].
Proof. reflexivity. Qed.
