(* ===== verification/AuthUi.v ===== *)
(** * Auth UI (core/auth/ui)

    Registration, login, logout and consent pages between Kratos (identities and
    sessions) and Hydra (OAuth2), and the API that creates identities.  The two
    services answer HTTP requests; regogo queries and templates are parameters. *)
From S2P Require Import Prelude GoLib GoStrings GoJson.
From Stdlib Require Import Ascii.
Open Scope string_scope.
Open Scope list_scope.

(** ** net/http: cookies and clients *)

Record cookie := MkCookie { ckName : string; ckValue : string }.

#[export] Instance cookie_eq_dec : EqDecision cookie.
Proof. solve_decision. Defined.

Definition token_char (c : ascii) : bool :=
  is_lower c || is_upper c || is_digit c ||
  existsb (Ascii.eqb c) ["!"; "#"; "$"; "%"; "&"; "'"; "*"; "+"; "-"; "."; "^"; "_"; "`"; "|"; "~"]%char.

Definition cookie_value_char (c : ascii) : bool :=
  (32 <=? ascii_code c)%nat && (ascii_code c <? 127)%nat &&
  negb (Ascii.eqb c quote) && negb (Ascii.eqb c ";"%char) && negb (Ascii.eqb c backslash).

(** strings.Cut at the first separator. *)
Fixpoint Cut (s : string) (sep : ascii) : string * string :=
  match s with
  | "" => ("", "")
  | String c s' => if Ascii.eqb c sep then ("", s') else let '(a, b) := Cut s' sep in (String c a, b)
  end.

Definition unquoted (v : string) : string :=
  match v with
  | String c v' =>
      if (Ascii.eqb c quote && HasSuffix v' (String quote ""))%bool then TrimSuffix v' (String quote "") else v
  | "" => v
  end.

Definition read_cookie (part : string) : list cookie :=
  let '(n, v) := Cut (TrimSpace part) "="%char in
  let name := TrimSpace n in
  let v := unquoted v in
  if negb (String.eqb name "") && forall_char token_char name && forall_char cookie_value_char v
  then [MkCookie name v] else [].

(** r.Cookies *)
Definition Cookies (r : request) : list cookie :=
  flat_map (fun line => flat_map read_cookie (Split line ";"%char)) (default [] (rheader r !! "Cookie")).

(** r.Cookie: the first one of that name. *)
Definition Cookie (r : request) (name : string) : option cookie :=
  List.find (fun c => String.eqb (ckName c) name) (Cookies r).

Inductive body :=
  | NoBody
  | TextBody (s : string)
  | JsonBody (v : json)
  | FormBody (m : gmap string (list string)).

(** What a client sends: the cookies put in its jar, whether it follows redirects. *)
Record http_req := MkHttpReq { q_method : string; q_url : string; q_jar : list cookie; q_follow : bool; q_body : body }.

Record http_resp := MkHttpResp { StatusCode : Z; Location : string; RespCookies : list cookie; Body : outcome json }.

Inductive uiE : Type -> Type :=
  | Do (q : http_req) : uiE (outcome http_resp).

(** r.Form: the fields of the body, then those of the URL. *)
Definition Form (r : request) (k : string) : option (list string) :=
  match rpost r !! k, rquery r !! k with
  | None, None => None
  | p, q => Some (default [] p ++ default [] q)
  end.

Definition first_of (l : list string) : outcome string :=
  match l with v :: _ => Ok v | [] => Panic "index out of range" end.

(** ** hydra.go *)

Record loginResp := MkLoginResp { RedirectTo : string; lrError : string; ErrorDebug : string; ErrorDescription : string; lrStatus : Z }.

Definition json_int (v : json) : outcome Z :=
  match v with JNum n => Ok n | JNull => Ok 0%Z | _ => Err err_json end.

Definition decode_login (v : json) : outcome loginResp :=
  r ← json_field "redirect_to" json_string "" v;
  e ← json_field "error" json_string "" v;
  d ← json_field "error_debug" json_string "" v;
  s ← json_field "error_description" json_string "" v;
  c ← json_field "status_code" json_int 0%Z v;
  Ok (MkLoginResp r e d s c).

(** A nil slice is None. *)
Record RequestedConsent := MkConsent { Challenge : string; Subject : string; RequestedScopes : option (list string) }.

Definition json_slice (v : json) : outcome (option (list string)) :=
  match v with JNull => Ok None | _ => l ← json_array json_string v; Ok (Some l) end.

Definition decode_consent (v : json) : outcome RequestedConsent :=
  c ← json_field "challenge" json_string "" v;
  s ← json_field "subject" json_string "" v;
  l ← json_field "requested_scope" json_slice None v;
  Ok (MkConsent c s l).

Definition encode_slice (l : option (list string)) : json :=
  match l with None => JNull | Some l => JArr (map JStr l) end.

(** consentAcceptReq; the keys of a map are written in order. *)
Definition encode_accept (scopes : option (list string)) (username email : string) : json :=
  JObj [("grant_scope", encode_slice scopes);
        ("session", JObj [("id_token", JObj [("email", JStr email); ("username", JStr username)])])].

Definition accept_text : string := quotes "
{
    'subject': '%s',
    'remember': true,
    'remember_for': 3600
}".

Definition reject_text : string := quotes "
{
    'error': 'login_required %s'
}".

Definition accept_login (host challenge subject : string) : http_req :=
  MkHttpReq "PUT" ("http://" +:+ host +:+ "/admin/oauth2/auth/requests/login/accept?" +:+ Sprintf "login_challenge=%s" [challenge])
    [] true (TextBody (Sprintf accept_text [subject])).

Definition reject_login (host challenge message : string) : http_req :=
  MkHttpReq "PUT" ("http://" +:+ host +:+ "/admin/oauth2/auth/requests/login/reject?" +:+ Sprintf "login_challenge=%s" [challenge])
    [] true (TextBody (Sprintf reject_text [message])).

Definition accept_consent (host challenge : string) (scopes : option (list string)) (username email : string) : http_req :=
  MkHttpReq "PUT" ("http://" +:+ host +:+ "/admin/oauth2/auth/requests/consent/accept?" +:+ Sprintf "challenge=%s" [challenge])
    [] true (JsonBody (encode_accept scopes username email)).

Definition LoginAcceptChallenge (host challenge subject : string) : go uiE string :=
  resp ← call (Do (accept_login host challenge subject));
  r ← lift (v ← Body resp; decode_login v);
  if negb (String.eqb (lrError r) "") then fail (errorf (lrError r)) else mret (RedirectTo r).

Definition LoginRejectChallenge (host challenge message : string) : go uiE string :=
  resp ← call (Do (reject_login host challenge message));
  r ← lift (v ← Body resp; decode_login v);
  if negb (String.eqb (lrError r) "") then fail (errorf (lrError r)) else mret (RedirectTo r).

Definition GetConsentChallenge (host challenge : string) : go uiE RequestedConsent :=
  resp ← call (Do (MkHttpReq "GET" (Sprintf "http://%s/admin/oauth2/auth/requests/consent?consent_challenge=%s" [host; challenge]) [] true NoBody));
  lift (v ← Body resp; decode_consent v).

Definition ConsentAccept (host challenge : string) (scopes : option (list string)) (username email : string) : go uiE string :=
  resp ← call (Do (accept_consent host challenge scopes username email));
  lift (v ← Body resp; json_field "redirect_to" json_string "" v).

(** ** main.go *)

Definition ErrNotLoggedIn : error := MkErr KNotLoggedIn "Not logged in".

Inductive ui_page :=
  | RegisterPage (csrfToken : string)
  | LoginPage (csrfToken : string) (enableRegistration : bool)
  | WhoAmIPage (username : string).

(** The cookies a handler sets and what it sends. *)
Record ui_answer := MkUiAnswer { setCookies : list cookie; sent : reply ui_page }.

Record ui_server := MkUiServer { kratos : string; hydra : string; emailDomain : string; enableRegistration : bool }.

(** regReq *)
Definition encode_registration (csrf password username : string) : json :=
  JObj [("csrf_token", JStr csrf); ("method", JStr "password"); ("password", JStr password);
        ("traits", JObj [("username", JStr username)])].

Section Server.
(** regogo.Get on the text of a body, url.Parse, the templates. *)
Context (Regogo : outcome json -> string -> outcome string).
Context (url_parse : string -> outcome unit).
Context (Execute : ui_page -> outcome unit).
Context (s : ui_server).

(** A client whose jar holds the cookies for the address of the flow. *)
Definition jar_request (addr : string) (q : http_req) : go uiE http_resp :=
  _ ← lift (url_parse addr);
  call (Do q).

Definition flow_addr (flowType : string) : string := kratos s +:+ "/self-service/" +:+ flowType +:+ "/browser".

Definition getCSRFToken (flowType flow : string) (cookies : list cookie) : go uiE string :=
  resp ← jar_request (flow_addr flowType)
    (MkHttpReq "GET" (kratos s +:+ "/self-service/" +:+ flowType +:+ Sprintf "/flows?id=%s" [flow]) cookies true NoBody);
  lift (Regogo (Body resp) "input.ui.nodes[0].attributes.value").

Definition postToKratos (flowType flow : string) (cookies : list cookie) (req : json) : go uiE http_resp :=
  jar_request (flow_addr flowType)
    (MkHttpReq "POST" (kratos s +:+ "/self-service/" +:+ flowType +:+ Sprintf "?flow=%s" [flow]) cookies true (JsonBody req)).

Definition postFormToKratos (flowType flow : string) (cookies : list cookie) (data : gmap string (list string)) : go uiE http_resp :=
  jar_request (flow_addr flowType)
    (MkHttpReq "POST" (kratos s +:+ "/self-service/" +:+ flowType +:+ Sprintf "?flow=%s" [flow]) cookies false (FormBody data)).

Definition getLogoutURLFromKratos (cookies : list cookie) : go uiE string :=
  resp ← jar_request (kratos s +:+ "/self-service/logout/browser")
    (MkHttpReq "GET" (kratos s +:+ "/self-service/logout/browser") cookies true NoBody);
  lift (v ← Body resp; json_field "logout_url" json_string "" v).

Definition whoami_request (cookies : list cookie) : http_req :=
  MkHttpReq "GET" (kratos s +:+ "/sessions/whoami") cookies true NoBody.

Definition session_name (resp : http_resp) : outcome string :=
  username ← Regogo (Body resp) "input.identity.traits.username";
  if String.eqb username "" then Err ErrNotLoggedIn else Ok username.

Definition getWhoAmIFromKratos (cookies : list cookie) : go uiE string :=
  resp ← jar_request (kratos s +:+ "/sessions/whoami") (whoami_request cookies);
  lift (session_name resp).

Definition extractError (doc : outcome json) : outcome unit :=
  t ← Regogo doc "input.ui.messages[0].type";
  if String.eqb t "error" then m ← Regogo doc "input.ui.messages[0].text"; Err (errorf m) else Ok tt.

Definition send (cs : list cookie) (a : reply ui_page) : go uiE ui_answer := mret (MkUiAnswer cs a).
Definition internal (cs : list cookie) (e : error) : go uiE ui_answer := send cs (HttpError (emsg e) StatusInternalServerError).

Definition render (p : ui_page) (cs : list cookie) : go uiE ui_answer :=
  check _u := lift (Execute p) onerr e => internal cs e in send cs (Page p).

Definition registerInitiate (r : request) : go uiE ui_answer :=
  match rform_err r with
  | Some e => internal [] e
  | None =>
      match Form r "flow" with
      | None => send [] (Redirect (kratos s +:+ "/self-service/registration/browser") StatusSeeOther)
      | Some fl =>
          flow ← lift (first_of fl);
          check csrfToken := getCSRFToken "registration" flow (Cookies r) onerr e => internal [] e in
          render (RegisterPage csrfToken) []
      end
  end.

Definition register (r : request) : go uiE ui_answer :=
  match rform_err r with
  | Some e => internal [] e
  | None =>
      match Form r "flow" with
      | None => send [] (Redirect (kratos s +:+ "/self-service/registration/browser") StatusSeeOther)
      | Some fl =>
          let req := encode_registration (FormValue r "csrf_token") (FormValue r "password") (FormValue r "username") in
          flow ← lift (first_of fl);
          check resp := postToKratos "registration" flow (Cookies r) req onerr e => internal [] e in
          send (RespCookies resp) (Redirect "/" StatusSeeOther)
      end
  end.

(** r.Form.Get *)
Definition FormGet (r : request) (k : string) : string :=
  match Form r k with Some (v :: _) => v | _ => "" end.

Definition show_login (r : request) (cs : list cookie) : go uiE ui_answer :=
  let returnTo := FormGet r "return_to" in
  match Form r "flow" with
  | None =>
      let addr := kratos s +:+ "/self-service/login/browser" in
      let addr := if negb (String.eqb returnTo "") then addr +:+ Sprintf "?return_to=%s" [returnTo] else addr in
      send cs (Redirect addr StatusSeeOther)
  | Some fl =>
      flow ← lift (first_of fl);
      check csrfToken := getCSRFToken "login" flow (Cookies r) onerr e => internal cs e in
      render (LoginPage csrfToken (enableRegistration s)) cs
  end.

Definition loginInitiate (r : request) : go uiE ui_answer :=
  match rform_err r with
  | Some e => internal [] e
  | None =>
      match Form r "login_challenge" with
      | None => show_login r []
      | Some ch =>
          check username := getWhoAmIFromKratos (Cookies r) onerr e =>
            (if decide (ekind e = KNotLoggedIn) then
               challenge ← lift (first_of ch);
               show_login r [MkCookie "login_challenge" challenge]
             else internal [] e) in
          challenge ← lift (first_of ch);
          check redirectTo := LoginAcceptChallenge (hydra s) challenge username onerr e => internal [] e in
          send [] (Redirect redirectTo StatusSeeOther)
      end
  end.

(** What follows the POST to Kratos: a response or nil, and an error or nil; the
    response is printed before the error is looked at. *)
Definition login_with (r : request) (resp : option http_resp) (err : option error) : go uiE ui_answer :=
  match resp with
  | None => panic "invalid memory address or nil pointer dereference"
  | Some resp =>
      match err with
      | Some e =>
          match Cookie r "login_challenge" with
          | Some challenge =>
              check redirectTo := LoginRejectChallenge (hydra s) (ckValue challenge) (emsg e) onerr e' => internal [] e' in
              send [] (Redirect redirectTo StatusSeeOther)
          | None => internal [] e
          end
      | None =>
          let cs := RespCookies resp in
          match Cookie r "login_challenge" with
          | Some challenge =>
              check username := getWhoAmIFromKratos (RespCookies resp) onerr e => internal cs e in
              check redirectTo := LoginAcceptChallenge (hydra s) (ckValue challenge) username onerr e => internal cs e in
              send cs (Redirect redirectTo StatusSeeOther)
          | None =>
              if Z.eqb (StatusCode resp) StatusSeeOther then send cs (Redirect (Location resp) StatusSeeOther)
              else send cs (Redirect "/" StatusSeeOther)
          end
      end
  end.

Definition login_form (r : request) : gmap string (list string) :=
  {[ "csrf_token" := [FormValue r "csrf_token"]; "method" := ["password"];
     "password" := [FormValue r "password"]; "identifier" := [FormValue r "username"] ]}.

Definition login (r : request) : go uiE ui_answer :=
  match rform_err r with
  | Some e => internal [] e
  | None =>
      match Form r "flow" with
      | None => send [] (Redirect (kratos s +:+ "/self-service/login/browser") StatusSeeOther)
      | Some fl =>
          flow ← lift (first_of fl);
          check resp := postFormToKratos "login" flow (Cookies r) (login_form r) onerr e => login_with r None (Some e) in
          login_with r (Some resp) None
      end
  end.

Definition logout (r : request) : go uiE ui_answer :=
  check logoutURL := getLogoutURLFromKratos (Cookies r) onerr e => internal [] e in
  send [] (Redirect logoutURL StatusSeeOther).

Definition whoami (r : request) : go uiE ui_answer :=
  check username := getWhoAmIFromKratos (Cookies r) onerr e =>
    (if decide (ekind e = KNotLoggedIn) then send [] (Redirect "/login" StatusSeeOther) else internal [] e) in
  render (WhoAmIPage username) [].

Definition email_of (username : string) : string := username +:+ "@" +:+ emailDomain s.

Definition accept_as (r : request) (scopes : option (list string)) (username : string) : go uiE ui_answer :=
  check redirectTo := ConsentAccept (hydra s) (FormValue r "consent_challenge") scopes username (email_of username) onerr e => internal [] e in
  send [] (Redirect redirectTo StatusSeeOther).

Definition consent (r : request) : go uiE ui_answer :=
  match rform_err r with
  | Some e => send [] (HttpError (emsg e) StatusBadRequest)
  | None =>
      match Form r "consent_challenge" with
      | None => send [] (HttpError "Consent challenge not provided" StatusBadRequest)
      | Some ch =>
          challenge ← lift (first_of ch);
          check asked := GetConsentChallenge (hydra s) challenge onerr e => internal [] e in
          check username := getWhoAmIFromKratos (Cookies r) onerr e => internal [] e in
          accept_as r (RequestedScopes asked) username
      end
  end.

Definition processConsent (r : request) : go uiE ui_answer :=
  match rform_err r with
  | Some e => send [] (HttpError (emsg e) StatusBadRequest)
  | None =>
      check username := getWhoAmIFromKratos (Cookies r) onerr e => internal [] e in
      match Form r "allow" with
      | Some _ => accept_as r (Form r "scope") username
      | None => send [] Empty
      end
  end.

(** Start: the routes of the pages, without the static files. *)
Definition serve_ui (r : request) : go uiE ui_answer :=
  let get := String.eqb (rmethod r) MethodGet in
  let post := String.eqb (rmethod r) MethodPost in
  let only (h : go uiE ui_answer) (h' : go uiE ui_answer) :=
    if get then h else if post then h' else send [] (HttpError "" StatusMethodNotAllowed) in
  if String.eqb (rpath r) "/register" && enableRegistration s then only (registerInitiate r) (register r)
  else if String.eqb (rpath r) "/login" then only (loginInitiate r) (login r)
  else if String.eqb (rpath r) "/consent" then only (consent r) (processConsent r)
  else if String.eqb (rpath r) "/logout" then only (logout r) (send [] (HttpError "" StatusMethodNotAllowed))
  else if String.eqb (rpath r) "/" then whoami r
  else send [] (HttpError "404 page not found" StatusNotFound).
End Server.

(** ** api.go *)

Definition identityCreateTmpl : string := quotes "
{
  'credentials': {
    'password': {
      'config': {
        'password': '%s'
      }
    }
  },
  'schema_id': 'user',
  'state': 'active',
  'traits': {
    'username': '%s'
  }
}
".

Record ErrorResponse := MkErrorResponse { erCode : Z; erStatus : string; erMessage : string }.

Definition decode_error (v : json) : outcome ErrorResponse :=
  json_field "error" (fun e =>
    c ← json_field "code" json_int 0%Z e;
    st ← json_field "status" json_string "" e;
    m ← json_field "message" json_string "" e;
    Ok (MkErrorResponse c st m)) (MkErrorResponse 0 "" "") v.

Record identityCreateReq := MkIdentityReq { iUsername : string; iPassword : string }.

Definition decode_identity (v : json) : outcome identityCreateReq :=
  u ← json_field "username" json_string "" v;
  p ← json_field "password" json_string "" v;
  Ok (MkIdentityReq u p).

Record ValidationError := MkValidation { Field : string; Message : string }.

Definition encode_errors (l : list ValidationError) : json :=
  JObj [("errors", JArr (map (fun e => JObj [("field", JStr (Field e)); ("message", JStr (Message e))]) l))].

Definition extractKratosErrorMessage (errResp : ErrorResponse) : list ValidationError :=
  if String.eqb (erStatus errResp) "Conflict" then [MkValidation "username" "Username is not available."]
  else if String.eqb (erStatus errResp) "Bad Request" then [MkValidation "username" "Username is less than 3 characters."]
  else [MkValidation "username" "Unexpexted Error."].

Definition validateUsername (username : string) : list ValidationError :=
  if (String.length username <? 3)%nat
  then [MkValidation "username" "Username must be at least 3 characters long."] else [].

Definition validatePassword (password : string) : list ValidationError :=
  if (String.length password <? 6)%nat
  then [MkValidation "password" "Password must be at least 6 characters long."] else [].

#[export] Instance ValidationError_eq_dec : EqDecision ValidationError.
Proof. solve_decision. Defined.

Inductive api_answer :=
  | ApiText (msg : string) (code : Z)
  | ApiErrors (l : list ValidationError)          (* replyWithErrors: 400 *)
  | ApiOk.                                        (* nothing is written: 200 *)

#[export] Instance api_answer_eq_dec : EqDecision api_answer.
Proof. solve_decision. Defined.

Definition identitiesEndpoint (kratosAddr : string) : string := Sprintf "%s/admin/identities" [kratosAddr].

Definition create_identity (kratosAddr : string) (req : identityCreateReq) : http_req :=
  MkHttpReq "POST" (identitiesEndpoint kratosAddr) [] true
    (TextBody (Sprintf identityCreateTmpl [iPassword req; iUsername req])).

Definition StatusCreated := 201%Z.

(** [body]: the JSON of the request. *)
Definition identityCreate (kratosAddr : string) (body : outcome json) : go uiE api_answer :=
  check req := lift (v ← body; decode_identity v) onerr _e =>
    mret (ApiText "request can not be parsed" StatusBadRequest) in
  let allErrors := validateUsername (iUsername req) ++ validatePassword (iPassword req) in
  if negb (length allErrors =? 0)%nat then mret (ApiErrors allErrors)
  else
    check resp := call (Do (create_identity kratosAddr req)) onerr _e =>
      mret (ApiText "failed" StatusInternalServerError) in
    if negb (Z.eqb (StatusCode resp) StatusCreated) then
      check e := lift (v ← Body resp; decode_error v) onerr _e =>
        mret (ApiText "failed to decode" StatusInternalServerError) in
      mret (ApiErrors (extractKratosErrorMessage e))
    else mret ApiOk.
