(* ===== verification/AuthUiTheorems.v ===== *)
(** * Theorems on the auth UI

    Which requests the pages send to Hydra, and what the texts built with
    Sprintf say to the services that parse them. *)
From S2P Require Import Prelude GoLib GoStrings GoJson AuthUi.
From Stdlib Require Import Ascii.
Open Scope string_scope.
Open Scope list_scope.

#[local] Set Default Proof Using "Type*".

(** ** The services *)

Abbreviation ui_log := (list (prod http_req (outcome http_resp))).

(** Kratos and Hydra answer as they like, seeing all that came before. *)
Definition ui_step (answer : ui_log -> http_req -> outcome http_resp) : handler uiE ui_log := fun X e l =>
  match e in uiE X return ui_log * X with
  | Do q => let a := answer l q in (l ++ [(q, a)], a)
  end.

Lemma run_do answer q l : run (ui_step answer) (call (Do q)) l = (l ++ [(q, answer l q)], answer l q).
Proof. by rewrite run_call. Qed.

(** ** What Hydra reads *)

(** The JSON of a body. *)
Definition body_json (b : body) : outcome json :=
  match b with
  | TextBody t => parse_json t
  | JsonBody v => Ok v
  | NoBody | FormBody _ => Err err_json
  end.

(** What the UI means to send when it accepts a login. *)
Definition login_acceptance (subjects : list string) : json :=
  JObj (map (fun u => ("subject", JStr u)) subjects ++ [("remember", JBool true); ("remember_for", JNum 3600)]).

Definition subject_hole : string := quotes "
{
    'subject': '".

Definition subject_end : string := quotes ",
    'remember': true,
    'remember_for': 3600
}".

Lemma subject_pieces u : Sprintf accept_text [u] = subject_hole +:+ u +:+ String quote subject_end.
Proof. reflexivity. Qed.

Lemma scan_subject_hole u post :
  plain u -> scan (InWord "") (subject_hole +:+ u +:+ String quote post) =
    (r ← scan (InWord "") post; Ok ([TOpen; TStr "subject"; TColon] ++ TStr u :: r.1, r.2)).
Proof. intros Hu. apply scan_hole; [vm_compute; reflexivity|done]. Qed.

Lemma scan_subject_end :
  scan (InWord "") subject_end =
    Ok ([TComma; TStr "remember"; TColon; TVal (JBool true); TComma; TStr "remember_for"; TColon; TVal (JNum 3600); TClose], InWord "").
Proof. vm_compute. reflexivity. Qed.

(** A name without quotes, backslashes and control characters arrives as it is.
    One that closes its quote can say another name: of two subjects Hydra takes
    the last. *)
Theorem subject_text (u v : string) (Hu : plain u) (Hv : plain v) :
  parse_json (Sprintf accept_text [u]) = Ok (login_acceptance [u]) /\
  parse_json (Sprintf accept_text [Sprintf (quotes "%s', 'subject': '%s") [u; v]]) = Ok (login_acceptance [u; v]).
Proof.
  split; rewrite subject_pieces; (eapply eq_trans; [eapply parse_json_scan|]).
  - rewrite scan_subject_hole, scan_subject_end by done. reflexivity.
  - reflexivity.
  - replace (Sprintf (quotes "%s', 'subject': '%s") [u; v] +:+ String quote subject_end)
      with (u +:+ String quote (quotes ", 'subject': '" +:+ v +:+ String quote subject_end)).
    + rewrite scan_subject_hole by done. erewrite (scan_hole (quotes ", 'subject': '")); [|vm_compute; reflexivity|done].
      rewrite scan_subject_end. reflexivity.
    + change (Sprintf _ _) with (u +:+ (String quote (quotes ", 'subject': '" +:+ (v +:+ "")))).
      by rewrite str_app_nil, <- str_app_assoc, str_app_cons, <- str_app_assoc.
  - reflexivity.
Qed.

(** ** Who is accepted *)

Section Accepts.
Context (Regogo : outcome json -> string -> outcome string).
Context (url_parse : string -> outcome unit).
Context (Execute : ui_page -> outcome unit).
Context (s : ui_server).
Context (answer : ui_log -> http_req -> outcome http_resp).
Context (r : request).
Abbreviation h := (ui_step answer).

(** Kratos named the user of these cookies. *)
Definition named (l : ui_log) (jar : list cookie) (username : string) : Prop :=
  exists resp, (whoami_request s jar, Ok resp) ∈ l /\ session_name Regogo resp = Ok username.

(** Cookies of the request, or those Kratos set when it was posted to. *)
Definition own_cookies (l : ui_log) (jar : list cookie) : Prop :=
  jar = Cookies r \/ exists q resp, q_method q = "POST" /\ (q, Ok resp) ∈ l /\ jar = RespCookies resp.

Definition accounted (l : ui_log) (q : http_req) : Prop :=
  q_method q = "PUT" ->
  exists username jar challenge, own_cookies l jar /\ named l jar username /\ username <> "" /\
    (q = accept_login (hydra s) challenge username \/
     exists scopes, q = accept_consent (hydra s) challenge scopes username (email_of s username)).

Definition good (l : ui_log) : Prop := forall i q a, l !! i = Some (q, a) -> accounted (take i l) q.

Lemma good_nil : good [].
Proof. intros i q a Hi. done. Qed.

Lemma good_snoc l q a : good l -> accounted l q -> good (l ++ [(q, a)]).
Proof.
  intros Hl Hq i q' a' Hi. destruct (decide (i < length l)) as [Hlt|Hge].
  - rewrite lookup_app_l in Hi by done. rewrite take_app_le by lia. by apply (Hl i q' a').
  - apply lookup_app_Some in Hi as [Hi|[Hle Hi]]; [apply lookup_lt_Some in Hi; lia|].
    assert (i = length l) as ->.
    { apply lookup_lt_Some in Hi. cbn in Hi. lia. }
    rewrite Nat.sub_diag in Hi. injection Hi as -> ->. by rewrite take_app_length.
Qed.

Lemma named_mono l l' jar u : named l jar u -> named (l ++ l') jar u.
Proof. intros (resp & Hin & Hu). exists resp. rewrite elem_of_app. auto. Qed.

Lemma own_mono l l' jar : own_cookies l jar -> own_cookies (l ++ l') jar.
Proof.
  intros [->|(q & resp & Hq & Hin & ->)]; [by left|]. right. exists q, resp. rewrite elem_of_app. auto.
Qed.

(** Requests that are not a PUT need no account. *)
Definition quiet (X : Type) (e : uiE X) : Prop := match e with Do q => q_method q <> "PUT" end.

Lemma quiet_keeps {A} (p : prog uiE A) (P : ui_log -> Prop) :
  (forall l l', P l -> P (l ++ l')) -> calls quiet p ->
  hoare h (fun l => good l /\ P l) p (fun _ l => good l /\ P l).
Proof.
  intros HP Hp l Hl. apply (run_calls_inv h quiet (fun l => good l /\ P l)); [|done|done].
  intros X [q] l0 Hq [Hg HPl]. cbn in *. split; [apply good_snoc; [done|intros ?; contradiction]|by apply HP].
Qed.

Lemma quiet_good {A} (p : prog uiE A) : calls quiet p -> hoare h good p (fun _ => good).
Proof.
  intros Hp. eapply hoare_conseq; [by apply (quiet_keeps p (fun _ => True))|done|]. by intros a l [? _].
Qed.

Lemma quiet_jar addr q : q_method q <> "PUT" -> calls quiet (jar_request url_parse addr q).
Proof. intros Hq. unfold jar_request. solve_calls. Qed.

Lemma quiet_render p cs : calls quiet (render Execute p cs).
Proof. unfold render, internal, send. solve_calls. Qed.

Lemma quiet_csrf flowType flow cookies : calls quiet (getCSRFToken Regogo url_parse s flowType flow cookies).
Proof. unfold getCSRFToken. apply calls_mbind; [by apply quiet_jar|]. solve_calls. Qed.

Lemma quiet_whoami cookies : calls quiet (getWhoAmIFromKratos Regogo url_parse s cookies).
Proof. unfold getWhoAmIFromKratos. apply calls_mbind; [by apply quiet_jar|]. solve_calls. Qed.

#[local] Hint Resolve quiet_csrf quiet_whoami quiet_render : go_calls.

Ltac quiet := unfold postToKratos, postFormToKratos, getLogoutURLFromKratos, internal, send in *;
  repeat (first [calls_step | (apply quiet_jar; discriminate) | solve [eauto with go_calls] | discriminate]).

Lemma quiet_show_login cs : calls quiet (show_login Regogo url_parse Execute s r cs).
Proof. unfold show_login. quiet. Qed.

(** The account of a PUT: asking Kratos, then sending the name. *)
Lemma whoami_then {B} jar (c : error -> go uiE B) (k : string -> go uiE B) :
  (forall u, hoare h (fun l => good l /\ (own_cookies l jar /\ named l jar u /\ u <> "")) (k u) (fun _ => good)) ->
  (forall e, hoare h good (c e) (fun _ => good)) ->
  hoare h (fun l => good l /\ own_cookies l jar) (handle (getWhoAmIFromKratos Regogo url_parse s jar) c k) (fun _ => good).
Proof.
  intros Hk Hc. apply hoare_handle with
    (R := fun u l => good l /\ (own_cookies l jar /\ named l jar u /\ u <> "")) (Re := fun _ => good); [|done|done].
  intros l [Hl Hown]. unfold getWhoAmIFromKratos, jar_request. rewrite !run_mbind.
  destruct (url_parse _); cbn [run lift or_catch fst snd]; [|done..]. rewrite run_do.
  assert (Hg : good (l ++ [(whoami_request s jar, answer l (whoami_request s jar))])) by (by apply good_snoc).
  destruct (answer l (whoami_request s jar)) as [resp|e|w|] eqn:Ha; cbn [or_catch fst snd]; [|done..].
  cbn [run lift fst snd]. unfold session_name. destruct (Regogo _ _) as [u| | |] eqn:Hu; cbn [mbind outcome_bind or_catch]; [|done..].
  destruct (String.eqb_spec u "") as [->|Hne]; cbn [or_catch]; [done|].
  split; [done|]. split; [by apply own_mono|]. split; [|done]. exists resp. split.
  - rewrite elem_of_app. right. by apply list_elem_of_singleton.
  - unfold session_name. rewrite Hu. cbn. by destruct (String.eqb_spec u "").
Qed.

Lemma put_ok q jar u {B} (f : http_resp -> go uiE B) :
  (exists challenge, q = accept_login (hydra s) challenge u \/
     exists scopes, q = accept_consent (hydra s) challenge scopes u (email_of s u)) ->
  (forall resp, calls quiet (f resp)) ->
  hoare h (fun l => good l /\ (own_cookies l jar /\ named l jar u /\ u <> "")) (call (Do q) ≫= f) (fun _ => good).
Proof.
  intros (challenge & Hq) Hf. apply hoare_mbind with (R := fun _ => good); [|intros a; by apply quiet_good].
  intros l (Hl & Hown & Hn & Hne). rewrite run_do.
  assert (Hg : good (l ++ [(q, answer l q)])).
  { apply good_snoc; [done|]. intros _. by exists u, jar, challenge. }
  by destruct (answer l q).
Qed.

Lemma login_accept_then jar u challenge (c : error -> go uiE ui_answer) (k : string -> go uiE ui_answer) :
  (forall e, calls quiet (c e)) -> (forall a, calls quiet (k a)) ->
  hoare h (fun l => good l /\ (own_cookies l jar /\ named l jar u /\ u <> ""))
    (handle (LoginAcceptChallenge (hydra s) challenge u) c k) (fun _ => good).
Proof.
  intros Hc Hk. apply hoare_handle with (R := fun _ => good) (Re := fun _ => good); [|intros; by apply quiet_good..].
  eapply hoare_conseq; [apply (put_ok (accept_login (hydra s) challenge u) jar u)| |].
  - exists challenge. by left.
  - intros resp. quiet.
  - intros l Hl. exact Hl.
  - by intros [] l Hl.
Qed.

Lemma accept_as_ok jar u scopes :
  hoare h (fun l => good l /\ (own_cookies l jar /\ named l jar u /\ u <> "")) (accept_as s r scopes u) (fun _ => good).
Proof.
  unfold accept_as. apply hoare_handle with (R := fun _ => good) (Re := fun _ => good);
    [|intros; apply quiet_good; quiet..].
  eapply hoare_conseq; [apply (put_ok (accept_consent (hydra s) (FormValue r "consent_challenge") scopes u (email_of s u)) jar u)| |].
  - eexists. right. by exists scopes.
  - intros resp. quiet.
  - intros l Hl. exact Hl.
  - by intros [] l Hl.
Qed.

Lemma own_request l : good l -> good l /\ own_cookies l (Cookies r).
Proof. split; [done|by left]. Qed.

Lemma loginInitiate_good : hoare h good (loginInitiate Regogo url_parse Execute s r) (fun _ => good).
Proof.
  unfold loginInitiate. destruct (rform_err r); [apply quiet_good; quiet|].
  destruct (Form r "login_challenge") as [ch|]; [|apply quiet_good, quiet_show_login].
  eapply hoare_conseq; [apply whoami_then|apply own_request|done].
  - intros u. destruct ch as [|c ch]; [intros l Hl; apply Hl|]. apply login_accept_then; intros; quiet.
  - intros e. apply quiet_good. destruct (decide _); [|quiet]. apply calls_mbind; [by destruct ch|]. intros. apply quiet_show_login.
Qed.

Lemma login_good : hoare h good (login Regogo url_parse s r) (fun _ => good).
Proof.
  unfold login. destruct (rform_err r); [apply quiet_good; quiet|].
  destruct (Form r "flow") as [fl|]; [|apply quiet_good; quiet].
  apply hoare_mbind with (R := fun _ => good); [by destruct fl; intros l|]. intros flow.
  apply hoare_handle with (R := fun resp l => good l /\ own_cookies l (RespCookies resp)) (Re := fun _ => good).
  - intros l Hl. unfold postFormToKratos, jar_request. rewrite run_mbind.
    destruct (url_parse _); cbn [run lift or_catch fst snd]; [|done..]. rewrite run_do.
    match goal with |- context [answer l ?x] => set (q := x) end.
    assert (Hg : good (l ++ [(q, answer l q)])) by (apply good_snoc; [done|intros Hm; discriminate Hm]).
    destruct (answer l q) as [resp| | |]; cbn [or_catch fst snd]; [|done..].
    split; [done|]. right. exists q, resp. split; [done|]. rewrite elem_of_app. split; [right; by apply list_elem_of_singleton|done].
  - intros e. apply quiet_good. cbn [login_with]. quiet.
  - intros resp. cbn [login_with]. destruct (Cookie r "login_challenge") as [challenge|].
    + apply whoami_then; [|intros; apply quiet_good; quiet]. intros u. apply login_accept_then; intros; quiet.
    + eapply hoare_conseq; [apply quiet_good| |done]; [quiet|by intros l [? _]].
Qed.

Lemma consent_good : hoare h good (consent Regogo url_parse s r) (fun _ => good).
Proof.
  unfold consent. destruct (rform_err r); [apply quiet_good; quiet|].
  destruct (Form r "consent_challenge") as [ch|]; [|apply quiet_good; quiet].
  apply hoare_mbind with (R := fun _ => good); [by destruct ch; intros l|]. intros challenge.
  apply hoare_handle with (R := fun _ => good) (Re := fun _ => good).
  - eapply hoare_conseq; [apply quiet_good|done|by intros []]. unfold GetConsentChallenge. quiet.
  - intros e. apply quiet_good. quiet.
  - intros asked. eapply hoare_conseq; [apply whoami_then|apply own_request|done].
    + intros u. apply accept_as_ok.
    + intros e. apply quiet_good. quiet.
Qed.

Lemma processConsent_good : hoare h good (processConsent Regogo url_parse s r) (fun _ => good).
Proof.
  unfold processConsent. destruct (rform_err r); [apply quiet_good; quiet|].
  eapply hoare_conseq; [apply whoami_then|apply own_request|done].
  - intros u. destruct (Form r "allow"); [apply accept_as_ok|].
    eapply hoare_conseq; [apply quiet_good| |done]; [quiet|by intros l [? _]].
  - intros e. apply quiet_good. quiet.
Qed.

(** What a PUT to Hydra says: the acceptance of a login for the named user, as
    long as the name arrives as it is, or of a consent. *)
Definition says (q : http_req) (username : string) : Prop :=
  exists challenge,
    (q_url q = q_url (accept_login (hydra s) challenge username) /\
       (plain username -> body_json (q_body q) = Ok (login_acceptance [username]))) \/
    (exists scopes, q_url q = q_url (accept_consent (hydra s) challenge scopes username (email_of s username)) /\
       body_json (q_body q) = Ok (encode_accept scopes username (email_of s username))).

Lemma accounted_says l q : accounted l q -> q_method q = "PUT" ->
  exists username jar, own_cookies l jar /\ named l jar username /\ username <> "" /\ says q username.
Proof.
  intros Hq Hm. destruct (Hq Hm) as (u & jar & ch & Ho & Hn & Hne & Hcase). exists u, jar. split_and!; [done..|].
  exists ch. destruct Hcase as [-> | [scopes ->]]; [left|right; by exists scopes].
  split; [done|]. intros Hu. cbn [body_json accept_login q_body]. exact (proj1 (subject_text u u Hu Hu)).
Qed.

(** C25. Hydra is told only what Kratos said: whatever is requested and whatever
    the services answer, each PUT to Hydra accepts a login or a consent for a
    name that is not empty and that Kratos gave before for the cookies of this
    request, or for those Kratos set on the password just posted. A consent says
    exactly this name; so does a login, when the name has no quotes, backslashes
    or control characters - it is put into the text as it is. *)
Theorem accepted_users_are_logged_in :
  forall i q a, (run h (serve_ui Regogo url_parse Execute s r) []).1 !! i = Some (q, a) -> q_method q = "PUT" ->
    let before := take i (run h (serve_ui Regogo url_parse Execute s r) []).1 in
    exists username jar, own_cookies before jar /\ named before jar username /\ username <> "" /\ says q username.
Proof.
  assert (H : hoare h good (serve_ui Regogo url_parse Execute s r) (fun _ => good)).
  2:{ intros i q a Hi Hm before. apply accounted_says; [|done]. by apply (H [] good_nil i q a). }
  unfold serve_ui.
  destruct (_ && _); [|destruct (String.eqb _ "/login"); [|destruct (String.eqb _ "/consent");
    [|destruct (String.eqb _ "/logout"); [|destruct (String.eqb _ "/")]]]].
  - destruct (String.eqb _ MethodGet); [|destruct (String.eqb _ MethodPost)]; apply quiet_good;
      [unfold registerInitiate|unfold register|]; quiet.
  - destruct (String.eqb _ MethodGet); [apply loginInitiate_good|]. destruct (String.eqb _ MethodPost); [apply login_good|].
    apply quiet_good. quiet.
  - destruct (String.eqb _ MethodGet); [apply consent_good|]. destruct (String.eqb _ MethodPost); [apply processConsent_good|].
    apply quiet_good. quiet.
  - destruct (String.eqb _ MethodGet); [|destruct (String.eqb _ MethodPost)]; apply quiet_good; [unfold logout|..]; quiet.
  - apply quiet_good. unfold whoami. quiet.
  - apply quiet_good. quiet.
Qed.
End Accepts.

(** ** Consent and login *)

Section Flows.
Context (Regogo : outcome json -> string -> outcome string).
Context (url_parse : string -> outcome unit).
Context (Execute : ui_page -> outcome unit).
Context (s : ui_server).
Context (answer : ui_log -> http_req -> outcome http_resp).

Definition consent_request (challenge : string) : http_req :=
  MkHttpReq "GET" (Sprintf "http://%s/admin/oauth2/auth/requests/consent?consent_challenge=%s" [hydra s; challenge]) [] true NoBody.

Lemma Form_first r k v l : Form r k = Some (v :: l) -> FormValue r k = v.
Proof.
  unfold Form, FormValue. destruct (rpost r !! k) as [p|], (rquery r !! k) as [q|]; cbn [default from_option id];
    intros [= ->]; done.
Qed.

(** Consent is never asked for: when Hydra's challenge can be read and Kratos
    knows the session, the third request accepts that challenge with exactly the
    scopes Hydra lists, in the name of the session's user, whoever the subject
    of the challenge is. *)
Theorem consent_grants_everything (r : request) (challenge u subject : string) (rest : list string)
    (scopes : option (list string)) (asked who : http_resp) (ch : string)
    (Hform : rform_err r = None) (Hch : Form r "consent_challenge" = Some (challenge :: rest))
    (Hurl : url_parse (kratos s +:+ "/sessions/whoami") = Ok tt)
    (Hasked : answer [] (consent_request challenge) = Ok asked)
    (Hbody : (v ← Body asked; decode_consent v) = Ok (MkConsent ch subject scopes))
    (Hwho : answer [(consent_request challenge, Ok asked)] (whoami_request s (Cookies r)) = Ok who)
    (Hname : session_name Regogo who = Ok u) :
  let log := [(consent_request challenge, Ok asked); (whoami_request s (Cookies r), Ok who)] in
  let accept := accept_consent (hydra s) challenge scopes u (u +:+ "@" +:+ emailDomain s) in
  (run (ui_step answer) (consent Regogo url_parse s r) []).1 = log ++ [(accept, answer log accept)].
Proof.
  intros log accept. unfold consent. rewrite Hform, Hch. cbn [first_of]. rewrite run_mbind. cbn [run lift fst snd].
  rewrite run_handle. unfold GetConsentChallenge. fold (consent_request challenge). rewrite run_mbind, run_do, Hasked.
  cbn [run lift app]. rewrite Hbody, run_handle. unfold getWhoAmIFromKratos, jar_request. rewrite !run_mbind.
  cbn [run lift]. rewrite Hurl, run_do, Hwho. cbn [run lift app]. rewrite Hname. unfold accept_as. rewrite run_handle.
  unfold ConsentAccept. rewrite run_mbind, (Form_first _ _ _ _ Hch), run_do.
  cbn [RequestedScopes]. change (accept_consent _ _ _ _ (email_of s u)) with accept. fold log.
  destruct (answer log accept) as [resp| | |]; cbn [run lift]; [|done..].
  by destruct (mbind _ (Body resp)).
Qed.

Definition login_request (r : request) (flow : string) : http_req :=
  MkHttpReq "POST" (kratos s +:+ "/self-service/" +:+ "login" +:+ Sprintf "?flow=%s" [flow]) (Cookies r) false (FormBody (login_form r)).

(** A login that Kratos does not answer is never rejected at Hydra: the
    response is printed before the error is tested, so the handler stops on a
    nil pointer, with or without a challenge to reject. *)
Theorem login_without_kratos (r : request) (flow : string) (rest : list string) (e : error)
    (Hform : rform_err r = None) (Hflow : Form r "flow" = Some (flow :: rest))
    (Hurl : url_parse (flow_addr s "login") = Ok tt) (Hdown : answer [] (login_request r flow) = Err e) :
  run (ui_step answer) (login Regogo url_parse s r) [] =
    ([(login_request r flow, Err e)], Panic "invalid memory address or nil pointer dereference").
Proof.
  unfold login. rewrite Hform, Hflow. cbn [first_of]. rewrite run_mbind. cbn [run lift].
  rewrite run_handle. unfold postFormToKratos, jar_request. rewrite run_mbind. cbn [run lift]. rewrite Hurl.
  fold (login_request r flow). by rewrite run_do, Hdown.
Qed.
End Flows.

(** ** The texts built with Sprintf *)

Definition password_hole : string := quotes "
{
  'credentials': {
    'password': {
      'config': {
        'password': '".

Definition username_hole : string := quotes "
      }
    }
  },
  'schema_id': 'user',
  'state': 'active',
  'traits': {
    'username': '".

Definition identity_end : string := "
  }
}
".

(** What the accounts API means to send. *)
Definition identity (password : string) (traits : list (string * json)) : json :=
  JObj [("credentials", JObj [("password", JObj [("config", JObj [("password", JStr password)])])]);
        ("schema_id", JStr "user"); ("state", JStr "active"); ("traits", JObj traits)].

Lemma identity_pieces p u :
  Sprintf identityCreateTmpl [p; u] =
    password_hole +:+ p +:+ String quote (username_hole +:+ u +:+ String quote identity_end).
Proof. reflexivity. Qed.

Lemma scan_username_hole u post :
  plain u -> scan (InWord "") (username_hole +:+ u +:+ String quote post) =
    (r ← scan (InWord "") post;
     Ok ([TClose; TClose; TClose; TComma; TStr "schema_id"; TColon; TStr "user"; TComma; TStr "state"; TColon;
          TStr "active"; TComma; TStr "traits"; TColon; TOpen; TStr "username"; TColon] ++ TStr u :: r.1, r.2)).
Proof. intros Hu. apply scan_hole; [vm_compute; reflexivity|done]. Qed.

Lemma scan_password_hole p post :
  plain p -> scan (InWord "") (password_hole +:+ p +:+ String quote post) =
    (r ← scan (InWord "") post;
     Ok ([TOpen; TStr "credentials"; TColon; TOpen; TStr "password"; TColon; TOpen; TStr "config"; TColon; TOpen;
          TStr "password"; TColon] ++ TStr p :: r.1, r.2)).
Proof. intros Hp. apply scan_hole; [vm_compute; reflexivity|done]. Qed.

(** The identity sent to Kratos for a password and a username without
    quotes, backslashes and control characters is the intended one.  A username
    that closes its quote adds traits: a", "k": "v makes the text an identity
    named a with the trait k. *)
Theorem identity_text (password username key value : string)
    (Hp : plain password) (Hu : plain username) (Hk : plain key) (Hv : plain value) :
  parse_json (Sprintf identityCreateTmpl [password; username]) = Ok (identity password [("username", JStr username)]) /\
  parse_json (Sprintf identityCreateTmpl [password; Sprintf (quotes "%s', '%s': '%s") [username; key; value]]) =
    Ok (identity password [("username", JStr username); (key, JStr value)]).
Proof.
  split; rewrite identity_pieces; (eapply eq_trans; [eapply parse_json_scan|]).
  - rewrite scan_password_hole, scan_username_hole by done. reflexivity.
  - reflexivity.
  - rewrite scan_password_hole by done.
    replace (Sprintf (quotes "%s', '%s': '%s") [username; key; value] +:+ String quote identity_end)
      with (username +:+ String quote (quotes ", '" +:+ key +:+ String quote (quotes ": '" +:+ value +:+ String quote identity_end))).
    + rewrite scan_username_hole by done. erewrite (scan_hole (quotes ", '")); [|vm_compute; reflexivity|done].
      erewrite (scan_hole (quotes ": '")); [|vm_compute; reflexivity|done]. reflexivity.
    + change (Sprintf _ _) with (username +:+ (String quote (quotes ", '" +:+ key +:+ (String quote (quotes ": '" +:+ (value +:+ "")))))).
      rewrite str_app_nil, <- str_app_assoc, str_app_cons, <- str_app_assoc, <- str_app_assoc, str_app_cons, <- str_app_assoc. done.
  - reflexivity.
Qed.

(** The answers of the API. *)
Lemma run_identityCreate answer kratosAddr body req l :
  (v ← body; decode_identity v) = Ok req ->
  run (ui_step answer) (identityCreate kratosAddr body) l =
    match validateUsername (iUsername req) ++ validatePassword (iPassword req) with
    | [] =>
        let q := create_identity kratosAddr req in
        (l ++ [(q, answer l q)],
         match answer l q with
         | Ok resp =>
             if Z.eqb (StatusCode resp) StatusCreated then Ok ApiOk
             else match (v ← Body resp; decode_error v) with
                  | Ok e => Ok (ApiErrors (extractKratosErrorMessage e))
                  | Err _ => Ok (ApiText "failed to decode" StatusInternalServerError)
                  | Panic w => Panic w
                  | Diverge => Diverge
                  end
         | Err _ => Ok (ApiText "failed" StatusInternalServerError)
         | Panic w => Panic w
         | Diverge => Diverge
         end)
    | errors => (l, Ok (ApiErrors errors))
    end.
Proof.
  intros Hreq. unfold identityCreate. rewrite run_handle. cbn [run lift]. rewrite Hreq. cbv zeta.
  destruct (_ ++ _) as [|v vs]; cbn [length Nat.eqb negb]; [|done].
  rewrite run_handle, run_do. destruct (answer l _) as [resp| | |]; [|done..].
  destruct (Z.eqb _ _); cbn [negb]; [done|]. rewrite run_handle. cbn [run lift].
  by destruct (v ← Body resp; decode_error v).
Qed.

(** ** The theorems at concrete inputs *)

Definition demo_ui : ui_server := MkUiServer "https://accounts" "hydra" "example.com" true.

(** Kratos calls everybody ann; Hydra asks for bob's consent. *)
Definition demo_regogo (doc : outcome json) (q : string) : outcome string := Ok "ann".

Definition demo_asked : json :=
  JObj [("challenge", JStr "c1"); ("subject", JStr "bob"); ("requested_scope", JArr [JStr "openid"; JStr "admin"])].

Definition demo_ok (v : json) : http_resp := MkHttpResp 200 "" [] (Ok v).

Definition demo_services (l : ui_log) (q : http_req) : outcome http_resp :=
  match l with [] => Ok (demo_ok demo_asked) | _ => Ok (demo_ok (JObj [("redirect_to", JStr "/back")])) end.

Definition demo_consent : request :=
  MkRequest "GET" "/consent" {[ "Cookie" := ["ory_session=x; a=b"] ]} ∅ {[ "consent_challenge" := ["c1"] ]} ∅ None "".

Example demo_cookies : Cookies demo_consent = [MkCookie "ory_session" "x"; MkCookie "a" "b"].
Proof. vm_compute. reflexivity. Qed.

Lemma consent_grants_everything_witness :
  let log := [(consent_request demo_ui "c1", Ok (demo_ok demo_asked));
              (whoami_request demo_ui (Cookies demo_consent), Ok (demo_ok (JObj [("redirect_to", JStr "/back")])))] in
  let accept := accept_consent "hydra" "c1" (Some ["openid"; "admin"]) "ann" "ann@example.com" in
  (run (ui_step demo_services) (consent demo_regogo (fun _ => Ok tt) demo_ui demo_consent) []).1 =
    log ++ [(accept, demo_services log accept)].
Proof.
  exact (consent_grants_everything demo_regogo (fun _ => Ok tt) demo_ui demo_services demo_consent "c1" "ann" "bob" []
    (Some ["openid"; "admin"]) (demo_ok demo_asked) (demo_ok (JObj [("redirect_to", JStr "/back")])) "c1"
    eq_refl eq_refl eq_refl eq_refl eq_refl eq_refl eq_refl).
Defined.

Lemma demo_consent_accepted :
  exists a, (run (ui_step demo_services) (serve_ui demo_regogo (fun _ => Ok tt) (fun _ => Ok tt) demo_ui demo_consent) []).1 !! 2 =
    Some (accept_consent "hydra" "c1" (Some ["openid"; "admin"]) "ann" "ann@example.com", a).
Proof. eexists. vm_compute. reflexivity. Qed.

(** The consent asked of bob is given in the name of the session, ann. *)
Lemma accepted_users_are_logged_in_witness :
  exists q username jar, q_method q = "PUT" /\ own_cookies demo_consent
    (take 2 (run (ui_step demo_services) (serve_ui demo_regogo (fun _ => Ok tt) (fun _ => Ok tt) demo_ui demo_consent) []).1) jar /\
    says demo_ui q username.
Proof.
  destruct demo_consent_accepted as [a Ha].
  destruct (accepted_users_are_logged_in demo_regogo (fun _ => Ok tt) (fun _ => Ok tt) demo_ui demo_services demo_consent 2 _ a Ha eq_refl)
    as (u & jar & Ho & _ & _ & Hs).
  eexists _, u, jar. split; [|split; [exact Ho|exact Hs]]. reflexivity.
Defined.

Lemma subject_text_witness :
  parse_json (Sprintf accept_text ["ann"]) = Ok (login_acceptance ["ann"]) /\
  parse_json (Sprintf accept_text [Sprintf (quotes "%s', 'subject': '%s") ["ann"; "bob"]]) = Ok (login_acceptance ["ann"; "bob"]).
Proof. exact (subject_text "ann" "bob" eq_refl eq_refl). Defined.

Definition demo_login : request :=
  MkRequest "POST" "/login" {[ "Cookie" := ["login_challenge=c7"] ]} ∅ {[ "flow" := ["f1"] ]}
    {[ "username" := ["ann"]; "password" := ["secret"] ]} None "".

Lemma login_without_kratos_witness :
  Cookie demo_login "login_challenge" = Some (MkCookie "login_challenge" "c7") /\
  run (ui_step (fun _ _ => Err (errorf "connection refused"))) (login demo_regogo (fun _ => Ok tt) demo_ui demo_login) [] =
    ([(login_request demo_ui demo_login "f1", Err (errorf "connection refused"))],
     Panic "invalid memory address or nil pointer dereference").
Proof.
  split; [vm_compute; reflexivity|].
  exact (login_without_kratos demo_regogo (fun _ => Ok tt) demo_ui (fun _ _ => Err (errorf "connection refused")) demo_login
    "f1" [] (errorf "connection refused") eq_refl eq_refl eq_refl eq_refl).
Defined.

Lemma identity_text_witness :
  parse_json (Sprintf identityCreateTmpl ["secret"; "ann"]) = Ok (identity "secret" [("username", JStr "ann")]) /\
  parse_json (Sprintf identityCreateTmpl ["secret"; Sprintf (quotes "%s', '%s': '%s") ["ann"; "role"; "admin"]]) =
    Ok (identity "secret" [("username", JStr "ann"); ("role", JStr "admin")]).
Proof. exact (identity_text "secret" "ann" "role" "admin" eq_refl eq_refl eq_refl eq_refl). Defined.
