(* ===== verification/Accounts.v ===== *)
(** * Accounts: the welcome server in front of the accounts API

    Welcome.createAccount posts to AuthUi.identityCreate, which asks Kratos; the
    application manager works on its repository. *)
From S2P Require Import Prelude GoLib GoStrings GoJson RepoIO AppManager Welcome AuthUi AuthUiTheorems.
Open Scope string_scope.
Open Scope list_scope.

#[local] Set Default Proof Using "Type*".

Inductive accountsE : Type -> Type :=
  | OnApp {X} (e : appE X) : accountsE X
  | PostTo (addr : string) (body : json) : accountsE (outcome (Z * outcome json)).

#[local] Instance accounts_repo : RepoIO accountsE := repo_in (fun X e => OnApp (OnRepo e)) "".
#[local] Instance accounts_ns : NamespaceCreator accountsE := fun name => call (OnApp (CreateNs name)).
#[local] Instance accounts_ports : HttpPost accountsE := fun addr b => call (OnApp (PostPort addr b)).
#[local] Instance accounts_post : PostReply accountsE := fun addr _ b => call (PostTo addr b).

Record accounts_world := MkAccounts { a_app : world; a_members : list json; a_kratos : list (http_req * outcome http_resp) }.

(** How a client reads the answer of identityCreate; when the handler panics the
    connection is closed. *)
Definition api_response (o : outcome api_answer) : outcome (Z * outcome json) :=
  match o with
  | Ok (ApiText _ code) => Ok (code, Err err_json)
  | Ok (ApiErrors l) => Ok (StatusBadRequest, Ok (AuthUi.encode_errors l))
  | Ok ApiOk => Ok (StatusOK, Err (MkErr KEOF "EOF"))
  | Err e => Err e
  | Panic _ => Err (MkErr KEOF "EOF")
  | Diverge => Diverge
  end.

Section Services.
(** The addresses, how Kratos answers, how the memberships and the other
    services answer, and the code createAccount takes as parameters. *)
Context (accountsAddr membershipsAddr loginAddr kratosAddr : string).
Context (kratos_answer : list (http_req * outcome http_resp) -> http_req -> outcome http_resp).
Context (members_answer : json -> outcome (Z * outcome json)).
Context (a : answers).
Context (Execute : welcome_page -> outcome unit) (FindEnvApp : string -> outcome env_app).

Definition api (b : json) (w : accounts_world) : list (http_req * outcome http_resp) * outcome api_answer :=
  run (ui_step kratos_answer) (identityCreate kratosAddr (Ok b)) (a_kratos w).

Definition accounts_step : handler accountsE accounts_world := fun X e w =>
  match e in accountsE X return accounts_world * X with
  | OnApp e => let '(v, x) := app_step a _ e (a_app w) in (MkAccounts v (a_members w) (a_kratos w), x)
  | PostTo addr b =>
      if String.eqb addr accountsAddr then
        let '(l, o) := api b w in (MkAccounts (a_app w) (a_members w) l, api_response o)
      else (MkAccounts (a_app w) (a_members w ++ [b]) (a_kratos w), members_answer b)
  end.

Abbreviation create fuel r body :=
  (createAccount accountsAddr loginAddr membershipsAddr Execute FindEnvApp fuel r body).

(** The messages of the form for one field. *)
Definition shown (field : string) (l : list AuthUi.ValidationError) : list string :=
  map AuthUi.Message (filter (fun e => AuthUi.Field e = field) l).

Lemma decode_identity_encoded req :
  (v ← Ok (encode_account req); decode_identity v) = Ok (MkIdentityReq (Username req) (Password req)).
Proof.
  destruct req as [u p t]. unfold encode_account, omit_str, decode_identity. cbn [Username Password mbind outcome_bind].
  destruct (String.eqb_spec u "") as [->|Hu], (String.eqb_spec p "") as [->|Hp]; cbn [app]; json_simp; cbn [json_string];
    unfold json_field; cbn; reflexivity.
Qed.

Lemma decode_errors_encoded l :
  decode_errors (AuthUi.encode_errors l) = Ok (map (fun e => Welcome.MkValidation (AuthUi.Field e) (AuthUi.Message e)) l).
Proof.
  unfold decode_errors, AuthUi.encode_errors. json_simp. cbn [json_array]. induction l as [|[f m] l IH]; [done|].
  cbn [map json_list]. unfold decode_validation at 1. cbn [AuthUi.Field AuthUi.Message]. json_simp.
  cbn [json_string mbind outcome_bind]. by rewrite IH.
Qed.

Lemma messages_shown field l :
  messages field (map (fun e => Welcome.MkValidation (AuthUi.Field e) (AuthUi.Message e)) l) = shown field l.
Proof.
  unfold messages, shown. induction l as [|[f m] l IH]; [done|]. cbn [map AuthUi.Field AuthUi.Message].
  destruct (decide (f = field)) as [He|He].
  - rewrite !filter_cons_True by done. cbn [map vMessage AuthUi.Message]. by rewrite IH.
  - rewrite !filter_cons_False by done. apply IH.
Qed.

(** Unless the accounts API creates the identity, neither repository nor cluster
    nor memberships change; what the API finds wrong is shown in the form, field
    by field, with the request filled in again. *)
Lemma run_refused (fuel : nat) (r : request) (body : outcome json) (req : createAccountReq)
    (w : accounts_world) (Hreq : extractReq r body = Ok req)
    (Hrefused : (api (encode_account req) w).2 <> Ok ApiOk) (Hends : (api (encode_account req) w).2 <> Diverge) :
  run accounts_step (create fuel r body) w =
    (MkAccounts (a_app w) (a_members w) (api (encode_account req) w).1,
     match (api (encode_account req) w).2 with
     | Ok (ApiErrors l) =>
         let form := RegistrationForm (MkFormData (shown "username" l) (shown "password" l) req) in
         match Execute form with
         | Ok _ => Ok (Page form)
         | Err e => Ok (HttpError (emsg e) StatusInternalServerError)
         | Panic y => Panic y
         | Diverge => Diverge
         end
     | Ok (ApiText _ c) => Ok (HttpError "Error Decoding JSON" StatusInternalServerError)
     | _ => Panic "invalid memory address or nil pointer dereference"
     end).
Proof.
  unfold createAccount. rewrite run_handle. cbn [run lift]. rewrite Hreq, run_handle.
  unfold post_reply, accounts_post. rewrite run_call. cbn [accounts_step]. rewrite String.eqb_refl.
  rewrite (surjective_pairing (api (encode_account req) w)).
  destruct (api (encode_account req) w) as [l [[msg c|errs|]|e|y|]] eqn:Hapi; cbn [fst snd api_response] in *; try done.
  - assert (Hc : c <> StatusOK).
    { unfold api in Hapi. rewrite (run_identityCreate _ _ _ _ _ (decode_identity_encoded req)) in Hapi.
      destruct (_ ++ _); [|done]. cbv zeta in Hapi. destruct (kratos_answer _ _) as [resp| | |]; try done; try (injection Hapi as _ _ <-; discriminate).
      destruct (Z.eqb _ _); [done|]. destruct (mbind _ (Body resp)); try done; injection Hapi as _ _ <-; discriminate. }
    cbn [negb]. destruct (Z.eqb_spec c StatusOK) as [->|_]; [done|]. cbn [negb]. rewrite run_handle. by cbn [run lift mbind outcome_bind].
  - change (Z.eqb StatusBadRequest StatusOK) with false. cbn [negb]. rewrite run_handle. cbn [run lift mbind outcome_bind].
    rewrite decode_errors_encoded. unfold renderRegistrationForm. rewrite !messages_shown, run_handle. cbn [run lift].
    by destruct (Execute _).
Qed.

(** A short name or password never reaches Kratos. *)
Lemma short_credentials_stay (fuel : nat) (r : request) (body : outcome json) (req : createAccountReq)
    (w : accounts_world) (Hreq : extractReq r body = Ok req) (Hexec : forall p, Execute p = Ok tt)
    (Hshort : String.length (Username req) < 3 \/ String.length (Password req) < 6) :
  run accounts_step (create fuel r body) w =
    (w, Ok (Page (RegistrationForm (MkFormData
          (if (String.length (Username req) <? 3)%nat then ["Username must be at least 3 characters long."] else [])
          (if (String.length (Password req) <? 6)%nat then ["Password must be at least 6 characters long."] else []) req)))).
Proof.
  assert (Hapi : api (encode_account req) w = (a_kratos w, Ok (ApiErrors
    (validateUsername (Username req) ++ validatePassword (Password req))))).
  { unfold api. rewrite (run_identityCreate _ _ _ _ _ (decode_identity_encoded req)).
    cbn [iUsername iPassword]. destruct (_ ++ _) eqn:Herr; [|done]. exfalso. revert Herr.
    unfold validateUsername, validatePassword.
    destruct (Nat.ltb_spec (String.length (Username req)) 3), (Nat.ltb_spec (String.length (Password req)) 6); try done; lia. }
  rewrite (run_refused fuel r body req w Hreq) by (by rewrite Hapi).
  rewrite Hapi. cbn [fst snd]. cbv zeta. rewrite Hexec. destruct w as [v m k]; cbn [a_app a_members a_kratos]. repeat f_equal.
  all: unfold validateUsername, validatePassword, shown;
    destruct (Nat.ltb _ 3), (Nat.ltb _ 6); reflexivity.
Qed.

Lemma api_created req w :
  (api (encode_account req) w).2 = Ok ApiOk ->
  let q := create_identity kratosAddr (MkIdentityReq (Username req) (Password req)) in
  exists resp, (api (encode_account req) w).1 = a_kratos w ++ [(q, Ok resp)] /\ StatusCode resp = StatusCreated /\
    3 <= String.length (Username req) /\ 6 <= String.length (Password req).
Proof.
  intros Hok q. revert Hok. unfold api. rewrite (run_identityCreate _ _ _ _ _ (decode_identity_encoded req)).
  cbn [iUsername iPassword]. fold q. unfold validateUsername, validatePassword.
  destruct (Nat.ltb_spec (String.length (Username req)) 3), (Nat.ltb_spec (String.length (Password req)) 6); cbn [app snd fst]; try done.
  destruct (kratos_answer (a_kratos w) q) as [resp| | |]; try done. destruct (Z.eqb_spec (StatusCode resp) StatusCreated) as [Hc|Hc].
  - intros _. by exists resp.
  - by destruct (mbind _ (Body resp)).
Qed.

(** C26. No account without an identity: whenever creating an account changes the
    repository, the cluster or the memberships, the name and the password had
    the lengths the API asks for, and Kratos answered 201 to a request to create
    an identity. The request is for exactly this name and password when they
    have no quotes, backslashes or control characters: they are put into the
    text as they are. *)
Theorem account_needs_identity (fuel : nat) (r : request) (body : outcome json) (req : createAccountReq)
    (w : accounts_world) (Hreq : extractReq r body = Ok req) :
  let w' := (run accounts_step (create fuel r body) w).1 in
  a_app w' <> a_app w \/ a_members w' <> a_members w ->
  3 <= String.length (Username req) /\ 6 <= String.length (Password req) /\
  exists q resp,
    (api (encode_account req) w).1 = a_kratos w ++ [(q, Ok resp)] /\ StatusCode resp = StatusCreated /\
    q_method q = "POST" /\ q_url q = identitiesEndpoint kratosAddr /\
    (plain (Username req) -> plain (Password req) ->
       body_json (q_body q) = Ok (identity (Password req) [("username", JStr (Username req))])).
Proof.
  intros w' Hchange. destruct (decide ((api (encode_account req) w).2 = Ok ApiOk)) as [Hok|Hno].
  - destruct (api_created req w Hok) as (resp & Hl & Hc & H3 & H6). split_and!; [done..|]. eexists _, resp.
    split_and!; [exact Hl|done|done|done|]. intros Hu Hp. cbn [create_identity q_body body_json iPassword iUsername].
    exact (proj1 (identity_text (Password req) (Username req) "" "" Hp Hu eq_refl eq_refl)).
  - exfalso. revert Hchange. subst w'. destruct (decide ((api (encode_account req) w).2 = Diverge)) as [Hd|Hd].
    + unfold createAccount. rewrite run_handle. cbn [run lift]. rewrite Hreq, run_handle.
      unfold post_reply, accounts_post. rewrite run_call. cbn [accounts_step]. rewrite String.eqb_refl.
      rewrite (surjective_pairing (api (encode_account req) w)), Hd. cbn. tauto.
    + rewrite (run_refused fuel r body req w Hreq Hno Hd). cbn. tauto.
Qed.
End Services.

(** ** The theorem at a concrete input *)

Definition demo_accounts : accounts_world :=
  MkAccounts (MkWorld (MkRepo ∅ ∅ {[ "/first-account.yaml" := Doc (encode_first (MkFirst false ["admin"])) ]} [] 0) [] []) [] [].

Definition demo_kratos (l : list (http_req * outcome http_resp)) (q : http_req) : outcome http_resp :=
  Ok (MkHttpResp 201 "" [] (Ok JNull)).

Definition demo_account : createAccountReq := MkAccountReq "ann" "secret" "".

Definition demo_account_request : request :=
  MkRequest "POST" "/" ∅ ∅ ∅ {[ "username" := ["ann"]; "password" := ["secret"]; "secret-token" := [""] ]} None "".

Lemma account_needs_identity_witness :
  3 <= String.length "ann" /\ 6 <= String.length "secret" /\
  exists q resp, (api "http://kratos" demo_kratos (encode_account demo_account) demo_accounts).1 = [] ++ [(q, Ok resp)] /\
    StatusCode resp = StatusCreated /\ q_method q = "POST" /\ q_url q = "http://kratos/admin/identities" /\
    (plain "ann" -> plain "secret" -> body_json (q_body q) = Ok (identity "secret" [("username", JStr "ann")])).
Proof.
  refine (account_needs_identity "http://accounts" "http://memberships" "http://login" "http://kratos" demo_kratos
    (fun _ => Ok (200%Z, Ok JNull)) (MkAnswers (fun _ => Ok tt) (fun _ _ => Ok 200%Z)) (fun _ => Ok tt)
    (fun _ => Err (errorf "not found")) 10 demo_account_request (Err err_json) demo_account demo_accounts eq_refl _).
  right. vm_compute. discriminate.
Defined.
