(* ===== verification/Tasks.v ===== *)
(** * Tasks (core/installer/tasks/tasks.go)

    A parent task starts its subtasks in goroutines and waits on a channel for
    what their listeners send.  Goroutines are the threads of a step relation;
    a step is one action visible to another goroutine. *)
From S2P Require Import Prelude.
Open Scope list_scope.

Inductive Status := StatusPending | StatusRunning | StatusFailed | StatusDone.

#[export] Instance Status_eq_dec : EqDecision Status.
Proof. solve_decision. Defined.

(** What a start function returns: nil or an error. *)
Abbreviation result := (option error).

(** Where a goroutine is. *)
Inductive thread :=
  | Starting (i : nat)                  (* go subtasks[i].Start(), not entered *)
  | InStart (i : nat)                   (* after beforeStart: in b.start() *)
  | Notifying (i : nat)                 (* callDoneListeners, listeners spawned, status not set *)
  | Listener (i : nat) (err : result)   (* go l(err) *)
  | Sending (err : result).             (* errCh <- err *)

(** The parent in [<-errCh]: still waiting, or what its start returns. *)
Inductive parent := Waiting | Returned (err : result).

Record task_state := MkTasks {
  statuses : list Status;
  threads : list thread;
  par : parent;
  received : nat;                       (* cnt of the concurrent parent *)
}.

Definition set_status (i : nat) (st : Status) (s : task_state) : list Status := <[i := st]> (statuses s).

Definition final_status (r : result) : Status := match r with None => StatusDone | Some _ => StatusFailed end.

Section Parent.
(** What the start functions of the subtasks return. *)
Context (results : list result).

Definition result_of (i : nat) : result := default None (results !! i).

(** leafTask.Start and callDoneListeners: the part every parent shares.  The
    listeners are spawned before the status is set. *)
Inductive subtask_step : task_state -> task_state -> Prop :=
  | step_enter a b i st p c :
      subtask_step (MkTasks st (a ++ Starting i :: b) p c)
        (MkTasks (<[i := StatusRunning]> st) (a ++ InStart i :: b) p c)
  | step_return a b i st p c :
      subtask_step (MkTasks st (a ++ InStart i :: b) p c)
        (MkTasks st (a ++ Notifying i :: Listener i (result_of i) :: b) p c)
  | step_settle a b i st p c :
      subtask_step (MkTasks st (a ++ Notifying i :: b) p c)
        (MkTasks (<[i := final_status (result_of i)]> st) (a ++ b) p c).

(** newSequentialParentTask: each listener starts the next subtask or reports. *)
Definition on_done (i : nat) (err : result) : thread :=
  if decide (err = None /\ S i < length results) then Starting (S i) else Sending err.

Inductive sequential_step : task_state -> task_state -> Prop :=
  | seq_subtask s s' : subtask_step s s' -> sequential_step s s'
  | seq_listen a b i err st p c :
      sequential_step (MkTasks st (a ++ Listener i err :: b) p c) (MkTasks st (a ++ on_done i err :: b) p c)
  | seq_receive a b err st c :
      sequential_step (MkTasks st (a ++ Sending err :: b) Waiting c) (MkTasks st (a ++ b) (Returned err) c).

Definition sequential_init : task_state :=
  MkTasks (replicate (length results) StatusPending) [Starting 0] Waiting 0.

(** newConcurrentParentTask: all start, the parent takes answers until one is
    an error or all have come. *)
Inductive concurrent_step : task_state -> task_state -> Prop :=
  | conc_subtask s s' : subtask_step s s' -> concurrent_step s s'
  | conc_listen a b i err st p c :
      concurrent_step (MkTasks st (a ++ Listener i err :: b) p c) (MkTasks st (a ++ Sending err :: b) p c)
  | conc_receive a b err st c :
      concurrent_step (MkTasks st (a ++ Sending err :: b) Waiting c)
        (MkTasks st (a ++ b)
          (match err with
           | Some e => Returned (Some e)
           | None => if decide (S c = length results) then Returned None else Waiting
           end) (S c)).

Definition concurrent_init : task_state :=
  MkTasks (replicate (length results) StatusPending) (map Starting (seq 0 (length results)))
    (if decide (results = []) then Returned None else Waiting) 0.

(** * Proofs *)

(** The first error of the list. *)
Definition first_error : result := head (omap (fun r : result => r) results).

Definition all_nil (k : nat) : Prop := forall i, i < k -> result_of i = None.

(** The k-th subtask decides what the parent returns. *)
Definition decisive (k : nat) : Prop := result_of k <> None \/ S k = length results.

(** Which subtask has control: [lim] have returned from start, the next one is
    in it when [running]; [ct] is the thread that goes on. *)
Inductive phase (k : nat) : nat -> bool -> list thread -> parent -> Prop :=
  | ph_starting : phase k k false [Starting k] Waiting
  | ph_running : phase k k true [InStart k] Waiting
  | ph_listener : phase k (S k) false [Listener k (result_of k)] Waiting
  | ph_sending : decisive k -> phase k (S k) false [Sending (result_of k)] Waiting
  | ph_returned : decisive k -> phase k (S k) false [] (Returned (result_of k)).

(** [ns] are the subtasks that returned and have not set their status. *)
Definition status_at (lim : nat) (running : bool) (ns : list nat) (i : nat) : Status :=
  if decide (i < lim) then (if decide (i ∈ ns) then StatusRunning else final_status (result_of i))
  else if running && (i =? lim) then StatusRunning else StatusPending.

Record invariant (s : task_state) (k lim : nat) (running : bool) (ct : list thread) (ns : list nat) : Prop := {
  inv_phase : phase k lim running ct (par s);
  inv_k : k < length results;
  inv_nil : all_nil k;
  inv_threads : threads s ≡ₚ ct ++ map Notifying ns;
  inv_ns : NoDup ns /\ forall i, i ∈ ns -> i < lim;
  inv_status : length (statuses s) = length results /\
    forall i, i < length results -> statuses s !! i = Some (status_at lim running ns i);
}.

Lemma init_invariant : results <> [] -> invariant (sequential_init) 0 0 false [Starting 0] [].
Proof.
  intros Hne. constructor; cbn [sequential_init par threads statuses].
  - constructor.
  - destruct results; [done|simpl; lia].
  - intros i Hi. lia.
  - done.
  - split; [constructor|]. by intros i ?%not_elem_of_nil.
  - rewrite length_replicate. split; [done|]. intros i Hi. rewrite lookup_replicate_2 by done.
    unfold status_at. by rewrite decide_False by lia.
Qed.

(** A thread picked from the list is the one with control or a notifier. *)
Lemma picked s k lim running ct ns a t b :
  invariant s k lim running ct ns -> threads s = a ++ t :: b ->
  (ct = [t] /\ a ++ b ≡ₚ map Notifying ns) \/
  (exists j ns', t = Notifying j /\ ns ≡ₚ j :: ns' /\ a ++ b ≡ₚ ct ++ map Notifying ns').
Proof.
  intros Hinv Ht. pose proof (inv_threads _ _ _ _ _ _ Hinv) as Hp. rewrite Ht in Hp.
  rewrite <- Permutation_middle in Hp.
  assert (Hin : t ∈ ct ++ map Notifying ns) by (rewrite <- Hp; by left).
  apply elem_of_app in Hin as [Hin|Hin].
  - left. assert (Hct : ct = [t]).
    { destruct (inv_phase _ _ _ _ _ _ Hinv); try (by apply list_elem_of_singleton in Hin as ->).
      by apply not_elem_of_nil in Hin. }
    split; [done|]. rewrite Hct in Hp. by apply Permutation_cons_inv in Hp.
  - right. apply list_elem_of_fmap in Hin as (j & -> & Hj). apply elem_of_Permutation in Hj as [ns' Hns].
    exists j, ns'. split_and!; [done|done|]. rewrite Hns in Hp. cbn [map] in Hp.
    rewrite <- Permutation_middle in Hp. by apply Permutation_cons_inv in Hp.
Qed.

Lemma status_insert (st : list Status) i x (f g : nat -> Status) :
  length st = length results -> (forall j, j < length results -> st !! j = Some (f j)) ->
  (forall j, j < length results -> g j = if decide (j = i) then x else f j) ->
  length (<[i := x]> st) = length results /\ forall j, j < length results -> <[i := x]> st !! j = Some (g j).
Proof.
  intros Hl Hf Hg. split; [by rewrite length_insert|]. intros j Hj. rewrite (Hg j Hj).
  destruct (decide (j = i)) as [->|Hne]; [apply list_lookup_insert_eq; lia|].
  rewrite list_lookup_insert_ne by done. by apply Hf.
Qed.

Lemma not_starting_notifier k lim running ct ns s a i b :
  invariant s k lim running ct ns -> threads s = a ++ Notifying i :: b ->
  exists ns', ns ≡ₚ i :: ns' /\ a ++ b ≡ₚ ct ++ map Notifying ns'.
Proof.
  intros Hinv Ht. destruct (picked _ _ _ _ _ _ _ _ _ Hinv Ht) as [[-> _]|(j & ns' & [= <-] & H1 & H2)]; [|eauto].
  pose proof (inv_phase _ _ _ _ _ _ Hinv) as Hph. inversion Hph.
Qed.

Lemma control_thread s k lim running ct ns a t b :
  invariant s k lim running ct ns -> threads s = a ++ t :: b -> (forall j, t <> Notifying j) ->
  ct = [t] /\ a ++ b ≡ₚ map Notifying ns.
Proof.
  intros Hinv Ht Hn. destruct (picked _ _ _ _ _ _ _ _ _ Hinv Ht) as [?|(j & ns' & -> & _)]; [done|by destruct (Hn j)].
Qed.

Lemma phase_control k lim running t p : phase k lim running [t] p ->
  p = Waiting /\
  match t with
  | Starting i => i = k /\ lim = k /\ running = false
  | InStart i => i = k /\ lim = k /\ running = true
  | Listener i err => i = k /\ lim = S k /\ running = false /\ err = result_of k
  | Sending err => decisive k /\ lim = S k /\ running = false /\ err = result_of k
  | Notifying _ => False
  end.
Proof. by inversion 1. Qed.

Lemma subtask_keeps s s' k lim running ct ns :
  invariant s k lim running ct ns -> subtask_step s s' -> exists lim' running' ct' ns', invariant s' k lim' running' ct' ns'.
Proof.
  intros Hinv Hstep. destruct Hstep as [a b i st p c|a b i st p c|a b i st p c].
  - destruct (control_thread _ _ _ _ _ _ a _ b Hinv eq_refl ltac:(done)) as [Hct Hab].
    destruct Hinv as [Hph Hk Hnil _ Hns [Hl Hst]]. cbn [par statuses] in *. subst ct. apply phase_control in Hph as (-> & -> & -> & ->).
    exists k, true, [InStart k], ns. constructor; cbn [par threads statuses]; [constructor|done|done| |done|].
    + by rewrite <- Permutation_middle, Hab.
    + apply (status_insert _ _ _ (status_at k false ns)); [done..|]. intros j Hj. unfold status_at.
      destruct (decide (j < k)); [by rewrite (decide_False (P := j = k)) by lia|]. cbn [andb].
      destruct (decide (j = k)) as [->|]; [by rewrite Nat.eqb_refl|by rewrite (proj2 (Nat.eqb_neq j k))].
  - destruct (control_thread _ _ _ _ _ _ a _ b Hinv eq_refl ltac:(done)) as [Hct Hab].
    destruct Hinv as [Hph Hk Hnil _ [Hnd Hns] [Hl Hst]]. cbn [par statuses] in *. subst ct. apply phase_control in Hph as (-> & -> & -> & ->).
    exists (S k), false, [Listener k (result_of k)], (k :: ns).
    constructor; cbn [par threads statuses]; [constructor|done|done| | |].
    + rewrite <- Permutation_middle, <- Permutation_middle, Hab. cbn [map app]. apply Permutation_swap.
    + split; [constructor; [|done]|].
      * intros Hin%Hns. lia.
      * intros i [->|Hi%Hns]%elem_of_cons; lia.
    + split; [done|]. intros i Hi. rewrite (Hst i Hi). f_equal. unfold status_at.
      destruct (decide (i < k)), (decide (i < S k)); try lia.
      * destruct (decide (i ∈ ns)), (decide (i ∈ k :: ns)) as [Hin|Hin]; try done; [by destruct Hin; right|].
        apply elem_of_cons in Hin as [->|]; [lia|done].
      * assert (i = k) as -> by lia. rewrite Nat.eqb_refl. by rewrite decide_True by by left.
      * by rewrite (proj2 (Nat.eqb_neq i k)) by lia.
  - destruct (not_starting_notifier _ _ _ _ _ _ a i b Hinv eq_refl) as (ns' & Hp & Hab).
    destruct Hinv as [Hph Hk Hnil _ [Hnd Hns] [Hl Hst]]. cbn [par statuses] in *.
    rewrite Hp in Hnd. apply NoDup_cons in Hnd as [Hi Hnd].
    assert (Hlim : i < lim) by (apply Hns; rewrite Hp; by left).
    exists lim, running, ct, ns'. constructor; cbn [par threads statuses]; [done|done|done|done| |].
    + split; [done|]. intros j Hj. apply Hns. rewrite Hp. by right.
    + apply (status_insert _ _ _ (status_at lim running ns)); [done..|]. intros j Hj. unfold status_at.
      destruct (decide (j = i)) as [->|Hne]; [by rewrite decide_True, decide_False by done|].
      destruct (decide (j < lim)); [|done]. by rewrite (decide_ext (j ∈ ns') (j ∈ ns)) by (rewrite Hp; set_solver).
Qed.

Lemma step_keeps s s' k lim running ct ns :
  invariant s k lim running ct ns -> sequential_step s s' ->
  exists k' lim' running' ct' ns', invariant s' k' lim' running' ct' ns'.
Proof.
  intros Hinv Hstep. destruct Hstep as [s s' Hsub|a b i err st p c|a b err st c].
  - exists k. by eapply subtask_keeps.
  - destruct (control_thread _ _ _ _ _ _ a _ b Hinv eq_refl ltac:(done)) as [Hct Hab].
    destruct Hinv as [Hph Hk Hnil _ Hns Hst]. cbn [par statuses] in *. subst ct. apply phase_control in Hph as (-> & -> & -> & -> & ->).
    unfold on_done. destruct (decide (result_of k = None /\ S k < length results)) as [[Hr Hlt]|Hd].
    + exists (S k), (S k), false, [Starting (S k)], ns. constructor; cbn [par threads statuses]; [constructor|done| | |done|done].
      * intros i Hi. destruct (decide (i = k)) as [->|]; [done|]. apply Hnil. lia.
      * by rewrite <- Permutation_middle, Hab.
    + exists k, (S k), false, [Sending (result_of k)], ns.
      constructor; cbn [par threads statuses]; [constructor|done|done| |done|done].
      * unfold decisive. destruct (result_of k); [by left|]. right. destruct (decide (S k = length results)); [done|].
        destruct Hd. split; [done|lia].
      * by rewrite <- Permutation_middle, Hab.
  - destruct (control_thread _ _ _ _ _ _ a _ b Hinv eq_refl ltac:(done)) as [Hct Hab].
    destruct Hinv as [Hph Hk Hnil _ Hns Hst]. cbn [par statuses] in *. subst ct. apply phase_control in Hph as (_ & Hdec & -> & -> & ->).
    exists k, (S k), false, [], ns. by constructor; cbn [par threads statuses]; [constructor|..].
Qed.

Lemma reachable_invariant m s :
  results <> [] -> nsteps sequential_step m sequential_init s -> exists k lim running ct ns, invariant s k lim running ct ns.
Proof.
  intros Hne Hrun. pose proof (init_invariant Hne) as Hinit.
  assert (H : forall x y, nsteps sequential_step m x y -> (exists k lim running ct ns, invariant x k lim running ct ns) ->
    exists k lim running ct ns, invariant y k lim running ct ns).
  { clear. intros x y Hxy. induction Hxy as [|m x y z Hstep _ IH]; [done|].
    intros (k & lim & running & ct & ns & Hinv). apply IH. by eapply step_keeps. }
  apply (H _ _ Hrun). eauto 10.
Qed.

(** ** Every run ends *)

Definition weight (t : thread) : nat :=
  match t with
  | Starting i => 4 * (S (length results) - i) + 1
  | InStart i => 4 * (S (length results) - i)
  | Listener i _ => 4 * (S (length results) - i) - 2
  | Notifying _ | Sending _ => 1
  end.

Definition measure (s : task_state) : nat := sum_list_with weight (threads s).

Lemma step_decreases s s' k lim running ct ns :
  invariant s k lim running ct ns -> sequential_step s s' -> measure s' < measure s.
Proof.
  intros Hinv Hstep. unfold measure. destruct Hstep as [s s' Hsub|a b i err st p c|a b err st c]; [destruct Hsub as [a b i ? ? ?|a b i ? ? ?|a b i ? ? ?]|..];
    cbn [threads]; rewrite !sum_list_with_app; cbn [sum_list_with weight]; try lia.
  - destruct (control_thread _ _ _ _ _ _ a _ b Hinv eq_refl ltac:(done)) as [-> _].
    pose proof (inv_k _ _ _ _ _ _ Hinv). pose proof (inv_phase _ _ _ _ _ _ Hinv) as Hph.
    apply phase_control in Hph as (_ & -> & _). lia.
  - destruct (control_thread _ _ _ _ _ _ a _ b Hinv eq_refl ltac:(done)) as [-> _].
    pose proof (inv_k _ _ _ _ _ _ Hinv). pose proof (inv_phase _ _ _ _ _ _ Hinv) as Hph.
    apply phase_control in Hph as (_ & -> & _). unfold on_done. destruct (decide _); cbn [weight]; lia.
Qed.

Lemma run_length m s : results <> [] -> nsteps sequential_step m sequential_init s -> m <= measure sequential_init.
Proof.
  intros Hne Hrun.
  assert (H : forall x, nsteps sequential_step m x s -> (exists k lim running ct ns, invariant x k lim running ct ns) ->
    m + measure s <= measure x).
  { clear. intros x Hx. induction Hx as [|m x y z Hstep _ IH]; [lia|]. intros (k & lim & running & ct & ns & Hinv).
    pose proof (step_decreases _ _ _ _ _ _ _ Hinv Hstep). pose proof (step_keeps _ _ _ _ _ _ _ Hinv Hstep). specialize (IH H0). lia. }
  specialize (H _ Hrun). pose proof (init_invariant Hne). destruct H; [eauto 10|lia|lia].
Qed.

(** ** What a run ends with *)

Lemma first_error_at k : k < length results -> all_nil k -> decisive k -> result_of k = first_error.
Proof.
  intros Hk Hnil Hdec. unfold first_error, result_of in *. revert Hk Hnil Hdec. unfold all_nil, decisive, result_of.
  generalize results as l. clear. induction k as [|k IH]; intros l Hk Hnil Hdec.
  - destruct l as [|r l]; [simpl in Hk; lia|]. cbn in Hdec |- *. destruct r as [e|]; [done|].
    destruct Hdec as [?|Hl]; [done|]. by destruct l.
  - destruct l as [|r l]; [simpl in Hk; lia|]. pose proof (Hnil 0 ltac:(lia)) as H0. cbn in H0. subst r.
    cbn in *. apply IH; [lia| |].
    + intros i Hi. apply (Hnil (S i)). lia.
    + destruct Hdec as [?|?]; [by left|right; lia].
Qed.

Lemma stuck_returned s k lim running ct ns :
  invariant s k lim running ct ns -> (forall s', ~ sequential_step s s') ->
  threads s = [] /\ par s = Returned (result_of k) /\ decisive k /\ lim = S k /\ running = false /\ ns = [].
Proof.
  intros Hinv Hstuck. pose proof (inv_threads _ _ _ _ _ _ Hinv) as Hp.
  destruct s as [st th p c]. cbn [threads par] in *.
  assert (Hnil : forall a t b, th = a ++ t :: b -> t = Sending (result_of k) /\ p <> Waiting).
  { intros a t b ->. destruct t as [i|i|i|i err|err].
    - destruct (Hstuck _ (seq_subtask _ _ (step_enter a b i st p c))).
    - destruct (Hstuck _ (seq_subtask _ _ (step_return a b i st p c))).
    - destruct (Hstuck _ (seq_subtask _ _ (step_settle a b i st p c))).
    - destruct (Hstuck _ (seq_listen a b i err st p c)).
    - destruct (control_thread _ _ _ _ _ _ a _ b Hinv eq_refl ltac:(done)) as [-> _].
      pose proof (inv_phase _ _ _ _ _ _ Hinv) as Hph. cbn [par] in Hph. apply phase_control in Hph as (-> & _).
      destruct (Hstuck _ (seq_receive a b err st c)). }
  destruct th as [|t th].
  - split; [done|]. symmetry in Hp. apply Permutation_nil_r in Hp. apply app_eq_nil in Hp as [-> Hns].
    apply map_eq_nil in Hns as ->. pose proof (inv_phase _ _ _ _ _ _ Hinv) as Hph. cbn [par] in Hph. by inversion Hph.
  - exfalso. destruct (Hnil [] t th eq_refl) as [-> Hw].
    destruct (control_thread _ _ _ _ _ _ [] _ th Hinv eq_refl ltac:(done)) as [-> _].
    pose proof (inv_phase _ _ _ _ _ _ Hinv) as Hph. cbn [par] in Hph. by apply phase_control in Hph as (-> & _).
Qed.

(** C21. A sequential parent with at least one subtask: every run is finite; a
    subtask is entered only after all before it returned nil; what the parent
    returns is the first error, or nil when there is none; and when nothing can
    happen any more the parent has returned, no goroutine is left blocked, and
    exactly the subtasks up to the first failing one have run. *)
Theorem sequential_parent (m : nat) (s : task_state)
    (Hne : results <> []) (Hrun : nsteps sequential_step m sequential_init s) :
  m <= 4 * length results + 5 /\
  (forall i j st, statuses s !! i = Some st -> st <> StatusPending -> j < i -> result_of j = None) /\
  (forall err, par s = Returned err -> err = first_error) /\
  ((forall s', ~ sequential_step s s') ->
     threads s = [] /\ par s = Returned first_error /\
     forall i st, statuses s !! i = Some st ->
       (all_nil i -> st = final_status (result_of i)) /\ (~ all_nil i -> st = StatusPending)).
Proof.
  pose proof (run_length m s Hne Hrun) as Hm. destruct (reachable_invariant m s Hne Hrun) as (k & lim & running & ct & ns & Hinv).
  pose proof (inv_phase _ _ _ _ _ _ Hinv) as Hph. pose proof (inv_k _ _ _ _ _ _ Hinv) as Hk.
  pose proof (inv_nil _ _ _ _ _ _ Hinv) as Hnil. destruct (inv_status _ _ _ _ _ _ Hinv) as [Hl Hst].
  assert (Hat : forall i st, statuses s !! i = Some st -> st = status_at lim running ns i).
  { intros i st Hi. pose proof (lookup_lt_Some _ _ _ Hi) as Hlt. rewrite Hst in Hi by lia. by injection Hi. }
  split_and!.
  - unfold measure, sequential_init in Hm. cbn [threads sum_list_with weight] in Hm. lia.
  - intros i j st Hi Hp Hj. apply Hnil. apply Hat in Hi. subst st. unfold status_at in Hp.
    assert (Hi : i <= k); [|lia]. destruct (decide (i < lim)) as [Hlim|Hlim]; [inversion Hph; subst; lia|].
    destruct running; [|done]. cbn [andb] in Hp. destruct (Nat.eqb_spec i lim); [inversion Hph; subst; lia|done].
  - intros err Hp. rewrite Hp in Hph. inversion Hph; subst. by apply first_error_at.
  - intros Hstuck. destruct (stuck_returned _ _ _ _ _ _ Hinv Hstuck) as (Hth & Hp & Hdec & -> & -> & ->).
    rewrite <- (first_error_at k Hk Hnil Hdec). split_and!; [done|done|]. intros i st Hi.
    pose proof (lookup_lt_Some _ _ _ Hi) as Hlt. apply Hat in Hi. subst st. unfold status_at. cbn [andb]. split.
    + intros Hall. destruct (decide (i < S k)); [by rewrite decide_False by apply not_elem_of_nil|].
      destruct Hdec as [Hr|Hr]; [by destruct Hr; apply Hall; lia|lia].
    + intros Hall. rewrite decide_False; [done|]. intros Hi. apply Hall. intros j Hj. apply Hnil. lia.
Qed.
End Parent.

(** ** The concurrent parent *)

(** A listener that finds the parent gone stays blocked for ever. *)
Lemma blocked_sender_stays results s s' err :
  par s <> Waiting -> Sending err ∈ threads s -> concurrent_step results s s' ->
  par s' <> Waiting /\ Sending err ∈ threads s'.
Proof.
  intros Hp Hin Hstep. destruct Hstep as [s s' Hsub|a b i e st p c|a b e st c]; [destruct Hsub|..];
    cbn [par threads] in *; try done; (split; [done|]); set_solver.
Qed.

(** Of two failing subtasks one is left behind so. *)
Lemma concurrent_parent_leaks e1 e2 : exists s, rtc (concurrent_step [Some e1; Some e2]) (concurrent_init [Some e1; Some e2]) s /\
  par s = Returned (Some e1) /\ Sending (Some e2) ∈ threads s.
Proof.
  set (rs := [Some e1; Some e2]).
  exists (MkTasks [StatusFailed; StatusFailed] [Sending (Some e2)] (Returned (Some e1)) 1). split; [|split; [done|by left]].
  apply rtc_l with (MkTasks [StatusRunning; StatusPending] [InStart 0; Starting 1] Waiting 0).
  { apply conc_subtask, (step_enter rs [] [_]). }
  apply rtc_l with (MkTasks [StatusRunning; StatusRunning] [InStart 0; InStart 1] Waiting 0).
  { apply conc_subtask, (step_enter rs [_] []). }
  apply rtc_l with (MkTasks [StatusRunning; StatusRunning] [Notifying 0; Listener 0 (Some e1); InStart 1] Waiting 0).
  { apply conc_subtask, (step_return rs [] [_]). }
  apply rtc_l with (MkTasks [StatusRunning; StatusRunning] [Notifying 0; Listener 0 (Some e1); Notifying 1; Listener 1 (Some e2)] Waiting 0).
  { apply conc_subtask, (step_return rs [_; _] []). }
  apply rtc_l with (MkTasks [StatusFailed; StatusRunning] [Listener 0 (Some e1); Notifying 1; Listener 1 (Some e2)] Waiting 0).
  { apply conc_subtask, (step_settle rs [] [_; _; _]). }
  apply rtc_l with (MkTasks [StatusFailed; StatusFailed] [Listener 0 (Some e1); Listener 1 (Some e2)] Waiting 0).
  { apply conc_subtask, (step_settle rs [_] [_]). }
  apply rtc_l with (MkTasks [StatusFailed; StatusFailed] [Sending (Some e1); Listener 1 (Some e2)] Waiting 0).
  { apply (conc_listen rs [] [_]). }
  apply rtc_l with (MkTasks [StatusFailed; StatusFailed] [Sending (Some e1); Sending (Some e2)] Waiting 0).
  { apply (conc_listen rs [_] []). }
  apply rtc_once, (conc_receive rs [] [_]).
Qed.

(** ** The theorem at a concrete input *)

(** Two subtasks, the first one fails. *)
Lemma sequential_parent_witness :
  exists s, nsteps (sequential_step [Some (errorf "one"); None]) 5 (sequential_init [Some (errorf "one"); None]) s /\
    statuses s = [StatusFailed; StatusPending] /\ par s = Returned (first_error [Some (errorf "one"); None]).
Proof.
  set (rs := [Some (errorf "one"); None]).
  exists (MkTasks [StatusFailed; StatusPending] [] (Returned (Some (errorf "one"))) 0).
  assert (Hrun : nsteps (sequential_step rs) 5 (sequential_init rs)
    (MkTasks [StatusFailed; StatusPending] [] (Returned (Some (errorf "one"))) 0)).
  { apply nsteps_l with (MkTasks [StatusRunning; StatusPending] [InStart 0] Waiting 0).
    { apply seq_subtask, (step_enter rs [] []). }
    apply nsteps_l with (MkTasks [StatusRunning; StatusPending] [Notifying 0; Listener 0 (Some (errorf "one"))] Waiting 0).
    { apply seq_subtask, (step_return rs [] []). }
    apply nsteps_l with (MkTasks [StatusFailed; StatusPending] [Listener 0 (Some (errorf "one"))] Waiting 0).
    { apply seq_subtask, (step_settle rs [] [_]). }
    apply nsteps_l with (MkTasks [StatusFailed; StatusPending] [Sending (Some (errorf "one"))] Waiting 0).
    { apply (seq_listen rs [] []). }
    apply nsteps_once, (seq_receive rs [] []). }
  split; [exact Hrun|]. split; [reflexivity|].
  destruct (sequential_parent rs 5 _ ltac:(done) Hrun) as (_ & _ & Hret & _). exact (f_equal Returned (Hret _ eq_refl)).
Defined.
