(* ===== verification/TasksConcurrent.v ===== *)
(** * The concurrent parent (core/installer/tasks/tasks.go)

    Every subtask runs on its own; the parent takes what their listeners send
    until one is an error or all have come. *)
From S2P Require Import Prelude Tasks.
Open Scope list_scope.

(** ** Lists made of a piece for every index *)

Lemma pieces_at {A} (f : nat -> list A) (n i : nat) : i < n ->
  exists rest, forall g, (forall j, j <> i -> g j = f j) -> concat (map g (seq 0 n)) ≡ₚ g i ++ rest.
Proof.
  intros Hi. assert (Hs : seq 0 n = seq 0 i ++ i :: seq (S i) (n - S i)).
  { replace n with (i + S (n - S i)) at 1 by lia. rewrite seq_app. by cbn [seq Nat.add]. }
  exists (concat (map f (seq 0 i)) ++ concat (map f (seq (S i) (n - S i)))). intros g Hg. rewrite Hs, map_app, concat_app. cbn [map concat].
  rewrite (map_ext_in g f (seq 0 i)), (map_ext_in g f (seq (S i) (n - S i))).
  - rewrite !(assoc_L (++)). apply Permutation_app_tail. apply Permutation_app_comm.
  - intros j Hj%in_seq. apply Hg. lia.
  - intros j Hj%in_seq. apply Hg. lia.
Qed.

Lemma elem_of_pieces {A} (f : nat -> list A) (n : nat) (t : A) : t ∈ concat (map f (seq 0 n)) -> exists i, i < n /\ t ∈ f i.
Proof.
  rewrite list_elem_of_In, in_concat. intros (l & (i & <- & Hi%in_seq)%in_map_iff & Ht). exists i. split; [lia|by apply list_elem_of_In].
Qed.

(** ** Where each subtask is *)

Inductive place := AtStart | Inside | Listening | AtChannel | Received.

#[export] Instance place_eq_dec : EqDecision place.
Proof. solve_decision. Defined.

Section Concurrent.
Context (results : list result).
Abbreviation n := (length results).
Abbreviation result_at := (result_of results).

Definition control (p : place) (i : nat) : list thread :=
  match p with
  | AtStart => [Starting i]
  | Inside => [InStart i]
  | Listening => [Listener i (result_at i)]
  | AtChannel => [Sending (result_at i)]
  | Received => []
  end.

Definition goroutines (ph : nat -> place) (nt : nat -> bool) (i : nat) : list thread :=
  control (ph i) i ++ (if nt i then [Notifying i] else []).

Definition status_in (ph : nat -> place) (nt : nat -> bool) (i : nat) : Status :=
  match ph i with
  | AtStart => StatusPending
  | Inside => StatusRunning
  | _ => if nt i then StatusRunning else final_status (result_at i)
  end.

(** [done]: the subtasks the parent has heard of. *)
Record concurrent_inv (ph : nat -> place) (nt : nat -> bool) (heard : list nat) (s : task_state) : Prop := {
  ci_threads : threads s ≡ₚ concat (map (goroutines ph nt) (seq 0 n));
  ci_early : forall i, ph i = AtStart \/ ph i = Inside -> nt i = false;
  ci_heard : NoDup heard /\ forall i, i ∈ heard <-> i < n /\ ph i = Received;
  ci_count : received s = length heard;
  ci_parent : match par s with
              | Waiting => length heard < n /\ forall i, i ∈ heard -> result_at i = None
              | Returned None => length heard = n /\ forall i, i ∈ heard -> result_at i = None
              | Returned (Some e) => exists i, i < n /\ result_at i = Some e
              end;
  ci_status : length (statuses s) = n /\ forall i, i < n -> statuses s !! i = Some (status_in ph nt i);
}.

Lemma concurrent_start : concurrent_inv (fun _ => AtStart) (fun _ => false) [] (concurrent_init results).
Proof.
  constructor; cbn [concurrent_init threads received par statuses].
  - generalize (seq 0 n) as l. induction l as [|i l IH]; [done|]. cbn [map concat goroutines control app]. by rewrite IH.
  - done.
  - split; [constructor|]. intros i. split; [by intros ?%elem_of_nil|by intros [_ ?]].
  - done.
  - case_decide as Hr; [subst; split; [done|by intros i ?%elem_of_nil]|]. split; [|by intros i ?%elem_of_nil]. destruct results; [done|simpl; lia].
  - rewrite length_replicate. split; [done|]. intros i Hi. by rewrite lookup_replicate_2.
Qed.

(** A goroutine of a subtask, and what is left without it. *)
Lemma goroutine_at ph nt heard st a t b p c : concurrent_inv ph nt heard (MkTasks st (a ++ t :: b) p c) ->
  exists i rest, i < n /\ t ∈ goroutines ph nt i /\ t :: (a ++ b) ≡ₚ goroutines ph nt i ++ rest /\
    (forall ph' nt', (forall j, j <> i -> ph' j = ph j /\ nt' j = nt j) ->
       concat (map (goroutines ph' nt') (seq 0 n)) ≡ₚ goroutines ph' nt' i ++ rest).
Proof.
  intros Hinv. pose proof (ci_threads _ _ _ _ Hinv) as Hth. cbn [threads] in Hth.
  destruct (elem_of_pieces (goroutines ph nt) n t) as (i & Hi & Ht); [rewrite <- Hth; set_solver|].
  destruct (pieces_at (goroutines ph nt) n i Hi) as (rest & Hrest). exists i, rest. split_and!; [done|done| |].
  - rewrite <- (Hrest (goroutines ph nt)) by done. rewrite <- Hth. apply Permutation_middle.
  - intros ph' nt' Hsame. apply Hrest. intros j Hj. unfold goroutines. by destruct (Hsame j Hj) as [-> ->].
Qed.

Definition upd {A} (f : nat -> A) (i : nat) (x : A) (j : nat) : A := if decide (j = i) then x else f j.

Lemma upd_same {A} (f : nat -> A) i x : upd f i x i = x.
Proof. unfold upd. by rewrite decide_True. Qed.

Lemma upd_other {A} (f : nat -> A) i x j : j <> i -> upd f i x j = f j.
Proof. intros Hj. unfold upd. by rewrite decide_False. Qed.

(** The thread [t] of subtask [i] is replaced by [ts]. *)
Lemma moved ph nt ph' nt' i rest a t b ts :
  (forall j, j <> i -> ph' j = ph j /\ nt' j = nt j) ->
  (forall ph' nt', (forall j, j <> i -> ph' j = ph j /\ nt' j = nt j) -> concat (map (goroutines ph' nt') (seq 0 n)) ≡ₚ goroutines ph' nt' i ++ rest) ->
  t :: (a ++ b) ≡ₚ goroutines ph nt i ++ rest ->
  (forall l, t :: l ≡ₚ goroutines ph nt i ++ rest -> ts ++ l ≡ₚ goroutines ph' nt' i ++ rest) ->
  a ++ ts ++ b ≡ₚ concat (map (goroutines ph' nt') (seq 0 n)).
Proof.
  intros Hsame Hrest Ht Hts. rewrite (Hrest ph' nt' Hsame), <- (Hts (a ++ b) Ht). rewrite !(assoc_L (++)). apply Permutation_app_tail. apply Permutation_app_comm.
Qed.

(** One subtask moves on, and the parent has not heard of it. *)
Lemma relocate ph nt heard st st' a t b p c i rest ts pl (x : bool) :
  concurrent_inv ph nt heard (MkTasks st (a ++ t :: b) p c) -> i < n ->
  t :: (a ++ b) ≡ₚ goroutines ph nt i ++ rest ->
  (forall ph' nt', (forall j, j <> i -> ph' j = ph j /\ nt' j = nt j) -> concat (map (goroutines ph' nt') (seq 0 n)) ≡ₚ goroutines ph' nt' i ++ rest) ->
  (forall l, t :: l ≡ₚ goroutines ph nt i ++ rest -> ts ++ l ≡ₚ control pl i ++ (if x then [Notifying i] else []) ++ rest) ->
  (pl = Received <-> ph i = Received) -> (pl = AtStart \/ pl = Inside -> x = false) ->
  st' = <[i := status_in (upd ph i pl) (upd nt i x) i]> st ->
  concurrent_inv (upd ph i pl) (upd nt i x) heard (MkTasks st' (a ++ ts ++ b) p c).
Proof.
  intros Hinv Hi Ht Hrest Hts Hrec Hearly ->. destruct Hinv as [_ He Hh Hc Hp [Hl Hst]]. cbn [received par statuses] in *. constructor; cbn [threads received par statuses].
  - apply (moved ph nt _ _ i rest a t b ts); [|done|done|].
    + intros j Hj. by rewrite !upd_other.
    + intros l Hl'. rewrite (Hts l Hl'). unfold goroutines. by rewrite !upd_same, (assoc_L (++)).
  - intros j. destruct (decide (j = i)) as [->|Hj]; [by rewrite !upd_same|rewrite !upd_other by done; apply He].
  - destruct Hh as [Hnd Hh]. split; [done|]. intros j. rewrite Hh. destruct (decide (j = i)) as [->|Hj]; [rewrite upd_same; by rewrite Hrec|by rewrite upd_other].
  - done.
  - done.
  - split; [by rewrite length_insert|]. intros j Hj. destruct (decide (j = i)) as [->|Hne].
    + rewrite list_lookup_insert_eq by lia. done.
    + rewrite list_lookup_insert_ne by done. rewrite Hst by done. unfold status_in. by rewrite !upd_other.
Qed.

(** The element a step takes. *)
Lemma in_goroutines ph nt i t : t ∈ goroutines ph nt i ->
  (t = Notifying i /\ nt i = true) \/ control (ph i) i = [t].
Proof.
  unfold goroutines. rewrite elem_of_app. intros [H|H].
  - right. destruct (ph i); cbn [control] in *; set_solver.
  - left. destruct (nt i); set_solver.
Qed.

Lemma subtask_concurrent ph nt heard s s' : concurrent_inv ph nt heard s -> subtask_step results s s' ->
  exists ph' nt', concurrent_inv ph' nt' heard s'.
Proof.
  intros Hinv Hstep. destruct Hstep as [a b k st p c|a b k st p c|a b k st p c];
    destruct (goroutine_at _ _ _ _ _ _ _ _ _ Hinv) as (i & rest & Hi & Hin & Ht & Hrest);
    apply in_goroutines in Hin as Hcase.
  - destruct Hcase as [[? _]|Hcase]; [done|]. destruct (ph i) eqn:Hph; try done. injection Hcase as Hik. subst k.
    pose proof (ci_early _ _ _ _ Hinv i (or_introl Hph)) as Hn. do 2 eexists.
    apply (relocate ph nt heard st _ a (Starting i) b p c i rest [InStart i] Inside false Hinv Hi Ht Hrest); [|by rewrite Hph|done|by unfold status_in; rewrite upd_same].
    intros l Hl. unfold goroutines in Hl. rewrite Hph, Hn in Hl. cbn [control app] in *. apply Permutation_cons_inv in Hl. by rewrite Hl.
  - destruct Hcase as [[? _]|Hcase]; [done|]. destruct (ph i) eqn:Hph; try done. injection Hcase as Hik. subst k.
    pose proof (ci_early _ _ _ _ Hinv i (or_intror Hph)) as Hn. do 2 eexists.
    apply (relocate ph nt heard st _ a (InStart i) b p c i rest [Notifying i; Listener i (result_at i)] Listening true Hinv Hi Ht Hrest); [|by rewrite Hph|by intros [?|?]|].
    + intros l Hl. unfold goroutines in Hl. rewrite Hph, Hn in Hl. cbn [control app] in *. apply Permutation_cons_inv in Hl. rewrite Hl. apply perm_swap.
    + unfold status_in. rewrite !upd_same. symmetry. apply list_insert_id. rewrite (proj2 (ci_status _ _ _ _ Hinv)) by done. unfold status_in. by rewrite Hph.
  - destruct Hcase as [[Hk Hn]|Hcase]; [|by destruct (ph i)]. injection Hk as Hik. subst k. do 2 eexists.
    assert (Hlate : ph i <> AtStart /\ ph i <> Inside).
    { pose proof (ci_early _ _ _ _ Hinv i) as He. split; intros Hph; rewrite He in Hn by tauto; done. }
    apply (relocate ph nt heard st _ a (Notifying i) b p c i rest [] (ph i) false Hinv Hi Ht Hrest); [|done|done|].
    + intros l Hl. unfold goroutines in Hl. rewrite Hn in Hl. cbn [app]. rewrite <- (assoc_L (++)) in Hl. cbn [app] in Hl.
      rewrite <- Permutation_middle in Hl. by apply Permutation_cons_inv in Hl.
    + unfold status_in. rewrite !upd_same. by destruct (ph i), Hlate.
Qed.

Lemma concurrent_keeps ph nt heard s s' : concurrent_inv ph nt heard s -> concurrent_step results s s' ->
  exists ph' nt' heard', concurrent_inv ph' nt' heard' s'.
Proof.
  intros Hinv Hstep. destruct Hstep as [s s' Hsub|a b k err st p c|a b err st c].
  - destruct (subtask_concurrent _ _ _ _ _ Hinv Hsub) as (ph' & nt' & H). by exists ph', nt', heard.
  - destruct (goroutine_at _ _ _ _ _ _ _ _ _ Hinv) as (i & rest & Hi & Hin & Ht & Hrest).
    apply in_goroutines in Hin as [[? _]|Hcase]; [done|]. destruct (ph i) eqn:Hph; try done. injection Hcase as Hik <-. subst k. do 3 eexists.
    apply (relocate ph nt heard st _ a (Listener i (result_at i)) b p c i rest [Sending (result_at i)] AtChannel (nt i) Hinv Hi Ht Hrest);
      [|by rewrite Hph|by intros [?|?]|].
    + intros l Hl. unfold goroutines in Hl. rewrite Hph in Hl. cbn [control app] in *. apply Permutation_cons_inv in Hl. by rewrite Hl.
    + unfold status_in. rewrite !upd_same. symmetry. apply list_insert_id. rewrite (proj2 (ci_status _ _ _ _ Hinv)) by done. unfold status_in. by rewrite Hph.
  - destruct (goroutine_at _ _ _ _ _ _ _ _ _ Hinv) as (i & rest & Hi & Hin & Ht & Hrest).
    apply in_goroutines in Hin as [[? _]|Hcase]; [done|]. destruct (ph i) eqn:Hph; try done. injection Hcase as <-.
    exists (upd ph i Received), nt, (i :: heard).
    destruct Hinv as [_ He [Hnd Hh] Hc [Hlt Hnil] [Hl Hst]]. cbn [received par statuses] in *. constructor; cbn [threads received par statuses].
    + apply (moved ph nt _ _ i rest a (Sending (result_at i)) b []); [|done|done|].
      * intros j Hj. by rewrite upd_other.
      * intros l Hl'. unfold goroutines in *. rewrite Hph in Hl'. rewrite upd_same. cbn [control app] in *. by apply Permutation_cons_inv in Hl'.
    + intros j. destruct (decide (j = i)) as [->|Hj]; [rewrite upd_same; by intros [?|?]|rewrite upd_other by done; apply He].
    + split; [constructor; [rewrite Hh, Hph; by intros [_ ?]|done]|]. intros j. rewrite elem_of_cons, Hh.
      destruct (decide (j = i)) as [->|Hj]; [rewrite upd_same; tauto|rewrite upd_other by done; naive_solver].
    + cbn [length]. by rewrite Hc.
    + assert (Hall : result_at i = None -> forall j, j ∈ i :: heard -> result_at j = None) by (intros Hr j [->|Hj]%elem_of_cons; [done|by apply Hnil]).
      destruct (result_at i) as [e|] eqn:Hr; [by exists i|]. case_decide as Hd; cbn [length]; (split; [|by apply Hall]); lia.
    + split; [done|]. intros j Hj. rewrite Hst by done. unfold status_in. destruct (decide (j = i)) as [->|Hne]; [by rewrite upd_same, Hph|by rewrite upd_other].
Qed.

(** ** Every run ends *)

Definition load (t : thread) : nat :=
  match t with Starting _ => 5 | InStart _ => 4 | Listener _ _ => 2 | Notifying _ | Sending _ => 1 end.

Lemma concurrent_decreases s s' : concurrent_step results s s' -> S (sum_list_with load (threads s')) <= sum_list_with load (threads s).
Proof.
  intros Hstep. destruct Hstep as [s s' Hsub|a b i err st p c|a b err st c]; [destruct Hsub|..];
    cbn [threads]; rewrite !sum_list_with_app; cbn [sum_list_with load]; lia.
Qed.

Lemma concurrent_length m s : nsteps (concurrent_step results) m (concurrent_init results) s -> m <= 5 * n.
Proof.
  intros Hrun. assert (H : forall x, nsteps (concurrent_step results) m x s -> m + sum_list_with load (threads s) <= sum_list_with load (threads x)).
  { clear. intros x Hx. induction Hx as [|m x y z Hstep _ IH]; [lia|]. pose proof (concurrent_decreases _ _ Hstep). lia. }
  specialize (H _ Hrun). cbn [concurrent_init threads] in H.
  assert (Hsum : forall l, sum_list_with load (map Starting l) = 5 * length l) by (induction l as [|i l IH]; [done|cbn [map sum_list_with load length]; lia]).
  rewrite Hsum, length_seq in H. lia.
Qed.

Lemma concurrent_reachable m s : nsteps (concurrent_step results) m (concurrent_init results) s -> exists ph nt heard, concurrent_inv ph nt heard s.
Proof.
  intros Hrun. assert (H : forall x, nsteps (concurrent_step results) m x s -> (exists ph nt heard, concurrent_inv ph nt heard x) -> exists ph nt heard, concurrent_inv ph nt heard s).
  { clear. intros x Hx. induction Hx as [|m x y z Hstep _ IH]; [done|]. intros (ph & nt & heard & Hinv). apply IH. by eapply concurrent_keeps. }
  apply (H _ Hrun). do 3 eexists. apply concurrent_start.
Qed.

(** ** What a run ends with *)

Lemma heard_all heard : NoDup heard -> (forall i, i ∈ heard -> i < n) -> length heard = n -> forall i, i < n -> i ∈ heard.
Proof.
  intros Hnd Hlt Hlen i Hi. assert (Hp : heard ≡ₚ seq 0 n).
  { apply submseteq_length_Permutation; [|rewrite length_seq; lia]. apply NoDup_submseteq; [done|]. intros j Hj. apply elem_of_seq. specialize (Hlt j Hj). lia. }
  rewrite Hp. apply elem_of_seq. lia.
Qed.

Lemma concurrent_stuck ph nt heard s : concurrent_inv ph nt heard s -> (forall s', ~ concurrent_step results s s') ->
  par s <> Waiting /\ forall i, i < n -> (ph i = AtChannel \/ ph i = Received) /\ nt i = false.
Proof.
  intros Hinv Hstuck. destruct s as [st th p c].
  assert (Hth : forall t, t ∈ th -> exists err, t = Sending err /\ p <> Waiting).
  { intros t (a & b & ->)%list_elem_of_split. destruct t as [i|i|i|i err|err].
    - destruct (Hstuck _ (conc_subtask _ _ _ (step_enter results a b i st p c))).
    - destruct (Hstuck _ (conc_subtask _ _ _ (step_return results a b i st p c))).
    - destruct (Hstuck _ (conc_subtask _ _ _ (step_settle results a b i st p c))).
    - destruct (Hstuck _ (conc_listen results a b i err st p c)).
    - exists err. split; [done|]. intros ->. destruct (Hstuck _ (conc_receive results a b err st c)). }
  assert (Hat : forall i, i < n -> forall t, t ∈ goroutines ph nt i -> exists err, t = Sending err /\ p <> Waiting).
  { intros i Hi t Ht. apply Hth. pose proof (ci_threads _ _ _ _ Hinv) as Hp. cbn [threads] in Hp. rewrite Hp.
    apply list_elem_of_In, in_concat. exists (goroutines ph nt i). split; [|by apply list_elem_of_In]. apply in_map, in_seq. lia. }
  assert (Hpl : forall i, i < n -> ((ph i = AtChannel /\ p <> Waiting) \/ ph i = Received) /\ nt i = false).
  { intros i Hi. specialize (Hat i Hi). unfold goroutines in Hat. split.
    - destruct (ph i); [destruct (Hat (Starting i)) as (? & ? & _)|destruct (Hat (InStart i)) as (? & ? & _)|destruct (Hat (Listener i (result_at i))) as (? & ? & _)| |];
        try done; try (by left). + left. split; [done|]. destruct (Hat (Sending (result_at i))) as (_ & _ & Hw); [by left|done]. + by right.
    - destruct (nt i); [|done]. destruct (Hat (Notifying i)) as (? & ? & _); [|done]. apply elem_of_app. right. by left. }
  cbn [par]. split; [|intros i Hi; destruct (Hpl i Hi) as [[[H _]|H] Hn]; tauto].
  intros ->. pose proof (ci_parent _ _ _ _ Hinv) as [Hlt _]. destruct (ci_heard _ _ _ _ Hinv) as [Hnd Hh].
  assert (Hincl : seq 0 n ⊆+ heard).
  { apply NoDup_submseteq; [apply NoDup_seq|]. intros i [_ Hi]%elem_of_seq. apply Hh. split; [lia|]. destruct (Hpl i ltac:(lia)) as [[[_ Hw]|H] _]; [done|done]. }
  apply submseteq_length in Hincl. rewrite length_seq in Hincl. lia.
Qed.

(** C40. A concurrent parent: every run is finite, at most five steps a subtask; if
    the parent returns nil, every subtask returned nil and the parent heard of
    each; if it returns an error, it is that of a subtask; and when nothing can
    happen any more the parent has returned and every subtask has run to its end
    - with no goroutine left when none failed, and otherwise with none left but
    listeners blocked on the channel nobody reads. *)
Theorem concurrent_parent (m : nat) (s : task_state) (Hrun : nsteps (concurrent_step results) m (concurrent_init results) s) :
  m <= 5 * n /\
  (par s = Returned None -> received s = n /\ forall i, i < n -> result_at i = None) /\
  (forall e, par s = Returned (Some e) -> exists i, i < n /\ result_at i = Some e) /\
  ((forall s', ~ concurrent_step results s s') ->
     (exists r, par s = Returned r /\ (r = None <-> forall i, i < n -> result_at i = None)) /\
     (forall i, i < n -> statuses s !! i = Some (final_status (result_at i))) /\
     ((forall i, i < n -> result_at i = None) -> threads s = []) /\
     (forall t, t ∈ threads s -> exists err, t = Sending err)).
Proof.
  pose proof (concurrent_length m s Hrun) as Hm. destruct (concurrent_reachable m s Hrun) as (ph & nt & heard & Hinv).
  destruct (ci_heard _ _ _ _ Hinv) as [Hnd Hh].
  assert (Hnone : par s = Returned None -> length heard = n /\ forall i, i < n -> i ∈ heard /\ result_at i = None).
  { intros Hp. pose proof (ci_parent _ _ _ _ Hinv) as H. rewrite Hp in H. destruct H as [Hl Hr]. split; [done|].
    intros i Hi. assert (Hin : i ∈ heard) by (apply (heard_all heard); [done|by intros j []%Hh|done|done]). split; [done|by apply Hr]. }
  split; [done|]. split; [|split; [|intros Hstuck; split_and!]].
  - intros Hp. destruct (Hnone Hp) as [Hl Hr]. split; [by rewrite (ci_count _ _ _ _ Hinv)|]. intros i Hi. by apply Hr.
  - intros e Hp. pose proof (ci_parent _ _ _ _ Hinv) as H. by rewrite Hp in H.
  - destruct (concurrent_stuck _ _ _ _ Hinv Hstuck) as [Hw _]. destruct (par s) as [|r] eqn:Hp; [done|]. exists r. split; [done|]. split.
    + intros ->. intros i Hi. by apply Hnone.
    + intros Hall. destruct r as [e|]; [|done]. pose proof (ci_parent _ _ _ _ Hinv) as H. rewrite Hp in H. destruct H as (i & Hi & He). rewrite Hall in He by done. done.
  - intros i Hi. destruct (concurrent_stuck _ _ _ _ Hinv Hstuck) as [_ Hpl]. destruct (Hpl i Hi) as [Hph Hn].
    rewrite (proj2 (ci_status _ _ _ _ Hinv)) by done. unfold status_in. rewrite Hn. by destruct Hph as [-> | ->].
  - intros Hall. destruct (concurrent_stuck _ _ _ _ Hinv Hstuck) as [Hw Hpl]. destruct (par s) as [|[e|]] eqn:Hp; [done| |].
    + pose proof (ci_parent _ _ _ _ Hinv) as H. rewrite Hp in H. destruct H as (i & Hi & He). by rewrite Hall in He.
    + destruct (Hnone eq_refl) as [_ Hr]. apply Permutation_nil_r. symmetry. rewrite (ci_threads _ _ _ _ Hinv).
      assert (Hz : forall l, (forall i, i ∈ l -> i < n) -> concat (map (goroutines ph nt) l) = []).
      { induction l as [|i l IH]; intros Hl; [done|]. cbn [map concat]. rewrite IH by (intros j Hj; apply Hl; by right).
        assert (Hi : i < n) by (apply Hl; by left). destruct (Hr i Hi) as [Hin _]. apply Hh in Hin as [_ Hin]. destruct (Hpl i Hi) as [_ Hn].
        unfold goroutines. by rewrite Hin, Hn. }
      rewrite Hz; [done|]. intros i [_ Hi]%elem_of_seq. lia.
  - intros t Ht. rewrite (ci_threads _ _ _ _ Hinv) in Ht. apply elem_of_pieces in Ht as (i & Hi & Ht).
    destruct (concurrent_stuck _ _ _ _ Hinv Hstuck) as [_ Hpl]. destruct (Hpl i Hi) as [Hph Hn]. unfold goroutines in Ht. rewrite Hn in Ht.
    destruct Hph as [Hph|Hph]; rewrite Hph in Ht; cbn [control app] in Ht; [|by apply elem_of_nil in Ht].
    apply list_elem_of_singleton in Ht. by eexists.
Qed.
End Concurrent.

(** ** The theorem at a concrete input *)

Lemma concurrent_parent_witness :
  exists s, nsteps (concurrent_step [None]) 5 (concurrent_init [None]) s /\ par s = Returned None /\ received s = 1 /\ 5 <= 5 * 1.
Proof.
  exists (MkTasks [StatusDone] [] (Returned None) 1).
  assert (Hrun : nsteps (concurrent_step [None]) 5 (concurrent_init [None]) (MkTasks [StatusDone] [] (Returned None) 1)).
  { apply nsteps_l with (MkTasks [StatusRunning] [InStart 0] Waiting 0). { apply conc_subtask, (step_enter [None] [] []). }
    apply nsteps_l with (MkTasks [StatusRunning] [Notifying 0; Listener 0 None] Waiting 0). { apply conc_subtask, (step_return [None] [] []). }
    apply nsteps_l with (MkTasks [StatusDone] [Listener 0 None] Waiting 0). { apply conc_subtask, (step_settle [None] [] [_]). }
    apply nsteps_l with (MkTasks [StatusDone] [Sending None] Waiting 0). { apply (conc_listen [None] [] []). }
    apply nsteps_l with (MkTasks [StatusDone] [] (Returned None) 1); [apply (conc_receive [None] [] [])|constructor]. }
  destruct (concurrent_parent [None] 5 _ Hrun) as (Hm & Hnone & _). split; [exact Hrun|]. split; [reflexivity|]. split; [by apply Hnone|exact Hm].
Defined.
