(* ===== verification/Releases.v ===== *)
(** * Releases, names and addresses (core/installer: kube.go, namespace.go, name.go; tasks/release.go; soft/client.go)

    Small parts the installer is put together from: namespaces, random names,
    addresses of repositories, and waiting for Helm releases. *)
From S2P Require Import Prelude GoLib GoStrings InstallerTypes AppManager Tasks TasksConcurrent.
From Stdlib Require Import Ascii.
Open Scope string_scope.
Open Scope list_scope.

(** ** kube.go *)

Inductive kubeToolE : Type -> Type :=
  | CreateNamespace (name : string) : kubeToolE (outcome unit)
  | GetHelmRelease (ns name : string) : kubeToolE (outcome json)
  | HttpGet (addr : string) : kubeToolE (outcome (outcome string))
  | RandRead (len : nat) : kubeToolE (outcome (list Z))
  | SleepSeconds (n : nat) : kubeToolE unit.

(** A namespace that is there already is fine. *)
Definition Create (name : string) : go kubeToolE unit :=
  check _u := call (CreateNamespace name) onerr e => (if decide (ekind e = KAlreadyExists) then mret tt else fail e) in
  mret tt.

Definition Fetch (addr : string) : go kubeToolE string := resp ← call (HttpGet addr); lift resp.

(** The conditions of a helmRelease. *)
Definition decode_condition (v : json) : outcome (string * string) :=
  t ← json_field "type" json_string "" v; s ← json_field "status" json_string "" v; Ok (t, s).

Definition decode_conditions (v : json) : outcome (list (string * string)) :=
  _ ← json_field "metadata" (fun m => _ ← json_field "name" json_string "" m; json_field "namespace" json_string "" m) "" v;
  json_field "status" (json_field "conditions" (json_array decode_condition) []) [] v.

Definition ready_condition (c : string * string) : bool := String.eqb c.1 "Ready" && String.eqb c.2 "True".

Definition IsReleased (namespace name : string) : go kubeToolE bool :=
  res ← call (GetHelmRelease namespace name);
  conditions ← lift (decode_conditions res);
  mret (existsb ready_condition conditions).

(** ** tasks/release.go *)

(** The loop of newMonitorHelm, followed for [n] rounds; errors are waited out. *)
Fixpoint newMonitorHelm (n : nat) (namespace name : string) : go kubeToolE unit :=
  match n with
  | 0 => Ret Diverge
  | S n' =>
      let again : go kubeToolE unit := Vis (SleepSeconds 5) (fun _ => newMonitorHelm n' namespace name) in
      check ok := IsReleased namespace name onerr _e => again in
      if ok : bool then mret tt else again
  end.

(** NewMonitorRelease: the subtasks of a concurrent parent. *)
Definition NewMonitorRelease (n : nat) (helm : list Resource) : list (go kubeToolE unit) :=
  map (fun h => newMonitorHelm n (resNamespace h) (resName h)) helm.

(** ** namespace.go, name.go *)

Definition letters : string := "abcdefghijklmnopqrstuvwxyz".

Definition letter (v : Z) : ascii := default " "%char (String.get (Z.to_nat (v mod 26)) letters).

Definition random_letters (r : list Z) : string := fold_right (fun v s => String (letter v) s) "" r.

(** fixedLengthRandomNameGenerator *)
Definition GenerateName (len : nat) : go kubeToolE string := r ← call (RandRead len); mret (random_letters r).

Inductive suffix_generator := EmptySuffix | FixedSuffix (suffix : string) | RandomSuffix (len : nat).

Definition GenerateSuffix (g : suffix_generator) : go kubeToolE string :=
  match g with
  | EmptySuffix => mret ""
  | FixedSuffix s => mret s
  | RandomSuffix len => r ← call (RandRead len); mret ("-" +:+ random_letters r)
  end.

(** prefixGenerator *)
Definition GenerateNamespace (prefix name : string) : outcome string := Ok (prefix +:+ name).

(** ** soft/client.go: addresses of repositories *)

Record RepositoryAddress := MkRepoAddr { raAddr : string; raName : string }.

Definition FullAddress (r : RepositoryAddress) : string := "ssh://" +:+ raAddr r +:+ "/" +:+ raName r.

(** The last "/" of a text without line ends: as the greedy regular expression cuts it. *)
Fixpoint cut_last (s : string) : option (string * string) :=
  match s with
  | "" => None
  | String c s' =>
      match cut_last s' with
      | Some (a, b) => Some (String c a, b)
      | None => if Ascii.eqb c "/"%char then Some ("", s') else None
      end
  end.

(** The regular expression is not anchored: the first place where it matches; on texts
    without line ends. *)
Fixpoint ParseRepositoryAddress (addr : string) : outcome RepositoryAddress :=
  match (if HasPrefix addr "ssh://" then cut_last (str_drop 6 addr) else None) with
  | Some (a, b) => Ok (MkRepoAddr a b)
  | None => match addr with "" => Err (errorf "Invalid address") | String _ s' => ParseRepositoryAddress s' end
  end.

(** * Proofs *)

Lemma cut_last_none s : no_char "/"%char s -> cut_last s = None.
Proof.
  induction s as [|c s IH]; [done|]. intros [Hc Hs]%no_char_cons. cbn [cut_last]. rewrite (IH Hs).
  by rewrite (proj2 (Ascii.eqb_neq c "/") Hc).
Qed.

Lemma cut_last_app a b : no_char "/"%char b -> cut_last (a +:+ String "/" b) = Some (a, b).
Proof.
  intros Hb. induction a as [|c a IH]; [rewrite str_app_l_nil; cbn [cut_last]; by rewrite cut_last_none|].
  rewrite str_app_cons. cbn [cut_last]. by rewrite IH.
Qed.

(** An address that is written is read back, unless the name has a slash: then
    its first part counts as part of the host. *)
Theorem address_roundtrip (r : RepositoryAddress) (Hname : no_char "/"%char (raName r)) :
  ParseRepositoryAddress (FullAddress r) = Ok r.
Proof.
  destruct r as [a b]. cbn [raName] in Hname. unfold FullAddress. cbn [raAddr raName].
  change ("ssh://" +:+ a +:+ "/" +:+ b) with ("ssh://" +:+ (a +:+ String "/" b)).
  assert (Hp : HasPrefix ("ssh://" +:+ (a +:+ String "/" b)) "ssh://" = true) by apply HasPrefix_app.
  assert (Hd : str_drop 6 ("ssh://" +:+ (a +:+ String "/" b)) = a +:+ String "/" b) by apply (str_drop_app "ssh://").
  change ("ssh://" +:+ (a +:+ String "/" b)) with (String "s" ("sh://" +:+ (a +:+ String "/" b))) in *.
  cbn [ParseRepositoryAddress]. by rewrite Hp, Hd, cut_last_app.
Qed.

Example slash_in_name : ParseRepositoryAddress (FullAddress (MkRepoAddr "host:22" "org/app")) = Ok (MkRepoAddr "host:22/org" "app").
Proof. reflexivity. Qed.

(** ** Waiting for a release *)

(** The k-th answer about a release; the state counts the questions. *)
Definition release_step (answer : nat -> outcome json) : handler kubeToolE nat := fun X e k =>
  match e in kubeToolE X return nat * X with
  | CreateNamespace _ => (k, Ok tt)
  | GetHelmRelease _ _ => (S k, answer k)
  | HttpGet _ => (k, Err (errorf "not here"))
  | RandRead _ => (k, Err (errorf "not here"))
  | SleepSeconds _ => (k, tt)
  end.

Definition released (o : outcome json) : bool :=
  match v ← o; decode_conditions v with Ok l => existsb ready_condition l | _ => false end.

(** The k-th answer is one an API can give. *)
Definition answers (answer : nat -> outcome json) : Prop := forall k, (exists v, answer k = Ok v) \/ exists e, answer k = Err e.

Lemma decode_conditions_total v : (exists l, decode_conditions v = Ok l) \/ exists e, decode_conditions v = Err e.
Proof.
  assert (Hstr : forall k w, (exists s, json_field k json_string "" w = Ok s) \/ exists e, json_field k json_string "" w = Err e).
  { intros k w. unfold json_field. destruct w; try (by left; eexists); try (by right; eexists).
    destruct (list_find _ _) as [[i [k' []]]|]; first [by left; eexists|by right; eexists]. }
  assert (Hcond : forall w, (exists c, decode_condition w = Ok c) \/ exists e, decode_condition w = Err e).
  { intros w. unfold decode_condition. destruct (Hstr "type" w) as [[t ->]|[e ->]]; [|by right; eexists]. cbn [mbind outcome_bind].
    destruct (Hstr "status" w) as [[s ->]|[e ->]]; [by left; eexists|by right; eexists]. }
  assert (Hlist : forall w, (exists l, json_array decode_condition w = Ok l) \/ exists e, json_array decode_condition w = Err e).
  { intros []; try (by left; eexists); try (by right; eexists). cbn [json_array]. induction l as [|x l IH]; [by left; eexists|]. cbn [json_list].
    destruct (Hcond x) as [[c ->]|[e ->]]; [|by right; eexists]. destruct IH as [[l' ->]|[e ->]]; [by left; eexists|by right; eexists]. }
  unfold decode_conditions.
  assert (Hmeta : forall w, (exists s, (_ ← json_field "name" json_string "" w; json_field "namespace" json_string "" w) = Ok s) \/
    exists e, (_ ← json_field "name" json_string "" w; json_field "namespace" json_string "" w) = Err e).
  { intros w. destruct (Hstr "name" w) as [[s ->]|[e ->]]; [|by right; eexists]. cbn [mbind outcome_bind]. apply Hstr. }
  assert (Hfield : forall (A : Type) (dec : json -> outcome A) zero k w,
    (forall x, (exists a, dec x = Ok a) \/ exists e, dec x = Err e) ->
    (exists a, json_field k dec zero w = Ok a) \/ exists e, json_field k dec zero w = Err e).
  { intros A dec zero k w Hdec. unfold json_field. destruct w; try (by left; eexists); try (by right; eexists).
    destruct (list_find _ _) as [[i [k' []]]|]; try (by left; eexists); apply Hdec. }
  destruct (Hfield _ (fun m => _ ← json_field "name" json_string "" m; json_field "namespace" json_string "" m) "" "metadata" v Hmeta) as [[s ->]|[e ->]];
    [|by right; eexists]. cbn [mbind outcome_bind]. apply Hfield. intros x. by apply Hfield.
Qed.

Lemma run_IsReleased answer ns name k : answers answer ->
  let '(k', r) := run (release_step answer) (IsReleased ns name) k in
  k' = S k /\ (r = Ok (released (answer k)) \/ released (answer k) = false /\ exists e, r = Err e).
Proof.
  intros Ha. unfold IsReleased. rewrite run_mbind, run_call. cbn [release_step]. unfold released.
  destruct (Ha k) as [[v Hv]|[e He]]; [rewrite Hv|rewrite He; cbn; split; [done|right; split; [done|by eexists]]].
  rewrite run_mbind. cbn [run lift mbind outcome_bind]. destruct (decode_conditions_total v) as [[l ->]|[e ->]]; cbn; (split; [done|]); [by left|].
  right. split; [done|by eexists].
Qed.

(** Waiting for a release ends exactly when it is ready: the monitor asks until
    the first answer that shows the condition, whatever errors come before it -
    a release that is not there yet, an answer that is not read - and then returns
    nil after as many questions; it never returns an error, and as long as no
    answer shows the condition it goes on asking. *)
Theorem monitor_waits (answer : nat -> outcome json) (namespace name : string) (n : nat) (Ha : answers answer) :
  (forall k, k < n -> released (answer k) = true -> (forall j, j < k -> released (answer j) = false) ->
     run (release_step answer) (newMonitorHelm n namespace name) 0 = (S k, Ok tt)) /\
  ((forall j, j < n -> released (answer j) = false) -> run (release_step answer) (newMonitorHelm n namespace name) 0 = (n, Diverge)).
Proof.
  assert (H : forall m,
    (forall k, m <= k < m + n -> released (answer k) = true -> (forall j, m <= j < k -> released (answer j) = false) ->
      run (release_step answer) (newMonitorHelm n namespace name) m = (S k, Ok tt)) /\
    ((forall j, m <= j < m + n -> released (answer j) = false) -> run (release_step answer) (newMonitorHelm n namespace name) m = (m + n, Diverge))).
  { induction n as [|n' IH]; intros m.
    - split; [intros k Hk; lia|]. intros _. cbn [newMonitorHelm run]. by rewrite Nat.add_0_r.
    - cbn [newMonitorHelm]. rewrite run_handle. pose proof (run_IsReleased answer namespace name m Ha) as Hr.
      destruct (run (release_step answer) (IsReleased namespace name) m) as [m' r]. destruct Hr as [-> Hr].
      assert (Hnext : released (answer m) = false ->
        run (release_step answer) (match r with Ok a => if a then (mret tt : go kubeToolE unit) else Vis (SleepSeconds 5) (fun _ => newMonitorHelm n' namespace name)
          | _ => Vis (SleepSeconds 5) (fun _ => newMonitorHelm n' namespace name) end) (S m) = run (release_step answer) (newMonitorHelm n' namespace name) (S m)).
      { intros Hf. destruct Hr as [->|[_ [e ->]]]; [by rewrite Hf|done]. }
      destruct (IH (S m)) as [IH1 IH2]. split.
      + intros k Hk Hrel Hbefore. destruct (decide (k = m)) as [->|Hne].
        * destruct Hr as [->|[Hf _]]; [|congruence]. by rewrite Hrel.
        * specialize (Hnext (Hbefore m ltac:(lia))). rewrite <- (IH1 k ltac:(lia) Hrel) by (intros j Hj; apply Hbefore; lia).
          destruct Hr as [->|[_ [e ->]]]; exact Hnext.
      + intros Hall. specialize (Hnext (Hall m ltac:(lia))). replace (m + S n') with (S m + n') by lia.
        rewrite <- IH2 by (intros j Hj; apply Hall; lia). destruct Hr as [->|[_ [e ->]]]; exact Hnext. }
  destruct (H 0) as [H1 H2]. split; [intros k Hk Hrel Hbefore; apply H1; [lia|done|intros j Hj; apply Hbefore; lia]|].
  intros Hall. apply H2. intros j Hj. apply Hall. lia.
Qed.

Definition ready_answer (k : nat) : outcome json :=
  match k with
  | 0 => Err (errorf "not found")
  | 1 => Ok (JObj [("metadata", JObj [("name", JStr "app")]); ("status", JObj [("conditions", JArr [])])])
  | _ => Ok (JObj [("status", JObj [("conditions", JArr [JObj [("type", JStr "Ready"); ("status", JStr "True")]])])])
  end.

Lemma monitor_waits_witness : run (release_step ready_answer) (newMonitorHelm 5 "ns" "app") 0 = (3, Ok tt).
Proof.
  apply (monitor_waits ready_answer "ns" "app" 5); [|lia|reflexivity|].
  - intros [|[|k]]; [right; eexists; reflexivity|left; eexists; reflexivity|left; eexists; reflexivity].
  - intros [|[|j]]; [reflexivity|reflexivity|lia].
Defined.
