(* ===== verification/SoftClient.v ===== *)
(** * The client of the Git server (core/installer/soft/client.go)

    How a command of EnvTasks reaches the server: a connection and a session for
    each, the retries until a server answers, and clones. *)
From S2P Require Import Prelude GoLib GoStrings Releases.
Open Scope string_scope.
Open Scope list_scope.
#[local] Set Default Proof Using "Type*".

(** ** Connections *)

(** What git.Clone answers: [ErrEmptyRemoteRepository] comes with a repository. *)
Inductive clone_result := Cloned (repo : nat) | EmptyRemote (repo : nat) | CloneFailed (e : error).

Inductive sshE : Type -> Type :=
  | Dial (addr signer : string) : sshE (list string * outcome nat)    (* the keys its callback was shown, the connection *)
  | NewSession (client : nat) : sshE (outcome nat)
  | RunSession (session : nat) (cmd : string) : sshE (outcome unit)
  | CloseSession (session : nat) : sshE unit
  | CloseClient (client : nat) : sshE unit
  | GitClone (url signer : string) : sshE clone_result
  | RetryAfter (seconds : nat) : sshE unit.

Record realClient := MkRealClient { addr : string; signer : string; pemBytes : string }.
Record Repository := MkRepository { repository : nat; repoAddr : RepositoryAddress }.

(** [ParsePrivateKey] of x/crypto/ssh: the signer. *)
Section Client.
Context (ParsePrivateKey : string -> outcome string).

Definition NewClient (addr clientPrivateKey : string) : outcome realClient :=
  signer ← ParsePrivateKey clientPrivateKey; Ok (MkRealClient addr signer clientPrivateKey).

(** Any host key is accepted; this is how the keys are learnt. *)
Definition GetPublicKeys (ss : realClient) : go sshE (list string) :=
  r ← Vis (Dial (addr ss) (signer ss)) (fun r => Ret (Ok r));
  client ← lift r.2;
  deferred (CloseClient client) (mret r.1).

(** Every error is retried after five seconds. *)
Fixpoint Get (fuel : nat) (addr clientPrivateKey : string) : go sshE realClient :=
  match fuel with
  | 0 => Ret Diverge
  | S n =>
      check client := (client ← lift (NewClient addr clientPrivateKey); _ ← GetPublicKeys client; mret client) onerr _err =>
        Vis (RetryAfter 5) (fun _ => Get n addr clientPrivateKey) in
      mret client
  end.

Definition RunCommand (ss : realClient) (args : list string) : go sshE unit :=
  let cmd := Join args " " in
  r ← Vis (Dial (addr ss) (signer ss)) (fun r => Ret (Ok r));
  client ← lift r.2;
  deferred (CloseClient client) (
    session ← call (NewSession client);
    deferred (CloseSession session) (call (RunSession session cmd))).

Definition CloneRepository (a : RepositoryAddress) (signer : string) : go sshE Repository :=
  Vis (GitClone (FullAddress a) signer) (fun r =>
    Ret (match r with
         | Cloned c | EmptyRemote c => Ok (MkRepository c a)
         | CloneFailed err => Err err
         end)).

(** port-allocator/main.go: the repository is cloned once, when the service starts. *)
Definition createRepoClient (ReadFile : string -> outcome string) (addr keyPath : string) : go sshE Repository :=
  sshKey ← lift (ReadFile keyPath);
  signer ← lift (ParsePrivateKey sshKey);
  repoAddr ← lift (ParseRepositoryAddress addr);
  CloneRepository repoAddr signer.
End Client.

(** ** A server *)

(** The answers to the dials in turn, to sessions and commands; what is open. *)
Record server := MkServer {
  dials : nat;
  handles : nat;                 (* connections and sessions made *)
  clients : list nat;
  sessions : list nat;
  wrong : bool;                  (* something was used or closed that is not open *)
  commands : list string;
  retries : nat;
}.

Definition drop_one (x : nat) (l : list nat) : list nat := filter (fun y => y <> x) l.

Lemma drop_new x l : (forall y, y ∈ l -> y < x) -> drop_one x (x :: l) = l.
Proof.
  intros Hl. unfold drop_one. rewrite filter_cons, decide_False by tauto. apply filter_all. intros y Hy ->. specialize (Hl x Hy). lia.
Qed.

Section Server.
Context (answers : nat -> list string * option error) (sessions_of : nat -> option error) (obeys : nat -> string -> option error).

Definition outcome_of {A} (a : A) (e : option error) : outcome A := match e with None => Ok a | Some err => Err err end.

Definition uses_client (c : nat) (s : server) : bool := wrong s || negb (bool_decide (c ∈ clients s)).
Definition uses_session (c : nat) (s : server) : bool := wrong s || negb (bool_decide (c ∈ sessions s)).

Definition server_step : handler sshE server := fun X e s =>
  match e in sshE X return server * X with
  | Dial _ _ =>
      let '(keys, err) := answers (dials s) in
      (match err with
       | None => MkServer (S (dials s)) (S (handles s)) (handles s :: clients s) (sessions s) (wrong s) (commands s) (retries s)
       | Some _ => MkServer (S (dials s)) (handles s) (clients s) (sessions s) (wrong s) (commands s) (retries s)
       end, (keys, outcome_of (handles s) err))
  | NewSession c =>
      let err := sessions_of (handles s) in
      (match err with
       | None => MkServer (dials s) (S (handles s)) (clients s) (handles s :: sessions s) (uses_client c s) (commands s) (retries s)
       | Some _ => MkServer (dials s) (handles s) (clients s) (sessions s) (uses_client c s) (commands s) (retries s)
       end, outcome_of (handles s) err)
  | RunSession c cmd =>
      (MkServer (dials s) (handles s) (clients s) (sessions s) (uses_session c s) (commands s ++ [cmd]) (retries s), outcome_of tt (obeys c cmd))
  | CloseSession c => (MkServer (dials s) (handles s) (clients s) (drop_one c (sessions s)) (uses_session c s) (commands s) (retries s), tt)
  | CloseClient c => (MkServer (dials s) (handles s) (drop_one c (clients s)) (sessions s) (uses_client c s) (commands s) (retries s), tt)
  | GitClone _ _ => (s, Cloned 0)
  | RetryAfter _ => (MkServer (dials s) (handles s) (clients s) (sessions s) (wrong s) (commands s) (S (retries s)), tt)
  end.

(** What is open was made before, and nothing went wrong. *)
Record orderly (s : server) : Prop := {
  o_clients : forall c, c ∈ clients s -> c < handles s;
  o_sessions : forall c, c ∈ sessions s -> c < handles s;
  o_wrong : wrong s = false;
}.

(** The same is open afterwards. *)
Definition leaves_open {A} (m : go sshE A) : Prop :=
  forall s, orderly s -> let s' := (run server_step m s).1 in orderly s' /\ clients s' = clients s /\ sessions s' = sessions s.

(** A connection is made for [m] and closed after it. *)
Definition with_connection {A} (ss : realClient) (m : list string -> nat -> go sshE A) : go sshE A :=
  r ← Vis (Dial (addr ss) (signer ss)) (fun r => Ret (Ok r));
  client ← lift r.2;
  deferred (CloseClient client) (m r.1 client).

(** [m] keeps what is open, given a connection that is. *)
Definition keeps_with {A} (m : list string -> nat -> go sshE A) : Prop :=
  forall keys c s, orderly s -> c ∈ clients s ->
    let s' := (run server_step (m keys c) s).1 in orderly s' /\ clients s' = clients s /\ sessions s' = sessions s /\ handles s <= handles s'.

Lemma with_connection_open {A} ss (m : list string -> nat -> go sshE A) : keeps_with m -> leaves_open (with_connection ss m).
Proof.
  intros Hm s [H1 H2 H3]. unfold with_connection. rewrite run_mbind. cbn [run server_step].
  destruct (answers (dials s)) as [keys [err|]]; cbn [run lift outcome_of]; rewrite run_mbind; cbn [run lift fst snd outcome_of]; [done|].
  rewrite run_deferred. set (s1 := MkServer _ _ _ _ _ _ _).
  assert (Ho : orderly s1).
  { constructor; cbn; [| |done]; intros c Hc.
    - apply elem_of_cons in Hc as [->|Hc]; [lia|]. specialize (H1 c Hc). lia.
    - specialize (H2 c Hc). lia. }
  destruct (Hm keys (handles s) s1 Ho ltac:(by left)) as ([O1 O2 O3] & Hc & Hs & Hh).
  destruct (run server_step (m keys (handles s)) s1) as [s2 o]. cbn [fst] in *. cbn [server_step fst].
  unfold uses_client. rewrite O3, Hc, bool_decide_eq_true_2 by by left. cbn [s1 clients sessions handles] in *. rewrite drop_new by done.
  cbn [clients sessions]. split; [|done]. constructor; cbn [clients sessions handles wrong]; [|exact O2|done].
  intros c Hin. specialize (H1 c Hin). lia.
Qed.

Lemma GetPublicKeys_open ss : leaves_open (GetPublicKeys ss).
Proof. apply (with_connection_open ss (fun keys _ => mret keys)). intros keys c s Ho _. by cbn. Qed.

Lemma RunCommand_open ss args : leaves_open (RunCommand ss args).
Proof.
  apply (with_connection_open ss (fun _ client => session ← call (NewSession client);
    deferred (CloseSession session) (call (RunSession session (Join args " "))))).
  intros keys c s [H1 H2 H3] Hc. assert (Hu : uses_client c s = false) by (unfold uses_client; by rewrite H3, bool_decide_eq_true_2).
  rewrite run_mbind, run_call. cbn [server_step]. rewrite Hu.
  destruct (sessions_of (handles s)) as [err|]; cbn [outcome_of fst].
  { split; [by constructor|]. split_and!; cbn; lia || done. }
  rewrite run_deferred, run_call. cbn [server_step fst clients sessions handles wrong dials commands retries]. unfold uses_session.
  cbn [sessions wrong]. rewrite !bool_decide_eq_true_2 by by left. cbn [orb negb]. rewrite drop_new by done.
  split; [|split_and!; cbn; lia || done]. constructor; cbn; [| |done]; intros x Hx; [specialize (H1 x Hx)|specialize (H2 x Hx)]; lia.
Qed.

Lemma Get_open parse fuel a k : leaves_open (Get parse fuel a k).
Proof.
  induction fuel as [|n IH]; intros s Hs; [done|]. cbn [Get]. rewrite run_handle, run_mbind. cbn [run lift].
  assert (Hretry : forall s, orderly s -> let s' := (run server_step (Vis (RetryAfter 5) (fun _ => Get parse n a k)) s).1 in
    orderly s' /\ clients s' = clients s /\ sessions s' = sessions s).
  { intros s0 [O1 O2 O3]. cbn [run server_step]. apply (IH (MkServer (dials s0) (handles s0) (clients s0) (sessions s0) (wrong s0) (commands s0) (S (retries s0)))). by constructor. }
  destruct (NewClient parse a k) as [c|e|w|]; [|by apply Hretry|done..].
  rewrite run_mbind. destruct (GetPublicKeys_open c s Hs) as (Ho & Hc & Hse).
  destruct (run server_step (GetPublicKeys c) s) as [s1 [keys|e|w|]]; cbn [fst] in *; [done| |done..].
  destruct (Hretry s1 Ho) as (Ho' & Hc' & Hse'). rewrite <- Hc, <- Hse. by split_and!.
Qed.

(** ** Waiting for a server *)

Lemma Get_S parse n a k : Get parse (S n) a k =
  handle (client ← lift (NewClient parse a k); _ ← GetPublicKeys client; mret client)
    (fun _ => Vis (RetryAfter 5) (fun _ => Get parse n a k)) (fun client => mret client).
Proof. done. Qed.

(** The client is there at the first dial that succeeds. *)
Theorem client_when_up (parse : string -> outcome string) (k : nat) (a key sg : string) (s : server)
    (Hkey : parse key = Ok sg) (Hdown : forall i, i < k -> (answers (dials s + i)).2 <> None) (Hup : (answers (dials s + k)).2 = None) (fuel : nat) :
  let '(s', r) := run server_step (Get parse (S k + fuel) a key) s in
  r = Ok (MkRealClient a sg key) /\ retries s' = retries s + k /\ dials s' = dials s + S k.
Proof.
  revert s Hdown Hup. induction k as [|k IH]; intros s Hdown Hup; cbn [Nat.add]; rewrite Get_S, run_handle, run_mbind; cbn [run lift];
    unfold NewClient at 1; rewrite Hkey; cbn [mbind outcome_bind]; rewrite run_mbind; unfold GetPublicKeys at 1; rewrite run_mbind; cbn [run server_step].
  - rewrite Nat.add_0_r in Hup. destruct (answers (dials s)) as [keys o]. cbn in Hup. subst o. cbn. split_and!; [done|lia..].
  - pose proof (Hdown 0 ltac:(lia)) as H0. rewrite Nat.add_0_r in H0. destruct (answers (dials s)) as [keys [err|]] eqn:Ha; [|done].
    cbn [run lift outcome_of]. rewrite run_mbind. cbn [run lift snd outcome_of server_step].
    set (s1 := MkServer _ _ _ _ _ _ _). pose proof (IH s1) as Hn. cbn [s1 dials retries] in Hn.
    cbn [Nat.add] in Hn.
    destruct (run server_step (Get parse (S (k + fuel)) a key) s1) as [s' r]. destruct Hn as (Hr & Ht & Hd).
    + intros i Hi. rewrite <- Nat.add_succ_r. apply Hdown. lia.
    + by rewrite <- Nat.add_succ_r.
    + split_and!; [done|lia..].
Qed.

(** A key that cannot be read is tried again for ever. *)
Lemma bad_key_forever parse fuel a key e s : parse key = Err e -> (run server_step (Get parse fuel a key) s).2 = Diverge.
Proof.
  intros Hk. revert s. induction fuel as [|n IH]; intros s; [done|]. cbn [Get]. rewrite run_handle, run_mbind. cbn [run lift].
  unfold NewClient. rewrite Hk. cbn [mbind outcome_bind run server_step]. apply IH.
Qed.

(** ** Nothing stays open *)

Inductive request := AsksKeys | Commands (args : list string) | Connects (key : string).

Definition perform (parse : string -> outcome string) (fuel : nat) (ss : realClient) (q : request) : go sshE unit :=
  match q with
  | AsksKeys => _ ← GetPublicKeys ss; mret tt
  | Commands args => RunCommand ss args
  | Connects key => _ ← Get parse fuel (addr ss) key; mret tt
  end.

Fixpoint perform_all (parse : string -> outcome string) (fuel : nat) (ss : realClient) (qs : list request) (s : server) : server :=
  match qs with [] => s | q :: qs' => perform_all parse fuel ss qs' (run server_step (perform parse fuel ss q) s).1 end.

Lemma open_then {A} (m : go sshE A) : leaves_open m -> leaves_open (_ ← m; mret tt).
Proof. intros Hm s Hs. cbv zeta. rewrite run_mbind. specialize (Hm s Hs). by destruct (run server_step m s) as [s1 []]. Qed.

(** Whatever the server answers and wherever an operation fails, the
    connections and sessions it opened are closed when it returns, each once, and
    none is used that is not open. *)
Theorem nothing_stays_open (parse : string -> outcome string) (fuel : nat) (ss : realClient) (qs : list request) (s : server) (Hs : orderly s) :
  let s' := perform_all parse fuel ss qs s in clients s' = clients s /\ sessions s' = sessions s /\ wrong s' = false.
Proof.
  cbv zeta. revert s Hs. induction qs as [|q qs IH]; intros s Hs; cbn [perform_all]; [split_and!; [done..|apply Hs]|].
  assert (Hq : leaves_open (perform parse fuel ss q)).
  { destruct q; [apply open_then, GetPublicKeys_open|apply RunCommand_open|apply open_then, Get_open]. }
  destruct (Hq s Hs) as (Ho & Hc & Hse). rewrite <- Hc, <- Hse. by apply IH.
Qed.
End Server.

(** ** A server that starts at the third dial *)

Definition demo_answers (n : nat) : list string * option error := if (n <? 2)%nat then ([], Some (errorf "connection refused")) else (["host key"], None).
Definition demo_parse (pem : string) : outcome string := if String.eqb pem "" then Err (errorf "no key found") else Ok ("signer of " +:+ pem).
Definition demo_refuses (session : nat) (cmd : string) : option error := if HasPrefix cmd "repo" then Some (errorf "exit status 1") else None.
Definition demo_server : server := MkServer 0 0 [] [] false [] 0.

Lemma client_when_up_witness :
  exists s', run (server_step demo_answers (fun _ => None) demo_refuses) (Get demo_parse 3 "soft:22" "pem") demo_server =
    (s', Ok (MkRealClient "soft:22" "signer of pem" "pem")) /\ retries s' = 2.
Proof.
  pose proof (client_when_up demo_answers (fun _ => None) demo_refuses demo_parse 2 "soft:22" "pem" "signer of pem" demo_server eq_refl
    ltac:(intros i Hi; destruct i as [|[|i]]; [done|done|lia]) eq_refl 0) as Hc. cbn [Nat.add] in Hc.
  destruct (run (server_step demo_answers (fun _ => None) demo_refuses) (Get demo_parse 3 "soft:22" "pem") demo_server) as [s' r].
  destruct Hc as (-> & Hr & _). exists s'. by split.
Defined.

Lemma nothing_stays_open_witness :
  let s' := perform_all demo_answers (fun _ => None) demo_refuses demo_parse 3 (MkRealClient "soft:22" "k" "pem")
    [Connects "pem"; Commands ["user"; "create"; "gio"]; AsksKeys; Commands ["repo"; "create"; "config"]] demo_server in
  clients s' = [] /\ sessions s' = [] /\ wrong s' = false /\ commands s' = ["user create gio"; "repo create config"].
Proof.
  destruct (nothing_stays_open demo_answers (fun _ => None) demo_refuses demo_parse 3 (MkRealClient "soft:22" "k" "pem")
    [Connects "pem"; Commands ["user"; "create"; "gio"]; AsksKeys; Commands ["repo"; "create"; "config"]] demo_server) as (H1 & H2 & H3).
  { constructor; cbn; [by intros c Hc%elem_of_nil..|done]. }
  cbv zeta. split_and!; [exact H1|exact H2|exact H3|by vm_compute].
Defined.
