(* ===== verification/Rewrite.v ===== *)
(** * Rewriting the apps of an environment (core/installer/cmd/rewrite.go)

    A command that clones the repository of an environment, renders every
    instance again from its stored input, and commits once at the end: every
    update runs without a commit, on the tree the ones before it left. *)
From S2P Require Import Prelude GoLib GoStrings GoPath RepoIO InstallerTypes Derived AppManager AppManagerTheorems InfraManager InfraManagerTheorems Rendering CueApps Releases.
Open Scope string_scope.
Open Scope list_scope.

Section Rewrite.
Context {E : Type -> Type} `{!RepoIO E}.
Context (ReadFile : string -> outcome string) (parse_key : string -> outcome unit).
Context (CloneRepository : RepositoryAddress -> go E unit).
(** The keys an app asks for. *)
Context {St : Type} (keys : handler keyE St) (st : St).

(** cueEnvApp.Render on the values as they are in memory. *)
Definition render_values (fuel : nat) (a : cueApp) (release : Release) (env : EnvConfig) (values : amap)
    : outcome EnvAppRendered :=
  (run keys (EnvRender fuel a release env (VMap values)) st).2.

Definition rewrite_instance (fuel : nat) (r : list App) (inst : AppInstanceConfig) : go E unit :=
  app ← lift (FindEnvApp r (AppId inst));
  v ← lift (InputToValues fuel inst (appSchema app));
  Update "/apps" (render_values fuel app) fuel (cfgId inst) v true.

(** The error of the last CommitAndPush is dropped. *)
Definition rewriteCmdRun (fuel : nat) (CreateAllApps : outcome (list App)) (sshKeyPath repoAddr : string) : go E unit :=
  sshKey ← lift (ReadFile sshKeyPath);
  _ ← lift (parse_key sshKey);
  addr ← lift (ParseRepositoryAddress repoAddr);
  _ ← CloneRepository addr;
  r ← lift CreateAllApps;
  env ← Config;
  all ← FindAllInstances "/apps";
  _ ← foreach (rewrite_instance fuel r) all;
  ignore_error (CommitAndPush "upgrade: persist cue files").
End Rewrite.
