(* ===== verification/RewriteTheorems.v ===== *)
(** * What rewriting does to an environment

    The updates of a rewriting see the trees of each other, and are published by
    one commit. *)
From S2P Require Import Prelude GoLib GoStrings GoPath RepoIO InstallerTypes Derived AppManager AppManagerTheorems InfraManager InfraManagerTheorems Rendering CueApps Releases Rewrite Leftovers Footprints.
Open Scope string_scope.
Open Scope list_scope.

(** ** Work on a checkout that is up to date *)

Section Staged.
Context (addr : string) (a : AppManager.answers).
#[local] Instance TheRepo : RepoIO appE := app_repo addr.
Abbreviation step := (app_step a).

(** The checkout on the last commit of the remote, with [f] in the work tree. *)
Definition staged (f : tree) (n : nat) (w : world) : world :=
  MkWorld (MkRepo f (remote (w_repo w)) (remote (w_repo w)) (log (w_repo w)) n) (w_ns w) (w_ports w).

(** From the work tree [f] the program answers [o] and leaves [f']; it may pull. *)
Definition stages {A} (p : go appE A) (f : tree) (o : outcome A) (f' : tree) : Prop :=
  forall n w, exists m, run step p (staged f n w) = (staged f' m w, o).

Lemma stages_does {A} (p : go appE A) f o f' : does a p f o f' -> stages p f o f'.
Proof. intros Hp n w. destruct (Hp (staged f n w) eq_refl) as [m Hm]. by exists m. Qed.

Lemma stages_ret {A} (o : outcome A) f : stages (Ret o) f o f.
Proof. intros n w. by exists n. Qed.

Lemma stages_mbind {A B} (p : go appE A) (k : A -> go appE B) f x f1 o f2 :
  stages p f (Ok x) f1 -> stages (k x) f1 o f2 -> stages (p ≫= k) f o f2.
Proof. intros Hp Hk n w. rewrite run_mbind. destruct (Hp n w) as [m ->]. apply Hk. Qed.

Lemma stages_ignore (p : go appE unit) f f' : stages p f (Ok tt) f' -> stages (ignore_error p) f (Ok tt) f'.
Proof. intros Hp n w. unfold ignore_error. rewrite run_handle. destruct (Hp n w) as [m ->]. by exists m. Qed.

Lemma stages_pull f : stages (on_repo repo.pullWithoutLock) f (Ok tt) f.
Proof.
  intros n w. rewrite run_on_repo. unfold repo.pullWithoutLock. rewrite run_handle, run_call. cbn [repo_step run mret go_ret].
  unfold pulled_state. rewrite decide_False; [by eexists|]. cbn. by intros [_ []].
Qed.

Lemma stages_Pull f : stages Pull f (Ok tt) f.
Proof. apply stages_pull. Qed.

(** Do, when it is told not to commit. *)
Lemma stages_Do op msg f f' : stages op f (Ok msg) f' -> stages (@Do _ TheRepo op true) f (Ok tt) f'.
Proof.
  intros Hop. cbn [Do TheRepo app_repo repo_in negb]. eapply stages_mbind; [apply stages_pull|].
  eapply stages_mbind; [exact Hop|]. apply stages_ret.
Qed.

(** ** One instance *)

Context {St : Type} (keys : handler keyE St) (st : St) (fuel : nat) (apps : list App) (env : EnvConfig).
Context (Hfuel : 2 < fuel).
Abbreviation root := (["apps"] : list string).

Definition reinstalled (f : tree) (cr : AppInstanceConfig * EnvAppRendered) : tree :=
  install_tree (root ++ [cfgId cr.1]) (encode_app_config (rConfig cr.2)) (rResources cr.2) (rData cr.2) f.

(** The instance [c] is stored in [f], its app is built in, and its stored input
    renders as [r]. *)
Record rewrites (f : tree) (cr : AppInstanceConfig * EnvAppRendered) : Prop := {
  rw_id : seg_ok (cfgId cr.1) /\ cfgId cr.1 <> "kustomization.yaml";
  rw_stored : find_instance_in root f (cfgId cr.1) = Ok cr.1;
  rw_renders : exists app v, FindEnvApp apps (AppId cr.1) = Ok app /\ InputToValues fuel cr.1 (appSchema app) = Ok v /\
    render_values keys st fuel app
      (MkRelease (cfgId cr.1) (relNamespace (cfgRelease cr.1)) addr (abs_path (root ++ [cfgId cr.1]))) env v = Ok cr.2;
  rw_data : data_ok (rData cr.2);
  rw_resources : names_ok (rResources cr.2);
  rw_config : well_formed_config (rConfig cr.2);
}.

(** An environment with the configuration [env]. *)
Definition env_tree (f : tree) : Prop :=
  kusts_ok f /\ read_doc decode_env_strict (fs_key "config.yaml") f = Ok env.

Lemma root_ok : Forall seg_ok root.
Proof. by apply Forall_singleton. Qed.

Lemma stages_Update {V} (Render : Release -> EnvConfig -> V -> outcome EnvAppRendered) values f cr :
  env_tree f -> seg_ok (cfgId cr.1) -> find_instance_in root f (cfgId cr.1) = Ok cr.1 ->
  Render (MkRelease (cfgId cr.1) (relNamespace (cfgRelease cr.1)) addr (abs_path (root ++ [cfgId cr.1]))) env values = Ok cr.2 ->
  data_ok (rData cr.2) -> names_ok (rResources cr.2) ->
  stages (Update "/apps" Render fuel (cfgId cr.1) values true) f (Ok tt) (reinstalled f cr).
Proof using Hfuel.
  intros [Hk Hc] Hid Hs HR Hd Hn. apply find_instance_stored in Hs as (c & Hread & Hcfg); [|apply root_ok|done].
  assert (Hkp : Forall seg_ok (root ++ [cfgId cr.1])) by by apply Forall_snoc; [apply root_ok|].
  unfold Update. eapply stages_mbind; [apply stages_Pull|].
  eapply stages_mbind; [apply stages_does; rewrite <- Hc; apply (does_read_doc addr)|].
  change "/apps" with (abs_path root). rewrite JoinPath_abs by done.
  eapply stages_mbind with (x := c).
  { apply stages_does. rewrite <- Hread. unfold config_key. rewrite config_split.
    change (abs_path ((root ++ [cfgId cr.1]) ++ ["config.json"])) with (file_key (root ++ [cfgId cr.1]) "config.json").
    rewrite <- key_file by (done || by split_and!). apply (does_read_doc addr). }
  assert (Hns : cfgRelease c = cfgRelease cr.1) by by rewrite Hcfg. rewrite Hns.
  eapply stages_mbind; [unfold lift; change (@RepoIO.FullAddress _ TheRepo) with addr; rewrite HR; apply stages_ret|].
  unfold InstallApp. eapply stages_Do, stages_does. apply (does_install addr); [done|done|done|done|done|]. simpl. lia.
Qed.

Lemma stages_instance f cr :
  env_tree f -> rewrites f cr -> stages (rewrite_instance keys st fuel apps cr.1) f (Ok tt) (reinstalled f cr).
Proof using Hfuel.
  intros He [[Hid _] Hs (app & v & Hfind & Hv & HR) Hd Hn _]. unfold rewrite_instance.
  eapply stages_mbind; [unfold lift; rewrite Hfind; apply stages_ret|].
  eapply stages_mbind; [unfold lift; rewrite Hv; apply stages_ret|]. by apply stages_Update.
Qed.

(** ** All of them *)

Lemma env_tree_kept f cr : rewrites f cr -> env_tree f -> env_tree (reinstalled f cr).
Proof.
  intros [[Hid Hne] _ _ Hd Hn _] [Hk Hc]. split; [exact (kusts_ok_installed _ _ _ _ _ Hd Hn Hk)|].
  rewrite <- Hc. apply read_doc_frame. unfold reinstalled. change (fs_key "config.yaml") with (abs_path ["config.yaml"]).
  apply installed_out; [apply root_ok|done|done|done|by apply Forall_singleton| |].
  - intros c. by intros [= ? _].
  - intros [|d dir]; [by intros [= ?]|]. intros [= _ He]. by apply app_cons_not_nil in He.
Qed.

Lemma rewrites_kept f cr cr' :
  env_tree f -> rewrites f cr -> cfgId cr'.1 <> cfgId cr.1 -> rewrites f cr' -> rewrites (reinstalled f cr) cr'.
Proof.
  intros [Hk _] [[Hid Hne] _ _ Hd Hn _] Hother [Hid' Hs' HR' Hd' Hn' Hw'].
  constructor; [exact Hid'| |exact HR'|exact Hd'|exact Hn'|exact Hw'].
  refine (proj2 (find_other_installed _ _ _ _ _ _ root_ok Hid Hne Hk Hd Hn _ _ (proj1 Hid') Hother) Hs').
Qed.

(** The rest of a plan is still to be done after the first of it. *)
Lemma plan_kept f cr plan :
  env_tree f -> rewrites f cr -> cfgId cr.1 ∉ map (fun cr => cfgId cr.1) plan -> Forall (rewrites f) plan ->
  Forall (rewrites (reinstalled f cr)) plan.
Proof.
  intros He Hcr Hx Hall. rewrite Forall_forall in Hall |- *. intros cr' Hin.
  apply rewrites_kept; [exact He|exact Hcr| |by apply Hall].
  intros Heq. apply Hx. rewrite <- Heq. by apply (list_elem_of_fmap_2 (fun cr => cfgId cr.1)).
Qed.

Lemma stages_all plan f :
  env_tree f -> NoDup (map (fun cr => cfgId cr.1) plan) -> Forall (rewrites f) plan ->
  stages (foreach (rewrite_instance keys st fuel apps) (map fst plan)) f (Ok tt) (foldl reinstalled f plan).
Proof using Hfuel.
  revert f. induction plan as [|cr plan IH]; intros f He Hd Hall; [apply stages_ret|].
  cbn [map] in Hd. apply NoDup_cons in Hd as [Hx Hd]. apply Forall_cons in Hall as [Hcr Hall].
  cbn [map foreach foldl]. eapply stages_mbind; [by apply stages_instance|].
  apply IH; [by apply env_tree_kept|exact Hd|by apply plan_kept].
Qed.

Lemma find_untouched plan f id c :
  env_tree f -> NoDup (map (fun cr => cfgId cr.1) plan) -> Forall (rewrites f) plan ->
  seg_ok id -> id ∉ map (fun cr => cfgId cr.1) plan ->
  find_instance_in root f id = Ok c -> find_instance_in root (foldl reinstalled f plan) id = Ok c.
Proof.
  revert f. induction plan as [|cr plan IH]; intros f He Hd Hall Hid Hout Hf; [exact Hf|].
  cbn [map] in Hd, Hout. apply NoDup_cons in Hd as [Hx Hd]. apply Forall_cons in Hall as [Hcr Hall].
  apply not_elem_of_cons in Hout as [Hne Hout]. cbn [foldl].
  apply IH; [by apply env_tree_kept|exact Hd|by apply plan_kept|exact Hid|exact Hout|].
  destruct Hcr as [[Hcid Hcne] _ _ Hcd Hcn _]. destruct He as [Hk _].
  exact (proj2 (find_other_installed _ _ _ _ _ _ root_ok Hcid Hcne Hk Hcd Hcn _ _ Hid Hne) Hf).
Qed.

(** The instances keep the configurations they were rendered with. *)
Lemma find_rewritten plan f cr :
  env_tree f -> NoDup (map (fun cr => cfgId cr.1) plan) -> Forall (rewrites f) plan -> cr ∈ plan ->
  find_instance_in root (foldl reinstalled f plan) (cfgId cr.1) = Ok (with_id (cfgId cr.1) (rConfig cr.2)).
Proof.
  revert f. induction plan as [|x plan IH]; intros f He Hd Hall Hin; [by apply not_elem_of_nil in Hin|].
  cbn [map] in Hd. apply NoDup_cons in Hd as [Hx Hd]. apply Forall_cons in Hall as [Hcr Hall]. cbn [foldl].
  apply elem_of_cons in Hin as [->|Hin]; [|apply IH; [by apply env_tree_kept|exact Hd|by apply plan_kept|exact Hin]].
  apply find_untouched; [by apply env_tree_kept|exact Hd|by apply plan_kept|apply (rw_id _ _ Hcr)|exact Hx|].
  destruct Hcr as [[Hcid Hcne] _ _ Hcd Hcn Hw]. destruct He as [Hk _].
  exact (find_installed _ _ _ _ _ _ root_ok Hcid Hcne Hk Hcd Hcn Hw).
Qed.

Lemma does_collect f l : (forall c, c ∈ l -> find_instance_in root f (cfgId c) = Ok c) ->
  does a (collect "/apps" (fun _ => true) (map cfgId l)) f (Ok l) f.
Proof.
  induction l as [|c l IH]; intros Hl; [apply does_ret|]. cbn [map collect].
  pose proof (Hl c ltac:(by left)) as Hc. unfold find_instance_in in Hc.
  destruct (read_doc decode_kust _ f) as [k| | |]; cbn [mbind outcome_bind] in Hc; [|done..].
  destruct (decide _); [|done]. destruct (read_doc decode_app_config _ f) as [cfg| | |] eqn:Hcfg; cbn [mbind outcome_bind] in Hc; [|done..].
  eapply does_mbind; [rewrite <- Hcfg; apply (does_read_doc addr)|].
  eapply does_mbind; [apply IH; intros c' Hin; apply Hl; by right|]. injection Hc as ->. apply does_ret.
Qed.

Lemma stages_FindAllInstances f k plan :
  Forall (rewrites f) plan -> read_doc decode_kust (kust_key root) f = Ok k -> kResources k = map (fun cr => cfgId cr.1) plan ->
  stages (FindAllInstances "/apps") f (Ok (map fst plan)) f.
Proof.
  intros Hall Hk Hr. unfold FindAllInstances. eapply stages_mbind; [apply stages_ignore, stages_Pull|].
  apply stages_does. eapply does_mbind.
  { rewrite <- Hk, <- (root_key root root_ok). apply (does_read_doc addr). }
  rewrite Hr. rewrite <- (map_map fst cfgId). apply does_collect.
  intros c Hin. apply (list_elem_of_fmap fst) in Hin as (cr & -> & Hin). rewrite Forall_forall in Hall. apply (rw_stored _ _ (Hall cr Hin)).
Qed.

(** ** The command *)

Context (ReadFile : string -> outcome string) (parse_key : string -> outcome unit).
Context (CloneRepository : RepositoryAddress -> go appE unit).

(** C17. Rewriting renders every instance again and publishes all of them at once.
    When the stored input of every instance renders with the app of its name
    that is built in, the command succeeds; the remote gets one commit, whose tree
    is the old one with the instances installed again in the order they are
    listed, each update seeing the ones before it; and every instance is found
    with the configuration it was now rendered with. *)
Theorem rewrite_publishes_all (sshKeyPath repoAddr key : string) (ra : RepositoryAddress) (k : Kustomization)
    (plan : list (AppInstanceConfig * EnvAppRendered)) (w : world) (n : nat)
    (Hkey : ReadFile sshKeyPath = Ok key) (Hparse : parse_key key = Ok tt) (Haddr : ParseRepositoryAddress repoAddr = Ok ra)
    (Hclone : run step (CloneRepository ra) w = (checked_out n w, Ok tt))
    (Henv : env_tree (remote (w_repo w)))
    (Hk : read_doc decode_kust (kust_key root) (remote (w_repo w)) = Ok k)
    (Hlisted : kResources k = map (fun cr => cfgId cr.1) plan) (Honce : NoDup (kResources k))
    (Hplan : Forall (rewrites (remote (w_repo w))) plan) :
  exists w', run step (rewriteCmdRun ReadFile parse_key CloneRepository keys st fuel (Ok apps) sshKeyPath repoAddr) w = (w', Ok tt) /\
    log (w_repo w') = log (w_repo w) ++ ["upgrade: persist cue files"] /\
    remote (w_repo w') = foldl reinstalled (remote (w_repo w)) plan /\
    w_ns w' = w_ns w /\ w_ports w' = w_ports w /\
    forall cr, cr ∈ plan ->
      (run step (FindInstance "/apps" (cfgId cr.1)) w').2 = Ok (with_id (cfgId cr.1) (rConfig cr.2)).
Proof using Hfuel.
  rewrite Hlisted in Honce. set (f := remote (w_repo w)) in *.
  assert (Hall : stages (_ ← Config; all ← FindAllInstances "/apps"; foreach (rewrite_instance keys st fuel apps) all)
    f (Ok tt) (foldl reinstalled f plan)).
  { eapply stages_mbind; [apply stages_does; rewrite <- (proj2 Henv); apply (does_read_doc addr)|].
    eapply stages_mbind; [by eapply stages_FindAllInstances|]. by apply stages_all. }
  destruct (Hall n w) as [m Hm]. change (staged f n w) with (checked_out n w) in Hm.
  eexists. split; [|split; [|split; [|split; [|split]]]].
  - unfold rewriteCmdRun. rewrite run_mbind. cbn [run lift]. rewrite Hkey, run_mbind. cbn [run lift]. rewrite Hparse, run_mbind.
    cbn [run lift]. rewrite Haddr, run_mbind, Hclone, run_mbind. cbn [run lift].
    rewrite run_mbind in Hm |- *. destruct (run step Config (checked_out n w)) as [w1 [x1| | |]]; [|discriminate Hm..].
    rewrite run_mbind in Hm |- *. destruct (run step (FindAllInstances "/apps") w1) as [w2 [x2| | |]]; [|discriminate Hm..].
    rewrite run_mbind, Hm. unfold ignore_error. rewrite run_handle. cbn [CommitAndPush TheRepo app_repo repo_in].
    rewrite run_on_repo, run_CommitAndPush by done. cbn [run mret go_ret]. reflexivity.
  - done.
  - done.
  - done.
  - done.
  - intros cr Hin. change "/apps" with (abs_path root). rewrite (run_FindInstance addr) by apply root_ok.
    by apply find_rewritten.
Qed.
End Staged.

(** ** When something fails *)

Section Failing.
Context (fault : nat -> option error) (addr : string).
#[local] Instance DiskRepo : RepoIO repoE := billy_repo addr.
Abbreviation repo_run := (run (repo_step fault)).

(** Calls that leave the remote alone. *)
Definition local_call (X : Type) (e : repoE X) : Prop := match e with RepoPush => False | _ => True end.

Lemma local_remote {A} (p : go repoE A) s : calls local_call p -> remote (repo_run p s).1 = remote s.
Proof.
  intros Hp. apply (run_calls_inv (repo_step fault) local_call (fun s' => remote s' = remote s)); [|done|done].
  intros X e x He Hx. destruct e; cbn in He; try done; cbn [repo_step]; destruct (fault (ops x)); cbn [fst]; try exact Hx.
  unfold pulled_state. by case_decide.
Qed.

Lemma edits_local {A} (p : go repoE A) : calls edits p -> calls local_call p.
Proof. apply calls_weaken. intros X e. by destruct e. Qed.

Lemma local_pull : calls local_call repo.pullWithoutLock.
Proof. unfold repo.pullWithoutLock. solve_calls; by apply calls_call. Qed.

Lemma local_Do op : calls edits op -> calls local_call (@Do _ DiskRepo op true).
Proof.
  intros Hop. cbn [Do DiskRepo billy_repo]. unfold repo.Do. apply calls_mbind; [apply local_pull|]. intros _.
  apply calls_mbind; [by apply edits_local|]. by intros msg.
Qed.

Lemma local_ReadYaml {A} (dec : json -> outcome A) p : calls local_call (ReadYaml (RepoIO0 := DiskRepo) dec p).
Proof. apply edits_local, edits_ReadYaml. Qed.
Lemma local_Reader p : calls local_call (@Reader _ DiskRepo p).
Proof. apply edits_local, edits_Reader. Qed.
#[local] Hint Resolve local_pull local_Do local_Reader local_ReadYaml edits_install_op : go_calls.

Lemma local_collect dir keep l : calls local_call (collect dir keep l).
Proof. induction l as [|x l IH]; cbn [collect]; [done|]. unfold appConfig, ReadJson. solve_calls. Qed.
#[local] Hint Resolve local_collect : go_calls.

Lemma local_Update {V} (Render : Release -> EnvConfig -> V -> outcome EnvAppRendered) dir fuel id values :
  calls local_call (Update dir Render fuel id values true).
Proof. unfold Update, Config, appConfig, ReadJson, InstallApp. solve_calls. Qed.
#[local] Hint Resolve local_Update : go_calls.

Lemma push_all_or_nothing m s :
  let '(s', o) := repo_run (repo.CommitAndPush m) s in
  remote s' = remote s \/ (o = Ok tt /\ remote s' = files s').
Proof.
  unfold repo.CommitAndPush. rewrite run_mbind, run_call. cbn [repo_step]. destruct (fault (ops s)); [by left|].
  rewrite run_mbind, run_call. cbn [repo_step]. destruct (fault (ops (tick s))); [by left|].
  rewrite run_call. cbn [repo_step]. destruct (fault (ops (committed_state m (tick s)))); [by left|].
  unfold pushed_state. cbn [base committed_state]. case_decide; [by right|by left].
Qed.

Lemma local_FindAllInstances dir : calls local_call (FindAllInstances dir).
Proof. unfold FindAllInstances, ignore_error, ReadKustomization. cbn [Pull DiskRepo billy_repo]. unfold repo.Pull. solve_calls. Qed.

Lemma local_instance {St : Type} (keys : handler keyE St) st fuel r inst :
  calls local_call (rewrite_instance keys st fuel r inst).
Proof. unfold rewrite_instance. solve_calls. Qed.

(** Up to the last call of the command the remote stays what it was. *)
Lemma local_first {A} s0 (p : go repoE A) (k : A -> go repoE unit) s s' o :
  calls local_call p -> remote s = remote s0 ->
  (forall x t, remote t = remote s0 -> repo_run (k x) t = (s', o) -> remote s' = remote s0 \/ (o = Ok tt /\ remote s' = files s')) ->
  repo_run (p ≫= k) s = (s', o) -> remote s' = remote s0 \/ (o = Ok tt /\ remote s' = files s').
Proof.
  intros Hp Hs Hk. rewrite run_mbind. pose proof (local_remote p s Hp) as Hr.
  destruct (repo_run p s) as [t [x|e|y|]]; cbn [fst] in Hr; [by apply Hk; rewrite Hr|..]; intros [= <- _]; left; by rewrite Hr.
Qed.

(** A rewriting that fails publishes nothing, whatever fails and wherever: the
    updates before it are lost with the process.  One that reports success has
    published the tree it made, or nothing: an error of the last push is not
    reported. *)
Theorem rewrite_all_or_nothing (ReadFile : string -> outcome string) (parse_key : string -> outcome unit)
    (CloneRepository : RepositoryAddress -> go repoE unit) {St : Type} (keys : handler keyE St) (st : St) (fuel : nat)
    (apps : outcome (list App)) (sshKeyPath repoAddr : string) (s s' : repo_state) (o : outcome unit)
    (Hclone : forall ra, calls local_call (CloneRepository ra))
    (Hrun : repo_run (rewriteCmdRun ReadFile parse_key CloneRepository keys st fuel apps sshKeyPath repoAddr) s = (s', o)) :
  remote s' = remote s \/ (o = Ok tt /\ remote s' = files s').
Proof.
  assert (Hlast : forall x, repo_run (ignore_error (@CommitAndPush _ DiskRepo "upgrade: persist cue files")) x = (s', o) ->
    remote s' = remote x \/ (o = Ok tt /\ remote s' = files s')).
  { intros x. unfold ignore_error. rewrite run_handle. cbn [CommitAndPush DiskRepo billy_repo].
    pose proof (push_all_or_nothing "upgrade: persist cue files" x) as Hp.
    destruct (repo_run (repo.CommitAndPush _) x) as [y [[]|e|z|]]; intros [= <- <-];
      (destruct Hp as [Hp|[He Hp]]; [by left|]); first [discriminate He|by right]. }
  revert Hrun. unfold rewriteCmdRun, lift.
  apply (local_first s); [done|done|]. intros key t1 H1. apply (local_first s); [done|done|]. intros _ t2 H2.
  apply (local_first s); [done|done|]. intros ra t3 H3. apply (local_first s); [apply Hclone|done|]. intros _ t4 H4.
  apply (local_first s); [done|done|]. intros r t5 H5. apply (local_first s); [apply local_ReadYaml|done|]. intros env t6 H6.
  apply (local_first s); [apply local_FindAllInstances|done|]. intros all t7 H7.
  apply (local_first s); [apply calls_foreach; intros inst; apply local_instance|done|]. intros _ t8 H8 Hlast'.
  rewrite <- H8. by apply Hlast.
Qed.
End Failing.

(** ** The theorem at a concrete input *)

(** An app without input, whose definition has one more release by now. *)
Definition newer_app : cueApp :=
  MkCueApp "rpuppy" "" "" "app-rpuppy" (structSchema "input" [] false) []
    (fun _ => Ok (MkCue (Ok (Doc (JObj []))) (Ok "") (Ok []) (Ok [("rpuppy", Ok (Doc (JObj []))); ("more", Ok (Doc (JObj [])))])
      (Some (Ok (JArr []))) (Ok "") (Ok ""))).

Definition newer_rendered : EnvAppRendered :=
  match render_values numbered_keys 0 3 newer_app (MkRelease "rpuppy" "lekva-app-rpuppy" "ssh://repo" "/apps/rpuppy") demo_env [] with
  | Ok r => r
  | _ => zero_rendered
  end.

Lemma newer_data_ok : data_ok (rData newer_rendered) /\ names_ok (rResources newer_rendered).
Proof.
  split; [|vm_compute; by repeat constructor]. change (rData newer_rendered) with [("rendered.json", Doc (JObj []))].
  split_and!; [by repeat constructor|by apply NoDup_singleton|by intros n ->%list_elem_of_singleton].
Qed.

Lemma newer_rewrites :
  rewrites "ssh://repo" numbered_keys 0 3 [CueEnvApp newer_app] demo_env (remote (w_repo installed_world)) (demo_config, newer_rendered).
Proof.
  constructor; cbn [fst snd].
  - split; [exact rpuppy_ok|done].
  - vm_compute. reflexivity.
  - exists newer_app, []. split; [reflexivity|]. split; [reflexivity|]. vm_compute. reflexivity.
  - apply newer_data_ok.
  - apply newer_data_ok.
  - done.
Qed.

Lemma installed_env_tree : env_tree demo_env (remote (w_repo installed_world)).
Proof. split; [exact installed_kusts_ok|]. vm_compute. reflexivity. Qed.

Lemma rewrite_publishes_all_witness :
  exists w', run (app_step accepting) (rewriteCmdRun (RepoIO0 := app_repo "ssh://repo") (fun _ => Ok "key") (fun _ => Ok tt)
      (fun _ => embed (@OnRepo) repo.pullWithoutLock) numbered_keys 0 3 (Ok [CueEnvApp newer_app]) "/key" "ssh://repo/config")
      installed_world = (w', Ok tt) /\
    log (w_repo w') = ["install: rpuppy"; "upgrade: persist cue files"] /\
    remote (w_repo w') !! "/apps/rpuppy/resources/more.yaml" = Some (Doc (JObj [])).
Proof.
  destruct (rewrite_publishes_all "ssh://repo" accepting numbered_keys 0 3 [CueEnvApp newer_app] demo_env ltac:(lia)
    (fun _ => Ok "key") (fun _ => Ok tt) (fun _ => embed (@OnRepo) repo.pullWithoutLock) "/key" "ssh://repo/config" "key"
    (MkRepoAddr "repo" "config") (MkKust "kustomize.config.k8s.io/v1beta1" "Kustomization" ["rpuppy"]) [(demo_config, newer_rendered)]
    installed_world 1 eq_refl eq_refl eq_refl eq_refl installed_env_tree
    ltac:(vm_compute; reflexivity) eq_refl (NoDup_singleton _) ltac:(apply Forall_singleton; exact newer_rewrites))
    as (w' & Hrun & Hlog & Hrem & _).
  exists w'. split; [exact Hrun|]. split; [exact Hlog|]. rewrite Hrem. vm_compute. reflexivity.
Defined.

(** An environment without instances, whose repository refuses the push. *)
Definition bare_env : repo_state :=
  let f := {[ "/config.yaml" := Doc (encode_env demo_env); "/apps/kustomization.yaml" := Doc (encode_kust NewKustomization) ]} in
  MkRepo f f f [] 0.

Definition push_refused (n : nat) : option error := if (n =? 5)%nat then Some (errorf "connection refused") else None.

Lemma rewrite_all_or_nothing_witness :
  exists s', run (repo_step push_refused) (rewriteCmdRun (RepoIO0 := billy_repo "ssh://repo") (fun _ => Ok "key") (fun _ => Ok tt)
      (fun _ => Ret (Ok tt)) numbered_keys 0 3 (Ok []) "/key" "ssh://repo/config") bare_env = (s', Ok tt) /\
    log s' = ["upgrade: persist cue files"] /\ (remote s' = remote bare_env \/ remote s' = files s').
Proof.
  destruct (run (repo_step push_refused) (rewriteCmdRun (RepoIO0 := billy_repo "ssh://repo") (fun _ => Ok "key") (fun _ => Ok tt)
      (fun _ => Ret (Ok tt)) numbered_keys 0 3 (Ok []) "/key" "ssh://repo/config") bare_env) as [s' o] eqn:Hrun.
  assert (Ho : o = Ok tt /\ log s' = ["upgrade: persist cue files"]).
  { vm_compute in Hrun. injection Hrun as <- <-. by split. }
  destruct Ho as [-> Hlog]. exists s'. split; [reflexivity|]. split; [exact Hlog|].
  destruct (rewrite_all_or_nothing push_refused "ssh://repo" (fun _ => Ok "key") (fun _ => Ok tt) (fun _ => Ret (Ok tt)) numbered_keys 0 3
    (Ok []) "/key" "ssh://repo/config" bare_env s' (Ok tt) (fun _ => I) Hrun) as [H|[_ H]]; [by left|by right].
Defined.
