(* ===== verification/EnvTasks.v ===== *)
(** * Creating an environment (core/installer/tasks, core/installer/soft/client.go)

    The tree of tasks that sets up an environment: a Git server with its config
    repository, DNS, and the core services.  The tasks share a record of clients
    and keys; a pointer that is nil when it is used stops the program. *)
From S2P Require Import Prelude GoLib GoStrings GoBase64 GoPath RepoIO InstallerTypes AppManager InfraManager EnvServer Welcome.
From Stdlib Require Import Ascii.
Open Scope string_scope.
Open Scope list_scope.

Record KeyPair := MkKeys { RawPrivateKey : string; RawAuthorizedKey : string; AuthorizedKey : string }.

(** soft.realClient *)
Record soft_client := MkSoft { ssAddr : string; pemBytes : string }.

(** The pointers of [state] that the tasks fill in; None is nil.  (fluxUserName
    is used by the task that sets it only.) *)
Record cells := MkCells {
  ssAdminKeys : option KeyPair;
  ssClient : option soft_client;
  fluxKeys : option KeyPair;          (* keys *)
  appManager : option unit;
  appsRepo : option unit;
}.

Inductive cell : Type -> Type :=
  | SsAdminKeys : cell KeyPair
  | SsClient : cell soft_client
  | FluxKeys : cell KeyPair
  | AppManagerCell : cell unit
  | AppsRepo : cell unit.

(** action.Install: where a chart goes and what it gets. *)
Record helm_release := MkHelm {
  hrNamespace : string;
  hrCreateNamespace : bool;
  hrName : string;
  hrIncludeCRDs : bool;
  hrTimeout : option Z;              (* minutes; all releases wait for their jobs *)
  hrChart : string;
  hrValues : json;
}.

Inductive taskE : Type -> Type :=
  | OnEnv {X} (e : repoE X) : taskE X                       (* the config repository of the environment *)
  | OnInfra {X} (e : repoE X) : taskE X                     (* the repository of the installation *)
  | TaskNs (name : string) : taskE (outcome unit)
  | TaskPort (addr : string) (body : json) : taskE (outcome Z)
  | Keygen (path : string) : taskE (outcome KeyPair)
  | Ssh (c : soft_client) (cmd : string) : taskE (outcome unit)
  | SshKeys (c : soft_client) : taskE (outcome (list string))
  | Clone (c : soft_client) (name : string) : taskE (outcome unit)
  | Fetch (addr : string) : taskE (outcome unit)
  | HttpGet (addr : string) : taskE (outcome Z)
  | Lookup (host : string) : taskE (outcome (list string))
  | HelmConfig (namespace : string) : taskE (outcome unit)   (* HelmActionConfigFactory.New *)
  | LoadChart (name : string) : taskE (outcome unit)
  | HelmInstall (rel : helm_release) : taskE (outcome unit)
  | Sleep (seconds : Z) : taskE unit
  | Info (msg : string) : taskE unit
  | Use {X} (c : cell X) : taskE (outcome X)                (* of a pointer that may be nil *)
  | Set_ {X} (c : cell X) (x : X) : taskE unit.

Definition env_config_repo (addr : string) : RepoIO taskE := repo_in (@OnEnv) addr.
Definition infra_repo (addr : string) : RepoIO taskE := repo_in (@OnInfra) addr.
#[export] Instance task_ns : NamespaceCreator taskE := fun name => call (TaskNs name).
#[export] Instance task_ports : HttpPost taskE := fun addr b => call (TaskPort addr b).

Abbreviation task_prog := (go taskE unit).

Definition act (e : taskE unit) : task_prog := Vis e (fun _ => Ret (Ok tt)).
Definition nil_pointer : string := "invalid memory address or nil pointer dereference".

Definition deref {X} (c : cell X) : go taskE X := call (Use c).
Definition fill {X} (c : cell X) (x : X) : task_prog := act (Set_ c x).

(** ** soft/client.go *)

Definition RunCommand (c : soft_client) (args : list string) : task_prog := call (Ssh c (Join args " ")).
Definition AddPublicKey (c : soft_client) (user pubKey : string) : task_prog := RunCommand c ["user"; "add-pubkey"; user; pubKey].
Definition AddUser (c : soft_client) (name pubKey : string) : task_prog :=
  _ ← RunCommand c ["user"; "create"; name]; AddPublicKey c name pubKey.
Definition RemovePublicKey (c : soft_client) (user pubKey : string) : task_prog := RunCommand c ["user"; "remove-pubkey"; user; pubKey].
Definition MakeUserAdmin (c : soft_client) (name : string) : task_prog := RunCommand c ["user"; "set-admin"; name; "true"].
Definition AddRepository (c : soft_client) (name : string) : task_prog := RunCommand c ["repo"; "create"; name].
Definition AddReadWriteCollaborator (c : soft_client) (repo user : string) : task_prog :=
  RunCommand c ["repo"; "collab"; "add"; repo; user; "read-write"].
Definition AddReadOnlyCollaborator (c : soft_client) (repo user : string) : task_prog :=
  RunCommand c ["repo"; "collab"; "add"; repo; user; "read-only"].
Definition GetRepoAddress (c : soft_client) (name : string) : string := "ssh://" +:+ ssAddr c +:+ "/" +:+ name.

(** RealClientGetter.Get: backoff.RetryNotify with a constant interval. *)
Fixpoint get_client (parse_key : string -> outcome unit) (n : nat) (addr key : string) : go taskE soft_client :=
  match n with
  | 0 => lift Diverge
  | S n' =>
      let c := MkSoft addr key in
      check _u := (_ ← lift (parse_key key); call (SshKeys c)) onerr _e =>
        (_ ← act (Sleep 5%Z); get_client parse_key n' addr key) in
      mret c
  end.

(** ** tasks.go: the tree *)

Inductive task :=
  | Leaf (title : string) (beforeStart : option string) (start : task_prog) (afterDone : option string)
  | Sequential (title : string) (showChildren : bool) (beforeStart : option string) (subtasks : list task) (afterDone : option string)
  | Concurrent (title : string) (showChildren : bool) (subtasks : list task).

Definition say (o : option string) : task_prog :=
  match o with Some m => act (Info m) | None => mret tt end.

(** leafTask.Start: afterDone is called whatever the start function returned. *)
Definition started (before : option string) (start : task_prog) (after : option string) : task_prog :=
  _ ← say before;
  bindp start (fun o => bindp (match o with Ok _ | Err _ => say after | _ => Ret (Ok tt) end) (fun _ => Ret o)).

(** A tree started on its own: a sequential parent runs its subtasks in order up
    to the first error (Tasks.v); [interleave] is what becomes of the subtasks a
    concurrent parent starts. *)
Fixpoint start_task (interleave : list task_prog -> task_prog) (t : task) : task_prog :=
  match t with
  | Leaf _ b p a => started b p a
  | Sequential _ _ b ts a => started b (foreach (fun p => p) (map (start_task interleave) ts)) a
  | Concurrent _ _ ts => interleave (map (start_task interleave) ts)
  end.

(** ** dns.go: the servers of the DNS gateway *)

(** EnvDNS *)
Definition encode_env_dns (zone address : string) : json :=
  JObj (omit_str "zone" zone ++ omit_str "address" address).

Definition decode_env_dns (v : json) : outcome (string * string) :=
  z ← json_field "zone" json_string "" v;
  a ← json_field "address" json_string "" v;
  Ok (z, a).

(** cfg.Values["servers"], through json.Marshal and json.Unmarshal. *)
Definition dns_servers (values : json) : outcome (list (string * string)) :=
  match values with
  | JObj fs =>
      match list_find (fun kv => kv.1 = "servers") fs with
      | Some (_, (_, v)) => json_array decode_env_dns v
      | None => Ok []
      end
  | _ => Ok []
  end.

Definition encode_servers (l : list (string * string)) : json :=
  JObj [("servers", JArr (map (fun s => encode_env_dns s.1 s.2) l))].

(** The servers of the gateway are read, and written back with one more. *)
Definition register_zone {E} `{!RepoIO E} (app : Release -> InfraConfig -> json -> outcome InfraAppRendered) (fuel : nat)
    (zone address : string) : go E unit :=
  cfg ← InfraAppManager.FindInstance "dns-gateway";
  servers ← lift (dns_servers (iValues cfg));
  InfraAppManager.Update app fuel "dns-gateway" (encode_servers (servers ++ [(zone, address)])) false.

Section Tasks.
Context (infraAddr envAddr : string).
#[local] Instance env_r : RepoIO taskE := env_config_repo envAddr.
Abbreviation infra_r := (infra_repo infraAddr).
(** The apps of the built-in repository, by name. *)
Context (FindEnvApp : string -> outcome env_app).
Context (FindInfraApp : string -> outcome (Release -> InfraConfig -> json -> outcome InfraAppRendered)).
(** ssh.ParsePrivateKey *)
Context (parse_key : string -> outcome unit).
Context (fuel : nat).
Context (env : EnvConfig).

(** ** init.go *)

Definition find_infra_app (name : string) : go taskE (Release -> InfraConfig -> json -> outcome InfraAppRendered) :=
  lift (FindInfraApp name).

Definition NewCreateConfigRepoTask : task :=
  Leaf "Install Git server" None (
    app ← find_infra_app "config-repo";
    adminKeys ← call (Keygen (envId env +:+ "-config-repo-admin-keys"));
    _ ← fill SsAdminKeys adminKeys;
    keys ← call (Keygen (envId env +:+ "-config-repo-keys"));
    InfraAppManager.Install (RepoIO0 := infra_r) app fuel (JoinPath ["/environments"; envId env; "config-repo"]) (envId env)
      (JObj [("privateKey", JStr (RawPrivateKey keys)); ("publicKey", JStr (RawAuthorizedKey keys));
             ("adminKey", JStr (RawAuthorizedKey adminKeys))])) None.

Definition CreateGitClientTask : task :=
  Leaf "Wait git server to come up" None (
    keys ← deref SsAdminKeys;
    ss ← get_client parse_key fuel ("soft-serve." +:+ envId env +:+ ".svc.cluster.local:22") (RawPrivateKey keys);
    _ ← AddPublicKey ss "admin" (AdminPublicKey env);
    fill SsClient ss) None.

(** A repository: GetRepo clones it anew. *)
Definition GetRepo (name : string) : task_prog := ss ← deref SsClient; call (Clone ss name).

Definition readme : content := Raw ("# " +:+ envId env +:+ " PCloud environment") (Err err_json).

Definition NewInitConfigRepoTask : task :=
  let user := "flux-" +:+ envId env in
  Leaf "Configure access control lists" None (
    keys ← call (Keygen user);
    _ ← fill FluxKeys keys;
    ss ← deref SsClient;
    _ ← AddRepository ss "config";
    _ ← GetRepo "config";
    _ ← Do (_ ← Writer "README.md"; _ ← WriteTo "README.md" readme;
            _ ← WriteYaml "kustomization.yaml" (encode_kust NewKustomization);
            mret "init") false;
    _ ← AddUser ss user (AuthorizedKey keys);
    AddReadOnlyCollaborator ss "config" user) None.

(** ** activate.go *)

(** The templates of env-tmpl, in the order of their names (Go ranges over them in
    any order), as the documents they render to. *)
Definition templates : list string := ["config-kustomization.yaml"; "config-secret.yaml"; "config-source.yaml"; "kustomization.yaml"].

Definition env_file (keys : KeyPair) (repoHost knownHosts : string) (name : string) : content :=
  let id := JStr (envId env) in
  let meta := ("metadata", JObj [("name", id); ("namespace", id)]) in
  if String.eqb name "config-kustomization.yaml" then
    Doc (JObj [("apiVersion", JStr "kustomize.toolkit.fluxcd.io/v1"); ("kind", JStr "Kustomization"); meta;
      ("spec", JObj [("interval", JStr "1m"); ("path", JStr "./");
        ("sourceRef", JObj [("kind", JStr "GitRepository"); ("name", id); ("namespace", id)]); ("prune", JBool true)])])
  else if String.eqb name "config-secret.yaml" then
    Doc (JObj [("apiVersion", JStr "v1"); ("kind", JStr "Secret"); ("type", JStr "Opaque"); meta;
      ("data", JObj [("identity", JStr (EncodeToString (RawPrivateKey keys)));
        ("identity.pub", JStr (EncodeToString (RawAuthorizedKey keys))); ("known_hosts", JStr (EncodeToString knownHosts))])])
  else if String.eqb name "config-source.yaml" then
    Doc (JObj [("apiVersion", JStr "source.toolkit.fluxcd.io/v1"); ("kind", JStr "GitRepository"); meta;
      ("spec", JObj [("interval", JStr "1m0s"); ("ref", JObj [("branch", JStr "master")]); ("secretRef", JObj [("name", id)]);
        ("timeout", JStr "60s"); ("url", JStr ("ssh://" +:+ repoHost +:+ "/config"))])])
  else
    Doc (encode_kust (MkKust "kustomize.config.k8s.io/v1beta1" "Kustomization"
      ["config-repo"; "config-secret.yaml"; "config-source.yaml"; "config-kustomization.yaml"])).

Definition newline : string := String (ascii_of_nat 10) "".

Definition known_hosts (repoHost : string) (keys : list string) : string :=
  String.concat "" (map (fun k => repoHost +:+ " " +:+ k +:+ newline) keys).

Definition AddNewEnvTask : task :=
  Leaf "Commit initial configuration" None (
    ss ← deref SsClient;
    ssPublicKeys ← call (SshKeys ss);
    let repoHost := default "" (head (Split (ssAddr ss) ":"%char)) in
    @Do _ infra_r (
      kust ← ReadKustomization (RepoIO0 := infra_r) "environments/kustomization.yaml";
      let kust := AddResources kust [envId env] in
      _ ← foreach (fun name =>
            let path := JoinPath ["environments"; envId env; name] in
            _ ← @Writer _ infra_r path;
            keys ← deref FluxKeys;
            @WriteTo _ infra_r path (env_file keys repoHost (known_hosts repoHost ssPublicKeys) name)) templates;
      _ ← WriteKustomization (RepoIO0 := infra_r) "environments/kustomization.yaml" kust;
      mret (envId env +:+ ": initialize environment")) false) None.

Definition NewActivateEnvTask : task := Sequential "Activate GitOps" false None [AddNewEnvTask] None.

(** ** infra.go *)

Definition initGroups : list string := ["admin"].

Definition CreateRepoClient : task :=
  Leaf "Create repo client" (Some "Setting up core infrastructure services.") (
    _ ← GetRepo "config";
    _ ← fill AppManagerCell tt;
    fill AppsRepo tt) None.

Definition charts : content :=
  Doc (JObj [("apiVersion", JStr "source.toolkit.fluxcd.io/v1"); ("kind", JStr "GitRepository");
    ("metadata", JObj [("name", JStr "pcloud"); ("namespace", JStr (envId env))]);
    ("spec", JObj [("interval", JStr "1m0s"); ("url", JStr "https://github.com/giolekva/pcloud"); ("ref", JObj [("branch", JStr "main")])])]).

(** What Do answers is dropped. *)
Definition CommitEnvironmentConfiguration : task :=
  Leaf "commit config" None (
    _ ← GetRepo "config";
    _ ← ignore_error (Do (
      _ ← WriteYaml "config.yaml" (encode_env env);
      _ ← Writer "pcloud-charts.yaml";
      _ ← WriteTo "pcloud-charts.yaml" charts;
      rootKust ← ReadKustomization "kustomization.yaml";
      _ ← WriteYaml "kustomization.yaml" (encode_kust (AddResources rootKust ["pcloud-charts.yaml"]));
      mret "configure charts repo") false);
    mret tt) None.

Definition ConfigureFirstAccount : task :=
  Leaf "Configure first account settings" None (
    _ ← GetRepo "config";
    Do (_ ← WriteYaml "first-account.yaml" (encode_first (MkFirst false initGroups));
        mret "first account membership configuration") false) None.

(** FindEnvApp(st.appsRepo, name), then Install under an id made of the slug. *)
Definition find_env_app (name : string) : go taskE env_app :=
  _ ← deref AppsRepo; lift (FindEnvApp name).

Definition install_env (app : env_app) (instanceId namespace : string) (values : json) : task_prog :=
  _ ← deref AppManagerCell;
  _ ← Install (eaRender app) fuel instanceId ("/apps/" +:+ instanceId) namespace values;
  mret tt.

Definition app_namespace (app : env_app) : string := NamespacePrefix env +:+ eaNamespace app.

(** The block most tasks consist of. *)
Definition install_app (name : string) (values : json) : task_prog :=
  app ← find_env_app name;
  install_env app (eaSlug app) (app_namespace app) values.

Definition address_pool (name from to : string) : json :=
  JObj [("name", JStr name); ("from", JStr from); ("to", JStr to); ("autoAssign", JBool false); ("namespace", JStr "metallb-system")].

(** A user of the config repository with a fresh key. *)
Definition repo_user (user : string) (keys : KeyPair) : task_prog :=
  ss ← deref SsClient;
  _ ← AddUser ss user (AuthorizedKey keys);
  AddReadWriteCollaborator ss "config" user.

(** strings.Join(strings.Split(ip, ".")[:3], ".") *)
Definition first_three (ip : string) : outcome string :=
  match Split ip "."%char with
  | a :: b :: c :: _ => Ok (Join [a; b; c] ".")
  | _ => Panic "slice bounds out of range"
  end.

Definition SetupNetwork : task :=
  Leaf "Setup private and public networks" None (
    app ← find_env_app "metallb-ipaddresspool";
    let net := envNetwork env in
    _ ← install_env app (eaSlug app +:+ "-ingress-private") (app_namespace app +:+ "-ingress-private")
          (address_pool (envId env +:+ "-ingress-private") (Ingress net) (Ingress net));
    _ ← install_env app (eaSlug app +:+ "-headscale") (app_namespace app +:+ "-ingress-private")
          (address_pool (envId env +:+ "-headscale") (Headscale net) (Headscale net));
    _ ← install_env app (eaSlug app) (app_namespace app) (address_pool (envId env) (ServicesFrom net) (ServicesTo net));
    keys ← call (Keygen "port-allocator");
    _ ← repo_user (envId env +:+ "-port-allocator") keys;
    app ← find_env_app "private-network";
    three ← lift (first_three (DNS net));
    install_env app (eaSlug app) (app_namespace app)
      (JObj [("privateNetwork", JObj [("hostname", JStr "private-network-proxy"); ("username", JStr "private-network-proxy");
                                      ("ipSubnet", JStr (three +:+ ".0/24"))]);
             ("sshPrivateKey", JStr (RawPrivateKey keys))])) None.

Definition SetupCertificateIssuers : task :=
  Sequential "Configure TLS certificate issuers" false None
    [Leaf ("Public " +:+ envDomain env) None (install_app "certificate-issuer-public" (JObj [])) None;
     Leaf ("Private p." +:+ envDomain env) None (install_app "certificate-issuer-private" (JObj [])) None] None.

(** web.go *)
Fixpoint wait_for (n : nat) (addr : string) : task_prog :=
  match n with
  | 0 => lift Diverge
  | S n' =>
      check code := call (HttpGet addr) onerr _e => (_ ← act (Sleep 2%Z); wait_for n' addr) in
      if Z.eqb code StatusOK then mret tt else (_ ← act (Sleep 2%Z); wait_for n' addr)
  end.

Definition waitForAddr (addr : string) : task :=
  Leaf ("Wait for " +:+ addr +:+ " to come up") None (wait_for fuel addr) None.

Definition setup_and_wait (title addr : string) (start : task_prog) : task :=
  Sequential title false None [Leaf "Setup" None start None; waitForAddr addr] None.

Definition SetupAuth : task :=
  setup_and_wait "Authentication services" ("https://accounts-ui." +:+ envDomain env)
    (install_app "core-auth" (JObj [("subdomain", JStr "test")])).

Definition SetupGroupMemberships : task :=
  setup_and_wait "Group membership" ("https://memberships.p." +:+ envDomain env)
    (install_app "memberships" (JObj [("authGroups", JStr (Join initGroups ","))])).

Definition SetupHeadscale : task :=
  setup_and_wait "Setup mesh VPN" ("https://headscale." +:+ envDomain env +:+ "/apple")
    (install_app "headscale" (JObj [("subdomain", JStr "headscale"); ("ipSubnet", JStr (DNS (envNetwork env) +:+ "/24"))])).

(** The config repository and a key for it. *)
Definition repo_access (keys : KeyPair) : go taskE (list (string * json)) :=
  ss ← deref SsClient;
  mret [("repoAddr", JStr (GetRepoAddress ss "config")); ("sshPrivateKey", JStr (RawPrivateKey keys))].

Definition install_with_access (keyPath user name : string) (more : list (string * json)) : task_prog :=
  keys ← call (Keygen keyPath);
  _ ← repo_user user keys;
  app ← find_env_app name;
  access ← repo_access keys;
  install_env app (eaSlug app) (app_namespace app) (JObj (access ++ more)).

Definition SetupLauncher : task :=
  setup_and_wait "Launcher" ("https://launcher." +:+ envDomain env)
    (install_with_access (envId env +:+ "-launcher") (envId env +:+ "-launcher") "launcher" []).

Definition SetupWelcome : task :=
  setup_and_wait "Welcome service" ("https://welcome." +:+ envDomain env)
    (install_with_access "welcome" (envId env +:+ "-welcome") "welcome" []).

Definition SetupAppStore : task :=
  Leaf "Application marketplace" None
    (install_with_access (envId env +:+ "-appmanager") (envId env +:+ "-appmanager") "app-manager"
       [("authGroups", JStr (Join initGroups ","))]) None.

Definition SetupInfra : task :=
  Concurrent "Setup core services" true
    [SetupNetwork; SetupCertificateIssuers; SetupAuth; SetupGroupMemberships; SetupHeadscale; SetupWelcome; SetupAppStore; SetupLauncher].

(** ** dns.go *)

(** join of dns.go: the separator is always a comma. *)
Definition join (items : list string) (sep : string) : string := Join items ",".

Definition records_addr : string := "http://dns-api." +:+ NamespacePrefix env +:+ "dns.svc.cluster.local/records-to-publish".

Definition update_dns_gateway : task_prog :=
  app ← find_infra_app "dns-gateway";
  register_zone (RepoIO0 := infra_r) app fuel (envDomain env) (DNSInClusterIP (envNetwork env)).

Fixpoint fetch_records (n : nat) : task_prog :=
  match n with
  | 0 => lift Diverge
  | S n' => check _u := call (Fetch records_addr) onerr _e => (_ ← act (Sleep 5%Z); fetch_records n') in mret tt
  end.

Definition SetupDNSServer : task :=
  Leaf "Start up DNS server" None (
    _ ← install_app "env-dns"
      (JObj [("addressPool", JStr (envId env +:+ "-dns")); ("inClusterIP", JStr (DNSInClusterIP (envNetwork env)));
             ("publicIP", JStr (join (PublicIP env) ",")); ("privateIP", JStr (Ingress (envNetwork env)));
             ("nameserverIP", JStr (join (NameserverIP env) ","))]);
    _ ← deref AppsRepo;
    _ ← update_dns_gateway;
    fetch_records fuel) None.

(** Addresses in their text form: equal texts, equal addresses. *)
Definition gotExpectedIPs (expected actual : list string) : bool :=
  forallb (fun a => existsb (String.eqb a) expected) actual.

Fixpoint check_dns (n : nat) (name : string) (expected : list string) : task_prog :=
  match n with
  | 0 => lift Diverge
  | S n' =>
      check addrs := call (Lookup name) onerr _e => (_ ← act (Sleep 5%Z); check_dns n' name expected) in
      if gotExpectedIPs expected addrs then mret tt else (_ ← act (Sleep 5%Z); check_dns n' name expected)
  end.

Definition WaitToPropagate (name : string) (expected : list string) : task :=
  Leaf "Wait to propagate" None (check_dns fuel name expected) None.

Definition SetupZoneTask : task :=
  Sequential "Configure DNS" true (Some ("Generating DNS zone records for " +:+ envDomain env))
    [SetupDNSServer; WaitToPropagate (envDomain env) (PublicIP env)]
    (Some "DNS zone records have been propagated.").

(** ** The whole *)

Definition gitops_info : string := "dodo is driven by GitOps, changes are committed to the repository before updating an environment. This unlocks functionalities such as: rolling back to old working state, migrating dodo to new infrastructure (for example from Cloud to on-prem).".

Definition CreateInitialCommit : task :=
  Sequential "Create initial commit" false None [CreateRepoClient; CommitEnvironmentConfiguration; ConfigureFirstAccount] None.

Definition SetupConfigRepoTask : task :=
  Sequential "Configure Git repository" true (Some gitops_info)
    [Sequential "Start up Git server" false None [NewCreateConfigRepoTask; CreateGitClientTask] None;
     NewInitConfigRepoTask;
     NewActivateEnvTask;
     CreateInitialCommit] None.

Definition provisioned : string :=
  "dodo environment for " +:+ envDomain env +:+ " has been provisioned successfully. Visit [https://welcome." +:+ envDomain env +:+
  "](https://welcome." +:+ envDomain env +:+ ") to create administrative account and log into the system.".

(** env.go; the reconcilers that poll flux until the task is done are left out. *)
Definition NewCreateEnvTask : task :=
  Sequential "Create env" true None [SetupConfigRepoTask; SetupZoneTask; SetupInfra] (Some provisioned).
End Tasks.
