(* ===== verification/EnvTasksTheorems.v ===== *)
(** * Theorems on the creation of an environment

    No task uses a pointer before it is set; what the first commits leave in the
    config repository; what is reported when something fails. *)
From S2P Require Import Prelude GoLib GoStrings GoPath RepoIO InstallerTypes AppManager InfraManager EnvServer Welcome EnvTasks Footprints.
Open Scope string_scope.
Open Scope list_scope.

(** ** A world: two repositories, the shared pointers, and what is outside *)

Record task_world := MkTaskWorld {
  tw_env : repo_state;
  tw_infra : repo_state;
  tw_cells : cells;
  tw_nil : bool;                  (* some task used a nil pointer *)
  tw_said : list string;          (* what the listener of the environment heard *)
  tw_clock : nat;                 (* calls to the outside so far *)
}.

Definition peek {X} (c : cell X) (s : cells) : option X :=
  match c in cell X return option X with
  | SsAdminKeys => ssAdminKeys s
  | SsClient => ssClient s
  | FluxKeys => fluxKeys s
  | AppManagerCell => appManager s
  | AppsRepo => appsRepo s
  end.

Definition poke {X} (c : cell X) (x : X) (s : cells) : cells :=
  match c in cell X return X -> cells with
  | SsAdminKeys => fun x => MkCells (Some x) (ssClient s) (fluxKeys s) (appManager s) (appsRepo s)
  | SsClient => fun x => MkCells (ssAdminKeys s) (Some x) (fluxKeys s) (appManager s) (appsRepo s)
  | FluxKeys => fun x => MkCells (ssAdminKeys s) (ssClient s) (Some x) (appManager s) (appsRepo s)
  | AppManagerCell => fun x => MkCells (ssAdminKeys s) (ssClient s) (fluxKeys s) (Some x) (appsRepo s)
  | AppsRepo => fun x => MkCells (ssAdminKeys s) (ssClient s) (fluxKeys s) (appManager s) (Some x)
  end x.

Definition no_cells : cells := MkCells None None None None None.

(** The answers of the outside to the n-th call, and the faults of the two
    repositories. *)
Record outside := MkOutside {
  o_answer : nat -> forall X, taskE X -> X;
  o_env_fault : nat -> option error;
  o_infra_fault : nat -> option error;
}.

Definition tick {X} (w : task_world) (x : X) : task_world * X :=
  (MkTaskWorld (tw_env w) (tw_infra w) (tw_cells w) (tw_nil w) (tw_said w) (S (tw_clock w)), x).

(** A fresh clone: the work tree is what the remote has. *)
Definition checkout (s : repo_state) : repo_state := MkRepo (remote s) (remote s) (remote s) (log s) (ops s).

Definition task_step (o : outside) : handler taskE task_world := fun X e w =>
  match e in taskE X return X -> task_world * X with
  | OnEnv e => fun _ =>
      let '(s, x) := repo_step (o_env_fault o) _ e (tw_env w) in
      (MkTaskWorld s (tw_infra w) (tw_cells w) (tw_nil w) (tw_said w) (tw_clock w), x)
  | OnInfra e => fun _ =>
      let '(s, x) := repo_step (o_infra_fault o) _ e (tw_infra w) in
      (MkTaskWorld (tw_env w) s (tw_cells w) (tw_nil w) (tw_said w) (tw_clock w), x)
  | Info m => fun _ => (MkTaskWorld (tw_env w) (tw_infra w) (tw_cells w) (tw_nil w) (tw_said w ++ [m]) (tw_clock w), tt)
  | Use c => fun _ =>
      match peek c (tw_cells w) with
      | Some x => (w, Ok x)
      | None => (MkTaskWorld (tw_env w) (tw_infra w) (tw_cells w) true (tw_said w) (tw_clock w), Panic nil_pointer)
      end
  | Set_ c x => fun _ => (MkTaskWorld (tw_env w) (tw_infra w) (poke c x (tw_cells w)) (tw_nil w) (tw_said w) (tw_clock w), tt)
  | Clone c n => fun a =>
      let '(w', x) := tick w a in
      (MkTaskWorld (if is_ok x then checkout (tw_env w') else tw_env w') (tw_infra w') (tw_cells w') (tw_nil w') (tw_said w') (tw_clock w'), x)
  | _ => fun a => tick w a
  end (o_answer o (tw_clock w) X e).

(** ** Pointers are set before they are used *)

Inductive field := FAdmin | FClient | FKeys | FManager | FApps.

#[export] Instance field_eq_dec : EqDecision field.
Proof. solve_decision. Defined.

Definition field_of {X} (c : cell X) : field :=
  match c with SsAdminKeys => FAdmin | SsClient => FClient | FluxKeys => FKeys | AppManagerCell => FManager | AppsRepo => FApps end.

Definition filled (f : field) (s : cells) : Prop :=
  match f with
  | FAdmin => is_Some (ssAdminKeys s)
  | FClient => is_Some (ssClient s)
  | FKeys => is_Some (fluxKeys s)
  | FManager => is_Some (appManager s)
  | FApps => is_Some (appsRepo s)
  end.

(** The typing context of a program: the fields that are known to be set, and
    that no nil pointer has been used. *)
Definition ctx (fs : list field) (w : task_world) : Prop :=
  tw_nil w = false /\ forall f, f ∈ fs -> filled f (tw_cells w).

(** What a program with this footprint does with the pointers. *)
Definition uses (fs : list field) (X : Type) (e : taskE X) : Prop :=
  match e with Use c => field_of c ∈ fs | _ => True end.

Lemma peek_filled {X} (c : cell X) s : filled (field_of c) s -> is_Some (peek c s).
Proof. by destruct c. Qed.

Lemma poke_filled {X} (c : cell X) x s f : filled f s \/ f = field_of c -> filled f (poke c x s).
Proof. destruct c, f; cbn; intros [H|H]; try done; by eexists. Qed.

Section Typing.
Context (o : outside).
Abbreviation h := (task_step o).

Lemma step_ctx fs X (e : taskE X) w : uses fs X e -> ctx fs w -> ctx fs (h X e w).1.
Proof.
  intros Hu [Hn Hf]. destruct e; cbn in *; try (by split).
  - by destruct (repo_step _ _ _ _).
  - by destruct (repo_step _ _ _ _).
  - destruct (peek_filled c (tw_cells w)) as [x Hx]; [by apply Hf|]. rewrite Hx. by split.
  - split; [done|]. intros f Hin. apply poke_filled. left. by apply Hf.
Qed.

(** [fs ⊢ p : fs']: started with the fields [fs] set, [p] never uses a nil
    pointer, and when it ends well [fs'] are set too. *)
Definition typed {A} (fs : list field) (p : go taskE A) (fs' : list field) : Prop :=
  hoare h (ctx fs) p (fun r w => ctx fs w /\ (is_ok r -> ctx fs' w)).

Lemma typed_uses {A} fs (p : go taskE A) : calls (uses fs) p -> typed fs p fs.
Proof.
  intros Hp w Hw. assert (H : ctx fs (run h p w).1); [|done].
  apply (run_calls_inv h (uses fs) (ctx fs)); [|done|done]. intros X e s. apply step_ctx.
Qed.

Lemma ctx_mono fs fs' w : (forall f, f ∈ fs' -> f ∈ fs) -> ctx fs w -> ctx fs' w.
Proof. intros H [Hn Hf]. split; [done|]. intros f Hin. by apply Hf, H. Qed.

Lemma typed_weaken {A} fs fs1 fs2 (p : go taskE A) :
  typed fs p fs1 -> (forall f, f ∈ fs2 -> f ∈ fs1) -> typed fs p fs2.
Proof. intros Hp H w Hw. destruct (Hp w Hw) as [H1 H2]. split; [done|]. intros Hr. eapply ctx_mono; [exact H|by apply H2]. Qed.

Lemma typed_mbind {A B} fs fs1 fs2 (p : go taskE A) (k : A -> go taskE B) :
  (forall f, f ∈ fs -> f ∈ fs1) -> typed fs p fs1 -> (forall x, typed fs1 (k x) fs2) -> typed fs (p ≫= k) fs2.
Proof.
  intros Hsub Hp Hk w Hw. rewrite run_mbind. destruct (Hp w Hw) as [H1 H2].
  destruct (run h p w) as [w1 [x|e|y|]]; cbn [fst snd is_ok] in *; try (by split).
  destruct (Hk x w1 (H2 I)) as [H3 H4]. split; [|exact H4]. by eapply ctx_mono.
Qed.

Lemma typed_fill {X} fs (c : cell X) (x : X) : typed fs (fill c x) (field_of c :: fs).
Proof.
  intros w Hw. cbn. pose proof (step_ctx fs _ (Set_ c x) w I Hw) as H. split; [done|]. intros _.
  destruct Hw as [Hn Hf]. split; [done|]. intros f [->|Hin]%elem_of_cons; apply poke_filled; [by right|left; by apply Hf].
Qed.

Lemma uses_say fs m : calls (uses fs) (say m).
Proof. unfold say. destruct m; cbn; [|done]. split; [exact I|done]. Qed.

Lemma typed_started fs fs' before start after : typed fs start fs' -> typed fs (started before start after) fs'.
Proof.
  intros Hs. unfold started. eapply typed_mbind; [|apply typed_uses, uses_say|]; [done|]. intros _ w Hw.
  rewrite run_bindp. destruct (Hs w Hw) as [H1 H2]. destruct (run h start w) as [w1 r]. cbn [fst snd] in *.
  rewrite run_bindp.
  match goal with |- context [run h ?q w1] => set (q' := q) end.
  assert (Hq : forall G, ctx G w1 -> ctx G (run h q' w1).1).
  { intros G HG. apply (run_calls_inv h (uses G) (ctx G)); [intros X e s; apply step_ctx| |done].
    subst q'. destruct r; try done; apply uses_say. }
  destruct (run h q' w1) as [w2 u]. cbn [fst snd run] in *. split; [by apply Hq|]. intros Hr. by apply Hq, H2.
Qed.

Lemma typed_foreach fs (Γ : nat -> list field) (ps : list task_prog) :
  (forall i f, f ∈ Γ i -> f ∈ Γ (S i)) ->
  Γ 0 = fs -> (forall i p, ps !! i = Some p -> typed (Γ i) p (Γ (S i))) ->
  typed fs (foreach (fun p => p) ps) (Γ (length ps)).
Proof.
  intros Hup <-. revert Γ Hup. induction ps as [|p ps IH]; intros Γ Hup Hps; cbn [foreach length].
  - by apply typed_uses.
  - eapply typed_mbind; [by apply Hup|by apply (Hps 0)|]. intros _.
    apply (IH (fun i => Γ (S i))); [intros i; apply Hup|]. intros i q Hq. by apply (Hps (S i)).
Qed.

(** ** Footprints of the tasks *)

Section Footprints.
Context (infraAddr envAddr : string).
Context (FindEnvApp : string -> outcome env_app).
Context (FindInfraApp : string -> outcome (Release -> InfraConfig -> json -> outcome InfraAppRendered)).
Context (parse_key : string -> outcome unit).
Context (fuel : nat) (env : EnvConfig).

(** What a concurrent parent starts makes no calls of its own. *)
Context (interleave : list task_prog -> task_prog).
Context (Hinterleave : forall P ps, Forall (calls P) ps -> calls P (interleave ps)).

Abbreviation env_i := (env_r envAddr).
Abbreviation infra_i := (infra_repo infraAddr).

#[local] Instance env_calls fs : RepoCalls (uses fs) (R := env_i).
Proof. by apply repo_in_calls. Qed.

#[local] Instance infra_calls fs : RepoCalls (uses fs) (R := infra_i).
Proof. by apply repo_in_calls. Qed.

Lemma uses_ns fs n : calls (uses fs) (CreateNamespace n).
Proof. by split. Qed.

Lemma uses_port fs ad b : calls (uses fs) (post_json ad b).
Proof. by split. Qed.

Lemma uses_Install fs {V : Type} (render : Release -> EnvConfig -> V -> outcome EnvAppRendered) id dir ns values : calls (uses fs) (Install (RepoIO0 := env_i) render fuel id dir ns values).
Proof. apply calls_Install; [apply env_calls|intros; apply uses_ns|intros; apply uses_port]. Qed.

Lemma uses_infra_Install fs render dir ns values :
  calls (uses fs) (InfraAppManager.Install (RepoIO0 := infra_i) render fuel dir ns values).
Proof. apply calls_infra_Install; [apply infra_calls|intros; apply uses_ns]. Qed.

#[local] Hint Resolve uses_ns uses_port uses_Install uses_infra_Install calls_Install calls_infra_Install calls_infra_FindInstance calls_infra_Update
  calls_ReadYaml calls_WriteYaml rc_Writer rc_WriteTo rc_Do : go_calls.

Ltac uses_calls := repeat (first [calls_step | exact I | solve [eauto with go_calls]]).

Lemma uses_sleep fs n : calls (uses fs) (act (Sleep n)).
Proof. by split. Qed.
#[local] Hint Resolve uses_sleep : go_calls.

Lemma uses_deref fs {X} (c : cell X) : field_of c ∈ fs -> calls (uses fs) (deref c).
Proof. intros H. by split. Qed.

Lemma uses_find_env fs name : FApps ∈ fs -> calls (uses fs) (find_env_app FindEnvApp name).
Proof. intros H. unfold find_env_app. apply calls_mbind; [by apply uses_deref|]. uses_calls. Qed.

Lemma uses_install fs app id ns values : FManager ∈ fs -> calls (uses fs) (install_env envAddr fuel app id ns values).
Proof. intros H. unfold install_env. apply calls_mbind; [by apply uses_deref|]. uses_calls. Qed.

Lemma uses_install_app fs name values : FApps ∈ fs -> FManager ∈ fs ->
  calls (uses fs) (install_app envAddr FindEnvApp fuel env name values).
Proof. intros H1 H2. unfold install_app. apply calls_mbind; [by apply uses_find_env|]. intros app. by apply uses_install. Qed.

Lemma uses_repo_user fs user keys : FClient ∈ fs -> calls (uses fs) (repo_user user keys).
Proof.
  intros H. unfold repo_user. apply calls_mbind; [by apply uses_deref|]. intros ss.
  unfold AddUser, AddReadWriteCollaborator, AddPublicKey, RunCommand. uses_calls.
Qed.

Lemma uses_access fs keyPath user name more : FClient ∈ fs -> FApps ∈ fs -> FManager ∈ fs ->
  calls (uses fs) (install_with_access envAddr FindEnvApp fuel env keyPath user name more).
Proof.
  intros H1 H2 H3. unfold install_with_access, repo_access. apply calls_mbind; [by split|]. intros keys.
  apply calls_mbind; [by apply uses_repo_user|]. intros _. apply calls_mbind; [by apply uses_find_env|]. intros app.
  apply calls_mbind; [apply calls_mbind; [by apply uses_deref|uses_calls]|]. intros access. by apply uses_install.
Qed.

Lemma uses_wait fs n addr : calls (uses fs) (wait_for n addr).
Proof. induction n as [|n IH]; cbn [wait_for]; [done|]. uses_calls. Qed.

Lemma uses_dns fs n name expected : calls (uses fs) (check_dns n name expected).
Proof. induction n as [|n IH]; cbn [check_dns]; [done|]. uses_calls. Qed.

Lemma uses_fetch fs n : calls (uses fs) (fetch_records env n).
Proof. induction n as [|n IH]; cbn [fetch_records]; [done|]. uses_calls. Qed.

Lemma uses_get_client fs n ad key : calls (uses fs) (get_client parse_key n ad key).
Proof. induction n as [|n IH]; cbn [get_client]; [done|]. uses_calls. Qed.

Lemma uses_register fs app z ad : calls (uses fs) (register_zone (RepoIO0 := infra_i) app fuel z ad).
Proof.
  unfold register_zone. apply calls_mbind; [apply calls_infra_FindInstance, infra_calls|]. intros cfg.
  apply calls_mbind; [done|]. intros servers. apply calls_infra_Update, infra_calls.
Qed.

#[local] Hint Resolve uses_wait uses_dns uses_fetch uses_get_client uses_register uses_repo_user : go_calls.

Lemma uses_started fs before start after : calls (uses fs) start -> calls (uses fs) (started before start after).
Proof.
  intros Hs. unfold started. apply calls_mbind; [apply uses_say|]. intros _. apply calls_bindp; [done|]. intros r.
  apply calls_bindp; [|done]. destruct r; try done; apply uses_say.
Qed.

(** ** Typing the tree *)

Abbreviation run_tree := (start_task interleave).

Lemma typed_leaf fs fs' title b start aft : typed fs start fs' -> typed fs (run_tree (Leaf title b start aft)) fs'.
Proof. apply typed_started. Qed.

Lemma typed_config_repo fs : typed fs (run_tree (NewCreateConfigRepoTask infraAddr FindInfraApp fuel env)) (FAdmin :: fs).
Proof.
  apply typed_leaf. eapply typed_mbind; [|by apply typed_uses|]; [done|]. intros app.
  eapply typed_mbind; [|by apply typed_uses|]; [done|]. intros keys.
  eapply typed_mbind; [|apply typed_fill|]; [by intros; right|]. intros _. cbn [field_of].
  apply typed_uses. apply calls_mbind; [by split|]. intros k. apply uses_infra_Install.
Qed.

Lemma typed_git_client fs : FAdmin ∈ fs -> typed fs (run_tree (CreateGitClientTask parse_key fuel env)) (FClient :: fs).
Proof.
  intros H. apply typed_leaf. eapply typed_mbind; [|by apply typed_uses, uses_deref|]; [done|]. intros keys.
  eapply typed_mbind; [|apply typed_uses, uses_get_client|]; [done|]. intros ss.
  eapply typed_mbind; [|by apply typed_uses|]; [done|]. intros _. apply typed_fill.
Qed.

Lemma uses_get_repo fs name : FClient ∈ fs -> calls (uses fs) (GetRepo name).
Proof. intros H. unfold GetRepo. apply calls_mbind; [by apply uses_deref|]. intros ss. by split. Qed.

Ltac repo_call := first [apply env_calls | apply infra_calls].

Lemma typed_init fs : FClient ∈ fs -> typed fs (run_tree (NewInitConfigRepoTask envAddr env)) (FKeys :: fs).
Proof.
  intros H. apply typed_leaf. eapply typed_mbind; [|by apply typed_uses|]; [done|]. intros keys.
  eapply typed_mbind; [|apply typed_fill|]; [by intros; right|]. intros _. cbn [field_of]. apply typed_uses.
  assert (H' : FClient ∈ FKeys :: fs) by by right.
  apply calls_mbind; [by apply uses_deref|]. intros ss. apply calls_mbind; [by split|]. intros _.
  apply calls_mbind; [by apply uses_get_repo|]. intros _. apply calls_mbind.
  { apply rc_Do; [repo_call|]. apply calls_mbind; [apply rc_Writer; repo_call|]. intros _.
    apply calls_mbind; [apply rc_WriteTo; repo_call|]. intros _.
    apply calls_mbind; [apply calls_WriteYaml; repo_call|]. done. }
  intros _. unfold AddUser, AddPublicKey, AddReadOnlyCollaborator, RunCommand. uses_calls.
Qed.

Lemma calls_foreach_Forall (P : forall X, taskE X -> Prop) (ps : list task_prog) :
  Forall (calls P) ps -> calls P (foreach (fun p => p) ps).
Proof. induction 1 as [|p ps Hp _ IH]; cbn [foreach]; [done|]. by apply calls_mbind. Qed.

Lemma uses_activate fs : FClient ∈ fs -> FKeys ∈ fs -> calls (uses fs) (run_tree (NewActivateEnvTask infraAddr env)).
Proof.
  intros H1 H2. cbn [start_task NewActivateEnvTask map AddNewEnvTask].
  apply uses_started, calls_foreach_Forall, Forall_singleton, uses_started.
  apply calls_mbind; [by apply uses_deref|]. intros ss. apply calls_mbind; [by split|]. intros keys.
  apply rc_Do; [repo_call|]. apply calls_mbind; [apply calls_ReadYaml; repo_call|]. intros kust.
  apply calls_mbind.
  { apply calls_foreach. intros name. apply calls_mbind; [apply rc_Writer; repo_call|]. intros _.
    apply calls_mbind; [by apply uses_deref|]. intros k. apply rc_WriteTo; repo_call. }
  intros _. apply calls_mbind; [apply calls_WriteYaml; repo_call|]. done.
Qed.

Lemma typed_client fs : FClient ∈ fs -> typed fs (run_tree CreateRepoClient) (FApps :: FManager :: fs).
Proof.
  intros H. apply typed_leaf. eapply typed_mbind; [|by apply typed_uses, uses_get_repo|]; [done|]. intros _.
  eapply typed_mbind; [|apply typed_fill|]; [by intros; right|]. intros _. cbn [field_of]. apply typed_fill.
Qed.

Lemma uses_commit fs : FClient ∈ fs -> calls (uses fs) (run_tree (CommitEnvironmentConfiguration envAddr env)).
Proof.
  intros H. apply uses_started. apply calls_mbind; [by apply uses_get_repo|]. intros _. apply calls_mbind; [|done].
  unfold ignore_error. apply calls_handle; [|done|done]. apply rc_Do; [repo_call|].
  apply calls_mbind; [apply calls_WriteYaml; repo_call|]. intros _.
  apply calls_mbind; [apply rc_Writer; repo_call|]. intros _.
  apply calls_mbind; [apply rc_WriteTo; repo_call|]. intros _.
  apply calls_mbind; [apply calls_ReadYaml; repo_call|]. intros k.
  apply calls_mbind; [apply calls_WriteYaml; repo_call|]. done.
Qed.

Lemma uses_first fs : FClient ∈ fs -> calls (uses fs) (run_tree (ConfigureFirstAccount envAddr)).
Proof.
  intros H. apply uses_started. apply calls_mbind; [by apply uses_get_repo|]. intros _.
  apply rc_Do; [repo_call|]. apply calls_mbind; [apply calls_WriteYaml; repo_call|]. done.
Qed.

Lemma typed_keep fs (p : task_prog) : calls (uses fs) p -> typed fs p fs.
Proof. apply typed_uses. Qed.

Lemma typed_pair fs fs1 fs2 (p q : task_prog) rest :
  (forall f, f ∈ fs -> f ∈ fs1) -> typed fs p fs1 -> typed fs1 (foreach (fun p => p) (q :: rest)) fs2 ->
  typed fs (foreach (fun p => p) (p :: q :: rest)) fs2.
Proof. intros Hsub Hp Hq. cbn [foreach]. eapply typed_mbind; [exact Hsub|exact Hp|]. intros _. exact Hq. Qed.

Lemma typed_last fs fs1 (p : task_prog) : (forall f, f ∈ fs -> f ∈ fs1) -> typed fs p fs1 -> typed fs (foreach (fun p => p) [p]) fs1.
Proof. intros Hsub Hp. cbn [foreach]. eapply typed_mbind; [exact Hsub|exact Hp|]. intros _. by apply typed_uses. Qed.

Lemma typed_sequential fs fs' title sc b ts aft :
  typed fs (foreach (fun p => p) (map run_tree ts)) fs' -> typed fs (run_tree (Sequential title sc b ts aft)) fs'.
Proof. apply typed_started. Qed.

Abbreviation after_repo fs := (FApps :: FManager :: FKeys :: FClient :: FAdmin :: fs).

Lemma typed_config fs :
  typed fs (run_tree (SetupConfigRepoTask infraAddr envAddr FindInfraApp parse_key fuel env)) (after_repo fs).
Proof.
  unfold SetupConfigRepoTask. apply typed_sequential. cbn [map].
  eapply (typed_pair _ (FClient :: FAdmin :: fs)); [by intros f H; right; right| |].
  { apply typed_sequential. cbn [map]. eapply typed_pair; [|apply typed_config_repo|]; [by intros; right|].
    apply typed_last; [by intros; right|]. apply typed_git_client. by left. }
  eapply typed_pair; [|apply typed_init; by left|]; [by intros; right|].
  eapply typed_pair; [|apply typed_keep, uses_activate; [right; by left|by left]|]; [done|].
  apply typed_last; [by intros f H; right; right|]. unfold CreateInitialCommit. apply typed_sequential. cbn [map].
  eapply typed_pair; [|apply typed_client; right; by left|]; [by intros f H; right; right|].
  eapply typed_pair; [|apply typed_keep, uses_commit; do 3 right; by left|]; [done|].
  apply typed_last; [done|]. apply typed_keep, uses_first. do 3 right. by left.
Qed.

Lemma uses_leaf fs title b start aft : calls (uses fs) start -> calls (uses fs) (run_tree (Leaf title b start aft)).
Proof. apply uses_started. Qed.

Lemma uses_sequential fs title sc b ts aft :
  Forall (fun t => calls (uses fs) (run_tree t)) ts -> calls (uses fs) (run_tree (Sequential title sc b ts aft)).
Proof. intros H. apply uses_started, calls_foreach_Forall. by apply Forall_map. Qed.

Lemma uses_setup_and_wait fs title ad start : calls (uses fs) start -> calls (uses fs) (run_tree (setup_and_wait fuel title ad start)).
Proof.
  intros H. apply uses_sequential. constructor; [by apply uses_leaf|]. constructor; [|constructor].
  apply uses_leaf, uses_wait.
Qed.

Lemma uses_zone fs : FApps ∈ fs -> FManager ∈ fs ->
  calls (uses fs) (run_tree (SetupZoneTask infraAddr envAddr FindEnvApp FindInfraApp fuel env)).
Proof.
  intros H1 H2. apply uses_sequential. constructor; [|constructor; [apply uses_leaf, uses_dns|constructor]].
  apply uses_leaf. apply calls_mbind; [by apply uses_install_app|]. intros _.
  apply calls_mbind; [by apply uses_deref|]. intros _. apply calls_mbind; [|intros _; apply uses_fetch].
  unfold update_dns_gateway. apply calls_mbind; [done|]. intros app. apply uses_register.
Qed.

Lemma uses_network fs : FApps ∈ fs -> FManager ∈ fs -> FClient ∈ fs -> calls (uses fs) (run_tree (SetupNetwork envAddr FindEnvApp fuel env)).
Proof.
  intros H1 H2 H3. apply uses_leaf. apply calls_mbind; [by apply uses_find_env|]. intros app.
  do 3 (apply calls_mbind; [by apply uses_install|]; intros _).
  apply calls_mbind; [by split|]. intros keys. apply calls_mbind; [by apply uses_repo_user|]. intros _.
  apply calls_mbind; [by apply uses_find_env|]. intros app'. apply calls_mbind; [done|]. intros three. by apply uses_install.
Qed.

Lemma uses_core fs : FApps ∈ fs -> FManager ∈ fs -> FClient ∈ fs ->
  calls (uses fs) (run_tree (SetupInfra envAddr FindEnvApp fuel env)).
Proof using Hinterleave.
  intros H1 H2 H3. cbn [start_task SetupInfra]. apply Hinterleave. cbn [map].
  apply Forall_cons_2; [by apply uses_network|].
  apply Forall_cons_2.
  { apply uses_sequential. apply Forall_cons_2; [by apply uses_leaf, uses_install_app|].
    apply Forall_singleton. by apply uses_leaf, uses_install_app. }
  do 3 (apply Forall_cons_2; [by apply uses_setup_and_wait, uses_install_app|]).
  apply Forall_cons_2; [by apply uses_setup_and_wait, uses_access|].
  apply Forall_cons_2; [by apply uses_leaf, uses_access|].
  apply Forall_singleton. by apply uses_setup_and_wait, uses_access.
Qed.

(** C27. Started with nothing set, whatever the services answer, whichever
    repository operations fail and however the concurrent tasks are interleaved,
    creating an environment never uses a pointer of the shared state that is
    still nil; and once the first task has succeeded all of them are set. *)
Theorem pointers_set_before_use (w : task_world) (Hnil : tw_nil w = false) :
  tw_nil (run h (run_tree (NewCreateEnvTask infraAddr envAddr FindEnvApp FindInfraApp parse_key fuel env)) w).1 = false /\
  (let '(w', r) := run h (run_tree (SetupConfigRepoTask infraAddr envAddr FindInfraApp parse_key fuel env)) w in
   is_ok r -> forall f, filled f (tw_cells w')).
Proof using Hinterleave.
  assert (Hw : ctx [] w). { split; [done|]. by intros f ?%not_elem_of_nil. }
  split.
  - assert (H : typed [] (run_tree (NewCreateEnvTask infraAddr envAddr FindEnvApp FindInfraApp parse_key fuel env)) (after_repo [])).
    { unfold NewCreateEnvTask. apply typed_sequential. cbn [map].
      eapply typed_pair; [|apply typed_config|]; [by intros f ?%not_elem_of_nil|].
      eapply typed_pair; [|apply typed_keep, uses_zone; [by left|right; by left]|]; [done|].
      apply typed_last; [done|]. apply typed_keep. apply uses_core; [by left|right; by left|do 3 right; by left]. }
    by destruct (H w Hw) as [[? _] _].
  - destruct (typed_config [] w Hw) as [_ Hok]. destruct (run h _ w) as [w' r]. cbn [fst snd] in *.
    intros Hr f. apply (Hok Hr). destruct f; set_solver.
Qed.
End Footprints.
End Typing.

(** ** What is announced *)

Section Announced.
Context (o : outside) (interleave : list task_prog -> task_prog).
Abbreviation h := (task_step o).
Abbreviation run_tree := (start_task interleave).

Lemma run_say m w : run h (say (Some m)) w =
  (MkTaskWorld (tw_env w) (tw_infra w) (tw_cells w) (tw_nil w) (tw_said w ++ [m]) (tw_clock w), Ok tt).
Proof. reflexivity. Qed.

(** afterDone runs when start has returned, with or without an error. *)
Lemma run_started_after before start m w w' r :
  (r = Ok tt \/ exists e, r = Err e) ->
  run h (started before start (Some m)) w = (w', r) -> last (tw_said w') = Some m.
Proof.
  intros Hr. unfold started. rewrite run_mbind. destruct (run h (say before) w) as [w1 [u|e|y|]] eqn:Hb.
  2-4: exfalso; destruct before; cbn in Hb; discriminate.
  rewrite run_bindp. destruct (run h start w1) as [w2 r2]. rewrite run_bindp.
  destruct r2 as [u2|e2|y|]; rewrite ?run_say; cbn [run]; intros [= <- <-]; cbn [tw_said]; try apply last_snoc;
    by destruct Hr as [?|[? ?]].
Qed.

(** Success is announced whatever happens: when creating an environment fails,
    the last thing its owner is told is that it has been provisioned successfully. *)
Theorem failure_announced_as_success (infraAddr envAddr : string) (FindEnvApp : string -> outcome env_app)
    (FindInfraApp : string -> outcome (Release -> InfraConfig -> json -> outcome InfraAppRendered))
    (parse_key : string -> outcome unit) (fuel : nat) (env : EnvConfig) (w w' : task_world) (e : error)
    (Hfails : run h (run_tree (NewCreateEnvTask infraAddr envAddr FindEnvApp FindInfraApp parse_key fuel env)) w = (w', Err e)) :
  last (tw_said w') = Some (provisioned env).
Proof. eapply run_started_after; [right; by eexists|exact Hfails]. Qed.

(** ** Waiting for the zone *)

(** What the k-th round of WaitToPropagate is answered when its first one is the
    c-th call to the outside: a lookup and a pause make a round. *)
Definition round (name : string) (c k : nat) : outcome (list string) := o_answer o (c + 2 * k) _ (Lookup name).

Definition settled (expected : list string) (a : outcome (list string)) : Prop :=
  exists l, a = Ok l /\ forall ip, ip ∈ l -> ip ∈ expected.

Lemma gotExpectedIPs_subset expected l : gotExpectedIPs expected l = true <-> forall ip, ip ∈ l -> ip ∈ expected.
Proof.
  unfold gotExpectedIPs. rewrite forallb_forall. split; intros H x Hx.
  - apply existsb_elem, H. by apply list_elem_of_In.
  - apply existsb_elem, H. by apply list_elem_of_In.
Qed.

Definition at_clock (c : nat) (w : task_world) : task_world :=
  MkTaskWorld (tw_env w) (tw_infra w) (tw_cells w) (tw_nil w) (tw_said w) c.

Lemma check_dns_round n name expected w :
  (exists l, round name (tw_clock w) 0 = Ok l) \/ (exists e, round name (tw_clock w) 0 = Err e) ->
  settled expected (round name (tw_clock w) 0) /\
    run h (check_dns (S n) name expected) w = (at_clock (S (tw_clock w)) w, Ok tt) \/
  ~ settled expected (round name (tw_clock w) 0) /\
    run h (check_dns (S n) name expected) w = run h (check_dns n name expected) (at_clock (2 + tw_clock w) w).
Proof.
  unfold round. rewrite Nat.add_0_r. intros Hans. cbn [check_dns]. rewrite run_handle, run_call. cbn [task_step]. unfold tick.
  destruct Hans as [[l Hl]|[e He]].
  - rewrite Hl. destruct (gotExpectedIPs expected l) eqn:Hg.
    + left. split; [exists l; split; [done|by apply gotExpectedIPs_subset]|done].
    + right. split; [|done]. intros (l' & [= <-] & Hin). apply gotExpectedIPs_subset in Hin. by rewrite Hg in Hin.
  - rewrite He. right. split; [|done]. by intros (l & ? & _).
Qed.

(** C29. WaitToPropagate ends with the first lookup that succeeds and answers no
    address but expected ones, after exactly that many rounds, and while there is
    none it goes on. An answer with only some of the expected addresses, or with
    none at all, is good enough. *)
Theorem propagation_wait (name : string) (expected : list string) (w : task_world) (k fuel : nat)
    (Hans : forall j, (exists l, round name (tw_clock w) j = Ok l) \/ (exists e, round name (tw_clock w) j = Err e))
    (Hbefore : forall j, j < k -> ~ settled expected (round name (tw_clock w) j)) :
  (settled expected (round name (tw_clock w) k) -> k < fuel ->
     run h (check_dns fuel name expected) w = (at_clock (S (tw_clock w + 2 * k)) w, Ok tt)) /\
  (fuel <= k -> (run h (check_dns fuel name expected) w).2 = Diverge).
Proof.
  revert k w Hans Hbefore. induction fuel as [|fuel IH]; intros k w Hans Hbefore; [by split; [lia|]|].
  pose proof (check_dns_round fuel name expected w (Hans 0)) as Hround. destruct k as [|k].
  - split; [|lia]. intros Hs _. destruct Hround as [[_ ->]|[Hno _]]; [|done]. by rewrite Nat.add_0_r.
  - destruct Hround as [[Hs _]|[_ ->]]; [by destruct (Hbefore 0 ltac:(lia))|].
    assert (Hshift : forall j, round name (tw_clock (at_clock (2 + tw_clock w) w)) j = round name (tw_clock w) (S j)).
    { intros j. unfold round. cbn [at_clock tw_clock]. by replace (2 + tw_clock w + 2 * j) with (tw_clock w + 2 * S j) by lia. }
    destruct (IH k (at_clock (2 + tw_clock w) w)) as [Hok Hdiv].
    + intros j. rewrite Hshift. apply Hans.
    + intros j Hj. rewrite Hshift. apply Hbefore. lia.
    + rewrite Hshift in Hok. split.
      * intros Hs Hk. rewrite Hok by (done || lia). unfold at_clock. cbn [tw_env tw_infra tw_cells tw_nil tw_said tw_clock].
        by replace (S (2 + tw_clock w + 2 * k)) with (S (tw_clock w + 2 * S k)) by lia.
      * intros Hk. apply Hdiv. lia.
Qed.
End Announced.

(** ** The first commits *)

Lemma known_omit ks k v l : existsb (fun k' => String.eqb (ToLower k') (ToLower k)) ks = true ->
  known_fields ks (JObj (omit_str k v ++ l)) = known_fields ks (JObj l).
Proof. intros Hk. unfold omit_str. destruct (String.eqb v ""); [done|]. cbn [app known_fields forallb fst]. by rewrite Hk. Qed.

Lemma known_omits ks k v l : existsb (fun k' => String.eqb (ToLower k') (ToLower k)) ks = true ->
  known_fields ks (JObj (omit_strs k v ++ l)) = known_fields ks (JObj l).
Proof. intros Hk. destruct v; [done|]. cbn [omit_strs app known_fields forallb fst]. by rewrite Hk. Qed.

(** What is written as config.yaml is read back strictly. *)
Lemma decode_encode_env_strict env : decode_env_strict (encode_env env) = Ok env.
Proof.
  unfold decode_env_strict. rewrite decode_encode_env.
  assert (H : known_fields env_fields (encode_env env) = true); [|by rewrite H].
  unfold encode_env. by repeat (rewrite known_omit || rewrite known_omits).
Qed.

Section Commits.
Context (o : outside) (interleave : list task_prog -> task_prog).
Abbreviation h := (task_step o).
Abbreviation run_tree := (start_task interleave).
Context (envAddr : string) (env : EnvConfig).

Definition on_env (s : repo_state) (w : task_world) : task_world :=
  MkTaskWorld s (tw_infra w) (tw_cells w) (tw_nil w) (tw_said w) (tw_clock w).

Lemma run_on_env {A} (p : prog repoE A) w :
  run h (embed (@OnEnv) p) w = let '(s, x) := run (repo_step (o_env_fault o)) p (tw_env w) in (on_env s w, x).
Proof.
  by rewrite (run_embed (@OnEnv) (repo_step (o_env_fault o)) h tw_env on_env) by (try intros []; done).
Qed.

(** A clone that succeeds. *)
Definition cloned (w : task_world) : task_world := on_env (checkout (tw_env w)) (at_clock (S (tw_clock w)) w).

Lemma run_GetRepo ss w :
  ssClient (tw_cells w) = Some ss -> o_answer o (tw_clock w) _ (Clone ss "config") = Ok tt ->
  run h (GetRepo "config") w = (cloned w, Ok tt).
Proof.
  intros Hss Hc. unfold GetRepo. rewrite run_mbind. unfold deref. rewrite run_call. cbn [task_step peek]. rewrite Hss.
  rewrite run_call. cbn [task_step]. unfold tick. by rewrite Hc.
Qed.

(** A configuration that could not be committed is not noticed: when the
    repository fails before anything is written, the task that commits
    config.yaml ends with success and the repository has no configuration. *)
Theorem config_commit_failure_hidden (ss : soft_client) (e : error) (w : task_world)
    (Hss : ssClient (tw_cells w) = Some ss) (Hclone : o_answer o (tw_clock w) _ (Clone ss "config") = Ok tt)
    (Hfault : o_env_fault o (S (ops (tw_env w))) = Some e) :
  exists w', run h (run_tree (CommitEnvironmentConfiguration envAddr env)) w = (w', Ok tt) /\
    remote (tw_env w') = remote (tw_env w).
Proof.
  cbn [start_task CommitEnvironmentConfiguration]. unfold started. rewrite run_mbind. cbn [say run mret go_ret].
  rewrite run_bindp, run_mbind, (run_GetRepo ss) by done. rewrite run_mbind. unfold ignore_error. rewrite run_handle.
  cbn [Do env_r env_config_repo repo_in]. rewrite run_mbind, run_on_env. unfold repo.pullWithoutLock. rewrite run_handle, run_call.
  assert (Hpull : exists s, ops s = S (ops (tw_env w)) /\ remote s = remote (tw_env w) /\
    ((run (repo_step (o_env_fault o)) (call WtPull) (tw_env (cloned w))).1 = s)).
  { rewrite run_call. cbn [repo_step]. rewrite pulled_clean by done.
    destruct (o_env_fault o (ops (tw_env (cloned w)))); cbn [fst]; eexists; (split; [|split; [|reflexivity]]); done. }
  destruct Hpull as (s & Hops & Hrem & Hs). rewrite run_call in Hs.
  destruct (repo_step (o_env_fault o) _ WtPull (tw_env (cloned w))) as [s' [[]|e'|y|]] eqn:Hp; cbn [fst] in Hs; subst s'.
  3-4: cbn [repo_step] in Hp; destruct (o_env_fault o (ops (tw_env (cloned w)))); discriminate.
  all: cbn [run mret go_ret]; rewrite !run_mbind; unfold WriteYaml; rewrite run_mbind; cbn [Writer env_r env_config_repo repo_in];
    rewrite run_on_env; unfold repo.Writer; rewrite run_mbind, run_call; cbn [repo_step on_env tw_env]; rewrite Hops, Hfault;
    cbn [run mret go_ret say bindp]; eexists; split; [reflexivity|]; exact Hrem.
Qed.

Section NoFaults.
Context (Hfaults : forall n, o_env_fault o n = None).

(** The world with a committed and pushed tree. *)
Definition pushed (f : gmap string content) (msg : string) (n : nat) (w : task_world) : task_world :=
  on_env (MkRepo f f f (log (tw_env w) ++ [msg]) n) w.

Lemma run_env_quiet {A} (p : prog repoE A) w :
  run h (embed (@OnEnv) p) w = let '(s, x) := run (repo_step (fun _ => None)) p (tw_env w) in (on_env s w, x).
Proof using Hfaults.
  rewrite run_on_env. assert (H : forall s, run (repo_step (o_env_fault o)) p s = run (repo_step (fun _ => None)) p s).
  { induction p as [|X e k IH]; intros s; cbn [run]; [done|].
    assert (He : repo_step (o_env_fault o) X e s = repo_step (fun _ => None) X e s) by (destruct e; cbn [repo_step]; by rewrite Hfaults).
    rewrite He. destruct (repo_step (fun _ => None) X e s) as [s' x]. apply IH. }
  by rewrite H.
Qed.

(** From the work tree [f] the program answers [x] and leaves [f']. *)
Definition writes {A} (p : go taskE A) (f : gmap string content) (x : A) (f' : gmap string content) : Prop :=
  forall hd rm lg n w, exists m, run h p (on_env (MkRepo f hd rm lg n) w) = (on_env (MkRepo f' hd rm lg m) w, Ok x).

Lemma writes_ret {A} (x : A) f : writes (mret x) f x f.
Proof. intros hd rm lg n w. by exists n. Qed.

Lemma writes_mbind {A B} (p : go taskE A) (k : A -> go taskE B) f x f1 y f2 :
  writes p f x f1 -> writes (k x) f1 y f2 -> writes (p ≫= k) f y f2.
Proof.
  intros Hp Hk hd rm lg n w. rewrite run_mbind. destruct (Hp hd rm lg n w) as [m ->]. apply Hk.
Qed.

Lemma writes_file p c f : writes (_ ← @Writer _ (env_r envAddr) p; @WriteTo _ (env_r envAddr) p c) f tt (<[fs_key p := c]> f).
Proof using Hfaults.
  intros hd rm lg n w. rewrite run_mbind. cbn [Writer WriteTo env_r env_config_repo repo_in]. rewrite run_env_quiet.
  cbn [run repo.Writer mbind go_bind bindp call repo_step on_env tw_env with_files on_files files head_ remote log ops].
  rewrite run_env_quiet. cbn [run repo.WriteTo call repo_step on_env tw_env with_files on_files files head_ remote log ops].
  rewrite insert_insert_eq. eexists. reflexivity.
Qed.

Lemma writes_read {A} (dec : json -> outcome A) p v x f :
  f !! fs_key p = Some (Doc v) -> dec v = Ok x -> writes (ReadYaml (RepoIO0 := env_r envAddr) dec p) f x f.
Proof using Hfaults.
  intros Hv Hx hd rm lg n w. unfold ReadYaml. rewrite run_mbind. cbn [Reader env_r env_config_repo repo_in]. rewrite run_env_quiet.
  cbn [run repo.Reader call repo_step on_env tw_env files]. rewrite Hv. cbn [run lift parsed mbind outcome_bind]. rewrite Hx.
  eexists. reflexivity.
Qed.

Lemma run_env_Do (op : go taskE string) msg f w :
  clean (tw_env w) -> writes op (remote (tw_env w)) msg f -> exists n, run h (@Do _ (env_r envAddr) op false) w = (pushed f msg n w, Ok tt).
Proof using Hfaults.
  intros Hclean Hop. cbn [Do env_r env_config_repo repo_in]. rewrite run_mbind, run_env_quiet.
  rewrite run_pullWithoutLock, run_mbind by done.
  destruct (Hop (remote (tw_env w)) (remote (tw_env w)) (log (tw_env w)) (S (ops (tw_env w))) w) as [m ->].
  cbn [negb]. rewrite run_env_quiet. cbn [on_env tw_env]. rewrite run_CommitAndPush by done. eexists. reflexivity.
Qed.

(** The trees the two commits leave. *)
Definition configured (k : Kustomization) (f : gmap string content) : gmap string content :=
  <["/kustomization.yaml" := Doc (encode_kust (AddResources k ["pcloud-charts.yaml"]))]>
  (<["/pcloud-charts.yaml" := charts env]> (<["/config.yaml" := Doc (encode_env env)]> f)).

Definition with_first_account (f : gmap string content) : gmap string content :=
  <["/first-account.yaml" := Doc (encode_first (MkFirst false ["admin"]))]> f.

Lemma run_leaf title start w w' :
  run h start w = (w', Ok tt) -> run h (run_tree (Leaf title None start None)) w = (w', Ok tt).
Proof. intros Hs. cbn [start_task]. unfold started. rewrite run_mbind. cbn [say run mret go_ret]. by rewrite run_bindp, Hs. Qed.

Lemma run_commit ss k w :
  ssClient (tw_cells w) = Some ss -> o_answer o (tw_clock w) _ (Clone ss "config") = Ok tt ->
  remote (tw_env w) !! "/kustomization.yaml" = Some (Doc (encode_kust k)) ->
  exists n, run h (run_tree (CommitEnvironmentConfiguration envAddr env)) w =
    (pushed (configured k (remote (tw_env w))) "configure charts repo" n (cloned w), Ok tt).
Proof using Hfaults.
  intros Hss Hc Hk.
  assert (Hop : writes (_ ← WriteYaml (RepoIO0 := env_r envAddr) "config.yaml" (encode_env env);
      _ ← @Writer _ (env_r envAddr) "pcloud-charts.yaml"; _ ← @WriteTo _ (env_r envAddr) "pcloud-charts.yaml" (charts env);
      rootKust ← ReadKustomization (RepoIO0 := env_r envAddr) "kustomization.yaml";
      _ ← WriteYaml (RepoIO0 := env_r envAddr) "kustomization.yaml" (encode_kust (AddResources rootKust ["pcloud-charts.yaml"]));
      mret "configure charts repo") (remote (tw_env (cloned w))) "configure charts repo" (configured k (remote (tw_env w)))).
  { eapply writes_mbind; [apply writes_file|]. intros hd rm lg n v. rewrite run_mbind.
    pose proof (writes_file "pcloud-charts.yaml" (charts env)) as Hch.
    destruct (Hch (<[fs_key "config.yaml" := Doc (encode_env env)]> (remote (tw_env (cloned w)))) hd rm lg n v) as [m Hm].
    rewrite run_mbind in Hm. destruct (run h (@Writer _ (env_r envAddr) _) _) as [v1 [[]|e|y|]]; [|discriminate Hm..].
    rewrite run_mbind, Hm. clear Hm. assert (Hrest : writes (rootKust ← ReadKustomization (RepoIO0 := env_r envAddr) "kustomization.yaml";
      _ ← WriteYaml (RepoIO0 := env_r envAddr) "kustomization.yaml" (encode_kust (AddResources rootKust ["pcloud-charts.yaml"]));
      mret "configure charts repo") (<["/pcloud-charts.yaml" := charts env]> (<["/config.yaml" := Doc (encode_env env)]> (remote (tw_env w))))
      "configure charts repo" (configured k (remote (tw_env w)))).
    { eapply writes_mbind; [apply (writes_read decode_kust _ (encode_kust k) k); [|apply decode_encode_kust]|].
      - change (fs_key "kustomization.yaml") with "/kustomization.yaml". by rewrite !lookup_insert_ne by done.
      - eapply writes_mbind; [apply writes_file|]. apply writes_ret. }
    apply (Hrest hd rm lg m v). }
  destruct (run_env_Do _ _ _ (cloned w) eq_refl Hop) as [n Hn]. exists n. apply run_leaf. rewrite run_mbind, (run_GetRepo ss) by done.
  rewrite run_mbind. unfold ignore_error. rewrite run_handle, Hn. reflexivity.
Qed.

Lemma run_first ss w :
  ssClient (tw_cells w) = Some ss -> o_answer o (tw_clock w) _ (Clone ss "config") = Ok tt ->
  exists n, run h (run_tree (ConfigureFirstAccount envAddr)) w =
    (pushed (with_first_account (remote (tw_env w))) "first account membership configuration" n (cloned w), Ok tt).
Proof using Hfaults.
  intros Hss Hc.
  assert (Hop : writes (_ ← WriteYaml (RepoIO0 := env_r envAddr) "first-account.yaml" (encode_first (MkFirst false initGroups));
      mret "first account membership configuration") (remote (tw_env (cloned w))) "first account membership configuration"
      (with_first_account (remote (tw_env w)))).
  { eapply writes_mbind; [apply writes_file|]. apply writes_ret. }
  destruct (run_env_Do _ _ _ (cloned w) eq_refl Hop) as [n Hn]. exists n. apply run_leaf. by rewrite run_mbind, (run_GetRepo ss).
Qed.

(** The first task of the three keeps the repository. *)
Lemma run_client ss w :
  ssClient (tw_cells w) = Some ss -> o_answer o (tw_clock w) _ (Clone ss "config") = Ok tt ->
  exists w', run h (run_tree CreateRepoClient) w = (w', Ok tt) /\ tw_env w' = checkout (tw_env w) /\
    ssClient (tw_cells w') = Some ss /\ tw_clock w' = S (tw_clock w).
Proof.
  intros Hss Hc. cbn [start_task CreateRepoClient]. unfold started. rewrite run_mbind, run_say, run_bindp, run_mbind.
  rewrite (run_GetRepo ss) by done. eexists. split; [reflexivity|]. by cbn.
Qed.

(** C28. The initial commits of an environment make its config repository what the
    other services expect: when the clones and no operation on the repository
    fail, the tasks end with success; the remote is the old one
    with the configuration, the charts and the first account written and the
    charts listed; the application manager reads back exactly this environment,
    and the welcome server finds a first account that is not created, for admins. *)
Theorem initial_commit (ss : soft_client) (k : Kustomization) (w : task_world)
    (Hss : ssClient (tw_cells w) = Some ss)
    (Hclones : forall i, i < 3 -> o_answer o (tw_clock w + i) _ (Clone ss "config") = Ok tt)
    (Hk : remote (tw_env w) !! "/kustomization.yaml" = Some (Doc (encode_kust k))) :
  exists w', run h (run_tree (CreateInitialCommit envAddr env)) w = (w', Ok tt) /\
    remote (tw_env w') = with_first_account (configured k (remote (tw_env w))) /\
    (run h (_ ← @Pull _ (env_r envAddr); Config (RepoIO0 := env_r envAddr)) w').2 = Ok env /\
    forall posts, first_account (MkWelcome (tw_env w') posts) (MkFirst false ["admin"]).
Proof using Hfaults.
  assert (Hc0 := Hclones 0 ltac:(lia)). assert (Hc1 := Hclones 1 ltac:(lia)). assert (Hc2 := Hclones 2 ltac:(lia)). clear Hclones.
  rewrite Nat.add_0_r in Hc0. rewrite Nat.add_1_r in Hc1. replace (tw_clock w + 2) with (S (S (tw_clock w))) in Hc2 by lia.
  destruct (run_client ss w Hss Hc0) as (w1 & H1 & He1 & Hs1 & Hk1). rewrite <- Hk1 in Hc1. rewrite <- Hk1 in Hc2.
  destruct (run_commit ss k w1 Hs1 Hc1) as [n2 H2]; [by rewrite He1|].
  set (w2 := pushed _ _ _ _) in H2.
  destruct (run_first ss w2) as [n3 H3]; [exact Hs1|exact Hc2|]. set (w3 := pushed _ _ _ _) in H3.
  exists w3. assert (Hrem : remote (tw_env w3) = with_first_account (configured k (remote (tw_env w)))).
  { unfold w3, w2, pushed, cloned, on_env. cbn [tw_env remote]. by rewrite He1. }
  split_and!; [|exact Hrem| |].
  - unfold CreateInitialCommit. cbn [start_task map]. unfold started at 1. rewrite run_mbind. cbn [say run mret go_ret].
    rewrite run_bindp. cbn [foreach]. rewrite run_mbind, H1, run_mbind, H2, run_mbind, H3. reflexivity.
  - rewrite run_mbind. cbn [Pull env_r env_config_repo repo_in]. rewrite (run_env_quiet repo.Pull).
    unfold repo.Pull. rewrite run_pullWithoutLock by done.
    destruct (writes_read decode_env_strict "config.yaml" (encode_env env) env (remote (tw_env w3))) with
      (hd := remote (tw_env w3)) (rm := remote (tw_env w3)) (lg := log (tw_env w3)) (n := S (ops (tw_env w3))) (w := w3) as [m Hm].
    + rewrite Hrem. unfold with_first_account, configured. change (fs_key "config.yaml") with "/config.yaml".
      rewrite !lookup_insert_ne by done. by rewrite lookup_insert_eq.
    + apply decode_encode_env_strict.
    + unfold Config. exact (f_equal snd Hm).
  - intros posts. unfold first_account. cbn [wl_repo]. rewrite Hrem. change first_key with "/first-account.yaml".
    unfold with_first_account. by rewrite lookup_insert_eq.
Qed.
End NoFaults.
End Commits.
(** ** The theorems at concrete inputs *)

Definition no_repo : repo_state := MkRepo ∅ ∅ ∅ [] 0.

(** Every call is answered well; keys are made by [keygen], names resolve to [ips]. *)
Definition demo_answer (keygen : outcome KeyPair) (ips : nat -> list string) (n : nat) (X : Type) (e : taskE X) : X :=
  match e in taskE X return X with
  | OnEnv e | OnInfra e => (repo_step (fun _ => None) _ e no_repo).2
  | TaskNs _ => Ok tt
  | TaskPort _ _ => Ok 200%Z
  | Keygen _ => keygen
  | Ssh _ _ => Ok tt
  | SshKeys _ => Ok ["ssh-ed25519 AAAA"]
  | Clone _ _ => Ok tt
  | Fetch _ => Ok tt
  | HttpGet _ => Ok 200%Z
  | Lookup _ => Ok (ips n)
  | HelmConfig _ | LoadChart _ | HelmInstall _ => Ok tt
  | Sleep _ | Info _ => tt
  | Use _ => Err (errorf "")
  | Set_ _ _ => tt
  end.

Definition demo_outside (keygen : outcome KeyPair) (ips : nat -> list string) (fault : nat -> option error) : outside :=
  MkOutside (demo_answer keygen ips) fault (fun _ => None).

Definition demo_env : EnvConfig :=
  MkEnvConfig "e1" "dodo" "a.com" "p.a.com" "a@a.com" "ssh" ["1.2.3.4"; "1.2.3.5"] ["1.2.3.4"] "e1-"
    (MkEnvNetwork "10.1.0.1" "10.0.1.1" "10.1.0.2" "10.1.0.3" "10.1.0.10" "10.1.0.50").

Definition fresh_world : task_world := MkTaskWorld no_repo no_repo no_cells false [] 0.

Definition in_turn : list task_prog -> task_prog := foreach (fun p => p).

Definition no_env_app (name : string) : outcome env_app := Err (errorf "not found").
Definition no_infra_app (name : string) : outcome (Release -> InfraConfig -> json -> outcome InfraAppRendered) :=
  Ok (fun _ _ _ => Err (errorf "not rendered")).

Definition no_entropy : outside := demo_outside (Err (errorf "no entropy")) (fun _ => []) (fun _ => None).

Lemma pointers_set_before_use_witness :
  tw_nil (run (task_step no_entropy) (start_task in_turn
    (NewCreateEnvTask "ssh://infra" "ssh://env" no_env_app no_infra_app (fun _ => Ok tt) 5 demo_env)) fresh_world).1 = false.
Proof.
  exact (proj1 (pointers_set_before_use no_entropy "ssh://infra" "ssh://env" no_env_app no_infra_app (fun _ => Ok tt) 5 demo_env
    in_turn calls_foreach_Forall fresh_world eq_refl)).
Defined.

Lemma failure_announced_as_success_witness :
  last (tw_said (run (task_step no_entropy) (start_task in_turn
    (NewCreateEnvTask "ssh://infra" "ssh://env" no_env_app no_infra_app (fun _ => Ok tt) 5 demo_env)) fresh_world).1) =
  Some (provisioned demo_env).
Proof.
  refine (failure_announced_as_success no_entropy in_turn "ssh://infra" "ssh://env" no_env_app no_infra_app (fun _ => Ok tt) 5
    demo_env fresh_world _ (errorf "no entropy") _). vm_compute. reflexivity.
Defined.

(** Of two addresses only one is published, from the second lookup on. *)
Definition half_published : outside :=
  demo_outside (Err (errorf "no entropy")) (fun n => if (n <? 2)%nat then ["9.9.9.9"] else ["1.2.3.4"]) (fun _ => None).

Lemma propagation_wait_witness :
  run (task_step half_published) (check_dns 5 "a.com" ["1.2.3.4"; "1.2.3.5"]) fresh_world = (at_clock 3 fresh_world, Ok tt).
Proof.
  refine (proj1 (propagation_wait half_published "a.com" ["1.2.3.4"; "1.2.3.5"] fresh_world 1 5 _ _) _ _).
  - intros j. left. by eexists.
  - intros j Hj (l & [= <-] & Hin). assert (j = 0) as -> by lia. specialize (Hin "9.9.9.9" ltac:(by left)).
    apply elem_of_cons in Hin as [Hin|Hin%list_elem_of_singleton]; discriminate Hin.
  - exists ["1.2.3.4"]. split; [reflexivity|]. intros ip ->%list_elem_of_singleton. by left.
  - lia.
Defined.

Definition demo_client : soft_client := MkSoft "soft-serve" "key".
Definition with_client (s : repo_state) : task_world :=
  MkTaskWorld s no_repo (MkCells None (Some demo_client) None None None) false [] 0.

Definition read_only : outside :=
  demo_outside (Err (errorf "no entropy")) (fun _ => []) (fun n => if (n =? 1)%nat then Some (errorf "read-only file system") else None).

Lemma config_commit_failure_hidden_witness :
  exists w', run (task_step read_only) (start_task in_turn (CommitEnvironmentConfiguration "ssh://env" demo_env)) (with_client no_repo) = (w', Ok tt) /\
    remote (tw_env w') = ∅.
Proof.
  exact (config_commit_failure_hidden read_only in_turn "ssh://env" demo_env demo_client (errorf "read-only file system")
    (with_client no_repo) eq_refl eq_refl eq_refl).
Defined.

Definition all_well : outside := demo_outside (Ok (MkKeys "priv" "pub" "pub")) (fun _ => []) (fun _ => None).

Definition initialised : repo_state :=
  let f := {[ "/kustomization.yaml" := Doc (encode_kust NewKustomization) ]} in MkRepo f f f [] 0.

Lemma initial_commit_witness :
  exists w', run (task_step all_well) (start_task in_turn (CreateInitialCommit "ssh://env" demo_env)) (with_client initialised) = (w', Ok tt) /\
    (run (task_step all_well) (_ ← @Pull _ (env_r "ssh://env"); Config (RepoIO0 := env_r "ssh://env")) w').2 = Ok demo_env.
Proof.
  destruct (initial_commit all_well in_turn "ssh://env" demo_env (fun _ => eq_refl) demo_client NewKustomization (with_client initialised)
    eq_refl (fun _ _ => eq_refl) ltac:(vm_compute; reflexivity)) as (w' & Hrun & _ & Hconf & _).
  exists w'. split; [exact Hrun|exact Hconf].
Defined.
