(* ===== verification/EnvDns.v ===== *)
(** * Zones at the DNS gateway (core/installer/tasks/dns.go)

    Creating an environment adds its zone to the servers of the gateway by
    reading the instance and updating it, without a lock. *)
From S2P Require Import Prelude GoLib GoStrings GoPath RepoIO InstallerTypes AppManager InfraManager AppManagerTheorems InfraManagerTheorems EnvTasks.
Open Scope string_scope.
Open Scope list_scope.

#[local] Set Default Proof Using "Type*".

Lemma decode_encode_servers l : dns_servers (encode_servers l) = Ok l.
Proof.
  unfold dns_servers, encode_servers. cbn [list_find fst]. rewrite decide_True by done. cbn [json_array].
  induction l as [|[z ad] l IH]; [done|]. cbn [map json_list fst snd].
  assert (Hd : decode_env_dns (encode_env_dns z ad) = Ok (z, ad)).
  { unfold decode_env_dns, encode_env_dns. rewrite (omit_str_nil "address"). repeat (json_enc; json_bind). }
  by rewrite Hd, IH.
Qed.

Section Zones.
Context (addr : string) (a : answers) (fuel : nat).
(** The gateway renders whatever servers it is given and keeps them as its values. *)
Context (app : Release -> InfraConfig -> json -> outcome InfraAppRendered) (rendered : string -> json -> InfraAppRendered).
Context (infra : InfraConfig).
Context (Hrender : forall ns values,
  app (MkRelease "dns-gateway" ns addr (abs_path (infra_root ++ ["dns-gateway"]))) infra values = Ok (rendered ns values)).
Context (Hvalues : forall ns values, iValues (irConfig (rendered ns values)) = values).
Context (Hwf : forall ns values, json_map (iInput (irConfig (rendered ns values))) = Ok (iInput (irConfig (rendered ns values))) /\
  json_slice (iHelp (irConfig (rendered ns values))) = Ok (iHelp (irConfig (rendered ns values)))).
Context (Hdata : forall ns values, data_ok (irData (rendered ns values))).
Context (Hres : forall ns values, names_ok (irResources (rendered ns values))).
Context (Hfuel : 2 < fuel).

#[local] Instance TheRepo : RepoIO appE := app_repo addr.
Abbreviation step := (app_step a).
Abbreviation register z := (register_zone app fuel z.1 z.2 : go appE unit).

(** The zones the gateway serves. *)
Definition zones (f : tree) : outcome (list (string * string)) :=
  cfg ← find_infra_in f "dns-gateway"; dns_servers (iValues cfg).

(** A repository with an installed gateway that serves [l]. *)
Record gateway (f : tree) (l : list (string * string)) : Prop := {
  gw_kusts : kusts_ok f;
  gw_infra : read_doc decode_infra_strict (fs_key "config.yaml") f = Ok infra;
  gw_stored : exists old, read_doc decode_infra_app (config_key infra_root "dns-gateway") f = Ok old;
  gw_zones : zones f = Ok l;
}.

Lemma gateway_ok : seg_ok "dns-gateway".
Proof. by split_and!. Qed.

Definition served (ns : string) (l : list (string * string)) (f : tree) : tree :=
  infra_tree "dns-gateway" (rendered ns (encode_servers l)) f.

Lemma gateway_served ns l l' f : gateway f l -> gateway (served ns l' f) l'.
Proof.
  intros [Hk Hi _ _].
  assert (Hw : well_formed_infra (irConfig (rendered ns (encode_servers l')))).
  { split; [by rewrite Hvalues|]. apply Hwf. }
  assert (Hfind := find_infra_installed "dns-gateway" _ gateway_ok ltac:(done) (Hdata ns (encode_servers l'))
    (Hres ns (encode_servers l')) f Hk Hw). fold (served ns l' f) in Hfind.
  constructor.
  - unfold served, infra_tree. apply kusts_ok_installed; [apply Hdata|apply Hres|exact Hk].
  - apply infra_config_kept; [apply gateway_ok|done|apply Hdata|apply Hres|done].
  - unfold find_infra_in in Hfind. destruct (read_doc decode_kust _ _) as [k| | |]; cbn [mbind outcome_bind] in Hfind; [|done..].
    destruct (decide _); cbn [mbind outcome_bind] in Hfind.
    + destruct (read_doc decode_infra_app _ _); [by eexists|done..].
    + apply (f_equal (fun o => match o with Ok c => iValues c | _ => JNull end)) in Hfind.
      cbn [zero_infra_app infra_with_id iValues] in Hfind. by rewrite Hvalues in Hfind.
  - unfold zones. rewrite Hfind. cbn [mbind outcome_bind infra_with_id iValues]. rewrite Hvalues. apply decode_encode_servers.
Qed.

(** Alone, after the servers are read. *)
Abbreviation update z l := (InfraAppManager.Update app fuel "dns-gateway" (encode_servers (l ++ [z])) false : go appE unit).

Lemma run_update z l l' w :
  clean (w_repo w) -> gateway (remote (w_repo w)) l' ->
  exists ns msg n, run step (update z l) w = (committed (served ns (l ++ [z]) (remote (w_repo w))) msg n w, Ok tt).
Proof.
  intros Hclean [Hk Hi [old Hold] _].
  destruct (run_infra_Update addr a "dns-gateway" fuel infra (rendered (relNamespace (iRelease old)) (encode_servers (l ++ [z])))
    app gateway_ok ltac:(done) Hfuel (Hdata _ _) (Hres _ _) (encode_servers (l ++ [z])) old w Hclean Hk Hi Hold) as [n Hn].
  { apply Hrender. }
  by do 3 eexists.
Qed.

Lemma register_reaches z l w :
  files (w_repo w) = remote (w_repo w) -> gateway (remote (w_repo w)) l ->
  exists n, reaches step (register z) w (update z l) (set_tree (files (w_repo w)) n w).
Proof.
  intros Hf Hg. destruct (does_infra_find addr a (files (w_repo w)) "dns-gateway" gateway_ok w eq_refl) as [n Hn].
  pose proof (gw_zones _ _ Hg) as Hz. unfold zones in Hz. rewrite <- Hf in Hz.
  destruct (find_infra_in (files (w_repo w)) "dns-gateway") as [cfg| | |]; cbn [mbind outcome_bind] in Hz; [|done..].
  exists n. unfold register_zone. eapply reaches_trans.
  - pose proof (reaches_bindp step (@InfraAppManager.FindInstance appE TheRepo "dns-gateway")
      (fun o => match o with Ok cfg => (servers ← lift (dns_servers (iValues cfg));
        InfraAppManager.Update app fuel "dns-gateway" (encode_servers (servers ++ [(z.1, z.2)])) false) | Err e => Ret (Err e)
        | Panic y => Ret (Panic y) | Diverge => Ret Diverge end) w) as Hr.
    rewrite (Hn : run step (@InfraAppManager.FindInstance appE TheRepo "dns-gateway") w = _) in Hr. exact Hr.
  - cbv beta iota. cbn [fst snd]. rewrite Hz. destruct z. apply reaches_refl.
Qed.

Lemma run_register z l w :
  clean (w_repo w) -> files (w_repo w) = remote (w_repo w) -> gateway (remote (w_repo w)) l ->
  exists w', run step (register z) w = (w', Ok tt) /\ clean (w_repo w') /\ files (w_repo w') = remote (w_repo w') /\ gateway (remote (w_repo w')) (l ++ [z]).
Proof.
  intros Hclean Hf Hg. destruct (register_reaches z l w Hf Hg) as [n Hr]. apply reaches_run in Hr.
  destruct (run_update z l l (set_tree (files (w_repo w)) n w) (clean_set_tree n w Hclean) Hg) as (ns & msg & m & Hu).
  rewrite Hr, Hu. eexists. split; [reflexivity|]. split; [done|]. split; [done|]. by eapply gateway_served.
Qed.

(** Zones of environments created one after the other are all served; of two
    environments created at the same time one can be forgotten: there is a
    schedule in which both tasks end with success and the gateway serves what it
    did and the first zone only. *)
Theorem overlapping_zones_lose_one (z1 z2 : string * string) (l : list (string * string)) (w : world)
    (Hclean : clean (w_repo w)) (Hf : files (w_repo w) = remote (w_repo w)) (Hg : gateway (remote (w_repo w)) l) :
  (exists w1 w2, run step (register z1) w = (w1, Ok tt) /\ run step (register z2) w1 = (w2, Ok tt) /\
     zones (remote (w_repo w2)) = Ok (l ++ [z1; z2])) /\
  (exists sched w', run_sched step sched [register z1; register z2] w = ([Ret (Ok tt); Ret (Ok tt)], w') /\
     zones (remote (w_repo w')) = Ok (l ++ [z1])).
Proof.
  split.
  - destruct (run_register z1 l w Hclean Hf Hg) as (w1 & H1 & Hc1 & Hf1 & Hg1).
    destruct (run_register z2 (l ++ [z1]) w1 Hc1 Hf1 Hg1) as (w2 & H2 & _ & _ & Hg2).
    exists w1, w2. split; [done|]. split; [done|]. rewrite (gw_zones _ _ Hg2). by rewrite <- (assoc_L (++)).
  - destruct (register_reaches z1 l w Hf Hg) as [n H1]. set (w0 := set_tree (files (w_repo w)) n w) in *.
    destruct (overtaken step _ _ (register z2) _ _ H1) as [sched Hs].
    destruct (run_register z2 l w0) as (w2 & H2 & Hc2 & Hf2 & Hg2); [by apply clean_set_tree|done..|]. rewrite H2 in Hs. cbn [fst snd] in Hs.
    destruct (run_update z1 l (l ++ [z2]) w2 Hc2 Hg2) as (ns & msg & m & Hu). rewrite Hu in Hs. cbn [fst snd] in Hs.
    exists sched. eexists. split; [exact Hs|]. cbn [committed w_repo remote].
    apply gw_zones. by eapply gateway_served.
Qed.
End Zones.

(** ** The theorem at a concrete input *)

Definition demo_infra : InfraConfig := MkInfra "dodo" ["1.2.3.4"] "dodo-" "ssh".

Definition demo_gateway (ns : string) (values : json) : InfraAppRendered :=
  MkInfraRendered "dns-gateway" [] [] []
    (MkInfraApp "dns-gateway" "dns-gateway" demo_infra
      (MkRelease "dns-gateway" ns "ssh://repo" "/infrastructure/dns-gateway") values (JObj []) "" JNull "").

Definition demo_app : Release -> InfraConfig -> json -> outcome InfraAppRendered :=
  fun rel _ values => Ok (demo_gateway (relNamespace rel) values).

Definition demo_tree : tree :=
  install_tree (infra_root ++ ["dns-gateway"]) (encode_infra_app (irConfig (demo_gateway "dns" (JObj [])))) [] []
    {[ "/config.yaml" := Doc (encode_infra demo_infra) ]}.

Definition demo_installation : world := MkWorld (MkRepo demo_tree demo_tree demo_tree [] 0) [] [].

Lemma nil_data_ok : data_ok [].
Proof. split_and!; [constructor|constructor|]. by intros n ?%not_elem_of_nil. Qed.

Lemma demo_gateway_ok : gateway demo_infra demo_tree [].
Proof.
  constructor.
  - apply kusts_ok_installed; [apply nil_data_ok|constructor|].
    change (kusts_ok (<[file_key [] "config.yaml" := Doc (encode_infra demo_infra)]> ∅)). by apply kusts_ok_put, kusts_ok_empty.
  - vm_compute. reflexivity.
  - exists (irConfig (demo_gateway "dns" (JObj []))). vm_compute. reflexivity.
  - vm_compute. reflexivity.
Qed.

Lemma overlapping_zones_lose_one_witness :
  exists sched w', run_sched (app_step (MkAnswers (fun _ => Ok tt) (fun _ _ => Ok 200%Z))) sched
      [register_zone (RepoIO0 := TheRepo "ssh://repo") demo_app 3 "a.com" "10.1.0.1";
       register_zone (RepoIO0 := TheRepo "ssh://repo") demo_app 3 "b.com" "10.2.0.1"] demo_installation =
      ([Ret (Ok tt); Ret (Ok tt)], w') /\
    zones (remote (w_repo w')) = Ok [("a.com", "10.1.0.1")].
Proof.
  exact (proj2 (overlapping_zones_lose_one "ssh://repo" (MkAnswers (fun _ => Ok tt) (fun _ _ => Ok 200%Z)) 3 demo_app demo_gateway
    demo_infra (fun _ _ => eq_refl) (fun _ _ => eq_refl) (fun _ _ => conj eq_refl eq_refl) (fun _ _ => nil_data_ok)
    (fun _ _ => Forall_nil_2 _) ltac:(lia) ("a.com", "10.1.0.1") ("b.com", "10.2.0.1") [] demo_installation eq_refl eq_refl demo_gateway_ok)).
Defined.
