(* ===== verification/Bootstrapper.v ===== *)
(** * Setting up an installation (core/installer/bootstrapper.go, cmd/bootstrap.go)

    Helm releases for the network, storage, the Git server and flux; then the
    repository of the installation and the infrastructure apps committed to it.
    The calls are those of the tasks; the repository is [infra_repo]. *)
From S2P Require Import Prelude GoLib GoStrings GoBase64 GoNet GoPath RepoIO InstallerTypes AppManager InfraManager EnvNetwork EnvServer Rendering CueApps EnvTasks.
From Stdlib Require Import Ascii.
Open Scope string_scope.
Open Scope list_scope.

(** ** config.go *)

(** netip.Addr as bytes; no bytes are the zero Addr. *)
Definition addr_string (a : bytes) : string :=
  match a with [] => "invalid IP" | _ => dotted a end.

(** [netip.AddrPortFrom(a, port).String()] *)
Definition addr_port (a : bytes) (port : Z) : string :=
  match a with [] => "invalid AddrPort" | _ => dotted a +:+ ":" +:+ Itoa port end.

Record EnvServiceIPs := MkServiceIPs {
  ipConfigRepo : bytes;
  ipIngressPublic : bytes;
  ipFrom : bytes;
  ipTo : bytes;
}.

(** Keys are bytes, public addresses texts; no addresses are a nil slice. *)
Record BootstrapConfig := MkBootstrap {
  bcInfraName : string;
  bcPublicIP : list string;
  bcNamespacePrefix : string;
  bcStorageDir : string;
  bcVolumeDefaultReplicaCount : Z;
  bcAdminPublicKey : string;
  bcServiceIPs : EnvServiceIPs;
}.

(** The text of the zero Addr in JSON is empty. *)
Definition encode_service_ips (s : EnvServiceIPs) : json :=
  JObj [("configRepo", JStr (dotted (ipConfigRepo s))); ("ingressPublic", JStr (dotted (ipIngressPublic s)));
        ("from", JStr (dotted (ipFrom s))); ("to", JStr (dotted (ipTo s)))].

Definition encode_bootstrap (c : BootstrapConfig) : json :=
  JObj [("name", JStr (bcInfraName c));
        ("publicIP", match bcPublicIP c with [] => JNull | l => JArr (map JStr l) end);
        ("namespacePrefix", JStr (bcNamespacePrefix c)); ("storageDir", JStr (bcStorageDir c));
        ("volumeDefaultReplicaCount", JNum (bcVolumeDefaultReplicaCount c));
        ("adminPublicKey", JStr (EncodeToString (bcAdminPublicKey c))); ("serviceIPs", encode_service_ips (bcServiceIPs c))].

(** ** The repository of the installation *)

Definition infra_of (c : BootstrapConfig) : InfraConfig :=
  MkInfra (bcInfraName c) (bcPublicIP c) (bcNamespacePrefix c) (EncodeToString (bcAdminPublicKey c)).

Definition pcloud_charts (infraName : string) : content :=
  Doc (JObj [("apiVersion", JStr "source.toolkit.fluxcd.io/v1"); ("kind", JStr "GitRepository");
    ("metadata", JObj [("name", JStr "pcloud"); ("namespace", JStr infraName)]);
    ("spec", JObj [("interval", JStr "1m0s"); ("url", JStr "https://github.com/giolekva/pcloud"); ("ref", JObj [("branch", JStr "main")])])]).

Definition configureMainRepo {E} `{!RepoIO E} (bootstrap : BootstrapConfig) : go E unit :=
  Do (
    _ ← WriteYaml "bootstrap-config.yaml" (encode_bootstrap bootstrap);
    _ ← WriteYaml "config.yaml" (encode_infra (infra_of bootstrap));
    _ ← WriteYaml "env-cidrs.yaml" (encode_cidrs []);
    let kust := AddResources NewKustomization [bcInfraName bootstrap +:+ "-flux"; "infrastructure"; "environments"] in
    _ ← WriteYaml "kustomization.yaml" (encode_kust kust);
    _ ← write_file "infrastructure/pcloud-charts.yaml" (pcloud_charts (bcInfraName bootstrap));
    let infraKust := AddResources NewKustomization ["pcloud-charts.yaml"] in
    _ ← WriteYaml "infrastructure/kustomization.yaml" (encode_kust infraKust);
    _ ← WriteYaml "environments/kustomization.yaml" (encode_kust NewKustomization);
    mret "initialize pcloud directory structure") false.

(** ** The steps *)

Section Bootstrapper.
Context (infraAddr chartsDir : string).
Context (apps : list App).
(** ssh.ParsePrivateKey, and the rounds a loop is followed for. *)
Context (parse_key : string -> outcome unit) (fuel : nat).
#[local] Instance infra_r : RepoIO taskE := infra_repo infraAddr.

Definition findApp (name : string) : go taskE cueApp := lift (FindInfraApp apps name).

Definition Load (name : string) : task_prog := call (LoadChart (JoinPath [chartsDir; name])).

(** A configuration for a namespace, a chart, and its release. *)
Definition install_chart (configNamespace : string) (rel : helm_release) : task_prog :=
  _ ← call (HelmConfig configNamespace);
  _ ← Load (hrChart rel);
  call (HelmInstall rel).

Definition pool_local := "local".
Definition pool_config_repo := "config-repo".
Definition pool_ingress_public := "ingress-public".

Definition image (repository tag : string) : string * json :=
  ("image", JObj [("repository", JStr repository); ("tag", JStr tag); ("pullPolicy", JStr "IfNotPresent")]).

Definition installMetallbNamespace (env : BootstrapConfig) : task_prog :=
  install_chart (bcInfraName env) (MkHelm (bcInfraName env) false "metallb-ns" false None "namespace"
    (JObj [("namespace", JStr "metallb-system");
           ("labels", JArr [JStr "pod-security.kubernetes.io/audit: privileged"; JStr "pod-security.kubernetes.io/enforce: privileged";
                            JStr "pod-security.kubernetes.io/warn: privileged"])])).

Definition installMetallbService : task_prog :=
  install_chart "metallb-system" (MkHelm "metallb-system" true "metallb" true (Some 20%Z) "metallb"
    (JObj [("controller", JObj [image "quay.io/metallb/controller" "v0.13.12"; ("logLevel", JStr "info")]);
           ("speaker", JObj [image "quay.io/metallb/speaker" "v0.13.12"; ("logLevel", JStr "info")])])).

Definition installMetallbIPAddressPool (name : string) (autoAssign : bool) (from to : bytes) : task_prog :=
  install_chart "metallb-system" (MkHelm "metallb-system" true name false (Some 20%Z) "metallb-ipaddresspool"
    (JObj [("name", JStr name); ("autoAssign", JBool autoAssign); ("from", JStr (addr_string from)); ("to", JStr (addr_string to))])).

Definition installMetallb (env : BootstrapConfig) : task_prog :=
  let ips := bcServiceIPs env in
  _ ← installMetallbNamespace env;
  _ ← installMetallbService;
  _ ← installMetallbIPAddressPool pool_local true (ipFrom ips) (ipTo ips);
  _ ← installMetallbIPAddressPool pool_config_repo false (ipConfigRepo ips) (ipConfigRepo ips);
  installMetallbIPAddressPool pool_ingress_public false (ipIngressPublic ips) (ipIngressPublic ips).

Definition installLonghorn (envName storageDir : string) (volumeDefaultReplicaCount : Z) : task_prog :=
  install_chart envName (MkHelm "longhorn-system" true "longhorn" false (Some 20%Z) "longhorn"
    (JObj [("defaultSettings", JObj [("defaultDataPath", JStr storageDir)]);
           ("persistence", JObj [("defaultClassReplicaCount", JNum volumeDefaultReplicaCount)]);
           ("service", JObj [("ui", JObj [("type", JStr "LoadBalancer")])]);
           ("ingress", JObj [("enabled", JBool false)])])).

Definition installSoftServe (adminPublicKey namespace : string) (repoIP : bytes) : task_prog :=
  keys ← call (Keygen "soft-serve");
  install_chart namespace (MkHelm namespace true "soft-serve" false (Some 20%Z) "soft-serve"
    (JObj [image "charmcli/soft-serve" "v0.7.1"; ("privateKey", JStr (RawPrivateKey keys)); ("publicKey", JStr (RawAuthorizedKey keys));
           ("adminKey", JStr adminPublicKey); ("reservedIP", JStr (addr_string repoIP)); ("serviceType", JStr "LoadBalancer")])).

Definition installFluxBootstrap (repoAddr repoHost : string) (repoHostPubKeys : list string) (privateKey envName : string) : task_prog :=
  install_chart envName (MkHelm envName true "flux" false (Some 20%Z) "flux-bootstrap"
    (JObj [image "fluxcd/flux-cli" "v2.1.2"; ("repositoryAddress", JStr repoAddr); ("repositoryHost", JStr repoHost);
           ("repositoryHostPublicKeys", JStr (Join (map (fun k => repoHost +:+ " " +:+ k) repoHostPubKeys) newline));
           ("privateKey", JStr privateKey); ("installationNamespace", JStr (envName +:+ "-flux"))])).

Definition systems_readme (envName : string) : content := Raw ("# " +:+ envName +:+ " systems") (Err err_json).

Definition installFluxcd (ss : soft_client) (envName : string) : task_prog :=
  keys ← call (Keygen "fluxcd");
  _ ← AddUser ss "flux" (AuthorizedKey keys);
  _ ← MakeUserAdmin ss "flux";
  _ ← AddRepository ss "config";
  _ ← call (Clone ss "config");
  _ ← Do (_ ← write_file "README.md" (systems_readme envName); mret "readme") false;
  ssPublicKeys ← call (SshKeys ss);
  let host := default "" (head (Split (ssAddr ss) ":"%char)) in
  installFluxBootstrap (GetRepoAddress ss "config") host ssPublicKeys (RawPrivateKey keys) envName.

(** Every infrastructure app goes to its slug under /infrastructure. *)
Definition install_infra (env : BootstrapConfig) (name : string) (values : json) : task_prog :=
  app ← findApp name;
  InfraAppManager.Install (InfraRender app) fuel (JoinPath ["/infrastructure"; Slug app])
    (bcInfraName env +:+ "-" +:+ appNamespace app) values.

Definition appsToInstall : list string := ["resource-renderer-controller"; "headscale-controller"; "csi-driver-smb"; "cert-manager"].

Definition installInfrastructureServices (env : BootstrapConfig) : task_prog :=
  foreach (fun name => install_infra env name (JObj [])) appsToInstall.

Definition installEnvManager (ss : soft_client) (env : BootstrapConfig) : task_prog :=
  keys ← call (Keygen "env-manager");
  let user := bcInfraName env +:+ "-env-manager" in
  _ ← AddUser ss user (AuthorizedKey keys);
  _ ← MakeUserAdmin ss user;
  install_infra env "env-manager"
    (JObj [("repoIP", JStr (dotted (ipConfigRepo (bcServiceIPs env)))); ("repoPort", JNum 22); ("repoName", JStr "config");
           ("sshPrivateKey", JStr (RawPrivateKey keys))]).

Definition installIngressPublic (ss : soft_client) (env : BootstrapConfig) : task_prog :=
  keys ← call (Keygen "port-allocator");
  let user := bcInfraName env +:+ "-port-allocator" in
  _ ← AddUser ss user (AuthorizedKey keys);
  _ ← AddReadWriteCollaborator ss "config" user;
  install_infra env "ingress-public" (JObj [("sshPrivateKey", JStr (RawPrivateKey keys))]).

Definition installOryHydraMaester (env : BootstrapConfig) : task_prog := install_infra env "hydra-maester" (JObj []).
Definition installDNSZoneManager (env : BootstrapConfig) : task_prog := install_infra env "dns-gateway" (encode_servers []).
Definition installFluxcdReconciler (env : BootstrapConfig) : task_prog := install_infra env "fluxcd-reconciler" (JObj []).

(** From the cloned repository on. *)
Definition configure (ss : soft_client) (env : BootstrapConfig) : task_prog :=
  _ ← call (Clone ss "config");
  _ ← configureMainRepo env;
  _ ← installInfrastructureServices env;
  _ ← installIngressPublic ss env;
  _ ← installDNSZoneManager env;
  _ ← installFluxcdReconciler env;
  _ ← installEnvManager ss env;
  installOryHydraMaester env.

(** Run.  What the server answers to AddPublicKey and to the deferred
    RemovePublicKey is not looked at: the conditions after the two calls test an
    older error. *)
Definition remove_key (ss : soft_client) (keys : KeyPair) : taskE (outcome unit) :=
  Ssh ss (Join ["user"; "remove-pubkey"; "admin"; AuthorizedKey keys] " ").

Definition with_client (ss : soft_client) (keys : KeyPair) (env : BootstrapConfig) : task_prog :=
  deferred (remove_key ss keys) (
    _ ← ignore_error (AddPublicKey ss "admin" (bcAdminPublicKey env));
    _ ← installFluxcd ss (bcInfraName env);
    configure ss env).

Definition Run (env : BootstrapConfig) : task_prog :=
  _ ← call (TaskNs (bcInfraName env));
  _ ← installMetallb env;
  _ ← installLonghorn (bcInfraName env) (bcStorageDir env) (bcVolumeDefaultReplicaCount env);
  bootstrapJobKeys ← call (Keygen "bootstrapper");
  _ ← installSoftServe (AuthorizedKey bootstrapJobKeys) (bcInfraName env) (ipConfigRepo (bcServiceIPs env));
  _ ← act (Sleep 30%Z);
  ss ← get_client parse_key fuel (addr_port (ipConfigRepo (bcServiceIPs env)) 22) (RawPrivateKey bootstrapJobKeys);
  with_client ss bootstrapJobKeys env.
End Bootstrapper.

(** ** cmd/bootstrap.go *)

(** [netip.ParseAddr] on IPv4 texts. *)
Definition ParseAddr (s : string) : outcome bytes := ip ← ParseIP4 s; addr_of_ip ip.

Definition newServiceIPs (from to : string) : outcome EnvServiceIPs :=
  f ← ParseAddr from;
  t ← ParseAddr to;
  let configRepo := f in
  let ingressPublic := Next configRepo in
  let restFrom := Next ingressPublic in
  Ok (MkServiceIPs configRepo ingressPublic restFrom t).

Fixpoint parse_each (l : list string) : outcome (list string) :=
  match l with
  | [] => Ok []
  | i :: l' =>
      match ParseIP4 i with
      | Ok ip => ret ← parse_each l'; Ok (ip_text ip :: ret)
      | _ => Err (errorf ("invalid ip: " +:+ i))
      end
  end.

Definition parseIPs (ip : string) : outcome (list string) := parse_each (Split ip ","%char).

Record bootstrap_flags := MkFlags {
  fEnvName : string;
  fPublicIP : string;
  fChartsDir : string;
  fAdminPubKey : string;
  fStorageDir : string;
  fReplicas : Z;
  fFromIP : string;
  fToIP : string;
}.

(** The error of parseIPs is not looked at: the addresses are nil then. *)
Definition bootstrap_config (ReadFile : string -> outcome string) (newNSCreator : outcome unit) (fl : bootstrap_flags)
    : outcome BootstrapConfig :=
  adminPubKey ← ReadFile (fAdminPubKey fl);
  _ ← newNSCreator;
  serviceIPs ← newServiceIPs (fFromIP fl) (fToIP fl);
  let publicIPs := match parseIPs (fPublicIP fl) with Ok l => l | _ => [] end in
  Ok (MkBootstrap (fEnvName fl) publicIPs (fEnvName fl +:+ "-") (fStorageDir fl) (fReplicas fl) adminPubKey serviceIPs).

Definition bootstrapCmdRun (infraAddr : string) (CreateAllApps : outcome (list App)) (ReadFile : string -> outcome string)
    (newNSCreator : outcome unit) (parse_key : string -> outcome unit) (fuel : nat) (fl : bootstrap_flags) : task_prog :=
  _ ← lift CreateAllApps;
  envConfig ← lift (bootstrap_config ReadFile newNSCreator fl);
  apps ← lift CreateAllApps;
  Run infraAddr (fChartsDir fl) apps parse_key fuel envConfig.
