(* ===== verification/BootstrapperTheorems.v ===== *)
(** * Theorems on setting up an installation

    A run of the bootstrapper against a cluster and a Git server that work:
    what it leaves in the repository is what creating environments needs. *)
From S2P Require Import Prelude GoLib GoStrings GoBase64 GoNet GoPath RepoIO InstallerTypes AppManager InfraManager AppManagerTheorems InfraManagerTheorems Simulations EnvNetwork EnvServer Derived Rendering CueApps EnvTasks EnvDns Bootstrapper.
From Stdlib Require Import Ascii.
Open Scope string_scope.
Open Scope list_scope.

(** ** A world: the repository, the releases, and what the Git server did *)

Record boot_world := MkBoot {
  bw : world;
  bw_releases : list helm_release;
  bw_commands : list string;
}.

Definition with_bw (w : world) (b : boot_world) : boot_world := MkBoot w (bw_releases b) (bw_commands b).

Definition fresh_clone (w : world) : world :=
  let r := remote (w_repo w) in MkWorld (MkRepo r r r (log (w_repo w)) (ops (w_repo w))) (w_ns w) (w_ports w).

(** Everything works, but the Git server may refuse some commands. *)
Definition boot_step (refused : string -> bool) (keys : string -> KeyPair) : handler taskE boot_world := fun X e b =>
  match e in taskE X return boot_world * X with
  | OnInfra e => let '(w, x) := app_step accepting _ (OnRepo e) (bw b) in (with_bw w b, x)
  | TaskNs n => let '(w, x) := app_step accepting _ (CreateNs n) (bw b) in (with_bw w b, x)
  | OnEnv e => (b, (repo_step (fun _ => None) _ e (w_repo (bw b))).2)
  | TaskPort _ _ => (b, Ok StatusOK)
  | Keygen p => (b, Ok (keys p))
  | Ssh _ cmd => if refused cmd then (b, Err (errorf "refused")) else (MkBoot (bw b) (bw_releases b) (bw_commands b ++ [cmd]), Ok tt)
  | SshKeys _ => (b, Ok [])
  | Clone _ _ => (with_bw (fresh_clone (bw b)) b, Ok tt)
  | Fetch _ => (b, Ok tt)
  | HttpGet _ => (b, Ok StatusOK)
  | Lookup _ => (b, Ok [])
  | HelmConfig _ | LoadChart _ => (b, Ok tt)
  | HelmInstall rel => (MkBoot (bw b) (bw_releases b ++ [rel]) (bw_commands b), Ok tt)
  | Sleep _ | Info _ => (b, tt)
  | Use _ => (b, Panic nil_pointer)
  | Set_ _ _ => (b, tt)
  end.

(** ** The managers over the calls of the tasks *)

Inductive onto : forall X, appE X -> taskE X -> Prop :=
  | onto_repo X (e : repoE X) : onto X (OnRepo e) (OnInfra e)
  | onto_ns n : onto _ (CreateNs n) (TaskNs n).

#[export] Instance infra_sim addr : RepoSim onto (RE := app_repo addr) (RF := infra_repo addr).
Proof. apply repo_in_sim. intros X e. constructor. Qed.

#[export] Instance ns_sim_onto : NsSim onto.
Proof. intros n. apply sim_call. constructor. Qed.

Lemma sim_configureMainRepo addr env :
  sim onto (configureMainRepo (RepoIO0 := app_repo addr) env) (configureMainRepo (RepoIO0 := infra_repo addr) env).
Proof. unfold configureMainRepo, write_file. repeat first [apply sim_WriteYaml | apply infra_sim | sim_step]. Qed.

Section World.
Context (refused : string -> bool) (keys : string -> KeyPair).
Abbreviation step := (boot_step refused keys).

Lemma run_onto {A} (p : go appE A) q b :
  sim onto p q -> run step q b = let '(w, x) := run (app_step accepting) p (bw b) in (with_bw w b, x).
Proof.
  intros Hs. apply (run_sim onto (app_step accepting) step bw with_bw); [|by intros []|done|done|exact Hs].
  intros X e f t He. destruct He; done.
Qed.

(** Steps that go well. *)
Definition goes {A} (p : go taskE A) (b : boot_world) (a : A) (b' : boot_world) : Prop := run step p b = (b', Ok a).

Lemma goes_mbind {A B} (p : go taskE A) (k : A -> go taskE B) b a b1 x b2 :
  goes p b a b1 -> goes (k a) b1 x b2 -> goes (p ≫= k) b x b2.
Proof. unfold goes. intros Hp Hk. by rewrite run_mbind, Hp. Qed.

Lemma goes_ret {A} (a : A) b : goes (mret a) b a b.
Proof. done. Qed.

Lemma goes_onto {A} (p : go appE A) q b w x :
  sim onto p q -> run (app_step accepting) p (bw b) = (w, Ok x) -> goes q b x (with_bw w b).
Proof. intros Hs Hr. unfold goes. by rewrite (run_onto p q b Hs), Hr. Qed.

Definition add_release (rel : helm_release) (b : boot_world) : boot_world := MkBoot (bw b) (bw_releases b ++ [rel]) (bw_commands b).
Definition add_commands (l : list string) (b : boot_world) : boot_world := MkBoot (bw b) (bw_releases b) (bw_commands b ++ l).

Lemma goes_chart chartsDir ns rel b : goes (install_chart chartsDir ns rel) b tt (add_release rel b).
Proof. reflexivity. Qed.

Lemma goes_command c args b : refused (Join args " ") = false -> goes (RunCommand c args) b tt (add_commands [Join args " "] b).
Proof. unfold goes, RunCommand. rewrite run_call. cbn [boot_step]. by intros ->. Qed.

Lemma goes_AddUser c name key b :
  refused (Join ["user"; "create"; name] " ") = false -> refused (Join ["user"; "add-pubkey"; name; key] " ") = false ->
  goes (AddUser c name key) b tt (add_commands [Join ["user"; "create"; name] " "; Join ["user"; "add-pubkey"; name; key] " "] b).
Proof.
  intros H1 H2. unfold AddUser. eapply goes_mbind; [by apply goes_command|]. unfold AddPublicKey.
  unfold goes. rewrite goes_command by done. unfold add_commands. cbn [bw bw_releases bw_commands]. by rewrite <- (assoc_L (++)).
Qed.
End World.

Lemma with_bw_commands l w b : add_commands l (with_bw w b) = with_bw w (add_commands l b).
Proof. done. Qed.

(** ** The repository after the first commits *)

Definition main_kust (env : BootstrapConfig) : Kustomization :=
  AddResources NewKustomization [bcInfraName env +:+ "-flux"; "infrastructure"; "environments"].

Definition main_tree (env : BootstrapConfig) (f : tree) : tree :=
  let f := <[file_key [] "bootstrap-config.yaml" := Doc (encode_bootstrap env)]> f in
  let f := <[file_key [] "config.yaml" := Doc (encode_infra (infra_of env))]> f in
  let f := <[file_key [] "env-cidrs.yaml" := Doc (encode_cidrs [])]> f in
  let f := <[kust_key [] := Doc (encode_kust (main_kust env))]> f in
  let f := <[file_key ["infrastructure"] "pcloud-charts.yaml" := pcloud_charts (bcInfraName env)]> f in
  let f := <[kust_key infra_root := Doc (encode_kust (AddResources NewKustomization ["pcloud-charts.yaml"]))]> f in
  <[kust_key ["environments"] := Doc (encode_kust NewKustomization)]> f.

Lemma does_configureMainRepo addr env w :
  clean (w_repo w) ->
  exists n, run (app_step accepting) (configureMainRepo (RepoIO0 := app_repo addr) env) w =
    (committed (main_tree env (remote (w_repo w))) "initialize pcloud directory structure" n w, Ok tt).
Proof.
  intros Hclean. unfold configureMainRepo. apply run_Do; [done|]. unfold main_tree.
  do 4 (eapply does_mbind; [apply does_WriteYaml|]). eapply does_mbind; [apply does_write|].
  do 2 (eapply does_mbind; [apply does_WriteYaml|]). apply does_ret.
Qed.

(** A repository in which [l] are installed and environments can be created. *)
Record ready (env : BootstrapConfig) (l : list string) (f : tree) : Prop := {
  rd_kusts : kusts_ok f;
  rd_infra : read_doc decode_infra_strict (fs_key "config.yaml") f = Ok (infra_of env);
  rd_cidrs : read_doc decode_cidrs (fs_key "env-cidrs.yaml") f = Ok [];
  rd_envs : read_doc decode_kust (fs_key "environments/kustomization.yaml") f = Ok NewKustomization;
  rd_listed : exists k, read_doc decode_kust (kust_key infra_root) f = Ok k /\ Forall (fun n => n ∈ kResources k) l;
  rd_gateway : "dns-gateway" ∈ l ->
    exists cfg, read_doc decode_infra_app (config_key infra_root "dns-gateway") f = Ok cfg /\ dns_servers (iValues cfg) = Ok [];
}.

(** A checkout of such a repository, with nothing that is not committed. *)
Definition ready_in (env : BootstrapConfig) (l : list string) (w : world) : Prop :=
  clean (w_repo w) /\ ready env l (remote (w_repo w)).

Lemma infra_fields_known c : known_fields infra_fields (encode_infra c) = true.
Proof.
  destruct c as [a b c d]. unfold encode_infra, omit_str, omit_strs. cbn [infraName infraPublicIP InfraNamespacePrefix InfraAdminPublicKey].
  destruct (String.eqb a ""), b, (String.eqb c ""), (String.eqb d ""); reflexivity.
Qed.

Lemma decode_encode_infra_strict c : decode_infra_strict (encode_infra c) = Ok c.
Proof. unfold decode_infra_strict. rewrite infra_fields_known. apply decode_encode_infra. Qed.

Lemma read_doc_put {A} (dec : json -> outcome A) key v f : read_doc dec key (<[key := Doc v]> f) = dec v.
Proof. unfold read_doc. by rewrite lookup_insert_eq. Qed.

Lemma read_doc_skip {A} (dec : json -> outcome A) key key' c f :
  key <> key' -> read_doc dec key (<[key' := c]> f) = read_doc dec key f.
Proof. intros H. apply read_doc_frame. by rewrite lookup_insert_ne. Qed.

Lemma main_tree_ready env f : kusts_ok f -> ready env [] (main_tree env f).
Proof.
  intros Hok. unfold main_tree. constructor.
  - apply kusts_ok_insert, kusts_ok_insert, kusts_ok_put, kusts_ok_insert; [done..|]. by repeat apply kusts_ok_put.
  - do 5 (rewrite read_doc_skip by (vm_compute; discriminate)). change (fs_key "config.yaml") with (file_key [] "config.yaml").
    rewrite read_doc_put. apply decode_encode_infra_strict.
  - do 4 (rewrite read_doc_skip by (vm_compute; discriminate)). change (fs_key "env-cidrs.yaml") with (file_key [] "env-cidrs.yaml").
    by rewrite read_doc_put.
  - change (fs_key "environments/kustomization.yaml") with (kust_key ["environments"]). rewrite read_doc_put. apply decode_encode_kust.
  - eexists. split; [|by constructor]. rewrite read_doc_skip by (vm_compute; discriminate). rewrite read_doc_put. apply decode_encode_kust.
  - by intros ?%not_elem_of_nil.
Qed.

(** *** One more infrastructure app *)

Section Installing.
Context (addr : string) (env : BootstrapConfig) (id : string) (r : InfraAppRendered).
Context (Hid : seg_ok id) (Hidk : id <> "kustomization.yaml").
Context (Hdata : data_ok (irData r)) (Hres : names_ok (irResources r)).

Lemma ready_installed l f :
  ready env l f -> well_formed_infra (irConfig r) ->
  (id = "dns-gateway" -> iValues (irConfig r) = encode_servers []) ->
  ready env (id :: l) (infra_tree id r f).
Proof using Hid Hidk Hdata Hres.
  intros [Hk Hi Hc He (k & Hr & Hl) Hg] Hwf Hdns. constructor.
  - unfold infra_tree. by apply kusts_ok_installed.
  - by apply infra_config_kept.
  - change (fs_key "env-cidrs.yaml") with (abs_path ["env-cidrs.yaml"]). by rewrite infra_top_kept by (done || by split_and!).
  - change (fs_key "environments/kustomization.yaml") with (kust_key ["environments"]).
    rewrite <- He. apply read_doc_frame. apply infra_kust_other; (done || by split_and!).
  - exists (AddResource k id). split; [by apply infra_root_listed|]. constructor; [apply AddResource_elem; by left|].
    eapply Forall_impl; [exact Hl|]. intros n Hn. apply AddResource_elem. by right.
  - intros Hin. destruct (decide (id = "dns-gateway")) as [Heq|Hne].
    + exists (irConfig r). split; [|by rewrite Hdns by done].
      rewrite <- Heq. unfold read_doc, infra_tree. rewrite installed_config by (apply infra_root_ok || done).
      cbn [parsed mbind outcome_bind]. by rewrite decode_encode_infra_app.
    + destruct Hg as (cfg & Hcfg & Hs); [apply elem_of_cons in Hin as [?|?]; [congruence|done]|]. exists cfg. split; [|done].
      rewrite <- Hcfg. apply read_doc_frame, infra_config_other; (done || by split_and! || congruence).
Qed.
End Installing.

(** The gateway that registers zones (EnvDns). *)
Lemma ready_gateway env l f : ready env l f -> "dns-gateway" ∈ l -> gateway (infra_of env) f [].
Proof.
  intros [Hk Hi Hc He (k & Hr & Hl) Hg] Hin. destruct (Hg Hin) as (cfg & Hcfg & Hs). constructor; [done|done|eauto|].
  unfold zones, find_infra_in. rewrite Hr. cbn [mbind outcome_bind]. rewrite decide_True by (rewrite Forall_forall in Hl; by apply Hl).
  rewrite Hcfg. cbn [mbind outcome_bind infra_with_id iValues]. exact Hs.
Qed.

(** ** The run *)

Definition infra_names : list string :=
  ["resource-renderer-controller"; "headscale-controller"; "csi-driver-smb"; "cert-manager"; "ingress-public"; "dns-gateway";
   "fluxcd-reconciler"; "env-manager"; "hydra-maester"].

Lemma infra_names_ok n : n ∈ infra_names -> seg_ok n /\ n <> "kustomization.yaml".
Proof.
  assert (H : Forall (fun n => seg_ok n /\ n <> "kustomization.yaml") infra_names) by by repeat constructor.
  rewrite Forall_forall in H. apply H.
Qed.

(** The apps with the input the bootstrapper gives them. *)
Definition ingress_input (keys : string -> KeyPair) : json :=
  JObj [("sshPrivateKey", JStr (RawPrivateKey (keys "port-allocator")))].

Definition env_manager_input (keys : string -> KeyPair) (env : BootstrapConfig) : json :=
  JObj [("repoIP", JStr (dotted (ipConfigRepo (bcServiceIPs env)))); ("repoPort", JNum 22);
        ("repoName", JStr "config"); ("sshPrivateKey", JStr (RawPrivateKey (keys "env-manager")))].

Definition boot_inputs (keys : string -> KeyPair) (env : BootstrapConfig) : list (string * json) :=
  [("resource-renderer-controller", JObj []); ("headscale-controller", JObj []); ("csi-driver-smb", JObj []);
   ("cert-manager", JObj []); ("ingress-public", ingress_input keys); ("dns-gateway", encode_servers []);
   ("fluxcd-reconciler", JObj []); ("env-manager", env_manager_input keys env); ("hydra-maester", JObj [])].

(** Where the bootstrapper installs an app. *)
Definition boot_release (addr : string) (env : BootstrapConfig) (name : string) (a : cueApp) : Release :=
  MkRelease "" (bcInfraName env +:+ "-" +:+ appNamespace a) addr (abs_path (infra_root ++ [name])).

(** The infrastructure apps are there, and each renders for the release and the
    input it is given. *)
Definition apps_render (addr : string) (keys : string -> KeyPair) (apps : list App) (env : BootstrapConfig) : Prop :=
  Forall (fun nv : string * json => exists a r, FindInfraApp apps nv.1 = Ok a /\
    InfraRender a (boot_release addr env nv.1 a) (infra_of env) nv.2 = Ok r /\
    data_ok (irData r) /\ names_ok (irResources r) /\ json_slice (iHelp (irConfig r)) = Ok (iHelp (irConfig r)))
    (boot_inputs keys env).

Lemma boot_inputs_ok keys env name values : (name, values) ∈ boot_inputs keys env ->
  name ∈ infra_names /\ json_map values = Ok values /\ (name = "dns-gateway" -> values = encode_servers []).
Proof.
  intros Hin. assert (H : Forall (fun nv : string * json => nv.1 ∈ infra_names /\ json_map nv.2 = Ok nv.2 /\
    (nv.1 = "dns-gateway" -> nv.2 = encode_servers [])) (boot_inputs keys env)); [|rewrite Forall_forall in H; by apply (H (name, values))].
  unfold boot_inputs. repeat (apply Forall_cons; split;
    [cbn [fst snd]; split; [apply (bool_decide_unpack _); by vm_compute|by split]|]). constructor.
Qed.

Lemma FindInfraApp_slug apps name a : FindInfraApp apps name = Ok a -> Slug a = name.
Proof.
  unfold FindInfraApp. destruct (Find apps name) as [[b|b]| | |] eqn:Hf; cbn [mbind outcome_bind]; try done.
  intros [= ->]. by apply Find_first in Hf as (? & ? & _ & H & _).
Qed.

(** What the Git server is asked, after the key of the administrator. *)
Definition admin_command (env : BootstrapConfig) : string := Join ["user"; "add-pubkey"; "admin"; bcAdminPublicKey env] " ".

Definition flux_commands (keys : string -> KeyPair) : list string :=
  [Join ["user"; "create"; "flux"] " "; Join ["user"; "add-pubkey"; "flux"; AuthorizedKey (keys "fluxcd")] " ";
   Join ["user"; "set-admin"; "flux"; "true"] " "; Join ["repo"; "create"; "config"] " "].

Definition user_commands (keys : string -> KeyPair) (env : BootstrapConfig) : list string :=
  let port_allocator := bcInfraName env +:+ "-port-allocator" in
  let env_manager := bcInfraName env +:+ "-env-manager" in
  [Join ["user"; "create"; port_allocator] " "; Join ["user"; "add-pubkey"; port_allocator; AuthorizedKey (keys "port-allocator")] " ";
   Join ["repo"; "collab"; "add"; "config"; port_allocator; "read-write"] " ";
   Join ["user"; "create"; env_manager] " "; Join ["user"; "add-pubkey"; env_manager; AuthorizedKey (keys "env-manager")] " ";
   Join ["user"; "set-admin"; env_manager; "true"] " "].

Definition remove_command (keys : string -> KeyPair) : string :=
  Join ["user"; "remove-pubkey"; "admin"; AuthorizedKey (keys "bootstrapper")] " ".

Ltac in_list := repeat first [apply list_elem_of_here | apply list_elem_of_further].

Section Running.
Context (refused : string -> bool) (keys : string -> KeyPair).
Context (addr chartsDir : string) (apps : list App) (parse_key : string -> outcome unit) (fuel : nat) (env : BootstrapConfig).
Context (Hfuel : 2 < fuel) (Hkey : parse_key (RawPrivateKey (keys "bootstrapper")) = Ok tt).
Context (Happs : apps_render addr keys apps env).
Context (Haccept : Forall (fun cmd => refused cmd = false) (flux_commands keys ++ user_commands keys env ++ [remove_command keys])).

Abbreviation goes := (goes refused keys).
Abbreviation tree_of b := (remote (w_repo (bw b))).

Lemma accepted cmd : cmd ∈ flux_commands keys ++ user_commands keys env ++ [remove_command keys] -> refused cmd = false.
Proof using Haccept. rewrite Forall_forall in Haccept. apply Haccept. Qed.

Lemma goes_install name values l b :
  (name, values) ∈ boot_inputs keys env -> ready_in env l (bw b) ->
  exists w, goes (install_infra addr apps fuel env name values) b tt (with_bw w b) /\ ready_in env (name :: l) w.
Proof using Hfuel Happs.
  intros Hin Hr. destruct (boot_inputs_ok _ _ _ _ Hin) as (Hname & Hmap & Hdns). destruct (infra_names_ok name Hname) as [Hseg Hk].
  unfold apps_render in Happs. rewrite Forall_forall in Happs. destruct (Happs (name, values) Hin) as (a & r & Hfind & HR & Hd & Hn & Hh).
  cbn [fst snd] in Hfind, HR. pose proof (FindInfraApp_slug _ _ _ Hfind) as Hslug.
  set (ns := bcInfraName env +:+ "-" +:+ appNamespace a). unfold boot_release in HR. fold ns in HR.
  pose proof (InfraRender_config _ _ _ _ _ HR) as (Hv & Hi & _).
  destruct (run_infra_Install addr accepting name fuel (infra_of env) r (InfraRender a) Hseg Hk Hfuel Hd Hn ns values (bw b))
    as [n Hrun]; [apply Hr|apply Hr|done|apply Hr|done|].
  eexists. split.
  - unfold install_infra, findApp. eapply goes_mbind; [unfold BootstrapperTheorems.goes; cbn [run lift]; by rewrite Hfind|].
    rewrite Hslug. change "/infrastructure" with (abs_path infra_root).
    rewrite JoinPath_abs by by apply Forall_snoc; [apply infra_root_ok|].
    eapply goes_onto; [|exact Hrun]. apply sim_infra_Install; [apply infra_sim|apply ns_sim_onto].
  - split; [done|]. destruct Hr as [_ Hr]. cbn [committed w_repo remote]. apply ready_installed; [done..| |by rewrite Hv].
    split; [by rewrite Hv|]. split; [by rewrite Hi|done].
Qed.

Lemma add_commands_app l l' b : add_commands l' (add_commands l b) = add_commands (l ++ l') b.
Proof. unfold add_commands. cbn [bw bw_releases bw_commands]. by rewrite (assoc_L (++)). Qed.

Lemma goes_add_user c name key b :
  Join ["user"; "create"; name] " " ∈ user_commands keys env -> Join ["user"; "add-pubkey"; name; key] " " ∈ user_commands keys env ->
  goes (AddUser c name key) b tt (add_commands [Join ["user"; "create"; name] " "; Join ["user"; "add-pubkey"; name; key] " "] b).
Proof using Haccept. intros H1 H2. apply goes_AddUser; apply accepted, elem_of_app; right; apply elem_of_app; by left. Qed.

Lemma goes_user_command c args b :
  Join args " " ∈ user_commands keys env -> goes (RunCommand c args) b tt (add_commands [Join args " "] b).
Proof using Haccept. intros H. apply goes_command, accepted, elem_of_app. right. apply elem_of_app. by left. Qed.

Ltac in_commands := unfold user_commands; in_list.

(** The four services, one after the other. *)
Lemma goes_services l b :
  ready_in env l (bw b) ->
  exists w, goes (installInfrastructureServices addr apps fuel env) b tt (with_bw w b) /\
    ready_in env (["cert-manager"; "csi-driver-smb"; "headscale-controller"; "resource-renderer-controller"] ++ l) w.
Proof using Hfuel Happs.
  assert (Hall : forall names b l, Forall (fun n => (n, JObj []) ∈ boot_inputs keys env) names -> ready_in env l (bw b) ->
    exists w, goes (foreach (fun name => install_infra addr apps fuel env name (JObj [])) names) b tt (with_bw w b) /\
      ready_in env (reverse names ++ l) w).
  { induction names as [|n names IH]; intros c l' Hn Hr.
    - exists (bw c). by destruct c.
    - apply Forall_cons in Hn as [Hin Hn]. destruct (goes_install n (JObj []) l' c Hin Hr) as (w1 & H1 & Hr1).
      destruct (IH (with_bw w1 c) (n :: l') Hn Hr1) as (w2 & H2 & Hr2). exists w2. split.
      + cbn [foreach]. eapply goes_mbind; [exact H1|exact H2].
      + by rewrite reverse_cons, <- (assoc_L (++)). }
  intros Hr. apply (Hall appsToInstall b l); [|done].
  unfold appsToInstall. repeat (apply Forall_cons; split; [unfold boot_inputs; in_list|]). constructor.
Qed.

Lemma goes_ingress ss l b :
  ready_in env l (bw b) ->
  exists w, goes (installIngressPublic addr apps fuel ss env) b tt (with_bw w (add_commands (take 3 (user_commands keys env)) b)) /\
    ready_in env ("ingress-public" :: l) w.
Proof using Hfuel Happs Haccept.
  intros Hr. unfold installIngressPublic.
  set (b1 := add_commands (take 3 (user_commands keys env)) b).
  destruct (goes_install "ingress-public" (ingress_input keys) l b1) as (w & Hw & Hr'); [unfold boot_inputs; in_list|done|].
  exists w. split; [|done]. eapply goes_mbind; [reflexivity|]. eapply goes_mbind; [apply goes_add_user; in_commands|].
  eapply goes_mbind; [apply goes_user_command; in_commands|]. rewrite add_commands_app. exact Hw.
Qed.

Lemma goes_env_manager ss l b :
  ready_in env l (bw b) ->
  exists w, goes (installEnvManager addr apps fuel ss env) b tt (with_bw w (add_commands (drop 3 (user_commands keys env)) b)) /\
    ready_in env ("env-manager" :: l) w.
Proof using Hfuel Happs Haccept.
  intros Hr. unfold installEnvManager.
  set (b1 := add_commands (drop 3 (user_commands keys env)) b).
  destruct (goes_install "env-manager" (env_manager_input keys env) l b1) as (w & Hw & Hr'); [unfold boot_inputs; in_list|done|].
  exists w. split; [|done]. eapply goes_mbind; [reflexivity|]. eapply goes_mbind; [apply goes_add_user; in_commands|].
  eapply goes_mbind; [apply goes_user_command; in_commands|]. rewrite add_commands_app. exact Hw.
Qed.

Lemma goes_configure ss b :
  kusts_ok (tree_of b) ->
  exists w, goes (configure addr apps fuel ss env) b tt (with_bw w (add_commands (user_commands keys env) b)) /\
    ready_in env (reverse ["resource-renderer-controller"; "headscale-controller"; "csi-driver-smb"; "cert-manager"; "ingress-public";
      "dns-gateway"; "fluxcd-reconciler"; "env-manager"; "hydra-maester"]) w.
Proof using Hfuel Happs Haccept.
  intros Hok. unfold configure.
  destruct (does_configureMainRepo addr env (fresh_clone (bw b)) eq_refl) as [n Hn].
  set (w1 := committed _ _ n _) in Hn. set (b0 := with_bw (fresh_clone (bw b)) b).
  assert (H1 : goes (configureMainRepo (RepoIO0 := infra_repo addr) env) b0 tt (with_bw w1 b0)).
  { eapply goes_onto; [apply sim_configureMainRepo|exact Hn]. }
  destruct (goes_services [] (with_bw w1 b0)) as (w2 & H2 & R2); [by split; [|apply main_tree_ready]|].
  destruct (goes_ingress ss _ (with_bw w2 (with_bw w1 b0)) R2) as (w3 & H3 & R3).
  destruct (goes_install "dns-gateway" (encode_servers []) _ (with_bw w3 (add_commands (take 3 (user_commands keys env)) b))
    ltac:(unfold boot_inputs; in_list) R3) as (w4 & H4 & R4).
  destruct (goes_install "fluxcd-reconciler" (JObj []) _ (with_bw w4 (add_commands (take 3 (user_commands keys env)) b))
    ltac:(unfold boot_inputs; in_list) R4) as (w5 & H5 & R5).
  destruct (goes_env_manager ss _ (with_bw w5 (add_commands (take 3 (user_commands keys env)) b)) R5) as (w6 & H6 & R6).
  destruct (goes_install "hydra-maester" (JObj []) _ (with_bw w6 (add_commands (user_commands keys env) b))
    ltac:(unfold boot_inputs; in_list) R6) as (w7 & H7 & R7).
  exists w7. split; [|exact R7].
  eapply goes_mbind; [reflexivity|]. eapply goes_mbind; [exact H1|]. eapply goes_mbind; [exact H2|].
  eapply goes_mbind; [exact H3|]. eapply goes_mbind; [exact H4|]. eapply goes_mbind; [exact H5|].
  eapply goes_mbind; [exact H6|].
  assert (He : add_commands (drop 3 (user_commands keys env)) (with_bw w5 (add_commands (take 3 (user_commands keys env)) b)) =
    with_bw w5 (add_commands (user_commands keys env) b)).
  { rewrite with_bw_commands, add_commands_app. by rewrite take_drop. }
  rewrite He. exact H7.
Qed.

Definition readme_tree (f : tree) : tree := <[file_key [] "README.md" := systems_readme (bcInfraName env)]> f.

Lemma goes_readme b :
  clean (w_repo (bw b)) ->
  exists w, goes (@Do _ (infra_repo addr) (_ ← write_file (RepoIO0 := infra_repo addr) "README.md" (systems_readme (bcInfraName env)); mret "readme") false)
      b tt (with_bw w b) /\ remote (w_repo w) = readme_tree (tree_of b).
Proof.
  intros Hclean. destruct (run_Do addr accepting (_ ← write_file (RepoIO0 := app_repo addr) "README.md" (systems_readme (bcInfraName env)); mret "readme")
    "readme" (readme_tree (tree_of b)) (bw b) Hclean) as [n Hn].
  { eapply does_mbind; [apply does_write|apply does_ret]. }
  eexists. split; [|shelve]. eapply goes_onto; [|exact Hn]. unfold write_file. repeat first [apply infra_sim | sim_step].
  Unshelve. done.
Qed.

Definition flux_release (ss : soft_client) : helm_release :=
  MkHelm (bcInfraName env) true "flux" false (Some 20%Z) "flux-bootstrap"
    (JObj [image "fluxcd/flux-cli" "v2.1.2"; ("repositoryAddress", JStr (GetRepoAddress ss "config"));
           ("repositoryHost", JStr (default "" (head (Split (ssAddr ss) ":"%char)))); ("repositoryHostPublicKeys", JStr "");
           ("privateKey", JStr (RawPrivateKey (keys "fluxcd"))); ("installationNamespace", JStr (bcInfraName env +:+ "-flux"))]).

Lemma goes_flux ss b :
  kusts_ok (tree_of b) ->
  exists w, goes (installFluxcd addr chartsDir ss (bcInfraName env)) b tt
      (add_release (flux_release ss) (with_bw w (add_commands (flux_commands keys) b))) /\ kusts_ok (remote (w_repo w)).
Proof using Haccept.
  intros Hok. unfold installFluxcd.
  assert (Hc : forall cmd, cmd ∈ flux_commands keys -> refused cmd = false).
  { intros cmd Hin. apply accepted, elem_of_app. by left. }
  set (b1 := add_commands (flux_commands keys) b).
  destruct (goes_readme (with_bw (fresh_clone (bw b1)) b1) eq_refl) as (w & Hw & Ht).
  exists w. split.
  - eapply goes_mbind; [reflexivity|].
    eapply goes_mbind; [apply goes_AddUser; apply Hc; unfold flux_commands; in_list|].
    eapply goes_mbind; [apply goes_command, Hc; unfold flux_commands; in_list|]. rewrite add_commands_app.
    eapply goes_mbind; [apply goes_command, Hc; unfold flux_commands; in_list|]. rewrite add_commands_app.
    eapply goes_mbind; [reflexivity|]. eapply goes_mbind; [exact Hw|]. eapply goes_mbind; [reflexivity|]. reflexivity.
  - rewrite Ht. unfold readme_tree. by apply kusts_ok_put.
Qed.

(** What the administrator's key comes to. *)
Definition admin_added : list string := if refused (admin_command env) then [] else [admin_command env].

Lemma goes_client ss b :
  kusts_ok (tree_of b) ->
  exists w, goes (with_client addr chartsDir apps fuel ss (keys "bootstrapper") env) b tt
      (add_release (flux_release ss) (with_bw w (add_commands (admin_added ++ flux_commands keys ++ user_commands keys env ++ [remove_command keys]) b)))
    /\ ready_in env (reverse infra_names) w.
Proof using Hfuel Happs Haccept.
  intros Hok. unfold with_client.
  set (b0 := add_commands admin_added b).
  assert (H0 : goes (ignore_error (AddPublicKey ss "admin" (bcAdminPublicKey env))) b tt b0).
  { unfold BootstrapperTheorems.goes, ignore_error, b0, admin_added, AddPublicKey, RunCommand. rewrite run_handle, run_call. cbn [boot_step].
    fold (admin_command env). destruct (refused (admin_command env)); [|done].
    unfold add_commands. rewrite (right_id_L [] (++)). by destruct b. }
  destruct (goes_flux ss b0 Hok) as (w1 & H1 & Hk1).
  set (b1 := add_release _ _) in H1.
  destruct (goes_configure ss b1 Hk1) as (w2 & H2 & R2).
  exists w2. split; [|exact R2]. unfold BootstrapperTheorems.goes. rewrite run_deferred.
  assert (H : goes (_ ← ignore_error (AddPublicKey ss "admin" (bcAdminPublicKey env));
    _ ← installFluxcd addr chartsDir ss (bcInfraName env); configure addr apps fuel ss env) b tt
    (with_bw w2 (add_commands (user_commands keys env) b1))).
  { eapply goes_mbind; [exact H0|]. eapply goes_mbind; [exact H1|]. exact H2. }
  unfold BootstrapperTheorems.goes in H. rewrite H. unfold remove_key. cbn [boot_step].
  fold (remove_command keys). rewrite accepted by (apply elem_of_app; right; apply elem_of_app; right; by left).
  cbn [fst]. unfold b1, b0, with_bw, add_release, add_commands. cbn [bw bw_releases bw_commands].
  by rewrite !(assoc_L (++)).
Qed.

(** The charts, in the order they are installed. *)
Definition early_releases : list string :=
  ["metallb-ns"; "metallb"; "local"; "config-repo"; "ingress-public"; "longhorn"; "soft-serve"; "flux"].

Lemma goes_Run b :
  kusts_ok (tree_of b) ->
  exists b', goes (Run addr chartsDir apps parse_key fuel env) b tt b' /\
    ready_in env (reverse infra_names) (bw b') /\
    map hrName (bw_releases b') = map hrName (bw_releases b) ++ early_releases /\
    bw_commands b' = bw_commands b ++ admin_added ++ flux_commands keys ++ user_commands keys env ++ [remove_command keys].
Proof using Hfuel Hkey Happs Haccept.
  intros Hok. unfold Run.
  set (ss := MkSoft (addr_port (ipConfigRepo (bcServiceIPs env)) 22) (RawPrivateKey (keys "bootstrapper"))).
  edestruct (goes_client ss) as (w & Hw & Hr); [|eexists; split].
  2: {
    eapply goes_mbind; [reflexivity|]. eapply goes_mbind; [reflexivity|]. eapply goes_mbind; [reflexivity|].
    eapply goes_mbind; [reflexivity|]. eapply goes_mbind; [reflexivity|]. eapply goes_mbind; [reflexivity|].
    eapply goes_mbind.
    - destruct fuel as [|n]; [lia|]. unfold BootstrapperTheorems.goes. cbn [get_client]. rewrite run_handle, run_mbind. cbn [run lift].
      rewrite Hkey. rewrite run_call. reflexivity.
    - exact Hw. }
  - cbn [bw]. exact Hok.
  - split; [exact Hr|]. split; [|reflexivity]. cbn [add_release with_bw add_commands bw_releases]. rewrite !map_app. by rewrite <- !(assoc_L (++)).
Qed.
End Running.

(** ** The theorems *)

(** The addresses of the first environment of an installation. *)
Definition first_network : EnvNetwork := MkEnvNetwork "10.0.1.1" "10.44.0.1" "10.0.1.2" "10.0.1.3" "10.0.1.10" "10.0.1.254".

Lemma read_doc_some {A} (dec : json -> outcome A) key f x :
  read_doc dec key f = Ok x -> exists c, f !! key = Some c /\ (v ← parsed c; dec v) = Ok x.
Proof. unfold read_doc. destruct (f !! key) as [c|]; [eauto|done]. Qed.

(** The first request for an environment on a repository that is ready. *)
Lemma first_createEnv env l f names fuel m r body req h lg n d st :
  ready env l f -> extractRequest r body = Ok req ->
  exists w m', run (env_step names) (createEnv (S fuel) m r body) (MkEnvWorld (MkRepo h h f lg n) d st) =
      (w, Ok (m', Redirect ("/env/" +:+ names (S d)) StatusSeeOther)) /\
    ew_started w = st ++ [(names (S d), new_env (infra_of env) req (names d) first_network)].
Proof.
  intros Hr Hreq.
  destruct (read_doc_some _ _ _ _ (rd_infra _ _ _ Hr)) as (c1 & Hc1 & Hi).
  destruct (read_doc_some _ _ _ _ (rd_cidrs _ _ _ Hr)) as (c2 & Hc2 & Hc).
  destruct (createEnv_reads names (S fuel) m r body req (infra_of env) [] c1 c2 h f lg n d st Hreq Hc1 Hi Hc2 Hc) as [k Hreach].
  apply reaches_run in Hreach.
  destruct (run_allocate names fuel m (infra_of env) req (names d) [] (subnet_ip 1) first_network f lg k (S d) st
    eq_refl eq_refl) as (n' & m' & Ha).
  rewrite Ha in Hreach. do 2 eexists. split; [exact Hreach|]. done.
Qed.

Section Theorems.
Context (refused : string -> bool) (keys : string -> KeyPair).
Context (addr chartsDir : string) (apps : list App) (parse_key : string -> outcome unit) (fuel : nat) (env : BootstrapConfig) (b : boot_world).

(** C30. Bootstrapping leaves an installation that can create environments: when
    the cluster and the Git server do what they are asked and each infrastructure
    app renders for the release and the input Run gives it, Run succeeds, installs its eight charts in order and the nine
    apps, the DNS gateway serves no zone yet, and the first request for an
    environment succeeds and gets the first network. *)
Theorem bootstrap_ready
    (Hfuel : 2 < fuel) (Hkey : parse_key (RawPrivateKey (keys "bootstrapper")) = Ok tt)
    (Happs : apps_render addr keys apps env)
    (Haccept : Forall (fun cmd => refused cmd = false) (flux_commands keys ++ user_commands keys env ++ [remove_command keys]))
    (Hok : kusts_ok (remote (w_repo (bw b)))) :
  exists b', run (boot_step refused keys) (Run addr chartsDir apps parse_key fuel env) b = (b', Ok tt) /\
    map hrName (bw_releases b') = map hrName (bw_releases b) ++ early_releases /\
    gateway (infra_of env) (remote (w_repo (bw b'))) [] /\
    (exists k, read_doc decode_kust (kust_key infra_root) (remote (w_repo (bw b'))) = Ok k /\
       forall n, n ∈ infra_names -> n ∈ kResources k) /\
    forall names env_fuel m r body req h lg n d st, extractRequest r body = Ok req ->
      exists w m', run (env_step names) (createEnv (S env_fuel) m r body) (MkEnvWorld (MkRepo h h (remote (w_repo (bw b'))) lg n) d st) =
          (w, Ok (m', Redirect ("/env/" +:+ names (S d)) StatusSeeOther)) /\
        ew_started w = st ++ [(names (S d), new_env (infra_of env) req (names d) first_network)].
Proof.
  destruct (goes_Run refused keys addr chartsDir apps parse_key fuel env Hfuel Hkey Happs Haccept b Hok) as (b' & Hrun & [_ Hr] & Hrel & _).
  exists b'. split; [exact Hrun|]. split; [exact Hrel|]. split.
  { eapply ready_gateway; [exact Hr|]. apply elem_of_reverse. unfold infra_names. in_list. }
  split.
  - destruct (rd_listed _ _ _ Hr) as (k & Hk & Hl). exists k. split; [done|]. intros n Hn.
    rewrite Forall_forall in Hl. by apply Hl, elem_of_reverse.
  - intros. by eapply first_createEnv.
Qed.

(** The administrator is locked out in silence: when the Git server refuses
    the administrator's key, Run still succeeds, and the only key that could
    have repaired it, its own, is removed at the end; no other command concerns
    the account of the administrator. *)
Theorem refused_admin_locked_out
    (Hfuel : 2 < fuel) (Hkey : parse_key (RawPrivateKey (keys "bootstrapper")) = Ok tt)
    (Happs : apps_render addr keys apps env)
    (Haccept : Forall (fun cmd => refused cmd = false) (flux_commands keys ++ user_commands keys env ++ [remove_command keys]))
    (Hadmin : refused (admin_command env) = true)
    (Hok : kusts_ok (remote (w_repo (bw b)))) :
  exists b', run (boot_step refused keys) (Run addr chartsDir apps parse_key fuel env) b = (b', Ok tt) /\
    bw_commands b' = bw_commands b ++ flux_commands keys ++ user_commands keys env ++ [remove_command keys].
Proof.
  destruct (goes_Run refused keys addr chartsDir apps parse_key fuel env Hfuel Hkey Happs Haccept b Hok) as (b' & Hrun & _ & _ & Hc).
  exists b'. split; [exact Hrun|]. rewrite Hc. unfold admin_added. by rewrite Hadmin.
Qed.
End Theorems.

(** ** The theorems at concrete inputs *)

(** Apps that ask for the input the apps of the repository ask for, and are
    incomplete without it. *)
Definition demo_input (name : string) : list (string * (json -> bool)) :=
  let is_string v := match v with JStr _ => true | _ => false end in
  let is_number v := match v with JNum _ => true | _ => false end in
  let is_list v := match v with JArr _ => true | _ => false end in
  if String.eqb name "ingress-public" then [("sshPrivateKey", is_string)]
  else if String.eqb name "dns-gateway" then [("servers", is_list)]
  else if String.eqb name "env-manager" then
    [("repoIP", is_string); ("repoPort", is_number); ("repoName", is_string); ("sshPrivateKey", is_string)]
  else [].

Definition demo_eval (name : string) (d : json) : outcome cue_value :=
  let given k (ok : json -> bool) := match d with
    | JObj fs => match get_field "input" fs with
                 | Some (JObj gs) => match get_field k gs with Some v => ok v | None => false end
                 | _ => false
                 end
    | _ => false
    end in
  if forallb (fun kv => given kv.1 kv.2) (demo_input name)
  then Ok (MkCue (Ok (Doc d)) (Ok "") (Ok []) (Ok []) None (Ok "") (Ok ""))
  else Err (errorf "incomplete value").

Definition demo_cue_app (name : string) : App :=
  CueInfraApp (MkCueApp name "" "" "ns" (structSchema "input" [] false) [] (demo_eval name)).

Definition demo_apps : list App := map demo_cue_app infra_names.

Example demo_app_incomplete infra rel : InfraRender
  (MkCueApp "env-manager" "" "" "ns" (structSchema "input" [] false) [] (demo_eval "env-manager")) rel infra (JObj []) = Err (errorf "incomplete value").
Proof. reflexivity. Qed.

Definition demo_bootstrap : BootstrapConfig :=
  MkBootstrap "dodo" ["1.2.3.4"] "dodo-" "/data" 3 "ssh-ed25519 admin"
    (MkServiceIPs [192; 168; 0; 1]%Z [192; 168; 0; 2]%Z [192; 168; 0; 3]%Z [192; 168; 0; 10]%Z).

Definition demo_keys (path : string) : KeyPair := MkKeys ("private " +:+ path) ("public " +:+ path) ("public " +:+ path).

Lemma demo_apps_render addr : apps_render addr demo_keys demo_apps demo_bootstrap.
Proof.
  assert (Hd : forall v, data_ok [("rendered.json", Doc v)]).
  { intros v. split_and!; [by repeat constructor|apply NoDup_singleton|]. by intros n ->%list_elem_of_singleton. }
  unfold apps_render, boot_inputs. repeat (apply Forall_cons; split;
    [eexists _, _; split; [vm_compute; reflexivity|]; split; [reflexivity|]; split; [apply Hd|by split; [constructor|]]|]). constructor.
Qed.

Definition empty_boot : boot_world := MkBoot (MkWorld (MkRepo ∅ ∅ ∅ [] 0) [] []) [] [].

Lemma bootstrap_ready_witness :
  exists b', run (boot_step (fun _ => false) demo_keys) (Run "ssh://repo" "/charts" demo_apps (fun _ => Ok tt) 3 demo_bootstrap) empty_boot
      = (b', Ok tt) /\ map hrName (bw_releases b') = early_releases /\
    exists w m', run (env_step Itoa_name) (createEnv 1 (MkMaps ∅ ∅ ∅ ∅) (demo_form "a.io") (Err (errorf "EOF")))
        (MkEnvWorld (MkRepo ∅ ∅ (remote (w_repo (bw b'))) [] 0) 0 []) = (w, Ok (m', Redirect "/env/env1" 303%Z)).
Proof.
  destruct (bootstrap_ready (fun _ => false) demo_keys "ssh://repo" "/charts" demo_apps (fun _ => Ok tt) 3 demo_bootstrap empty_boot
    ltac:(lia) eq_refl (demo_apps_render _) ltac:(by apply Forall_true) kusts_ok_empty) as (b' & Hrun & Hrel & _ & _ & Henv).
  exists b'. split; [exact Hrun|]. split; [exact Hrel|].
  destruct (Henv Itoa_name 0 (MkMaps ∅ ∅ ∅ ∅) (demo_form "a.io") (Err (errorf "EOF")) (MkEnvReq "" "a@b" "a.io" "ssh" "t") ∅ [] 0 0 []
    ltac:(vm_compute; reflexivity)) as (w & m' & H & _).
  exists w, m'. exact H.
Defined.

Lemma refused_admin_locked_out_witness :
  exists b', run (boot_step (String.eqb (admin_command demo_bootstrap)) demo_keys)
      (Run "ssh://repo" "/charts" demo_apps (fun _ => Ok tt) 3 demo_bootstrap) empty_boot = (b', Ok tt) /\
    last (bw_commands b') = Some "user remove-pubkey admin public bootstrapper".
Proof.
  destruct (refused_admin_locked_out (String.eqb (admin_command demo_bootstrap)) demo_keys "ssh://repo" "/charts" demo_apps (fun _ => Ok tt) 3
    demo_bootstrap empty_boot ltac:(lia) eq_refl (demo_apps_render _) ltac:(repeat constructor) ltac:(apply String.eqb_refl) kusts_ok_empty)
    as (b' & Hrun & Hc).
  exists b'. split; [exact Hrun|]. by rewrite Hc.
Defined.
