(* ===== verification/NebulaCert.v ===== *)
(** * Certificates of the mesh (core/nebula/api/nebula.go)

    Making a certificate authority and signing the certificate of a node.  The
    certificate library and the curves are parameters; what they are documented
    to do is stated in [CertLaws]. *)
From S2P Require Import Prelude GoLib GoStrings GoNet.
From Stdlib Require Import Ascii.
Open Scope string_scope.
Open Scope list_scope.

(** Times in nanoseconds. *)
Definition Second : Z := 1000000000%Z.
Definition Hour : Z := (3600 * Second)%Z.

(** cert.NebulaCertificateDetails, with the fields the source sets. *)
Record NebulaCertificateDetails := MkDetails {
  certName : string;
  certIps : list IPNet;
  NotBefore : Z;
  NotAfter : Z;
  certPublicKey : string;
  IsCA : bool;
  Issuer : string;
}.

Record NebulaCertificate := MkCertificate { Details : NebulaCertificateDetails; Signature : string }.

(** The library github.com/slackhq/nebula/cert and curve25519. *)
Class CertLib := {
  UnmarshalEd25519PrivateKey : string -> outcome string;
  MarshalEd25519PrivateKey : string -> string;
  UnmarshalX25519PublicKey : string -> outcome string;
  MarshalX25519PrivateKey : string -> string;
  UnmarshalNebulaCertificateFromPEM : string -> outcome NebulaCertificate;
  MarshalToPEM : NebulaCertificate -> outcome string;
  VerifyPrivateKey : NebulaCertificate -> string -> outcome unit;
  Sha256Sum : NebulaCertificate -> outcome string;
  Expired : NebulaCertificate -> Z -> bool;
  CheckRootConstrains : NebulaCertificate -> NebulaCertificate -> outcome unit;
  SignWith : NebulaCertificate -> string -> outcome NebulaCertificate;   (* nc.Sign(key) *)
  ScalarBaseMult : string -> string;
}.

(** The clock and the random numbers. *)
Class Entropy (E : Type -> Type) := {
  Now : go E Z;
  GenerateKey : go E (string * string);   (* ed25519: public, private *)
  ReadRandom : nat -> go E string;        (* io.ReadFull(rand.Reader, _) *)
}.

Record CertificateAuthority := MkAuthority { caPrivateKey : string; caCertificate : string }.

(** The private key is nil when the node keeps its own. *)
Record NebulaNodeCert := MkNodeCert { nodePrivateKey : option string; nodeCertificate : string }.

Section Certificates.
Context `{!CertLib} {E : Type -> Type} `{!Entropy E}.

Definition CreateCertificateAuthority (name : string) : go E CertificateAuthority :=
  now ← Now;
  let t := (now - Second)%Z in
  keys ← GenerateKey;
  let nc := MkCertificate (MkDetails name [] t (t + 8760 * Hour)%Z keys.1 true "") "" in
  nc ← lift (SignWith nc keys.2);
  certSerialized ← lift (MarshalToPEM nc);
  mret (MkAuthority (MarshalEd25519PrivateKey keys.2) certSerialized).

Definition x25519Keypair : go E (string * string) :=
  privkey ← ReadRandom 32;
  mret (ScalarBaseMult privkey, privkey).

(** The public key of the node: the one it sent, or a new one. *)
Definition node_keys (nodePublicKey : option string) : go E (string * option string) :=
  match nodePublicKey with
  | Some k => pub ← lift (UnmarshalX25519PublicKey k); mret (pub, None)
  | None => keys ← x25519Keypair; mret (keys.1, Some (MarshalX25519PrivateKey keys.2))
  end.

Definition SignNebulaNode (rawCAPrivateKey rawCACert nodeName : string) (nodePublicKey : option string) (ip : IPNet) :
    go E NebulaNodeCert :=
  caKey ← lift (UnmarshalEd25519PrivateKey rawCAPrivateKey);
  caCert ← lift (UnmarshalNebulaCertificateFromPEM rawCACert);
  _ ← lift (VerifyPrivateKey caCert caKey);
  issuer ← lift (Sha256Sum caCert);
  now ← Now;
  if Expired caCert now then fail (errorf "ca certificate is expired")
  else
    keys ← node_keys nodePublicKey;
    now' ← Now;
    let t := (now' - Second)%Z in
    let nc := MkCertificate (MkDetails nodeName [ip] t (NotAfter (Details caCert) - Second)%Z keys.1 false issuer) "" in
    _ ← lift (CheckRootConstrains nc caCert);
    nc ← lift (SignWith nc caKey);
    certSerialized ← lift (MarshalToPEM nc);
    mret (MkNodeCert keys.2 certSerialized).
End Certificates.

(** ** What the library promises *)

(** PEM keeps times in whole seconds. *)
Definition whole_seconds (t : Z) : Z := (t / Second * Second)%Z.

Definition stored (c : NebulaCertificate) : NebulaCertificate :=
  let d := Details c in
  MkCertificate (MkDetails (certName d) (certIps d) (whole_seconds (NotBefore d)) (whole_seconds (NotAfter d))
    (certPublicKey d) (IsCA d) (Issuer d)) (Signature c).

(** [keypair pub priv]: GenerateKey can answer so; [CheckSignature c pub]. *)
Class CertLaws `{!CertLib} (keypair : string -> string -> Prop) (CheckSignature : NebulaCertificate -> string -> bool) := {
  key_roundtrip pub priv : keypair pub priv -> UnmarshalEd25519PrivateKey (MarshalEd25519PrivateKey priv) = Ok priv;
  pem_total c : exists p, MarshalToPEM c = Ok p;
  pem_roundtrip c p : MarshalToPEM c = Ok p -> UnmarshalNebulaCertificateFromPEM p = Ok (stored c);
  verify_own_key c pub priv : keypair pub priv -> IsCA (Details c) = true -> certPublicKey (Details c) = pub ->
    VerifyPrivateKey c priv = Ok tt;
  sum_total c : exists h, Sha256Sum c = Ok h;
  expired_spec c t : Expired c t = ((t <? NotBefore (Details c)) || (NotAfter (Details c) <? t))%Z;
  root_unconstrained nc ca : certIps (Details ca) = [] ->
    (NotBefore (Details ca) <= NotBefore (Details nc))%Z -> (NotAfter (Details nc) <= NotAfter (Details ca))%Z ->
    CheckRootConstrains nc ca = Ok tt;
  sign_spec c pub priv : keypair pub priv ->
    exists s, SignWith c priv = Ok (MkCertificate (Details c) s) /\ CheckSignature (stored (MkCertificate (Details c) s)) pub = true;
}.

(** ** A clock and a source of keys *)

Inductive certE : Type -> Type :=
  | NowE : certE (outcome Z)
  | GenerateKeyE : certE (outcome (string * string))
  | ReadRandomE (n : nat) : certE (outcome string).

#[export] Instance cert_entropy : Entropy certE :=
  {| Now := call NowE; GenerateKey := call GenerateKeyE; ReadRandom := fun n => call (ReadRandomE n) |}.

(** [clock n]: what the n-th look at the clock shows. *)
Definition cert_step (clock : nat -> Z) (keys : outcome (string * string)) (random : outcome string) : handler certE nat :=
  fun X e n =>
    match e in certE X return nat * X with
    | NowE => (S n, Ok (clock n))
    | GenerateKeyE => (n, keys)
    | ReadRandomE _ => (n, random)
    end.

(** * Proofs *)

Lemma whole_seconds_mono a b : (a <= b)%Z -> (whole_seconds a <= whole_seconds b)%Z.
Proof. intros H. unfold whole_seconds. apply Z.mul_le_mono_nonneg_r; [done|]. by apply Z.div_le_mono. Qed.

Lemma whole_seconds_le t : (whole_seconds t <= t)%Z.
Proof. unfold whole_seconds. rewrite Z.mul_comm. by apply Z.mul_div_le. Qed.

Lemma whole_seconds_add t k : whole_seconds (t + k * Second) = (whole_seconds t + k * Second)%Z.
Proof. unfold whole_seconds. rewrite Z.div_add by done. lia. Qed.

Lemma whole_seconds_idem t : whole_seconds (whole_seconds t) = whole_seconds t.
Proof. unfold whole_seconds. by rewrite Z.div_mul. Qed.

Section Issuing.
#[local] Set Default Proof Using "Type*".
Context `{CertLaws keypair CheckSignature}.
Context (clock : nat -> Z) (pub priv : string) (Hpair : keypair pub priv).
Abbreviation step random := (cert_step clock (Ok (pub, priv)) random).

(** The certificate of an authority made when the clock shows [t]. *)
Definition ca_details (name : string) (t : Z) : NebulaCertificateDetails :=
  MkDetails name [] (t - Second)%Z (t - Second + 8760 * Hour)%Z pub true "".

(** When it ends, as its PEM text has it. *)
Definition ca_end (t : Z) : Z := (whole_seconds (t - Second) + 8760 * Hour)%Z.

Lemma ca_end_stored t : whole_seconds (t - Second + 8760 * Hour) = ca_end t.
Proof. unfold ca_end. by apply (whole_seconds_add (t - Second) (8760 * 3600)). Qed.

Lemma run_CreateCertificateAuthority random name n :
  exists s p, run (step random) (CreateCertificateAuthority name) n =
      (S n, Ok (MkAuthority (MarshalEd25519PrivateKey priv) p)) /\
    UnmarshalNebulaCertificateFromPEM p = Ok (stored (MkCertificate (ca_details name (clock n)) s)) /\
    CheckSignature (stored (MkCertificate (ca_details name (clock n)) s)) pub = true.
Proof.
  destruct (sign_spec (MkCertificate (ca_details name (clock n)) "") pub priv Hpair) as (s & Hs & Hc).
  destruct (pem_total (MkCertificate (ca_details name (clock n)) s)) as [p Hp].
  exists s, p. split; [|split; [by apply pem_roundtrip|done]].
  unfold CreateCertificateAuthority. cbn [Now GenerateKey cert_entropy]. rewrite run_mbind, run_call. cbn [cert_step].
  rewrite run_mbind, run_call. cbn [cert_step fst snd]. fold (ca_details name (clock n)).
  rewrite run_mbind. cbn [lift run]. rewrite Hs, run_mbind. cbn [lift run Details]. by rewrite Hp.
Qed.

(** The certificate of a node, as a client reads it back. *)
Definition node_details (name : string) (ip : IPNet) (key issuer : string) (t_ca t : Z) : NebulaCertificateDetails :=
  MkDetails name [ip] (whole_seconds (t - Second)) (ca_end t_ca - Second)%Z key false issuer.

Lemma run_node_keys random npk key n : UnmarshalX25519PublicKey npk = Ok key ->
  run (step random) (node_keys (Some npk)) n = (n, Ok (key, None)).
Proof. intros Hk. unfold node_keys. rewrite run_mbind. cbn [lift run]. by rewrite Hk. Qed.

(** A node's certificate, signed with the key an authority was made with: it
    names the node, carries the key the node sent, is signed by the authority
    and lies within the life of the authority, a year from its making; an
    authority that has ended signs nothing. *)
Theorem issued_node_certificate random ca_name node_name npk key ip n m n' ca
    (Hca : run (step random) (CreateCertificateAuthority ca_name) n = (n', Ok ca))
    (Hkey : UnmarshalX25519PublicKey npk = Ok key)
    (Hclock : (clock n <= clock m)%Z /\ (clock m <= clock (S m))%Z) :
  let r := (run (step random) (SignNebulaNode (caPrivateKey ca) (caCertificate ca) node_name (Some npk) ip) m).2 in
  if (clock m <=? ca_end (clock n))%Z then
    exists p nc issuer, r = Ok (MkNodeCert None p) /\ UnmarshalNebulaCertificateFromPEM p = Ok nc /\
      CheckSignature nc pub = true /\
      Details nc = node_details node_name ip key issuer (clock n) (clock (S m)) /\
      (whole_seconds (clock n - Second) <= NotBefore (Details nc))%Z /\ (NotAfter (Details nc) < ca_end (clock n))%Z
  else r = Err (errorf "ca certificate is expired").
Proof.
  intros r. destruct (run_CreateCertificateAuthority random ca_name n) as (s & p & Hrun & Hpem & Hsig).
  rewrite Hrun in Hca. injection Hca as _ <-. cbn [caPrivateKey caCertificate] in r.
  set (cc := stored (MkCertificate (ca_details ca_name (clock n)) s)) in *.
  assert (Hend : NotAfter (Details cc) = ca_end (clock n)) by apply ca_end_stored.
  assert (Hbegin : NotBefore (Details cc) = whole_seconds (clock n - Second)) by done.
  destruct (sum_total cc) as [issuer Hsum].
  pose proof (eq_refl r) as Hr. unfold r at 2 in Hr. clearbody r. revert Hr. unfold SignNebulaNode. cbn [Now cert_entropy].
  rewrite run_mbind. cbn [lift run]. rewrite (key_roundtrip pub priv Hpair).
  rewrite run_mbind. cbn [lift run]. rewrite Hpem.
  rewrite run_mbind. cbn [lift run]. rewrite (verify_own_key cc pub priv Hpair eq_refl eq_refl).
  rewrite run_mbind. cbn [lift run]. rewrite Hsum.
  rewrite run_mbind, run_call. cbn [cert_step]. rewrite expired_spec, Hend, Hbegin.
  pose proof (whole_seconds_le (clock n - Second)). assert (HS : (0 < Second)%Z) by done.
  rewrite (proj2 (Z.ltb_ge (clock m) (whole_seconds (clock n - Second)))) by lia. cbn [orb].
  rewrite (Z.ltb_antisym (clock m)). destruct (Z.leb_spec (clock m) (ca_end (clock n))) as [Hle|Hlt]; cbn [negb]; [|by intros ->].
  rewrite run_mbind, (run_node_keys _ _ _ _ Hkey), run_mbind, run_call. cbn [cert_step fst snd].
  set (nc := MkCertificate _ ""). intros ->.
  assert (Hroot : CheckRootConstrains nc cc = Ok tt).
  { apply root_unconstrained; [done|rewrite Hbegin|rewrite Hend]; subst nc; cbn [Details NotBefore NotAfter]; lia. }
  destruct (sign_spec nc pub priv Hpair) as (s' & Hs' & Hc'). destruct (pem_total (MkCertificate (Details nc) s')) as [p' Hp'].
  assert (Hd : Details (stored (MkCertificate (Details nc) s')) = node_details node_name ip key issuer (clock n) (clock (S m))).
  { subst nc. unfold stored, node_details. cbn [Details certName certIps NotBefore NotAfter certPublicKey IsCA Issuer].
    f_equal. unfold ca_end. assert (8760 * Hour = (8760 * 3600) * Second)%Z as -> by done.
    replace (whole_seconds (clock n - Second) + 8760 * 3600 * Second - Second)%Z
      with (whole_seconds (clock n - Second) + (8760 * 3600 - 1) * Second)%Z by lia.
    by rewrite whole_seconds_add, whole_seconds_idem. }
  exists p', (stored (MkCertificate (Details nc) s')), issuer. rewrite Hd. split_and!; [|by apply pem_roundtrip|done..| |].
  - rewrite run_mbind. cbn [lift run]. rewrite Hroot, run_mbind. cbn [lift run]. rewrite Hs', run_mbind. cbn [lift run].
    by rewrite Hp'.
  - apply whole_seconds_mono. lia.
  - cbn [node_details NotAfter]. lia.
Qed.
End Issuing.

(** ** The theorem at a concrete input *)

(** A library that keeps its promises: the PEM text is a numbering of
    certificates written in binary, a private key names its public key. *)
Module DemoCert.
Fixpoint pos_text (p : positive) : string :=
  match p with xH => "" | xO p => String "0"%char (pos_text p) | xI p => String "1"%char (pos_text p) end.

Fixpoint text_pos (s : string) : positive :=
  match s with "" => xH | String c s => if Ascii.eqb c "0"%char then xO (text_pos s) else xI (text_pos s) end.

Lemma text_pos_text p : text_pos (pos_text p) = p.
Proof. induction p as [p IH|p IH|]; cbn; [by rewrite IH..|done]. Qed.

Definition flat : Type := (string * list (bytes * bytes) * Z * Z * string * bool * string * string)%type.

Definition flatten (c : NebulaCertificate) : flat :=
  let d := Details c in
  (certName d, map (fun i => (netIP i, netMask i)) (certIps d), NotBefore d, NotAfter d, certPublicKey d, IsCA d, Issuer d, Signature c).

Definition unflatten (f : flat) : NebulaCertificate :=
  let '(n, ips, b, a, k, ca, i, s) := f in
  MkCertificate (MkDetails n (map (fun p => MkIPNet p.1 p.2) ips) b a k ca i) s.

Lemma unflatten_flatten c : unflatten (flatten c) = c.
Proof.
  destruct c as [[n ips b a k ca i] s]. unfold flatten, unflatten. cbn [Details certName certIps NotBefore NotAfter
    certPublicKey IsCA Issuer Signature]. do 2 f_equal. rewrite map_map. cbn [fst snd].
  induction ips as [|[x y] ips IH]; [done|]. cbn [map netIP netMask]. by rewrite IH.
Qed.

Definition print_pem (c : NebulaCertificate) : string := pos_text (encode (flatten (stored c))).

Definition parse_pem (p : string) : outcome NebulaCertificate :=
  match decode (text_pos p) with Some f => Ok (unflatten f) | None => Err (errorf "invalid PEM") end.

Definition public_of (priv : string) : string := TrimPrefix priv "key of ".

#[export] Instance demo_cert : CertLib := {|
  UnmarshalEd25519PrivateKey := Ok;
  MarshalEd25519PrivateKey := fun k => k;
  UnmarshalX25519PublicKey := Ok;
  MarshalX25519PrivateKey := fun k => k;
  UnmarshalNebulaCertificateFromPEM := parse_pem;
  MarshalToPEM := fun c => Ok (print_pem c);
  VerifyPrivateKey := fun c priv =>
    if String.eqb (certPublicKey (Details c)) (public_of priv) then Ok tt else Err (errorf "public key in cert and private key supplied don't match");
  Sha256Sum := fun c => Ok (certName (Details c));
  Expired := fun c t => ((t <? NotBefore (Details c)) || (NotAfter (Details c) <? t))%Z;
  CheckRootConstrains := fun nc ca =>
    if (NotAfter (Details ca) <? NotAfter (Details nc))%Z then Err (errorf "certificate expires after signing certificate")
    else if (NotBefore (Details nc) <? NotBefore (Details ca))%Z then Err (errorf "certificate is valid before the signing certificate")
    else Ok tt;
  SignWith := fun c priv => Ok (MkCertificate (Details c) (public_of priv));
  ScalarBaseMult := fun k => k;
|}.

Definition demo_pair (pub priv : string) : Prop := priv = "key of " +:+ pub.
Definition demo_check (c : NebulaCertificate) (pub : string) : bool := String.eqb (Signature c) pub.

#[export] Instance demo_laws : CertLaws demo_pair demo_check.
Proof.
  split; cbn [UnmarshalEd25519PrivateKey MarshalEd25519PrivateKey MarshalToPEM UnmarshalNebulaCertificateFromPEM
    VerifyPrivateKey Sha256Sum Expired CheckRootConstrains SignWith demo_cert].
  - done.
  - eauto.
  - intros c p [= <-]. unfold parse_pem, print_pem. by rewrite text_pos_text, decode_encode, unflatten_flatten.
  - intros c pub priv -> _ <-. unfold public_of. by rewrite TrimPrefix_app, String.eqb_refl.
  - eauto.
  - done.
  - intros nc ca _ H1 H2. by rewrite !(proj2 (Z.ltb_ge _ _)) by lia.
  - intros c pub priv ->. exists pub. unfold public_of, demo_check. rewrite TrimPrefix_app. split; [done|]. apply String.eqb_refl.
Qed.
End DemoCert.

Definition demo_clock (n : nat) : Z := (1700000000 * Second + Z.of_nat n * 250000000)%Z.

Definition demo_net : IPNet := MkIPNet [111; 0; 0; 0]%Z [255; 255; 255; 0]%Z.

Definition demo_step := cert_step demo_clock (Ok ("ca", "key of ca")) (Err (errorf "no random numbers")).

Definition demo_authority : CertificateAuthority :=
  match (run demo_step (CreateCertificateAuthority (H := DemoCert.demo_cert) "mesh") 0).2 with
  | Ok ca => ca
  | _ => MkAuthority "" ""
  end.

Lemma issued_node_certificate_witness : exists p nc issuer,
  (run demo_step (SignNebulaNode (H := DemoCert.demo_cert) (caPrivateKey demo_authority) (caCertificate demo_authority)
     "phone" (Some "phone key") demo_net) 4).2 = Ok (MkNodeCert None p) /\
  DemoCert.parse_pem p = Ok nc /\ certPublicKey (Details nc) = "phone key" /\ Issuer (Details nc) = issuer.
Proof.
  pose proof (issued_node_certificate (H0 := DemoCert.demo_laws) (keypair := DemoCert.demo_pair) (CheckSignature := DemoCert.demo_check) demo_clock "ca" "key of ca" eq_refl
    (Err (errorf "no random numbers")) "mesh" "phone" "phone key" "phone key" demo_net 0 4 1 demo_authority) as H.
  specialize (H ltac:(vm_compute; reflexivity) eq_refl ltac:(split; vm_compute; discriminate)).
  change (demo_clock 4 <=? ca_end (demo_clock 0))%Z with true in H.
  destruct H as (p & nc & issuer & Hr & Hp & _ & Hd & _). exists p, nc, issuer.
  split; [exact Hr|]. split; [exact Hp|]. by rewrite Hd.
Defined.
