(* ===== verification/NebulaKube.v ===== *)
(** * Objects of the mesh in Kubernetes (core/nebula/controller/apis/nebula/v1/types.go)

    The resources NebulaCA and NebulaNode, secrets, and the clients through
    which the API and the controller reach them. *)
From S2P Require Import Prelude GoLib.
Open Scope string_scope.
Open Scope list_scope.

(** Namespace and name. *)
Abbreviation key := (string * string)%type.

Definition NebulaCAStateCreating := "Creating".
Definition NebulaCAStateReady := "Ready".
Definition NebulaNodeStateCreating := "Creating".
Definition NebulaNodeStateReady := "Ready".
Definition NebulaNodeStateError := "Error".

Record NebulaCASpec := MkCASpec { caSecretName : string }.

Record NebulaNodeSpec := MkNodeSpec {
  CAName : string;
  CANamespace : string;
  IPCidr : string;
  PubKey : string;
  EncPubKey : string;
  SecretName : string;
}.

(** NebulaCAStatus and NebulaNodeStatus. *)
Record status := MkStatus { State : string; Message : string }.

(** An object: its metadata (namespace, name, resource version), spec and status. *)
Record object (spec : Type) := MkObject { oKey : key; oVersion : nat; oSpec : spec; oStatus : status }.
Arguments MkObject {spec} _ _ _ _.
Arguments oKey {spec} _.
Arguments oVersion {spec} _.
Arguments oSpec {spec} _.
Arguments oStatus {spec} _.

Abbreviation NebulaCA := (object NebulaCASpec).
Abbreviation NebulaNode := (object NebulaNodeSpec).

Definition oName {spec} (o : object spec) : string := (oKey o).2.
Definition oNamespace {spec} (o : object spec) : string := (oKey o).1.

Definition with_status {spec} (st : status) (o : object spec) : object spec :=
  MkObject (oKey o) (oVersion o) (oSpec o) st.

Record Secret := MkSecret { Immutable : bool; Data : gmap string string }.

(** A key that is not there reads as nil, whose text is empty. *)
Definition data (s : Secret) (k : string) : string := default "" (Data s !! k).

Definition not_found : error := MkErr KNotFound "not found".
Definition already_exists : error := MkErr KAlreadyExists "already exists".
Definition conflict : error := errorf "the object has been modified".
Definition IsNotFound (e : error) : bool := bool_decide (ekind e = KNotFound).

(** The generated clientset and the client of secrets. *)
Class NebulaClient (E : Type -> Type) := {
  CAs_Get : key -> go E NebulaCA;
  CAs_List : go E (list NebulaCA);
  Nodes_Get : key -> go E NebulaNode;
  Nodes_List : go E (list NebulaNode);
  Nodes_Create : NebulaNode -> go E NebulaNode;
  Secrets_Get : key -> go E Secret;
  Secrets_Create : key -> Secret -> go E unit;
  CAs_UpdateStatus : NebulaCA -> go E unit;
  Nodes_UpdateStatus : NebulaNode -> go E unit;
}.

(** The caches of the informers. *)
Class Listers (E : Type -> Type) := {
  CALister : key -> go E NebulaCA;
  NodeLister : key -> go E NebulaNode;
  SecretLister : key -> go E Secret;
}.

(** ** The API server *)

Record cluster := MkCluster {
  cas : gmap key NebulaCA;
  nodes : gmap key NebulaNode;
  secrets : gmap key Secret;
}.

Inductive kubeE : Type -> Type :=
  | GetCA (k : key) : kubeE (outcome NebulaCA)
  | ListCAs : kubeE (outcome (list NebulaCA))
  | GetNode (k : key) : kubeE (outcome NebulaNode)
  | ListNodes : kubeE (outcome (list NebulaNode))
  | CreateNodeE (n : NebulaNode) : kubeE (outcome NebulaNode)
  | GetSecret (k : key) : kubeE (outcome Secret)
  | CreateSecret (k : key) (s : Secret) : kubeE (outcome unit)
  | UpdateCAStatus (ca : NebulaCA) : kubeE (outcome unit)
  | UpdateNodeStatus (n : NebulaNode) : kubeE (outcome unit).

Definition lookup_or {A} (m : gmap key A) (k : key) : outcome A :=
  match m !! k with Some a => Ok a | None => Err not_found end.

Definition with_cas (f : gmap key NebulaCA -> gmap key NebulaCA) (c : cluster) : cluster :=
  MkCluster (f (cas c)) (nodes c) (secrets c).
Definition with_nodes (f : gmap key NebulaNode -> gmap key NebulaNode) (c : cluster) : cluster :=
  MkCluster (cas c) (f (nodes c)) (secrets c).
Definition with_secrets (f : gmap key Secret -> gmap key Secret) (c : cluster) : cluster :=
  MkCluster (cas c) (nodes c) (f (secrets c)).

(** A create leaves the status out and fails on a name that is taken. *)
Definition create {A} (m : gmap key A) (k : key) (a : A) : option (gmap key A) :=
  match m !! k with Some _ => None | None => Some (<[k := a]> m) end.

(** UpdateStatus replaces the status, provided the object has not changed
    since the one given was read. *)
Definition update_status {spec} (m : gmap key (object spec)) (o : object spec) : outcome (gmap key (object spec)) :=
  match m !! oKey o with
  | None => Err not_found
  | Some cur =>
      if (oVersion cur =? oVersion o)%nat
      then Ok (<[oKey o := MkObject (oKey cur) (S (oVersion cur)) (oSpec cur) (oStatus o)]> m)
      else Err conflict
  end.

Definition no_status : status := MkStatus "" "".

Definition kube_step : handler kubeE cluster := fun X e c =>
  match e in kubeE X return cluster * X with
  | GetCA k => (c, lookup_or (cas c) k)
  | ListCAs => (c, Ok (map snd (map_to_list (cas c))))
  | GetNode k => (c, lookup_or (nodes c) k)
  | ListNodes => (c, Ok (map snd (map_to_list (nodes c))))
  | CreateNodeE n =>
      let n' := MkObject (oKey n) 1 (oSpec n) no_status in
      match create (nodes c) (oKey n) n' with
      | Some m => (with_nodes (fun _ => m) c, Ok n')
      | None => (c, Err already_exists)
      end
  | GetSecret k => (c, lookup_or (secrets c) k)
  | CreateSecret k s =>
      match create (secrets c) k s with
      | Some m => (with_secrets (fun _ => m) c, Ok tt)
      | None => (c, Err already_exists)
      end
  | UpdateCAStatus ca =>
      match update_status (cas c) ca with
      | Ok m => (with_cas (fun _ => m) c, Ok tt)
      | Err e => (c, Err e)
      | Panic w => (c, Panic w)
      | Diverge => (c, Diverge)
      end
  | UpdateNodeStatus n =>
      match update_status (nodes c) n with
      | Ok m => (with_nodes (fun _ => m) c, Ok tt)
      | Err e => (c, Err e)
      | Panic w => (c, Panic w)
      | Diverge => (c, Diverge)
      end
  end.

(** The clients of code that reaches the API server through [inj]. *)
Definition client_in {E : Type -> Type} (inj : forall X, kubeE X -> E X) : NebulaClient E := {|
  CAs_Get := fun k => call (inj _ (GetCA k));
  CAs_List := call (inj _ ListCAs);
  Nodes_Get := fun k => call (inj _ (GetNode k));
  Nodes_List := call (inj _ ListNodes);
  Nodes_Create := fun n => call (inj _ (CreateNodeE n));
  Secrets_Get := fun k => call (inj _ (GetSecret k));
  Secrets_Create := fun k s => call (inj _ (CreateSecret k s));
  CAs_UpdateStatus := fun ca => call (inj _ (UpdateCAStatus ca));
  Nodes_UpdateStatus := fun n => call (inj _ (UpdateNodeStatus n));
|}.
