(* ===== verification/NebulaApi.v ===== *)
(** * The API of the mesh (core/nebula/api/main.go, manager.go)

    Joining a mesh with a signed message, approving nodes, configurations, and
    the two requests with which the controller has keys made. *)
From S2P Require Import Prelude GoLib GoStrings GoBase64 GoNet NebulaCert NebulaKube.
From Stdlib Require Import Ascii.
Open Scope string_scope.
Open Scope list_scope.

(** crypto/ed25519, crypto/rsa, crypto/x509 and crypto/aes; a key of RSA is
    what ParsePKCS1PublicKey makes of its text. *)
Class Crypto (E : Type -> Type) := {
  rsa_key : Type;
  ParsePKCS1PublicKey : string -> outcome rsa_key;
  EncryptOAEP : rsa_key -> string -> go E string;
  Seal : string -> string -> string -> string;      (* AES-GCM: key, nonce, text *)
  ed_sign : string -> string -> string;             (* private key, message *)
  ed_public : string -> string;
  ed_verify : string -> string -> string -> bool;   (* public key, message, signature *)
}.

Record nebulaNode := MkListedNode { lnName : string; lnNamespace : string; lnIP : string }.
Record nebulaCA := MkListedCA { lcName : string; lcNamespace : string; lcNodes : list nebulaNode }.

(** ** Requests and answers *)

Record joinReq := MkJoin {
  jMessage : option string;
  jSignature : option string;
  jName : string;
  jPublicKey : option string;
  jIPCidr : string;
}.

Definition decode_sign (v : json) : outcome (option string) := json_field "message" json_bytes None v.

Definition decode_join (v : json) : outcome joinReq :=
  m ← json_field "message" json_bytes None v;
  s ← json_field "signature" json_bytes None v;
  n ← json_field "name" json_string "" v;
  k ← json_field "public_key" json_bytes None v;
  i ← json_field "ip_cidr" json_string "" v;
  Ok (MkJoin m s n k i).

Record approveReq := MkApprove { aEncPublicKey : option string; aName : string; aNetPublicKey : option string; aIPCidr : string }.

Definition decode_approve (v : json) : outcome approveReq :=
  e ← json_field "enc_public_key" json_bytes None v;
  n ← json_field "name" json_string "" v;
  k ← json_field "net_public_key" json_bytes None v;
  i ← json_field "ip_cidr" json_string "" v;
  Ok (MkApprove e n k i).

(** processCAReq *)
Definition decode_process_ca (v : json) : outcome string := json_field "name" json_string "" v.

Record processNodeReq := MkProcessNode {
  CAPrivateKey : option string;
  CACert : option string;
  NodeName : string;
  NodePublicKey : option string;
  NodeIPCidr : string;
}.

Definition decode_process_node (v : json) : outcome processNodeReq :=
  k ← json_field "ca_private_key" json_bytes None v;
  c ← json_field "ca_certificate" json_bytes None v;
  n ← json_field "node_name" json_string "" v;
  p ← json_field "node_public_key" json_bytes None v;
  i ← json_field "node_ip_cidr" json_string "" v;
  Ok (MkProcessNode k c n p i).

(** What a handler writes: the data of the page, an answer in JSON, a
    configuration in YAML (in base64 for join), a picture. *)
Inductive nebula_page :=
  | IndexPage (cas : list nebulaCA)
  | Picture (png : string)
  | SignResp (signature : string)
  | ConfigResp (cfg : list (string * json))
  | GetResp (key nonce data : string)
  | AuthorityResp (ca : CertificateAuthority)
  | NodeResp (node : NebulaNodeCert).

Definition encode_authority (ca : CertificateAuthority) : json :=
  JObj [("private_key", JStr (EncodeToString (caPrivateKey ca))); ("certificate", JStr (EncodeToString (caCertificate ca)))].

Definition encode_node_cert (n : NebulaNodeCert) : json :=
  JObj (match nodePrivateKey n with
        | None | Some "" => []
        | Some k => [("private_key", JStr (EncodeToString k))]
        end ++ [("certificate", JStr (EncodeToString (nodeCertificate n)))]).

(** ** Manager *)

Section Manager.
Context {E : Type -> Type} `{!NebulaClient E} `{!CertLib} `{!Entropy E} `{!Crypto E}.
(** Fields of the manager: namespace and caName are flags of the server too. *)
Context (namespace caName : string) (cfgTmpl : list (string * json)).

(** For each node the authorities with the name it refers to. *)
Definition add_node (ret : list nebulaCA) (node : NebulaNode) : list nebulaCA :=
  map (fun ca =>
    if String.eqb (lcName ca) (CAName (oSpec node))
    then MkListedCA (lcName ca) (lcNamespace ca)
           (lcNodes ca ++ [MkListedNode (oName node) (oNamespace node) (IPCidr (oSpec node))])
    else ca) ret.

Definition ListAll : go E (list nebulaCA) :=
  cas ← CAs_List;
  let ret := map (fun ca : NebulaCA => MkListedCA (oName ca) (oNamespace ca) []) cas in
  nodes ← Nodes_List;
  mret (foldl add_node ret nodes).

Definition CreateNode (ns name caNamespace caName ipCidr pubKey : string) (encPubKey : option string) : go E (string * string) :=
  let enc := match encPubKey with Some k => EncodeToString k | None => "" end in
  node ← Nodes_Create (MkObject (ns, name) 0 (MkNodeSpec caName caNamespace ipCidr pubKey enc (name +:+ "-cert")) no_status);
  mret (oNamespace node, oName node).

Definition getCASecret (ns name : string) : go E Secret :=
  ca ← CAs_Get (ns, name);
  Secrets_Get (ns, caSecretName (oSpec ca)).

Definition getNodeSecret (ns name : string) : go E Secret :=
  node ← Nodes_Get (ns, name);
  Secrets_Get (ns, SecretName (oSpec node)).

(** The template is copied, so the manager's own stays as it is. *)
Definition GetNodeConfig (ns name : string) : go E (list (string * json)) :=
  secret ← getNodeSecret ns name;
  match object_fields (get_field "pki" cfgTmpl) with
  | None => panic "Should not reach"
  | Some pki =>
      let pki := set_field "ca" (JStr (data secret "ca.crt")) pki in
      let pki := set_field "cert" (JStr (data secret "host.crt")) pki in
      mret (set_field "pki" (JObj pki) cfgTmpl)
  end.

Definition GetNodeCertQR (ns name : string) : go E string :=
  secret ← getNodeSecret ns name; mret (data secret "host.png").

Definition GetCACertQR (ns name : string) : go E string :=
  secret ← getCASecret ns name; mret (data secret "ca.png").

Definition Sign (message : string) : go E string :=
  secret ← getCASecret namespace caName;
  edPriv ← lift (UnmarshalEd25519PrivateKey (data secret "ca.key"));
  mret (ed_sign edPriv message).

Definition VerifySignature (message signature : string) : go E bool :=
  secret ← getCASecret namespace caName;
  edPriv ← lift (UnmarshalEd25519PrivateKey (data secret "ca.key"));
  mret (ed_verify (ed_public edPriv) message signature).

Definition GetNodeEncryptionPublicKey (ns name : string) : go E (rsa_key (E := E)) :=
  node ← Nodes_Get (ns, name);
  k ← lift (DecodeString (EncPubKey (oSpec node)));
  lift (ParsePKCS1PublicKey k).

(** ** Handlers *)

Abbreviation answer := (go E (reply nebula_page)).

Definition internal (e : error) : answer := mret (HttpError (emsg e) StatusInternalServerError).
Definition bad_request (e : error) : answer := mret (HttpError (emsg e) StatusBadRequest).

Context (Execute : list nebulaCA -> outcome unit).

Definition handleIndex : answer :=
  check cas := ListAll onerr e => internal e in
  check _u := lift (Execute cas) onerr e => internal e in
  mret (Page (IndexPage cas)).

(** After an error the handler goes on and writes the picture it does not have,
    which adds nothing to the answer. *)
Definition handleNode (ns name : string) : answer :=
  check qr := GetNodeCertQR ns name onerr e => internal e in mret (Page (Picture qr)).

Definition handleCA (ns name : string) : answer :=
  check qr := GetCACertQR ns name onerr e => internal e in mret (Page (Picture qr)).

Definition sign (body : outcome json) : answer :=
  check message := lift (v ← body; decode_sign v) onerr e => bad_request e in
  check signature := Sign (bytes_text message) onerr e => internal e in
  mret (Page (SignResp signature)).

(** The loop that waits for the controller; a second passes before each turn. *)
Fixpoint wait_config (fuel : nat) (name : string) (k : list (string * json) -> answer) : answer :=
  match fuel with
  | 0 => lift Diverge
  | S fuel' => check cfg := GetNodeConfig namespace name onerr _e => wait_config fuel' name k in k cfg
  end.

Definition join (fuel : nat) (body : outcome json) : answer :=
  check req := lift (v ← body; decode_join v) onerr e => bad_request e in
  check valid := VerifySignature (bytes_text (jMessage req)) (bytes_text (jSignature req)) onerr e => internal e in
  if negb valid then mret (HttpError "Signature could not be verified" StatusBadRequest)
  else
    check _n := CreateNode namespace (jName req) namespace caName (jIPCidr req) (bytes_text (jPublicKey req)) None
      onerr e => internal e in
    wait_config fuel (jName req) (fun cfg => mret (Page (ConfigResp cfg))).

(** [yaml_text]: yaml.Marshal. *)
Definition get (yaml_text : list (string * json) -> string) (fuel : nat) (name : string) : answer :=
  check pubKey := GetNodeEncryptionPublicKey namespace name onerr e => internal e in
  check key := ReadRandom 32 onerr e => internal e in
  check nonce := ReadRandom 12 onerr e => panic (emsg e) in
  wait_config fuel name (fun cfg =>
    let cfgEnc := Seal (E := E) key nonce (yaml_text cfg) in
    check keyEnc := EncryptOAEP pubKey key onerr e => internal e in
    check nonceEnc := EncryptOAEP pubKey nonce onerr e => internal e in
    mret (Page (GetResp keyEnc nonceEnc cfgEnc))).

Definition approve (body : outcome json) : answer :=
  check req := lift (v ← body; decode_approve v) onerr e => bad_request e in
  check _n := CreateNode namespace (aName req) namespace caName (aIPCidr req) (bytes_text (aNetPublicKey req)) (aEncPublicKey req)
    onerr e => internal e in
  mret Empty.

Definition processCA (body : outcome json) : answer :=
  check name := lift (v ← body; decode_process_ca v) onerr e => bad_request e in
  check ca := CreateCertificateAuthority name onerr e => internal e in
  mret (Page (AuthorityResp ca)).

Definition processNode (body : outcome json) : answer :=
  check req := lift (v ← body; decode_process_node v) onerr e => bad_request e in
  check ipNet := lift (ParseCIDR (NodeIPCidr req)) onerr e => bad_request e in
  check node := SignNebulaNode (bytes_text (CAPrivateKey req)) (bytes_text (CACert req)) (NodeName req) (NodePublicKey req) ipNet.2
    onerr e => bad_request e in
  mret (Page (NodeResp node)).
End Manager.

(** ** Routes *)

(** The class [a-zA-z0-9-] of the variables, which lets more than letters through. *)
Definition name_char (c : ascii) : bool :=
  let n := ascii_code c in is_lower c || ((65 <=? n) && (n <=? 122))%nat || is_digit c || Ascii.eqb c "-"%char.

Definition name_var (s : string) : bool := negb (String.eqb s "") && forall_char name_char s.

Inductive nebula_route :=
  | RSign | RJoin | RApprove | RGet (name : string) | RProcessCA | RProcessNode
  | RNode (ns name : string) | RCA (ns name : string) | RIndex.

Definition static_routes : list (string * nebula_route) :=
  [("/api/sign", RSign); ("/api/join", RJoin); ("/api/approve", RApprove);
   ("/api/process/authority", RProcessCA); ("/api/process/node", RProcessNode); ("/", RIndex)].

(** main: which handler a path finds; nothing means 404. *)
Definition route_of (path : string) : option nebula_route :=
  match list_find (fun r => r.1 = path) static_routes with
  | Some (_, (_, rt)) => Some rt
  | None =>
      match Split path "/"%char with
      | [""; "api"; "get"; name] => if name_var name then Some (RGet name) else None
      | [""; "node"; ns; name] => if name_var ns && name_var name then Some (RNode ns name) else None
      | [""; "ca"; ns; name] => if name_var ns && name_var name then Some (RCA ns name) else None
      | _ => None
      end
  end.

Definition serve_nebula {E} `{!NebulaClient E} `{!CertLib} `{!Entropy E} `{!Crypto E} (namespace caName : string)
    (cfgTmpl : list (string * json)) (Execute : list nebulaCA -> outcome unit) (yaml_text : list (string * json) -> string)
    (fuel : nat) (rt : nebula_route) (body : outcome json) : go E (reply nebula_page) :=
  match rt with
  | RSign => sign namespace caName body
  | RJoin => join namespace caName cfgTmpl fuel body
  | RApprove => approve namespace caName body
  | RGet name => get namespace cfgTmpl yaml_text fuel name
  | RProcessCA => processCA body
  | RProcessNode => processNode body
  | RNode ns name => handleNode ns name
  | RCA ns name => handleCA ns name
  | RIndex => handleIndex Execute
  end.
