(* ===== verification/NebulaController.v ===== *)
(** * The controller of the mesh (core/nebula/controller/controllers)

    It has the keys of authorities and the certificates of nodes made by the API
    of the mesh, stores them as secrets and marks the objects ready. *)
From S2P Require Import Prelude GoLib GoStrings GoBase64 NebulaKube.
Open Scope string_scope.
Open Scope list_scope.

(** ** The client of the API (client.go) *)

Module Client.
Section Requests.
Context {E : Type -> Type} `{!PostReply E}.

Definition json_type : string := "application/json".

(** createCAReq *)
Definition encode_ca_req (name : string) : json := JObj [("name", JStr name)].

(** createCAResp and signNodeResp: the private key and the certificate. *)
Definition decode_keys (v : json) : outcome (string * string) :=
  k ← json_field "private_key" json_bytes None v;
  c ← json_field "certificate" json_bytes None v;
  Ok (bytes_text k, bytes_text c).

Record signNodeReq := MkSignNode {
  snCAPrivateKey : string;
  snCACert : string;
  snNodeName : string;
  snNodePublicKey : option string;
  snNodeIPCidr : string;
}.

Definition encode_sign_req (r : signNodeReq) : json :=
  JObj ([("ca_private_key", JStr (EncodeToString (snCAPrivateKey r)));
         ("ca_certificate", JStr (EncodeToString (snCACert r)));
         ("node_name", JStr (snNodeName r))] ++
        match snNodePublicKey r with
        | None | Some "" => []
        | Some k => [("node_public_key", JStr (EncodeToString k))]
        end ++ [("node_ip_cidr", JStr (snNodeIPCidr r))]).

(** The status of the answer is not looked at. *)
Definition post_for_keys (addr : string) (body : json) : go E (string * string) :=
  resp ← post_reply addr json_type body;
  lift (v ← resp.2; decode_keys v).

Definition CreateCertificateAuthority (apiAddr name : string) : go E (string * string) :=
  post_for_keys (apiAddr +:+ "/api/process/ca") (encode_ca_req name).

Definition SignNebulaNode (apiAddr : string) (req : signNodeReq) : go E (string * string) :=
  post_for_keys (apiAddr +:+ "/api/process/node") (encode_sign_req req).
End Requests.
End Client.

(** ** The controller (ca.go) *)

(** What stands in the work queue. *)
Inductive work_item :=
  | caRef (key : string)
  | nodeRef (key : string)
  | OtherItem.

Class WorkQueue (E : Type -> Type) := {
  Get : go E (option work_item);     (* nothing: it has been shut down *)
  Add : work_item -> go E unit;
  AddRateLimited : work_item -> go E unit;
  Forget : work_item -> go E unit;
  Done : work_item -> go E unit;
}.

Section Controller.
Context {E : Type -> Type} `{!NebulaClient E} `{!Listers E} `{!PostReply E} `{!WorkQueue E}.
(** Of client-go: the text of a namespace and a name, and back. *)
Context (MetaNamespaceKeyFunc : key -> outcome string) (SplitMetaNamespaceKey : string -> outcome key).

Definition apiAddr (ca : string) : string :=
  "http://nebula-api." +:+ ca +:+ "-ingress-private.svc.cluster.local".

Definition enqueueCA (ca : NebulaCA) : go E unit :=
  match MetaNamespaceKeyFunc (oKey ca) with Ok k => Add (caRef k) | _ => mret tt end.

Definition enqueueNode (n : NebulaNode) : go E unit :=
  match MetaNamespaceKeyFunc (oKey n) with Ok k => Add (nodeRef k) | _ => mret tt end.

Definition updateCAStatus (ca : NebulaCA) (state msg : string) : go E unit :=
  CAs_UpdateStatus (with_status (MkStatus state msg) ca).

Definition updateNodeStatus (n : NebulaNode) (state msg : string) : go E unit :=
  Nodes_UpdateStatus (with_status (MkStatus state msg) n).

Definition ca_secret (keys : string * string) : Secret :=
  MkSecret true {[ "ca.key" := keys.1; "ca.crt" := keys.2 ]}.

Definition processCAWithKey (k : string) : go E unit :=
  match SplitMetaNamespaceKey k with
  | Ok (namespace, name) =>
      check ca := CALister (namespace, name) onerr e => if IsNotFound e then mret tt else fail e in
      if String.eqb (State (oStatus ca)) NebulaCAStateReady then mret tt
      else
        keys ← Client.CreateCertificateAuthority (apiAddr (oName ca)) (oName ca);
        _ ← Secrets_Create (namespace, caSecretName (oSpec ca)) (ca_secret keys);
        updateCAStatus ca NebulaCAStateReady "Generated credentials"
  | _ => mret tt
  end.

Definition sign_request (ca_data : Secret) (node : NebulaNode) : Client.signNodeReq :=
  let pubKey := PubKey (oSpec node) in
  Client.MkSignNode (data ca_data "ca.key") (data ca_data "ca.crt") (oName node)
    (if negb (String.eqb pubKey "") then Some pubKey else None) (IPCidr (oSpec node)).

Definition node_secret (ca_data : Secret) (keys : string * string) : Secret :=
  MkSecret true {[ "ca.crt" := data ca_data "ca.crt"; "host.crt" := keys.2; "host.key" := keys.1 ]}.

Definition processNodeWithKey (k : string) : go E unit :=
  match SplitMetaNamespaceKey k with
  | Ok (namespace, name) =>
      check node := NodeLister (namespace, name) onerr e => if IsNotFound e then mret tt else fail e in
      if String.eqb (State (oStatus node)) NebulaNodeStateReady then mret tt
      else
        ca ← CALister (CANamespace (oSpec node), CAName (oSpec node));
        if negb (String.eqb (State (oStatus ca)) NebulaCAStateReady) then
          fail (errorf ("Referenced CA " +:+ CAName (oSpec node) +:+ " is not ready yet."))
        else
          check caSecret := SecretLister (oNamespace ca, caSecretName (oSpec ca)) onerr e =>
            if IsNotFound e then
              check _u := updateNodeStatus node NebulaNodeStateError "Could not find CA secret" onerr _e => fail e in fail e
            else fail e in
          keys ← Client.SignNebulaNode (apiAddr (oName ca)) (sign_request caSecret node);
          _ ← Secrets_Create (namespace, SecretName (oSpec node)) (node_secret caSecret keys);
          updateNodeStatus node NebulaNodeStateReady "Generated credentials"
  | _ => mret tt
  end.

(** The function around an item, with [Done] deferred; its error is logged. *)
Definition process_item (o : work_item) : go E unit :=
  let sync (p : go E unit) : go E unit :=
    check _u := p onerr _e => AddRateLimited o in
    _ ← Forget o; Forget o in
  match o with
  | caRef k => sync (processCAWithKey k)
  | nodeRef k => sync (processNodeWithKey k)
  | OtherItem => Forget o
  end.

(** The queue's own operations do not fail. *)
Definition processNextWorkItem : go E bool :=
  o ← Get;
  match o with
  | None => mret false
  | Some o =>
      _ ← process_item o;
      _ ← Done o;
      mret true
  end.

(** [for c.processNextWorkItem() {}], for a number of turns. *)
Fixpoint runWorker (fuel : nat) : go E unit :=
  match fuel with
  | 0 => lift Diverge
  | S fuel' =>
      more ← processNextWorkItem;
      if (more : bool) then runWorker fuel' else mret tt
  end.
End Controller.
