(* ===== verification/NebulaWorld.v ===== *)
(** * The mesh as a whole: cluster, caches, requests, interference

    The world the controller runs in.  Before each of its calls users and other
    controllers may write, edit and delete what they like, and the informers may
    catch up; a call to the API server may fail with or without effect; the API
    of the mesh answers anything.  The world keeps a log of who wrote what. *)
From S2P Require Import Prelude GoLib NebulaKube NebulaController.
Open Scope string_scope.
Open Scope list_scope.

(** What happens around the controller: objects are made, edited - spec and
    status - and deleted, as are secrets; a cache learns the present state of a key. *)
Inductive env_step :=
  | PutCA (k : key) (sp : NebulaCASpec) (st : status)
  | DropCA (k : key)
  | PutNode (k : key) (sp : NebulaNodeSpec) (st : status)
  | DropNode (k : key)
  | PutSecret (k : key) (s : Secret)
  | DropSecret (k : key)
  | SyncCA (k : key)
  | SyncNode (k : key)
  | SyncSecret (k : key).

(** The log: versions of objects and secrets, by others and by the controller,
    and the requests to the API of the mesh with their answers. *)
Inductive event :=
  | TheirCA (o : NebulaCA)
  | OurCA (o : NebulaCA)
  | TheirNode (o : NebulaNode)
  | OurNode (o : NebulaNode)
  | TheirSecret (k : key) (s : option Secret)
  | OurSecret (k : key) (s : Secret)
  | Posted (addr : string) (body : json) (answer : outcome (Z * outcome json)).

Record world := MkWorld { up : cluster; cache : cluster; log : list event; turn : nat }.

Record oracle := MkOracle {
  env : nat -> list env_step;
  fault : nat -> option (bool * error);   (* does the call take effect all the same? *)
  reply_of : nat -> string -> json -> outcome (Z * outcome json);
  item : nat -> option work_item;
}.

Definition on_cache (f : cluster -> cluster) (w : world) : world := MkWorld (up w) (f (cache w)) (log w) (turn w).

(** A new cluster, and what is written down about it. *)
Definition write (c : cluster) (es : list event) (w : world) : world := MkWorld c (cache w) (log w ++ es) (turn w).

(** A version number no object had before. *)
Definition fresh (w : world) : nat := S (length (log w)).

Definition sync {A} (k : key) (from to : gmap key A) : gmap key A := partial_alter (fun _ => from !! k) k to.

Definition apply_env (s : env_step) (w : world) : world :=
  match s with
  | PutCA k sp st =>
      let o := MkObject k (fresh w) sp st in write (with_cas <[k := o]> (up w)) [TheirCA o] w
  | DropCA k => write (with_cas (delete k) (up w)) [] w
  | PutNode k sp st =>
      let o := MkObject k (fresh w) sp st in write (with_nodes <[k := o]> (up w)) [TheirNode o] w
  | DropNode k => write (with_nodes (delete k) (up w)) [] w
  | PutSecret k s => write (with_secrets <[k := s]> (up w)) [TheirSecret k (Some s)] w
  | DropSecret k => write (with_secrets (delete k) (up w)) [TheirSecret k None] w
  | SyncCA k => on_cache (with_cas (sync k (cas (up w)))) w
  | SyncNode k => on_cache (with_nodes (sync k (nodes (up w)))) w
  | SyncSecret k => on_cache (with_secrets (sync k (secrets (up w)))) w
  end.

Definition apply_all (l : list env_step) (w : world) : world := foldl (fun w s => apply_env s w) w l.

Definition next_turn (w : world) : world := MkWorld (up w) (cache w) (log w) (S (turn w)).

Inductive meshE : Type -> Type :=
  | MKube {X} (e : kubeE X) : meshE X
  | MCA (k : key) : meshE (outcome NebulaCA)
  | MNode (k : key) : meshE (outcome NebulaNode)
  | MSecret (k : key) : meshE (outcome Secret)
  | MPost (addr ctype : string) (body : json) : meshE (outcome (Z * outcome json))
  | MGet : meshE (outcome (option work_item))
  | MNote (o : work_item) : meshE (outcome unit).

#[export] Instance mesh_client : NebulaClient meshE := client_in (@MKube).
#[export] Instance mesh_listers : Listers meshE :=
  {| CALister := fun k => call (MCA k); NodeLister := fun k => call (MNode k); SecretLister := fun k => call (MSecret k) |}.
#[export] Instance mesh_post : PostReply meshE := fun addr ctype body => call (MPost addr ctype body).
#[export] Instance mesh_queue : WorkQueue meshE := {|
  Get := call MGet;
  Add := fun o => call (MNote o);
  AddRateLimited := fun o => call (MNote o);
  Forget := fun o => call (MNote o);
  Done := fun o => call (MNote o);
|}.

(** The error of a call to the API server. *)
Definition kube_error {X} (e : kubeE X) (err : error) : X :=
  match e in kubeE X return X with
  | GetCA _ | ListCAs | GetNode _ | ListNodes | CreateNodeE _ | GetSecret _
  | CreateSecret _ _ | UpdateCAStatus _ | UpdateNodeStatus _ => Err err
  end.

(** What a call wrote, given its result and the cluster after it. *)
Definition written {X} (e : kubeE X) : X -> cluster -> list event :=
  match e in kubeE X return X -> cluster -> list event with
  | CreateNodeE _ => fun x _ => match x with Ok n => [OurNode n] | _ => [] end
  | CreateSecret k s => fun x _ => match x with Ok _ => [OurSecret k s] | _ => [] end
  | UpdateCAStatus u => fun x c => match x, cas c !! oKey u with Ok _, Some o => [OurCA o] | _, _ => [] end
  | UpdateNodeStatus u => fun x c => match x, nodes c !! oKey u with Ok _, Some o => [OurNode o] | _, _ => [] end
  | _ => fun _ _ => []
  end.

Definition kube_call (f : option (bool * error)) {X} (e : kubeE X) (w : world) : world * X :=
  let '(c, x) := kube_step X e (up w) in
  match f with
  | None => (write c (written e x c) w, x)
  | Some (true, err) => (write c (written e x c) w, kube_error e err)
  | Some (false, err) => (w, kube_error e err)
  end.

Definition mesh_do (o : oracle) (n : nat) {X} (e : meshE X) (w : world) : world * X :=
  match e in meshE X return world * X with
  | MKube e => kube_call (fault o n) e w
  | MCA k => (w, lookup_or (cas (cache w)) k)
  | MNode k => (w, lookup_or (nodes (cache w)) k)
  | MSecret k => (w, lookup_or (secrets (cache w)) k)
  | MPost addr _ body =>
      let a := reply_of o n addr body in (write (up w) [Posted addr body a] w, a)
  | MGet => (w, Ok (item o n))
  | MNote _ => (w, Ok tt)
  end.

Definition mesh_step (o : oracle) : handler meshE world := fun X e w =>
  mesh_do o (turn w) e (next_turn (apply_all (env o (turn w)) w)).

(** ** Versions of the objects under their keys *)

Definition ready {spec} (o : object spec) : Prop := State (oStatus o) = "Ready".

(** [H] are the versions there have been, [m] is what there is, and no version
    number is beyond [n]. *)
Record tracked {spec} (H : object spec -> Prop) (m : gmap key (object spec)) (n : nat) : Prop := {
  t_now : forall k o, m !! k = Some o -> H o /\ oKey o = k;
  t_unique : forall o o', H o -> H o' -> oKey o = oKey o' -> oVersion o = oVersion o' -> o = o';
  t_bound : forall o, H o -> oVersion o <= n;
  t_latest : forall o cur, H o -> m !! oKey o = Some cur -> oVersion o <= oVersion cur;
}.

Section Tracked.
Context {spec : Type} (H : object spec -> Prop) (m : gmap key (object spec)) (n : nat) (Ht : tracked H m n).
#[local] Set Default Proof Using "Type*".

Lemma tracked_same (H' : object spec -> Prop) n' : (forall x, H' x <-> H x) -> n <= n' -> tracked H' m n'.
Proof.
  intros HH Hn. destruct Ht as [T1 T2 T3 T4]. split.
  - intros k o Ho. rewrite HH. by apply T1.
  - intros o o' Ho%HH Ho'%HH. by apply T2.
  - intros o Ho%HH. specialize (T3 o Ho). lia.
  - intros o cur Ho%HH. by apply T4.
Qed.

Lemma tracked_put (H' : object spec -> Prop) o n' :
  (forall x, H' x <-> H x \/ x = o) -> n <= n' -> oVersion o <= n' ->
  (forall x, H x -> oKey x = oKey o -> oVersion x < oVersion o) -> tracked H' (<[oKey o := o]> m) n'.
Proof.
  intros HH Hn Ho Hnew. destruct Ht as [T1 T2 T3 T4]. split.
  - intros k x. rewrite lookup_insert_Some, HH. intros [[<- <-]|[_ Hx]]; [by split; [right|]|].
    destruct (T1 k x Hx). by split; [left|].
  - intros x x' [Hx| ->]%HH [Hx'| ->]%HH Hk Hv; [by apply T2|specialize (Hnew x Hx Hk); lia| |done].
    specialize (Hnew x' Hx' (eq_sym Hk)). lia.
  - intros x [Hx| ->]%HH; [|done]. specialize (T3 x Hx). lia.
  - intros x cur [Hx| ->]%HH.
    + rewrite lookup_insert_Some. intros [[Hk <-]|[_ Hc]]; [specialize (Hnew x Hx (eq_sym Hk)); lia|by apply T4].
    + rewrite lookup_insert_eq. by intros [= <-].
Qed.

Lemma tracked_drop k : tracked H (delete k m) n.
Proof.
  destruct Ht as [T1 T2 T3 T4]. split; [|done|done|].
  - intros k' o [_ Ho]%lookup_delete_Some. by apply T1.
  - intros o cur Ho [_ Hc]%lookup_delete_Some. by apply T4.
Qed.

(** An update of a version that was read replaces this very version. *)
Lemma tracked_update o st m' : H o -> update_status m (with_status st o) = Ok m' ->
  let o' := MkObject (oKey o) (S (oVersion o)) (oSpec o) st in
  m' = <[oKey o := o']> m /\ forall H' n', (forall x, H' x <-> H x \/ x = o') -> n < n' -> tracked H' m' n'.
Proof.
  intros Ho. pose proof Ht as [T1 T2 T3 T4]. unfold update_status, with_status. cbn [oKey oVersion oStatus].
  destruct (m !! oKey o) as [cur|] eqn:Hc; [|done]. destruct (T1 _ _ Hc) as [Hcur Hk].
  destruct (Nat.eqb_spec (oVersion cur) (oVersion o)) as [Hv|]; [|done].
  pose proof (T2 _ _ Hcur Ho Hk Hv) as ->. intros [= <-]. set (o' := MkObject _ _ _ st). split; [done|]. intros H' n' HH Hn.
  apply (tracked_put H' o'); [done|lia|specialize (T3 o Ho); cbn; lia|].
  intros x Hx Hxk. cbn in *. enough (oVersion x <= oVersion o) by lia. apply T4; [done|]. by rewrite Hxk.
Qed.
End Tracked.

(** ** What every step of the world keeps *)

Definition seen_ca (w : world) (o : NebulaCA) : Prop := OurCA o ∈ log w \/ TheirCA o ∈ log w.
Definition seen_node (w : world) (o : NebulaNode) : Prop := OurNode o ∈ log w \/ TheirNode o ∈ log w.
Definition seen_secret (w : world) (k : key) (s : Secret) : Prop := OurSecret k s ∈ log w \/ TheirSecret k (Some s) ∈ log w.

(** The secret the controller stored is there, or someone else wrote or deleted
    it afterwards. *)
Definition held (w : world) (k : key) (s : Secret) : Prop :=
  secrets (up w) !! k = Some s \/
  exists before after x, log w = before ++ OurSecret k s :: after /\ TheirSecret k x ∈ after.

Record base (w : world) : Prop := {
  base_cas : tracked (seen_ca w) (cas (up w)) (length (log w));
  base_nodes : tracked (seen_node w) (nodes (up w)) (length (log w));
  base_secrets : forall k s, OurSecret k s ∈ log w -> held w k s;
  base_now : forall k s, secrets (up w) !! k = Some s -> seen_secret w k s;
  cached_cas : forall k o, cas (cache w) !! k = Some o -> seen_ca w o /\ oKey o = k;
  cached_nodes : forall k o, nodes (cache w) !! k = Some o -> seen_node w o /\ oKey o = k;
  cached_secrets : forall k s, secrets (cache w) !! k = Some s -> seen_secret w k s;
}.

(** The log grows, and a secret that goes was written or deleted by someone else. *)
Definition later (w w' : world) : Prop :=
  exists new, log w' = log w ++ new /\
    forall k s, secrets (up w) !! k = Some s -> secrets (up w') !! k = Some s \/ exists x, TheirSecret k x ∈ new.

Definition stable (F : world -> Prop) : Prop := forall w w', later w w' -> F w -> F w'.

#[export] Instance later_preorder : PreOrder later.
Proof.
  split.
  - intros w. exists []. rewrite app_nil_r. by split; [|left].
  - intros w1 w2 w3 (n1 & H1 & S1) (n2 & H2 & S2). exists (n1 ++ n2). rewrite H2, H1, (assoc_L (++)). split; [done|].
    intros k s Hs. destruct (S1 k s Hs) as [Hs2|[x Hx]]; [|right; exists x; set_solver].
    destruct (S2 k s Hs2) as [?|[x Hx]]; [by left|right; exists x; set_solver].
Qed.

Lemma later_log e w w' : later w w' -> e ∈ log w -> e ∈ log w'.
Proof. intros (new & -> & _) He. apply elem_of_app. by left. Qed.

Lemma later_same w w' : up w' = up w -> log w' = log w -> later w w'.
Proof. intros Hu Hl. exists []. rewrite Hl, Hu, app_nil_r. by split; [|left]. Qed.

Section Writes.
Context (w : world) (Hb : base w).
#[local] Set Default Proof Using "Type*".

Lemma held_later k s c es : OurSecret k s ∈ log w ->
  (forall s, secrets (up w) !! k = Some s -> secrets c !! k = Some s \/ exists x, TheirSecret k x ∈ es) ->
  held (write c es w) k s.
Proof.
  intros Hin Hs. destruct (base_secrets _ Hb _ _ Hin) as [Hnow|(l1 & l2 & x & Hl & Hx)].
  - destruct (Hs s Hnow) as [?|[x Hx]]; [by left|right]. apply list_elem_of_split in Hin as (l1 & l2 & Hl).
    exists l1, (l2 ++ es), x. cbn [write log]. rewrite Hl, <- (assoc_L (++)). split; [done|set_solver].
  - right. exists l1, (l2 ++ es), x. cbn [write log]. rewrite Hl, <- (assoc_L (++)). split; [done|set_solver].
Qed.

(** A write keeps the world sound when it accounts for what it changes. *)
Lemma base_write c es :
  let w' := write c es w in
  tracked (seen_ca w') (cas c) (length (log w')) -> tracked (seen_node w') (nodes c) (length (log w')) ->
  (forall k s, OurSecret k s ∈ es -> secrets c !! k = Some s) ->
  (forall k s, secrets (up w) !! k = Some s -> secrets c !! k = Some s \/ exists x, TheirSecret k x ∈ es) ->
  (forall k s, secrets c !! k = Some s -> secrets (up w) !! k = Some s \/ OurSecret k s ∈ es \/ TheirSecret k (Some s) ∈ es) ->
  base w' /\ later w w'.
Proof.
  intros w' Hc Hn Hour Hkeep Hnew. split; [|by exists es].
  destruct Hb as [_ _ _ B4 B5 B6 B7]. split; [done|done| | | | |]; cbn [w' write up cache log].
  - intros k s [Hin|Hin]%elem_of_app; [by apply held_later; [|intros s'; apply Hkeep]|left; by apply Hour].
  - intros k s Hs. unfold seen_secret; cbn. destruct (Hnew k s Hs) as [Hs'|Hs']; [|set_solver].
    destruct (B4 k s Hs'); set_solver.
  - intros k o Ho. destruct (B5 k o Ho) as [[|] ?]; (split; [|done]); unfold seen_ca; cbn; set_solver.
  - intros k o Ho. destruct (B6 k o Ho) as [[|] ?]; (split; [|done]); unfold seen_node; cbn; set_solver.
  - intros k s Hs. destruct (B7 k s Hs); unfold seen_secret; cbn; set_solver.
Qed.

Lemma cas_kept c es : (forall o, (OurCA o ∉ es) /\ (TheirCA o ∉ es)) ->
  tracked (seen_ca (write c es w)) (cas (up w)) (length (log (write c es w))).
Proof.
  intros He. eapply tracked_same; [apply Hb|..].
  - intros o. unfold seen_ca; cbn. specialize (He o). set_solver.
  - cbn. rewrite length_app. lia.
Qed.

Lemma nodes_kept c es : (forall o, (OurNode o ∉ es) /\ (TheirNode o ∉ es)) ->
  tracked (seen_node (write c es w)) (nodes (up w)) (length (log (write c es w))).
Proof.
  intros He. eapply tracked_same; [apply Hb|..].
  - intros o. unfold seen_node; cbn. specialize (He o). set_solver.
  - cbn. rewrite length_app. lia.
Qed.

(** A version with a new number. *)
Lemma cas_put o e es c : (e = OurCA o \/ e = TheirCA o) -> oVersion o <= S (length (log w)) ->
  (forall x, seen_ca w x -> oKey x = oKey o -> oVersion x < oVersion o) -> es = [e] ->
  tracked (seen_ca (write c es w)) (<[oKey o := o]> (cas (up w))) (length (log (write c es w))).
Proof.
  intros He Ho Hx ->. eapply tracked_put; [apply Hb|..]; [|cbn; rewrite length_app; cbn; lia..|done].
  intros x. unfold seen_ca; cbn. set_solver.
Qed.

Lemma nodes_put o e es c : (e = OurNode o \/ e = TheirNode o) -> oVersion o <= S (length (log w)) ->
  (forall x, seen_node w x -> oKey x = oKey o -> oVersion x < oVersion o) -> es = [e] ->
  tracked (seen_node (write c es w)) (<[oKey o := o]> (nodes (up w))) (length (log (write c es w))).
Proof.
  intros He Ho Hx ->. eapply tracked_put; [apply Hb|..]; [|cbn; rewrite length_app; cbn; lia..|done].
  intros x. unfold seen_node; cbn. set_solver.
Qed.

Lemma fresh_ca x : seen_ca w x -> oVersion x < fresh w.
Proof. intros Hx. pose proof (t_bound _ _ _ (base_cas _ Hb) x Hx). unfold fresh. lia. Qed.

Lemma fresh_node x : seen_node w x -> oVersion x < fresh w.
Proof. intros Hx. pose proof (t_bound _ _ _ (base_nodes _ Hb) x Hx). unfold fresh. lia. Qed.

(** A cache that was brought up to date in part. *)
Lemma base_cache c :
  (forall k o, cas c !! k = Some o -> cas (cache w) !! k = Some o \/ cas (up w) !! k = Some o) ->
  (forall k o, nodes c !! k = Some o -> nodes (cache w) !! k = Some o \/ nodes (up w) !! k = Some o) ->
  (forall k s, secrets c !! k = Some s -> secrets (cache w) !! k = Some s \/ secrets (up w) !! k = Some s) ->
  base (on_cache (fun _ => c) w) /\ later w (on_cache (fun _ => c) w).
Proof.
  intros Hcas Hnodes Hsec. split; [|by apply later_same]. destruct Hb as [B1 B2 B3 B4 B5 B6 B7].
  split; [done|done|done|done| | |]; cbn [on_cache cache].
  - intros k o Ho. destruct (Hcas k o Ho) as [?|Hu]; [by apply B5|by apply (t_now _ _ _ B1)].
  - intros k o Ho. destruct (Hnodes k o Ho) as [?|Hu]; [by apply B6|by apply (t_now _ _ _ B2)].
  - intros k s Hs. destruct (Hsec k s Hs) as [?|Hu]; [by apply B7|by apply B4].
Qed.

Lemma sync_some {A} (k : key) (from to : gmap key A) (k' : key) (a : A) : sync k from to !! k' = Some a -> to !! k' = Some a \/ from !! k' = Some a.
Proof using Type.
  unfold sync. destruct (decide (k = k')) as [->|Hne]; [rewrite lookup_partial_alter_eq; by right|].
  rewrite lookup_partial_alter_ne by done. by left.
Qed.

Lemma base_env s : base (apply_env s w) /\ later w (apply_env s w).
Proof.
  destruct s as [k sp st|k|k sp st|k|k s|k|k|k|k]; cbn [apply_env].
  - apply base_write; cbn [with_cas cas nodes secrets]; [|apply nodes_kept; set_solver|set_solver|by left|by left].
    apply (cas_put (MkObject k (fresh w) sp st) (TheirCA (MkObject k (fresh w) sp st))); [by right|done| |done].
    intros x Hx _. by apply fresh_ca.
  - apply base_write; cbn [with_cas cas nodes secrets]; [|apply nodes_kept; set_solver|set_solver|by left|by left].
    eapply tracked_drop, cas_kept. set_solver.
  - apply base_write; cbn [with_nodes cas nodes secrets]; [apply cas_kept; set_solver| |set_solver|by left|by left].
    apply (nodes_put (MkObject k (fresh w) sp st) (TheirNode (MkObject k (fresh w) sp st))); [by right|done| |done].
    intros x Hx _. by apply fresh_node.
  - apply base_write; cbn [with_nodes cas nodes secrets]; [apply cas_kept; set_solver| |set_solver|by left|by left].
    eapply tracked_drop, nodes_kept. set_solver.
  - apply base_write; cbn [with_secrets cas nodes secrets]; [apply cas_kept; set_solver|apply nodes_kept; set_solver|set_solver| |].
    + intros k' s' Hs. destruct (decide (k = k')) as [->|Hne]; [right; exists (Some s); set_solver|left; by rewrite lookup_insert_ne].
    + intros k' s'. rewrite lookup_insert_Some. intros [[<- <-]|[_ ?]]; [right; right; set_solver|by left].
  - apply base_write; cbn [with_secrets cas nodes secrets]; [apply cas_kept; set_solver|apply nodes_kept; set_solver|set_solver| |].
    + intros k' s' Hs. destruct (decide (k = k')) as [->|Hne]; [right; exists None; set_solver|left; by rewrite lookup_delete_ne].
    + intros k' s' [_ ?]%lookup_delete_Some. by left.
  - apply (base_cache (with_cas _ (cache w))); [|by left|by left]. intros k' o. apply sync_some.
  - apply (base_cache (with_nodes _ (cache w))); [by left| |by left]. intros k' o. apply sync_some.
  - apply (base_cache (with_secrets _ (cache w))); [by left|by left|]. intros k' o. apply sync_some.
Qed.

Lemma base_same w' : up w' = up w -> cache w' = cache w -> log w' = log w -> base w'.
Proof.
  intros Hu Hc Hl. destruct Hb as [B1 B2 B3 B4 B5 B6 B7].
  split; unfold seen_ca, seen_node, seen_secret, held in *; rewrite ?Hu, ?Hc, ?Hl; done.
Qed.
End Writes.

Lemma env_all_base l w : base w -> base (apply_all l w) /\ later w (apply_all l w).
Proof.
  revert w. induction l as [|s l IH]; intros w Hb; cbn [apply_all foldl]; [by split|].
  destruct (base_env w Hb s) as [Hb' Hl]. destruct (IH _ Hb') as [Hb'' Hl']. split; [done|by etrans].
Qed.

(** What others do adds no version of the controller's to the log. *)
Definition theirs (e : event) : Prop :=
  match e with OurCA _ | OurNode _ => False | _ => True end.

Lemma env_log s w : exists es, log (apply_env s w) = log w ++ es /\ Forall theirs es.
Proof.
  destruct s; cbn [apply_env write log on_cache]; first [eexists; split; [reflexivity|by repeat constructor]
    |exists []; by rewrite app_nil_r].
Qed.

Lemma env_all_log l w : exists es, log (apply_all l w) = log w ++ es /\ Forall theirs es.
Proof.
  revert w. induction l as [|s l IH]; intros w; cbn [apply_all foldl]; [exists []; by rewrite app_nil_r|].
  destruct (env_log s w) as (es & He & Hes), (IH (apply_env s w)) as (es' & He' & Hes').
  exists (es ++ es'). unfold apply_all in He'. rewrite He', He, (assoc_L (++)). split; [done|by apply Forall_app].
Qed.

(** ** An invariant: what is true of the versions the controller marked ready *)

Section Invariant.
#[local] Set Default Proof Using "Type*".
Context (Rca : world -> NebulaCA -> Prop) (Rnode : world -> NebulaNode -> Prop).
Context (Rca_stable : forall o, stable (fun w => Rca w o)) (Rnode_stable : forall o, stable (fun w => Rnode w o)).

Definition inv (w : world) : Prop :=
  base w /\ (forall o, OurCA o ∈ log w -> ready o -> Rca w o) /\ (forall o, OurNode o ∈ log w -> ready o -> Rnode w o).

(** A version with another status. *)
Definition updated {spec} (o : object spec) (st : status) : object spec :=
  MkObject (oKey o) (S (oVersion o)) (oSpec o) st.

(** The status updates the controller may make; it creates no nodes. *)
Definition permitted (w : world) {X} (e : meshE X) : Prop :=
  match e with
  | MKube (UpdateCAStatus u) =>
      exists o st, u = with_status st o /\ seen_ca w o /\ (State st = "Ready" -> Rca w (updated o st))
  | MKube (UpdateNodeStatus u) =>
      exists o st, u = with_status st o /\ seen_node w o /\ (State st = "Ready" -> Rnode w (updated o st))
  | MKube (CreateNodeE _) => False
  | _ => True
  end.

(** A step that is sound keeps the invariant if it accounts for what it marks. *)
Lemma inv_step w w' es : inv w -> base w' /\ later w w' -> log w' = log w ++ es ->
  (forall o, OurCA o ∈ es -> ready o -> Rca w o) -> (forall o, OurNode o ∈ es -> ready o -> Rnode w o) ->
  inv w' /\ later w w'.
Proof.
  intros (_ & Hc & Hn) [Hb Hl] Hlog Hce Hne. split; [|done]. split_and!; [done| |]; rewrite Hlog.
  - intros o [Ho|Ho]%elem_of_app Hr; (eapply Rca_stable; [exact Hl|]); auto.
  - intros o [Ho|Ho]%elem_of_app Hr; (eapply Rnode_stable; [exact Hl|]); auto.
Qed.

Lemma inv_theirs w w' es : inv w -> base w' /\ later w w' -> log w' = log w ++ es -> Forall theirs es -> inv w' /\ later w w'.
Proof.
  intros Hi Hbl Hlog Hes. rewrite Forall_forall in Hes.
  apply (inv_step w w' es); [done..| |]; intros o Ho; by destruct (Hes _ Ho).
Qed.

Lemma write_same w : write (up w) [] w = w.
Proof using Type. destruct w. unfold write. cbn. by rewrite app_nil_r. Qed.

Lemma inv_refl w : inv w -> inv w /\ later w w.
Proof. by split. Qed.

Lemma update_key {spec} (m m' : gmap key (object spec)) (o : object spec) st : m' = <[oKey o := updated o st]> m ->
  m' !! oKey (with_status st o) = Some (updated o st).
Proof using Type. intros ->. cbn. apply lookup_insert_eq. Qed.

Lemma version_above {spec} (H : object spec -> Prop) m n o st m' : tracked H m n -> H o ->
  update_status m (with_status st o) = Ok m' -> oVersion (updated o st) <= S n /\
  forall x, H x -> oKey x = oKey o -> oVersion x < oVersion (updated o st).
Proof using Type.
  intros Ht Ho. unfold update_status, with_status. cbn [oKey oVersion]. destruct (m !! oKey o) as [cur|] eqn:Hc; [|done].
  destruct (Nat.eqb_spec (oVersion cur) (oVersion o)) as [Hv|]; [|done]. intros _.
  pose proof (t_bound _ _ _ Ht o Ho). split; [cbn; lia|]. intros x Hx Hk. cbn.
  enough (oVersion x <= oVersion cur) by lia. apply (t_latest _ _ _ Ht x cur Hx). by rewrite Hk.
Qed.

(** A call to the API server that takes effect. *)
Lemma kube_inv w X (e : kubeE X) : inv w -> permitted w (MKube e) ->
  let r := kube_step X e (up w) in
  let w' := write r.1 (written e r.2 r.1) w in inv w' /\ later w w'.
Proof.
  intros Hi Hp. pose proof Hi as (Hb & _ & _).
  destruct e as [k| |k| |n|k|k s|u|u]; cbn zeta; cbn [kube_step written fst snd];
    try (rewrite write_same; by apply inv_refl); [done| | |].
  - destruct (create (secrets (up w)) k s) as [m|] eqn:Hm; cbn [fst snd]; [|rewrite write_same; by apply inv_refl].
    unfold create in Hm. destruct (secrets (up w) !! k) eqn:Hk; [done|]. injection Hm as <-.
    apply (inv_theirs w _ [OurSecret k s]); [done| |done|by repeat constructor].
    apply base_write; [done|..]; cbn [with_secrets cas nodes secrets].
    + apply cas_kept; [done|set_solver].
    + apply nodes_kept; [done|set_solver].
    + intros k' s' [= -> ->]%list_elem_of_singleton. apply lookup_insert_eq.
    + intros k' s' Hs. left. rewrite lookup_insert_ne; [done|congruence].
    + intros k' s'. rewrite lookup_insert_Some. intros [[<- <-]|[_ ?]]; [right; left; set_solver|by left].
  - destruct Hp as (o & st & -> & Hs & HR).
    destruct (update_status (cas (up w)) (with_status st o)) as [m| | |] eqn:Hm; cbn [fst snd]; try (rewrite write_same; by apply inv_refl).
    destruct (tracked_update _ _ _ (base_cas _ Hb) o st m Hs Hm) as [Heq _].
    destruct (version_above _ _ _ o st m (base_cas _ Hb) Hs Hm) as [Hv Hx].
    cbn [with_cas cas]. rewrite (update_key _ m o st Heq). rewrite Heq.
    apply (inv_step w _ [OurCA (updated o st)]); [done| |done| |]; [|intros o' [= ->]%list_elem_of_singleton; apply HR|set_solver].
    apply base_write; [done|..]; cbn [with_cas cas nodes secrets]; [|apply nodes_kept; [done|set_solver]|set_solver|by left|by left].
    by apply (cas_put w Hb (updated o st) (OurCA (updated o st))); [left|..].
  - destruct Hp as (o & st & -> & Hs & HR).
    destruct (update_status (nodes (up w)) (with_status st o)) as [m| | |] eqn:Hm; cbn [fst snd]; try (rewrite write_same; by apply inv_refl).
    destruct (tracked_update _ _ _ (base_nodes _ Hb) o st m Hs Hm) as [Heq _].
    destruct (version_above _ _ _ o st m (base_nodes _ Hb) Hs Hm) as [Hv Hx].
    cbn [with_nodes nodes]. rewrite (update_key _ m o st Heq). rewrite Heq.
    apply (inv_step w _ [OurNode (updated o st)]); [done| |done| |]; [|set_solver|intros o' [= ->]%list_elem_of_singleton; apply HR].
    apply base_write; [done|..]; cbn [with_nodes cas nodes secrets]; [apply cas_kept; [done|set_solver]| |set_solver|by left|by left].
    by apply (nodes_put w Hb (updated o st) (OurNode (updated o st))); [left|..].
Qed.

Lemma env_all_inv l w : inv w -> inv (apply_all l w) /\ later w (apply_all l w).
Proof.
  intros Hi. destruct (env_all_log l w) as (es & Hl & Hes). apply (inv_theirs w _ es); [done| |done|done].
  apply env_all_base, Hi.
Qed.

Lemma turn_inv w : inv w -> inv (next_turn w) /\ later w (next_turn w).
Proof.
  intros Hi. apply (inv_theirs w _ []); [done| |by rewrite app_nil_r|done].
  split; [by apply (base_same w); [apply Hi|..]|by apply later_same].
Qed.

(** One call of the controller. *)
Lemma do_inv o n w X (e : meshE X) : inv w -> permitted w e ->
  inv (mesh_do o n e w).1 /\ later w (mesh_do o n e w).1.
Proof.
  intros Hi Hp. destruct e as [X e|k|k|k|addr ctype body| |i]; cbn [mesh_do fst]; try (by apply inv_refl).
  - pose proof (kube_inv w _ e Hi Hp) as Hk. cbn zeta in Hk. unfold kube_call.
    destruct (kube_step X e (up w)) as [c x]. cbn [fst snd] in Hk.
    destruct (fault o n) as [[[] err]|]; cbn [fst]; [done|by apply inv_refl|done].
  - apply (inv_theirs w _ [Posted addr body (reply_of o n addr body)]); [done| |done|by repeat constructor].
    apply base_write; [apply Hi|..]; [apply cas_kept; [apply Hi|set_solver]|apply nodes_kept; [apply Hi|set_solver]|set_solver|by left|by left].
Qed.

(** ** Triples: the invariant, a stable fact, and what an answer adds *)

Section Triples.
Context (o : oracle).

Definition triple {A} (F : world -> Prop) (m : go meshE A) (G : A -> world -> Prop) : Prop :=
  hoare (mesh_step o) (fun w => inv w /\ F w) m
    (fun r w => inv w /\ F w /\ match r with Ok a => G a w | _ => True end).

Definition no_fact {A} : A -> world -> Prop := fun _ _ => True.

Lemma triple_lift {A} F (r : outcome A) G : (forall a w, r = Ok a -> F w -> G a w) -> triple F (lift r) G.
Proof using Type. intros HG w [Hi HF]. cbn [lift run fst snd]. split_and!; [done|done|]. destruct r as [a| | |]; [by apply HG|done..]. Qed.

Lemma triple_bind {A B} F G H (m : go meshE A) (k : A -> go meshE B) :
  triple F m G -> (forall a, triple (fun w => F w /\ G a w) (k a) H) -> triple F (m ≫= k) H.
Proof using Type.
  intros Hm Hk w Hw. specialize (Hm w Hw). rewrite run_mbind. destruct (run (mesh_step o) m w) as [w' r]. cbn [fst snd] in Hm.
  destruct Hm as (Hi & HF & HG). destruct r as [a|e|y|]; [|done..].
  destruct (Hk a w' (conj Hi (conj HF HG))) as (Hi' & [HF' _] & HH). done.
Qed.

Lemma triple_handle {A B} F G H (m : go meshE A) (c : error -> go meshE B) (k : A -> go meshE B) :
  triple F m G -> (forall e, triple F (c e) H) -> (forall a, triple (fun w => F w /\ G a w) (k a) H) ->
  triple F (handle m c k) H.
Proof using Type.
  intros Hm Hc Hk w Hw. specialize (Hm w Hw). rewrite run_handle. destruct (run (mesh_step o) m w) as [w' r]. cbn [fst snd] in Hm.
  destruct Hm as (Hi & HF & HG). destruct r as [a|e|y|]; [|by apply Hc|done..].
  destruct (Hk a w' (conj Hi (conj HF HG))) as (Hi' & [HF' _] & HH). done.
Qed.

Lemma triple_weaken {A} (F F' : world -> Prop) (m : go meshE A) G : (forall w, F w <-> F' w) -> triple F m G -> triple F' m G.
Proof using Type.
  intros HF Hm w [Hi Hw]. apply HF in Hw. destruct (Hm w (conj Hi Hw)) as (? & ?%HF & ?). done.
Qed.

(** One call: it must be permitted, and its effect gives the fact. *)
Lemma triple_call {A} F (e : meshE (outcome A)) G :
  stable F -> (forall w, inv w -> F w -> permitted w e) ->
  (forall n w a, inv w -> F w -> (mesh_do o n e w).2 = Ok a -> G a (mesh_do o n e w).1) ->
  triple F (call e) G.
Proof.
  intros HF Hp HG w [Hi HFw]. rewrite run_call. unfold mesh_step.
  destruct (env_all_inv (env o (turn w)) w Hi) as [Hi1 Hl1]. destruct (turn_inv _ Hi1) as [Hi2 Hl2].
  assert (Hl : later w (next_turn (apply_all (env o (turn w)) w))) by (by etrans).
  pose proof (HF _ _ Hl HFw) as HF2. set (w2 := next_turn _) in *.
  destruct (do_inv o (turn w) w2 _ e Hi2 (Hp _ Hi2 HF2)) as [Hi3 Hl3].
  pose proof (HG (turn w) w2) as HG'. destruct (mesh_do o (turn w) e w2) as [w3 r]. cbn [fst snd] in *.
  split_and!; [done|by apply (HF _ _ Hl3)|]. destruct r as [a| | |]; [by apply HG'|done..].
Qed.

Lemma triple_ca F k : stable F -> triple F (CALister k) (fun ca w => seen_ca w ca /\ oKey ca = k).
Proof.
  intros HF. apply triple_call; [done|done|]. intros n w ca [Hb _] _. cbn [mesh_do fst snd]. unfold lookup_or.
  destruct (cas (cache w) !! k) as [c|] eqn:Hk; [|done]. intros [= <-]. by apply (cached_cas _ Hb).
Qed.

Lemma triple_node F k : stable F -> triple F (NodeLister k) (fun n w => seen_node w n /\ oKey n = k).
Proof.
  intros HF. apply triple_call; [done|done|]. intros n w nd [Hb _] _. cbn [mesh_do fst snd]. unfold lookup_or.
  destruct (nodes (cache w) !! k) as [c|] eqn:Hk; [|done]. intros [= <-]. by apply (cached_nodes _ Hb).
Qed.

Lemma triple_secret F k : stable F -> triple F (SecretLister k) (fun s w => seen_secret w k s).
Proof.
  intros HF. apply triple_call; [done|done|]. intros n w s [Hb _] _. cbn [mesh_do fst snd]. unfold lookup_or.
  destruct (secrets (cache w) !! k) as [c|] eqn:Hk; [|done]. intros [= <-]. by apply (cached_secrets _ Hb).
Qed.

Lemma triple_post F addr ctype body : stable F ->
  triple F (post_reply addr ctype body) (fun a w => Posted addr body (Ok a) ∈ log w /\ exists n, reply_of o n addr body = Ok a).
Proof.
  intros HF. apply triple_call; [done|done|]. intros n w a _ _. cbn [mesh_do fst snd write log]. intros Ha. rewrite Ha.
  split; [|by exists n]. apply elem_of_app. right. by apply list_elem_of_singleton.
Qed.

(** A call to the API server that is answered without an error took effect. *)
Lemma kube_call_ok {A} f (e : kubeE (outcome A)) w a : (kube_call f e w).2 = Ok a ->
  (forall err, kube_error e err = Err err) ->
  let r := kube_step _ e (up w) in r.2 = Ok a /\ (kube_call f e w).1 = write r.1 (written e r.2 r.1) w.
Proof.
  unfold kube_call. cbn zeta. destruct (kube_step _ e (up w)) as [c x]. intros H He.
  destruct f as [[[] err]|]; cbn [fst snd] in *; [by rewrite He in H..|done].
Qed.

(** Storing a secret: only under a name that is free. *)
Lemma triple_create F k s (G : world -> Prop) : stable F -> stable G ->
  (forall w, inv w -> F w -> secrets (up w) !! k = None -> G w) ->
  triple F (Secrets_Create k s) (fun _ w => OurSecret k s ∈ log w /\ G w).
Proof.
  intros HF HG HFG. apply triple_call; [done|done|]. intros n w [] Hi Hw H.
  destruct (do_inv o n w _ (MKube (CreateSecret k s)) Hi I) as [_ Hl].
  cbn [mesh_do] in *. pose proof (kube_call_ok _ _ _ _ H (fun _ => eq_refl)) as [Hr He]. rewrite He in Hl |- *.
  cbn [kube_step] in Hr, Hl |- *. unfold create in Hr, Hl |- *.
  destruct (secrets (up w) !! k) eqn:Hk; [done|]. cbn [fst snd written write log] in *. split; [set_solver|].
  by apply (HG w), HFG.
Qed.

Lemma triple_update_ca F ca st : stable F ->
  (forall w, inv w -> F w -> seen_ca w ca /\ (State st = "Ready" -> Rca w (updated ca st))) ->
  triple F (CAs_UpdateStatus (with_status st ca)) no_fact.
Proof. intros HF Hu. apply triple_call; [done| |done]. intros w Hi Hw. exists ca, st. split; [done|]. by apply Hu. Qed.

Lemma triple_update_node F n st : stable F ->
  (forall w, inv w -> F w -> seen_node w n /\ (State st = "Ready" -> Rnode w (updated n st))) ->
  triple F (Nodes_UpdateStatus (with_status st n)) no_fact.
Proof. intros HF Hu. apply triple_call; [done| |done]. intros w Hi Hw. exists n, st. split; [done|]. by apply Hu. Qed.

Lemma triple_get F : stable F -> triple F Get no_fact.
Proof. intros HF. by apply triple_call. Qed.

Lemma triple_note F i : stable F -> triple F (call (MNote i)) no_fact.
Proof. intros HF. by apply triple_call. Qed.
End Triples.
End Invariant.

Lemma stable_and (F G : world -> Prop) : stable F -> stable G -> stable (fun w => F w /\ G w).
Proof. intros HF HG w w' Hl [? ?]. split; [by apply (HF w)|by apply (HG w)]. Qed.

Lemma stable_or (F G : world -> Prop) : stable F -> stable G -> stable (fun w => F w \/ G w).
Proof. intros HF HG w w' Hl [?|?]; [left; by apply (HF w)|right; by apply (HG w)]. Qed.

Lemma stable_const (P : Prop) : stable (fun _ => P).
Proof. by intros w w' _. Qed.

Lemma stable_log e : stable (fun w => e ∈ log w).
Proof. intros w w' Hl. by apply later_log. Qed.

Lemma stable_seen_ca ca : stable (fun w => seen_ca w ca).
Proof. apply stable_or; apply stable_log. Qed.

Lemma stable_seen_node n : stable (fun w => seen_node w n).
Proof. apply stable_or; apply stable_log. Qed.

Lemma stable_seen_secret k s : stable (fun w => seen_secret w k s).
Proof. apply stable_or; apply stable_log. Qed.

Create HintDb mesh.
#[export] Hint Resolve stable_and stable_const stable_log stable_seen_ca stable_seen_node stable_seen_secret : mesh.
