(* ===== verification/NebulaTheorems.v ===== *)
(** * What the controller of the mesh guarantees

    Credentials behind every object the controller marks ready, whatever happens
    around it; and two ways in which an authority never becomes ready. *)
From S2P Require Import Prelude GoLib GoStrings GoBase64 NebulaCert NebulaKube NebulaApi NebulaController NebulaWorld.
Open Scope string_scope.
Open Scope list_scope.

(** The API was asked so and its answer holds these keys. *)
Definition answered (w : world) (addr : string) (body : json) (keys : string * string) : Prop :=
  exists a, Posted addr body (Ok a) ∈ log w /\ (v ← a.2; Client.decode_keys v) = Ok keys.

(** The controller stored this secret; it is there, or someone else wrote or
    deleted it since. *)
Definition kept (w : world) (k : key) (s : Secret) : Prop := OurSecret k s ∈ log w /\ held w k s.

(** The secret of an authority holds what the API made for it. *)
Definition ca_creds (P : world -> key -> Secret -> Prop) (w : world) (ca : NebulaCA) : Prop :=
  exists keys, P w (oNamespace ca, caSecretName (oSpec ca)) (ca_secret keys) /\
    answered w (apiAddr (oName ca) +:+ "/api/process/ca") (Client.encode_ca_req (oName ca)) keys.

(** The secret of a node holds the certificate of its authority, which was ready,
    and the one the API signed with the authority's key for the node's name, key
    and address. *)
Definition node_creds (P : world -> key -> Secret -> Prop) (w : world) (n : NebulaNode) : Prop :=
  exists ca s keys, seen_ca w ca /\ oKey ca = (CANamespace (oSpec n), CAName (oSpec n)) /\ ready ca /\
    seen_secret w (CANamespace (oSpec n), caSecretName (oSpec ca)) s /\
    P w (oNamespace n, SecretName (oSpec n)) (node_secret s keys) /\
    answered w (apiAddr (CAName (oSpec n)) +:+ "/api/process/node") (Client.encode_sign_req (sign_request s n)) keys.

Definition stored (w : world) (k : key) (s : Secret) : Prop := OurSecret k s ∈ log w.

Lemma answered_stable addr body keys : stable (fun w => answered w addr body keys).
Proof. intros w w' Hl (a & Ha & Hk). exists a. split; [by apply (later_log _ w)|done]. Qed.

Lemma ca_creds_stable ca : stable (fun w => ca_creds stored w ca).
Proof.
  intros w w' Hl (keys & Hs & Ha). exists keys. split; [by apply (later_log _ w)|by apply (answered_stable _ _ _ w)].
Qed.

Lemma node_creds_stable n : stable (fun w => node_creds stored w n).
Proof.
  intros w w' Hl (ca & s & keys & Hca & Hk & Hr & Hs & Hn & Ha). exists ca, s, keys.
  split_and!; [by apply (stable_seen_ca _ w)|done|done|by apply (stable_seen_secret _ _ w)|by apply (later_log _ w)|
    by apply (answered_stable _ _ _ w)].
Qed.

Lemma true_stable {A} : forall a : A, stable (fun _ => True).
Proof. by intros a w w'. Qed.

#[export] Hint Resolve answered_stable ca_creds_stable node_creds_stable true_stable : mesh.

Section Worker.
Context (Rca : world -> NebulaCA -> Prop) (Rnode : world -> NebulaNode -> Prop).
Context (Rca_stable : forall o, stable (fun w => Rca w o)) (Rnode_stable : forall o, stable (fun w => Rnode w o)).
Context (Split : string -> outcome key) (o : oracle).
#[local] Set Default Proof Using "Type*".

Abbreviation triple := (triple Rca Rnode o).
Abbreviation inv := (inv Rca Rnode).

#[local] Ltac rule H := apply (H Rca Rnode Rca_stable Rnode_stable).

Lemma triple_fail {A} F e G : triple F (fail e : go meshE A) G.
Proof. by apply triple_lift. Qed.

Lemma triple_done F : triple F (mret tt) no_fact.
Proof. by apply triple_lift. Qed.

(** The API can answer the request with these keys. *)
Definition can_answer (addr : string) (body : json) (keys : string * string) : Prop :=
  exists n a, reply_of o n addr body = Ok a /\ (v ← a.2; Client.decode_keys v) = Ok keys.

Lemma post_for_keys_triple F addr body : stable F ->
  triple F (Client.post_for_keys addr body) (fun keys w => answered w addr body keys /\ can_answer addr body keys).
Proof.
  intros HF. unfold Client.post_for_keys. eapply triple_bind; [by rule triple_post|].
  intros a. apply triple_lift. intros keys w Hk [_ [Ha [n Hn]]]. split; [by exists a|by exists n, a].
Qed.

(** ** One authority *)

Lemma ready_eqb {spec} (ob : object spec) : String.eqb (State (oStatus ob)) "Ready" = false -> ~ ready ob.
Proof. intros H%String.eqb_neq. done. Qed.

Definition made_ready {spec} (o : object spec) : object spec := updated o (MkStatus "Ready" "Generated credentials").

(** What is to be shown of an authority: [G] is what follows from the name of its
    secret being free, and it must do for marking the authority. *)
Definition ca_rule (F : world -> Prop) (ca : NebulaCA) (G : world -> Prop) : Prop :=
  stable G /\
  (forall w, inv w -> F w -> secrets (up w) !! (oNamespace ca, caSecretName (oSpec ca)) = None -> G w) /\
  (forall w keys, G w -> can_answer (apiAddr (oName ca) +:+ "/api/process/ca") (Client.encode_ca_req (oName ca)) keys ->
     ca_creds stored w (made_ready ca) -> Rca w (made_ready ca)).

Lemma process_ca_triple F k : stable F -> (forall ca, exists G, ca_rule F ca G) -> triple F (processCAWithKey Split k) no_fact.
Proof.
  intros HF HR. unfold processCAWithKey. destruct (Split k) as [[ns name]| | |]; [|apply triple_done..].
  eapply triple_handle; [by rule triple_ca|intros e; destruct (IsNotFound e); [apply triple_done|apply triple_fail]|].
  intros ca. unfold NebulaCAStateReady. destruct (String.eqb _ "Ready"); [apply triple_done|].
  unfold Client.CreateCertificateAuthority.
  eapply triple_bind; [apply post_for_keys_triple; auto with mesh|]. intros keys.
  destruct (HR ca) as (G & HG & Hfree & Hmark).
  eapply triple_bind; [apply (triple_create Rca Rnode Rca_stable Rnode_stable o) with (G := fun w => oKey ca = (ns, name) -> G w)|].
  - auto 10 with mesh.
  - intros w w' Hl Hw Hk. by apply (HG w), Hw.
  - intros w Hi [[HFw [_ Hk]] _] Hnone _. apply Hfree; [done..|]. unfold oNamespace. by rewrite Hk.
  - intros []. rule triple_update_ca.
    + repeat apply stable_and; auto with mesh. intros w w' Hl Hw Hk. by apply (HG w), Hw.
    + intros w Hi [[[HFw [Hseen Hk]] [Ha Hcan]] [Hs HGw]]. split; [done|]. intros _.
      apply (Hmark w keys); [by apply HGw|done|]. exists keys. unfold oNamespace, oName, made_ready, updated in *. cbn.
      rewrite Hk in *. by split.
Qed.

(** ** One node *)

Lemma process_node_triple F k : stable F ->
  (forall w n, node_creds stored w (made_ready n) -> Rnode w (made_ready n)) ->
  triple F (processNodeWithKey Split k) no_fact.
Proof.
  intros HF HR. unfold processNodeWithKey. destruct (Split k) as [[ns name]| | |]; [|apply triple_done..].
  eapply triple_handle; [by rule triple_node|intros e; destruct (IsNotFound e); [apply triple_done|apply triple_fail]|].
  intros n. unfold NebulaNodeStateReady, NebulaCAStateReady. destruct (String.eqb _ "Ready"); [apply triple_done|].
  eapply triple_bind; [rule triple_ca; auto with mesh|]. intros ca.
  destruct (String.eqb (State (oStatus ca)) "Ready") eqn:Hca; cbn [negb]; [|apply triple_fail]. apply String.eqb_eq in Hca.
  eapply triple_handle; [rule triple_secret; auto with mesh| |].
  { intros e. destruct (IsNotFound e); [|apply triple_fail].
    eapply triple_handle; [|intros ?; apply triple_fail|intros ?; apply triple_fail].
    rule triple_update_node; [auto 10 with mesh|]. by intros w _ [[_ [Hn _]] _]. }
  intros s. unfold Client.SignNebulaNode.
  eapply triple_bind; [apply post_for_keys_triple; auto with mesh|]. intros keys.
  eapply triple_bind; [apply (triple_create Rca Rnode Rca_stable Rnode_stable o) with (G := fun _ => True); auto 10 with mesh|]. intros [].
  rule triple_update_node; [auto 20 with mesh|].
  intros w Hi [[[[[HFw [Hn Hk]] [Hsca Hkca]] Hs] [Ha _]] [Hnew _]]. split; [done|]. intros _. apply HR.
  exists ca, s, keys. unfold made_ready, updated, oNamespace, oName in *. cbn. rewrite Hkca in *. cbn in *.
  unfold sign_request, oName in *. cbn in *. rewrite Hk in *. by split_and!.
Qed.

(** ** The worker *)

Lemma worker_triple F fuel : stable F ->
  (forall k, triple F (processCAWithKey Split k) no_fact) -> (forall k, triple F (processNodeWithKey Split k) no_fact) ->
  triple F (runWorker Split fuel) no_fact.
Proof.
  intros HF Hca Hnode.
  assert (Hnote : forall A F' (i : work_item) (c : go meshE A), stable F' -> triple F' c no_fact ->
    triple F' (_ ← call (MNote i); c) no_fact).
  { intros A F' i c HF' Hc. eapply triple_bind; [by rule triple_note|]. intros ?.
    eapply triple_weaken; [|exact Hc]. intros w. unfold no_fact. tauto. }
  assert (Hforget : forall F' i, stable F' -> triple F' (Forget i) no_fact).
  { intros F' i HF'. by rule triple_note. }
  assert (Hsync : forall (p : go meshE unit) i, triple F p no_fact ->
    triple F (check _u := p onerr _e => AddRateLimited i in _ ← Forget i; Forget i : go meshE unit) no_fact).
  { intros p i Hp. eapply triple_handle; [exact Hp|intros ?; by rule triple_note|]. intros a.
    set (F' := fun w => F w /\ no_fact a w). assert (HF' : stable F') by (unfold F', no_fact; auto with mesh).
    apply (Hnote unit F' i (Forget i) HF'). by apply Hforget. }
  induction fuel as [|fuel IH]; cbn [runWorker]; [by apply triple_lift|].
  eapply (triple_bind _ _ _ _ (fun _ : bool => fun _ => True)).
  - unfold processNextWorkItem. eapply triple_bind; [by rule triple_get|]. intros [i|]; [|by apply triple_lift].
    eapply (triple_bind _ _ _ _ no_fact).
    2:{ intros a. set (F' := fun w => (F w /\ no_fact (Some i) w) /\ no_fact a w).
        assert (HF' : stable F') by (unfold F', no_fact; auto with mesh).
        apply (Hnote bool F' i (mret true) HF'). by apply triple_lift. }
    eapply (triple_weaken _ _ _ F); [intros w; unfold no_fact; tauto|].
    destruct i; cbn [process_item]; [by apply Hsync..|by rule triple_note].
  - intros []; [|by apply triple_lift]. eapply triple_weaken; [|exact IH]. intros w. tauto.
Qed.
End Worker.

(** ** The theorems *)

Definition empty_world : world := MkWorld (MkCluster ∅ ∅ ∅) (MkCluster ∅ ∅ ∅) [] 0.

(** A controller that starts again knows nothing: its caches are empty. *)
Definition restarted (w : world) : world := MkWorld (up w) (MkCluster ∅ ∅ ∅) (log w) 0.

(** What becomes of an empty cluster, however often the controller is started. *)
Inductive lived : world -> Prop :=
  | lived_new : lived empty_world
  | lived_run Split o fuel w : lived w -> lived (run (mesh_step o) (runWorker Split fuel) (restarted w)).1.

Lemma empty_base : base empty_world.
Proof.
  split; cbn [empty_world up cache cas nodes secrets log length].
  1,2: split; [by intros k o; rewrite lookup_empty|by intros o o' [[]%not_elem_of_nil|[]%not_elem_of_nil]|
    by intros o [[]%not_elem_of_nil|[]%not_elem_of_nil]|by intros o cur [[]%not_elem_of_nil|[]%not_elem_of_nil]].
  all: intros k o; first [by intros []%not_elem_of_nil|by rewrite lookup_empty].
Qed.

Lemma restarted_base w : base w -> base (restarted w).
Proof.
  intros [B1 B2 B3 B4 B5 B6 B7]. split; cbn [restarted cache cas nodes secrets]; try done; intros k o; by rewrite lookup_empty.
Qed.

Lemma lived_inv w : lived w -> inv (ca_creds stored) (node_creds stored) w.
Proof.
  induction 1 as [|Split o fuel w _ (Hb & Hc & Hn)].
  { split; [apply empty_base|]. by split; intros o []%not_elem_of_nil. }
  assert (Hw : triple (ca_creds stored) (node_creds stored) o (fun _ => True) (runWorker Split fuel) no_fact).
  { apply worker_triple; [auto with mesh..| |]; intros k.
    - apply process_ca_triple; [auto with mesh..|]. intros ca. exists (fun _ => True). split_and!; [auto with mesh|done|done].
    - apply process_node_triple; [auto with mesh..|done]. }
  destruct (Hw (restarted w)) as [H _]; [|exact H]. split; [|done]. split; [by apply restarted_base|by split].
Qed.

Lemma stored_kept w k s : base w -> stored w k s -> kept w k s.
Proof. intros Hb Hs. split; [done|by apply (base_secrets _ Hb)]. Qed.

(** C22. Whatever users and other controllers make, edit and delete in between,
    the status of an object included, whatever the informers know, however the
    API of the mesh answers, whichever calls fail and however often the
    controller is started again: when it has marked an authority ready, it had
    stored, under the name this version of the authority gives, a secret with
    the keys the API made for it; when it has marked a node ready, it had stored
    a secret with the certificate of its authority, which was ready, and the
    certificate the API signed, with that authority's key, for the node's name,
    key and address. The secret is there, unless someone else wrote or deleted
    it since; and an object in the cluster that is ready was marked by the
    controller, unless someone else wrote its present version. *)
Theorem ready_has_credentials w (Hw : lived w) :
  (forall ca, OurCA ca ∈ log w -> ready ca -> ca_creds kept w ca) /\
  (forall n, OurNode n ∈ log w -> ready n -> node_creds kept w n) /\
  (forall k ca, cas (up w) !! k = Some ca -> oKey ca = k /\ (OurCA ca ∈ log w \/ TheirCA ca ∈ log w)) /\
  (forall k n, nodes (up w) !! k = Some n -> oKey n = k /\ (OurNode n ∈ log w \/ TheirNode n ∈ log w)).
Proof.
  destruct (lived_inv w Hw) as (Hb & Hc & Hn). split_and!.
  - intros ca Ho Hr. destruct (Hc ca Ho Hr) as (keys & Hs & Ha). exists keys. split; [by apply stored_kept|done].
  - intros n Ho Hr. destruct (Hn n Ho Hr) as (ca & s & keys & H1 & H2 & H3 & H4 & Hs & Ha). exists ca, s, keys.
    split_and!; [done..|by apply stored_kept|done].
  - intros k ca Ho. by destruct (t_now _ _ _ (base_cas _ Hb) k ca Ho).
  - intros k n Ho. by destruct (t_now _ _ _ (base_nodes _ Hb) k n Ho).
Qed.

(** Someone else wrote or deleted a secret since the log was [before]. *)
Definition touched (before : list event) (k : key) (w : world) : Prop :=
  exists new x, log w = before ++ new /\ TheirSecret k x ∈ new.

Lemma touched_stable before k : stable (touched before k).
Proof. intros w w' (more & Hl & _) (new & x & Hw & Hx). exists (new ++ more), x. rewrite Hl, Hw, (assoc_L (++)). split; [done|set_solver]. Qed.

(** An authority whose secret was stored but whose status was not: while nobody
    else touches the secret or writes a status, storing it fails ever after, so
    the authority is never marked ready. *)
Theorem half_made_authority_stuck Split o fuel w k ca
    (Hbase : base w) (Hnot : forall c, OurCA c ∈ log w -> oKey c = k -> ~ ready c)
    (Hsecret : is_Some (secrets (up w) !! (k.1, caSecretName (oSpec ca)))) :
  let w' := (run (mesh_step o) (runWorker Split fuel) w).1 in
  forall ca', cas (up w') !! k = Some ca' -> caSecretName (oSpec ca') = caSecretName (oSpec ca) -> ready ca' ->
    TheirCA ca' ∈ log w' \/ touched (log w) (k.1, caSecretName (oSpec ca)) w'.
Proof.
  intros w'. set (sk := (k.1, caSecretName (oSpec ca))).
  set (Rca := fun (w' : world) (c : NebulaCA) => oKey c = k -> caSecretName (oSpec c) = sk.2 -> touched (log w) sk w').
  set (Rnode := fun (_ : world) (_ : NebulaNode) => True).
  set (F := fun w' => (exists new, log w' = log w ++ new) /\ (is_Some (secrets (up w') !! sk) \/ touched (log w) sk w')).
  assert (HF : stable F).
  { intros w1 w2 Hl [[new Hnew] Hs]. pose proof Hl as (more & Hm & Hkeep). split; [exists (new ++ more); by rewrite Hm, Hnew, (assoc_L (++))|].
    destruct Hs as [[s Hs]|Ht]; [|right; by apply (touched_stable _ _ w1)].
    destruct (Hkeep sk s Hs) as [?|[x Hx]]; [left; by exists s|right]. exists (new ++ more), x. rewrite Hm, Hnew, (assoc_L (++)).
    split; [done|set_solver]. }
  assert (HRca : forall c, stable (fun w => Rca w c)).
  { intros c w1 w2 Hl H H1 H2. by apply (touched_stable _ _ w1); [|apply H]. }
  assert (HRnode : forall n, stable (fun w => Rnode w n)) by (unfold Rnode; auto with mesh).
  assert (Hw : triple Rca Rnode o F (runWorker Split fuel) no_fact).
  { apply worker_triple; [done..| |]; intros k'; [|by apply process_node_triple].
    apply process_ca_triple; [done..|]. intros c. exists (fun w => Rca w (made_ready c)). split_and!; [apply HRca| |done].
    intros w1 _ [_ Hs] Hnone H1 H2. cbn in H1, H2. destruct Hs as [[s Hs]|]; [|done].
    unfold oNamespace in Hnone. rewrite H1, H2 in Hnone. cbn in Hnone. unfold sk in Hs. congruence. }
  destruct (Hw w) as ((Hb & Hc & _) & _).
  { split; [split_and!; [done| |done]|split; [exists []; by rewrite app_nil_r|by left]].
    intros c Hc Hr Hk _. by destruct (Hnot c Hc Hk). }
  intros ca' Hca' Hsn Hr. destruct (t_now _ _ _ (base_cas _ Hb) _ _ Hca') as [[Ho|Ho] Hk]; [right|by left].
  by apply (Hc ca' Ho Hr Hk).
Qed.

(** C23. As deployed the controller makes no authority ready: it posts to a path
    the API does not serve. The present version of an authority that is ready
    was marked before this run, or someone else wrote it. *)
Theorem authorities_never_ready Split o fuel w
    (Hbase : base w)
    (Hserved : forall n ca path body, route_of path = None -> exists e, reply_of o n (apiAddr ca +:+ path) body = Ok (404%Z, Err e)) :
  let w' := (run (mesh_step o) (runWorker Split fuel) w).1 in
  forall k ca', cas (up w') !! k = Some ca' -> ready ca' -> OurCA ca' ∈ log w \/ TheirCA ca' ∈ log w'.
Proof.
  intros w'. set (Rca := fun (_ : world) (ca : NebulaCA) => OurCA ca ∈ log w).
  set (Rnode := fun (_ : world) (_ : NebulaNode) => True).
  assert (HRca : forall c, stable (fun w => Rca w c)) by (unfold Rca; auto with mesh).
  assert (HRnode : forall n, stable (fun w => Rnode w n)) by (unfold Rnode; auto with mesh).
  assert (HF : stable (fun _ => True)) by auto with mesh.
  assert (Hw : triple Rca Rnode o (fun _ => True) (runWorker Split fuel) no_fact).
  { apply worker_triple; [done..| |]; intros k; [|by apply process_node_triple].
    apply process_ca_triple; [done..|]. intros c. exists (fun _ => True). split_and!; [done|done|]. intros w1 keys _ (n & a & Ha & Hk) _.
    destruct (Hserved n (oName c) "/api/process/ca" (Client.encode_ca_req (oName c)) eq_refl) as [e He].
    rewrite He in Ha. by injection Ha as <-. }
  destruct (Hw w) as ((Hb & Hc & _) & _).
  { split; [|done]. split_and!; [done| |done]. by intros c Hc _. }
  intros k ca' Hca' Hr. destruct (t_now _ _ _ (base_cas _ Hb) _ _ Hca') as [[Ho|Ho] _]; [left|by right]. by apply Hc.
Qed.

(** ** The theorems at concrete inputs *)

(** The key of namespace "vpn", and an API that makes the same keys for all. *)
Definition demo_split (k : string) : outcome key := Ok ("vpn", k).

Definition demo_reply : json :=
  JObj [("private_key", JStr (EncodeToString "secret")); ("certificate", JStr (EncodeToString "certificate"))].

Definition demo_env (n : nat) : list env_step :=
  match n with 0 => [PutCA ("vpn", "mesh") (MkCASpec "ca-secret") no_status; SyncCA ("vpn", "mesh")] | _ => [] end.

Definition demo_item (n : nat) : option work_item := match n with 0 | 7 => Some (caRef "mesh") | _ => None end.

Definition demo_oracle : oracle := MkOracle demo_env (fun _ => None) (fun _ _ _ => Ok (200%Z, Ok demo_reply)) demo_item.

Definition demo_run : world := (run (mesh_step demo_oracle) (runWorker demo_split 3) (restarted empty_world)).1.

Definition demo_ready : NebulaCA := MkObject ("vpn", "mesh") 2 (MkCASpec "ca-secret") (MkStatus "Ready" "Generated credentials").

(** The authority is made and marked ready; then a user deletes its secret. *)
Definition delete_secret : oracle := MkOracle (fun n => match n with 0 => [DropSecret ("vpn", "ca-secret")] | _ => [] end)
  (fun _ => None) (fun _ _ _ => Ok (200%Z, Ok demo_reply)) (fun _ => None).

Definition deleted_run : world := (run (mesh_step delete_secret) (runWorker demo_split 3) (restarted demo_run)).1.

Lemma ready_has_credentials_witness :
  cas (up deleted_run) !! ("vpn", "mesh") = Some demo_ready /\ secrets (up deleted_run) !! ("vpn", "ca-secret") = None /\
  ca_creds kept deleted_run demo_ready.
Proof.
  assert (Hl : lived deleted_run) by (apply lived_run, lived_run, lived_new).
  destruct (ready_has_credentials deleted_run Hl) as (H & _).
  split; [by vm_compute|]. split; [by vm_compute|]. apply H; [|done].
  assert (log deleted_run = [TheirCA (MkObject ("vpn", "mesh") 1 (MkCASpec "ca-secret") no_status);
    Posted (apiAddr "mesh" +:+ "/api/process/ca") (Client.encode_ca_req "mesh") (Ok (200%Z, Ok demo_reply));
    OurSecret ("vpn", "ca-secret") (ca_secret ("secret", "certificate")); OurCA demo_ready; TheirSecret ("vpn", "ca-secret") None])
    as -> by (vm_compute; reflexivity).
  do 3 right. left.
Defined.

(** The status update of the first attempt fails, the second attempt runs to
    its end. *)
Definition demo_fault (n : nat) : option (bool * error) := match n with 4 => Some (false, errorf "timeout") | _ => None end.

Definition stuck_oracle : oracle := MkOracle demo_env demo_fault (fun _ _ _ => Ok (200%Z, Ok demo_reply)) demo_item.

Definition later_oracle : oracle := MkOracle (fun _ => []) (fun _ => None) (fun _ _ _ => Ok (200%Z, Ok demo_reply))
  (fun n => match n with 5 => Some (caRef "mesh") | _ => None end).

Definition stuck_world : world := (run (mesh_step stuck_oracle) (runWorker demo_split 1) (restarted empty_world)).1.

Definition demo_authority : NebulaCA := MkObject ("vpn", "mesh") 1 (MkCASpec "ca-secret") no_status.

Lemma stuck_log : log stuck_world = [TheirCA demo_authority;
    Posted (apiAddr "mesh" +:+ "/api/process/ca") (Client.encode_ca_req "mesh") (Ok (200%Z, Ok demo_reply));
    OurSecret ("vpn", "ca-secret") (ca_secret ("secret", "certificate"))].
Proof. vm_compute. reflexivity. Qed.

Definition stuck_later : world := (run (mesh_step later_oracle) (runWorker demo_split 5) stuck_world).1.

Lemma half_made_authority_stuck_witness :
  forall ca', cas (up stuck_later) !! ("vpn", "mesh") = Some ca' -> caSecretName (oSpec ca') = "ca-secret" -> ready ca' ->
    TheirCA ca' ∈ log stuck_later \/ touched (log stuck_world) ("vpn", "ca-secret") stuck_later.
Proof.
  apply (half_made_authority_stuck demo_split later_oracle 5 stuck_world ("vpn", "mesh") demo_authority).
  - apply (lived_inv stuck_world), lived_run, lived_new.
  - rewrite stuck_log. intros c Hc. exfalso. set_unfold. naive_solver.
  - exists (ca_secret ("secret", "certificate")). vm_compute. reflexivity.
Defined.

Definition deployed_oracle : oracle := MkOracle demo_env (fun _ => None) (fun _ _ _ => Ok (404%Z, Err err_json)) demo_item.

Definition deployed_run : world := (run (mesh_step deployed_oracle) (runWorker demo_split 9) empty_world).1.

Lemma authorities_never_ready_witness :
  cas (up deployed_run) !! ("vpn", "mesh") = Some demo_authority /\
  forall ca, cas (up deployed_run) !! ("vpn", "mesh") = Some ca -> ready ca -> OurCA ca ∈ [] \/ TheirCA ca ∈ log deployed_run.
Proof.
  split; [vm_compute; reflexivity|]. intros ca.
  apply (authorities_never_ready demo_split deployed_oracle 9 empty_world empty_base).
  intros n ca' path body _. by exists err_json.
Defined.
