(* ===== verification/NebulaApiTheorems.v ===== *)
(** * What the API of the mesh does with its requests

    Joining with a signature, the exchange with the controller, and the address
    a certificate ends up with. *)
From S2P Require Import Prelude GoLib GoStrings GoBase64 GoNet NebulaCert NebulaKube NebulaApi NebulaController.
From Stdlib Require Import Ascii.
Open Scope string_scope.
Open Scope list_scope.

(** ** Controller and API understand each other *)

(** A key of no bytes is not sent. *)
Definition sent_key (k : option string) : option string := match k with Some "" => None | _ => k end.

Lemma json_bytes_field k s fs : json_field k json_bytes None (JObj ((k, JStr (EncodeToString s)) :: fs)) = Ok (Some s).
Proof. rewrite json_field_hit by done. apply json_bytes_text. Qed.

(** The request for a certificate and its answer are read back as they were
    written, whatever bytes the keys hold. *)
Theorem signing_roundtrip (r : Client.signNodeReq) (n : NebulaNodeCert) (ca : CertificateAuthority) :
  decode_process_node (Client.encode_sign_req r) =
    Ok (MkProcessNode (Some (Client.snCAPrivateKey r)) (Some (Client.snCACert r)) (Client.snNodeName r)
          (sent_key (Client.snNodePublicKey r)) (Client.snNodeIPCidr r)) /\
  Client.decode_keys (encode_node_cert n) = Ok (bytes_text (nodePrivateKey n), nodeCertificate n) /\
  Client.decode_keys (encode_authority ca) = Ok (caPrivateKey ca, caCertificate ca).
Proof.
  split_and!.
  - destruct r as [k c name pk ip]. unfold decode_process_node, Client.encode_sign_req.
    cbn [Client.snCAPrivateKey Client.snCACert Client.snNodeName Client.snNodePublicKey Client.snNodeIPCidr].
    destruct pk as [[|ch pk]|]; json_simp; rewrite ?json_bytes_text; json_simp; rewrite ?json_bytes_text; json_simp;
      rewrite ?json_bytes_text; done.
  - destruct n as [[[|ch k]|] c]; unfold Client.decode_keys, encode_node_cert; cbn [nodePrivateKey nodeCertificate];
      json_simp; rewrite ?json_bytes_text; json_simp; rewrite ?json_bytes_text; done.
  - destruct ca as [k c]. unfold Client.decode_keys, encode_authority. cbn [caPrivateKey caCertificate].
    json_simp; rewrite ?json_bytes_text; json_simp; rewrite ?json_bytes_text; done.
Qed.

(** ** The address of a node *)

Lemma ParseCIDR_dotted a b c d n : octets [a; b; c; d] -> (n <= 32)%nat ->
  ParseCIDR (dotted [a; b; c; d] +:+ "/" +:+ Itoa (Z.of_nat n)) =
    Ok (ip_of_addr [a; b; c; d], MkIPNet (mask_ip [a; b; c; d] (CIDRMask n)) (CIDRMask n)).
Proof.
  intros Ho Hn. unfold ParseCIDR. change ("/" +:+ Itoa (Z.of_nat n)) with (String "/"%char (Itoa (Z.of_nat n))).
  rewrite Split_app.
  2:{ pose proof Ho as Ho'. unfold octets in Ho'. rewrite !Forall_cons in Ho'. destruct Ho' as (Ha & Hb & Hc & Hd & _).
      unfold dotted. cbn [map Join]. rewrite !no_char_app. split_and!; try (by apply Itoa_no_char; [|lia]); done. }
  rewrite Split_none by (apply Itoa_no_char; [done|lia]). rewrite (ParseIP4_dotted _ _ _ _ Ho). cbn [mbind outcome_bind].
  assert (Hm : (negb (String.eqb (Itoa (Z.of_nat n)) "") && forall_char is_digit (Itoa (Z.of_nat n)) &&
    (dec_val (Itoa (Z.of_nat n)) 0 <=? 32)%nat) = true /\ dec_val (Itoa (Z.of_nat n)) 0 = n).
  { do 33 (destruct n as [|n]; [split; reflexivity|]). lia. }
  destruct Hm as [-> ->]. done.
Qed.

Definition with_address (ip : string) (req : processNodeReq) : processNodeReq :=
  MkProcessNode (CAPrivateKey req) (CACert req) (NodeName req) (NodePublicKey req) ip.

Section Address.
Context `{!CertLib} {E : Type -> Type} `{!Entropy E}.

(** The certificate of a node carries the address of its network instead of its
    own: host [x] in a network of [n] bits gets what every other host of that
    network gets. *)
Theorem node_address_lost a b c d n req v
    (Hx : octets [a; b; c; d]) (Hn : n <= 32)
    (Hv : decode_process_node v = Ok (with_address (dotted [a; b; c; d] +:+ "/" +:+ Itoa (Z.of_nat n)) req)) :
  let network := MkIPNet (mask_ip [a; b; c; d] (CIDRMask n)) (CIDRMask n) in
  (processNode (Ok v) : go E (reply nebula_page)) =
    (check node := SignNebulaNode (bytes_text (CAPrivateKey req)) (bytes_text (CACert req)) (NodeName req) (NodePublicKey req) network
       onerr e => bad_request e in mret (Page (NodeResp node))) /\
  (forall a' b' c' d' v', octets [a'; b'; c'; d'] ->
     mask_ip [a'; b'; c'; d'] (CIDRMask n) = mask_ip [a; b; c; d] (CIDRMask n) ->
     decode_process_node v' = Ok (with_address (dotted [a'; b'; c'; d'] +:+ "/" +:+ Itoa (Z.of_nat n)) req) ->
     (processNode (Ok v') : go E (reply nebula_page)) = processNode (Ok v)).
Proof.
  intros network.
  split.
  - unfold processNode. cbn [mbind outcome_bind]. rewrite Hv. cbn [lift handle bindp with_address NodeIPCidr].
    by rewrite ParseCIDR_dotted.
  - intros a' b' c' d' v' Hy Hm Hv'. unfold processNode. cbn [mbind outcome_bind]. rewrite Hv, Hv'.
    cbn [lift handle bindp with_address NodeIPCidr]. rewrite !ParseCIDR_dotted by done.
    cbn [lift handle bindp snd]. by rewrite Hm.
Qed.
End Address.

(** ** Joining *)

(** The API in front of a cluster where others store secrets: [arrivals n] come
    in before its n-th call. *)
Record api_world := MkApi { ap_cluster : cluster; ap_turn : nat }.

Definition store_secret (c : cluster) (ks : key * Secret) : cluster :=
  match create (secrets c) ks.1 ks.2 with Some m => with_secrets (fun _ => m) c | None => c end.

Definition api_step (arrivals : nat -> list (key * Secret)) : handler kubeE api_world := fun X e w =>
  let '(c, x) := kube_step X e (foldl store_secret (ap_cluster w) (arrivals (ap_turn w))) in
  (MkApi c (S (ap_turn w)), x).

#[export] Instance kube_client : NebulaClient kubeE := client_in (fun X e => e).

(** What the arrivals leave alone. *)
Lemma stored_rest l c : let c' := foldl store_secret c l in
  cas c' = cas c /\ nodes c' = nodes c /\ forall k s, secrets c !! k = Some s -> secrets c' !! k = Some s.
Proof.
  cbn zeta. revert c. induction l as [|[k s] l IH]; intros c; [done|]. cbn [foldl].
  destruct (IH (store_secret c (k, s))) as (H1 & H2 & H3). unfold store_secret, create in *. cbn [fst snd] in *.
  destruct (secrets c !! k) eqn:Hk; [done|]. rewrite H1, H2. split_and!; [done..|].
  intros k' s' Hs. apply H3. cbn [with_secrets secrets]. by rewrite lookup_insert_ne by congruence.
Qed.

(** Only the secret [s] arrives under [k], so that is what is stored there. *)
Lemma stored_only l c k s : (forall s', (k, s') ∈ l -> s' = s) -> (forall s', secrets c !! k = Some s' -> s' = s) ->
  forall s', secrets (foldl store_secret c l) !! k = Some s' -> s' = s.
Proof.
  revert c. induction l as [|[k1 s1] l IH]; intros c Hl Hc; [done|]. cbn [foldl]. apply IH; [set_solver|].
  intros s'. unfold store_secret, create. cbn [fst snd]. destruct (secrets c !! k1) eqn:Hk1; [apply Hc|].
  cbn [with_secrets secrets]. rewrite lookup_insert_Some. intros [[-> <-]|[_ H]]; [apply Hl; by left|by apply Hc].
Qed.

Lemma stored_arrives l c k s : (forall s', (k, s') ∈ l -> s' = s) -> (k, s) ∈ l ->
  (forall s', secrets c !! k = Some s' -> s' = s) -> secrets (foldl store_secret c l) !! k = Some s.
Proof.
  intros Hl Hin Hc.
  assert (Hsome : is_Some (secrets (foldl store_secret c l) !! k)).
  { clear Hl Hc. revert c. induction l as [|[k1 s1] l IH]; intros c; [by apply not_elem_of_nil in Hin|]. cbn [foldl].
    apply elem_of_cons in Hin as [[= <- <-]|Hin]; [|by apply IH].
    destruct (stored_rest l (store_secret c (k, s))) as (_ & _ & Hkeep). unfold store_secret, create in *. cbn [fst snd] in *.
    destruct (secrets c !! k) as [s'|] eqn:Hk; [exists s'; by apply Hkeep|]. exists s. apply Hkeep. apply lookup_insert_eq. }
  destruct Hsome as [s' Hs']. by rewrite Hs', (stored_only l c k s Hl Hc s' Hs').
Qed.

Section Join.
Context `{!CertLib, !Crypto kubeE} (ns ca_name : string) (cfgTmpl pki : list (string * json)) (Hpki : get_field "pki" cfgTmpl = Some (JObj pki)).
Context (arrivals : nat -> list (key * Secret)).
#[local] Set Default Proof Using "Type*".
Abbreviation step := (api_step arrivals).

(** The configuration of a node with the secret [s]. *)
Definition node_config (s : Secret) : list (string * json) :=
  set_field "pki" (JObj (set_field "cert" (JStr (data s "host.crt")) (set_field "ca" (JStr (data s "ca.crt")) pki))) cfgTmpl.

Lemma run_api {A} (e : kubeE (outcome A)) w :
  run step (call e) w = let '(c, x) := kube_step _ e (foldl store_secret (ap_cluster w) (arrivals (ap_turn w))) in (MkApi c (S (ap_turn w)), x).
Proof. by rewrite run_call. Qed.

Lemma run_GetNodeConfig name n w :
  nodes (ap_cluster w) !! (ns, name) = Some n ->
  exists w', run step (GetNodeConfig cfgTmpl ns name) w =
      (w', match secrets (ap_cluster w') !! (ns, SecretName (oSpec n)) with Some s => Ok (node_config s) | None => Err not_found end) /\
    ap_turn w' = S (S (ap_turn w)) /\
    ap_cluster w' = foldl store_secret (foldl store_secret (ap_cluster w) (arrivals (ap_turn w))) (arrivals (S (ap_turn w))).
Proof.
  intros Hn. destruct (stored_rest (arrivals (ap_turn w)) (ap_cluster w)) as (_ & Hnodes & _).
  set (c1 := foldl store_secret (ap_cluster w) (arrivals (ap_turn w))) in *.
  exists (MkApi (foldl store_secret c1 (arrivals (S (ap_turn w)))) (S (S (ap_turn w)))). split; [|done].
  unfold GetNodeConfig, getNodeSecret. cbn [Nodes_Get Secrets_Get kube_client client_in].
  rewrite run_mbind, run_mbind, run_api. fold c1. cbn [kube_step]. unfold lookup_or at 1. rewrite Hnodes, Hn.
  rewrite run_api. cbn [ap_cluster ap_turn kube_step]. unfold lookup_or.
  destruct (secrets _ !! _) as [s|]; [|done]. by rewrite Hpki.
Qed.

Section Waiting.
Context (n : NebulaNode) (s : Secret) (T : nat).
Abbreviation k := ((ns, SecretName (oSpec n)) : key).
Context (Honly : forall m s', (k, s') ∈ arrivals m -> s' = s) (Hat : (k, s) ∈ arrivals T).

(** The secret that stands under the name of the node's, if any, is [s]; it is
    there once turn [T] is over. *)
Definition awaiting (w : api_world) : Prop :=
  (forall s', secrets (ap_cluster w) !! k = Some s' -> s' = s) /\
  (T < ap_turn w -> secrets (ap_cluster w) !! k = Some s).

Lemma awaiting_next c t : awaiting (MkApi c t) -> awaiting (MkApi (foldl store_secret c (arrivals t)) (S t)).
Proof.
  intros [H1 H2]. cbn [ap_cluster ap_turn] in *. split; cbn [ap_cluster ap_turn].
  - apply stored_only; [apply Honly|exact H1].
  - intros Ht. destruct (decide (T = t)) as [<-|Hne]; [by apply stored_arrives; [apply Honly| |]|].
    destruct (stored_rest (arrivals t) c) as (_ & _ & Hkeep). apply Hkeep, H2. lia.
Qed.

Lemma run_wait_config fuel w (K : list (string * json) -> go kubeE (reply nebula_page)) :
  nodes (ap_cluster w) !! (ns, (oKey n).2) = Some n -> awaiting w -> T < ap_turn w + 2 * fuel -> 0 < fuel ->
  exists w', run step (wait_config ns cfgTmpl fuel (oKey n).2 K) w = run step (K (node_config s)) w' /\
    nodes (ap_cluster w') = nodes (ap_cluster w).
Proof.
  revert w. induction fuel as [|fuel IH]; intros w Hn Hw HT Hpos; [lia|]. cbn [wait_config]. rewrite run_handle.
  destruct (run_GetNodeConfig (oKey n).2 n w Hn) as (w' & -> & Hturn & Hc).
  assert (Hw' : awaiting w').
  { destruct w as [c t], w' as [c' t']. cbn [ap_cluster ap_turn] in *. subst c' t'. by apply awaiting_next, awaiting_next. }
  assert (Hnodes : nodes (ap_cluster w') = nodes (ap_cluster w)).
  { rewrite Hc. destruct (stored_rest (arrivals (S (ap_turn w))) (foldl store_secret (ap_cluster w) (arrivals (ap_turn w)))) as (_ & -> & _).
    by destruct (stored_rest (arrivals (ap_turn w)) (ap_cluster w)) as (_ & -> & _). }
  destruct (secrets (ap_cluster w') !! _) as [s'|] eqn:Hs; [exists w'; by rewrite (proj1 Hw' s' Hs)|].
  assert (HT' : ap_turn w' <= T).
  { destruct (decide (ap_turn w' <= T)); [done|]. by rewrite (proj2 Hw') in Hs by lia. }
  destruct (IH w') as (w'' & Hrun & Hn''); [by rewrite Hnodes|done|lia|lia|]. exists w''. by rewrite Hn'', Hnodes.
Qed.
End Waiting.

Context (keytext priv : string) (Hkeytext : UnmarshalEd25519PrivateKey keytext = Ok priv).

(** The key of the authority, two calls after turn [t]. *)
Lemma run_ca_key {A} (K : string -> go kubeE A) ca sec c t :
  cas c !! (ns, ca_name) = Some ca -> secrets c !! (ns, caSecretName (oSpec ca)) = Some sec -> data sec "ca.key" = keytext ->
  run step (secret ← getCASecret ns ca_name; edPriv ← lift (UnmarshalEd25519PrivateKey (data secret "ca.key")); K edPriv) (MkApi c t) =
    run step (K priv) (MkApi (foldl store_secret (foldl store_secret c (arrivals t)) (arrivals (S t))) (S (S t))).
Proof.
  intros Hca Hsec Hdata.
  destruct (stored_rest (arrivals t) c) as (Hcas & _ & Hk0). set (c1 := foldl store_secret c (arrivals t)) in *.
  destruct (stored_rest (arrivals (S t)) c1) as (_ & _ & Hk1).
  unfold getCASecret. cbn [CAs_Get Secrets_Get kube_client client_in].
  rewrite run_mbind, run_mbind, run_api. cbn [ap_cluster ap_turn]. fold c1. cbn [kube_step]. unfold lookup_or at 1.
  rewrite Hcas, Hca. rewrite run_api. cbn [ap_cluster ap_turn kube_step]. unfold lookup_or.
  rewrite (Hk1 _ _ (Hk0 _ _ Hsec)). rewrite run_mbind. cbn [lift run]. by rewrite Hdata, Hkeytext.
Qed.

(** The node that joining makes. *)
Definition joined_node (req : joinReq) : NebulaNode :=
  MkObject (ns, jName req) 1
    (MkNodeSpec ca_name ns (jIPCidr req) (bytes_text (jPublicKey req)) "" (jName req +:+ "-cert")) no_status.

(** Of a cluster whose secret for the node arrives at turn [T]. *)
Record joinable (req : joinReq) (s : Secret) (T : nat) (w : api_world) : Prop := {
  jb_ca : exists ca sec, cas (ap_cluster w) !! (ns, ca_name) = Some ca /\
    secrets (ap_cluster w) !! (ns, caSecretName (oSpec ca)) = Some sec /\ data sec "ca.key" = keytext;
  jb_free : nodes (ap_cluster w) !! (ns, jName req) = None;
  jb_only : forall m s', ((ns, jName req +:+ "-cert"), s') ∈ arrivals m -> s' = s;
  jb_at : ((ns, jName req +:+ "-cert"), s) ∈ arrivals T;
  jb_awaiting : awaiting (joined_node req) s T w;
}.

(** It stays one while time passes. *)
Lemma joinable_next req s T c t :
  joinable req s T (MkApi c t) -> joinable req s T (MkApi (foldl store_secret c (arrivals t)) (S t)).
Proof using Type.
  intros [(ca & sec & Hca & Hsec & Hdata) Hfree Honly Hat Haw]. cbn [ap_cluster] in *.
  destruct (stored_rest (arrivals t) c) as (Hcas & Hnodes & Hkeep). constructor; cbn [ap_cluster]; [|by rewrite Hnodes|done|done|].
  - exists ca, sec. rewrite Hcas. split_and!; [done|by apply Hkeep|done].
  - by apply awaiting_next.
Qed.

Lemma run_join fuel v req s T w :
  decode_join v = Ok req -> joinable req s T w -> 0 < fuel -> T < ap_turn w + fuel ->
  let '(w', r) := run step (join ns ca_name cfgTmpl fuel (Ok v)) w in
  if ed_verify (ed_public priv) (bytes_text (jMessage req)) (bytes_text (jSignature req)) then
    r = Ok (Page (ConfigResp (node_config s))) /\
    nodes (ap_cluster w') = <[(ns, jName req) := joined_node req]> (nodes (ap_cluster w))
  else r = Ok (HttpError "Signature could not be verified" StatusBadRequest) /\ nodes (ap_cluster w') = nodes (ap_cluster w).
Proof.
  intros Hv Hj Hpos Hfuel. destruct w as [c t]. cbn [ap_cluster ap_turn] in *.
  pose proof (joinable_next _ _ _ _ _ (joinable_next _ _ _ _ _ Hj)) as Hj2.
  destruct (jb_ca _ _ _ _ Hj) as (ca & sec & Hca & Hsec & Hdata). cbn [ap_cluster] in *.
  assert (Hn2 : nodes (foldl store_secret (foldl store_secret c (arrivals t)) (arrivals (S t))) = nodes c).
  { destruct (stored_rest (arrivals (S t)) (foldl store_secret c (arrivals t))) as (_ & -> & _).
    by destruct (stored_rest (arrivals t) c) as (_ & -> & _). }
  unfold join. rewrite run_handle. cbn [mbind outcome_bind lift run]. rewrite Hv, run_handle.
  unfold VerifySignature. rewrite (run_ca_key _ ca sec c t Hca Hsec Hdata). cbn [run mret go_ret].
  set (c2 := foldl store_secret (foldl store_secret c (arrivals t)) (arrivals (S t))) in *.
  destruct (ed_verify _ _ _); cbn [negb]; [|by cbn [run mret go_ret ap_cluster]].
  rewrite run_handle. unfold CreateNode. cbn [Nodes_Create kube_client client_in].
  rewrite run_mbind, run_api. cbn [ap_cluster ap_turn kube_step oKey oSpec].
  pose proof (joinable_next _ _ _ _ _ Hj2) as Hj3. set (c3 := foldl store_secret c2 (arrivals (S (S t)))) in *.
  assert (Hn3 : nodes c3 = nodes c) by (destruct (stored_rest (arrivals (S (S t))) c2) as (_ & H' & _); by rewrite <- Hn2).
  pose proof (jb_free _ _ _ _ Hj3) as Hfree3. cbn [ap_cluster] in Hfree3. unfold create. rewrite Hfree3. cbn [run mret go_ret].
  fold (joined_node req). set (w3 := MkApi _ (S (S (S t)))).
  destruct (run_wait_config (joined_node req) s T (jb_only _ _ _ _ Hj) (jb_at _ _ _ _ Hj) fuel w3 (fun cfg => mret (Page (ConfigResp cfg))))
    as (w' & Hw' & Hnodes).
  - cbn [w3 ap_cluster with_nodes nodes joined_node oKey snd]. apply lookup_insert_eq.
  - exact (jb_awaiting _ _ _ _ Hj3).
  - cbn [w3 ap_turn]. lia.
  - done.
  - cbn [joined_node oKey snd] in Hw'. rewrite Hw'. cbn [run mret go_ret]. split; [done|]. rewrite Hnodes.
    unfold w3. cbn [ap_cluster with_nodes nodes]. by rewrite Hn3.
Qed.

(** C24. Joining: a request without a valid signature of the authority is refused
    and makes no node; one with it, under a name no node has yet, makes the node
    and is answered, once the controller has stored the secret of the node, with
    the configuration that has the certificates of that secret.  Each turn of the loop that waits makes
    two calls, so a fuel beyond the turn of the arrival is enough. *)
Theorem join_request fuel v req c ca sec s T
    (Hv : decode_join v = Ok req)
    (Hca : cas c !! (ns, ca_name) = Some ca) (Hsec : secrets c !! (ns, caSecretName (oSpec ca)) = Some sec)
    (Hdata : data sec "ca.key" = keytext)
    (Hfree : nodes c !! (ns, jName req) = None) (Hnone : secrets c !! (ns, jName req +:+ "-cert") = None)
    (Honly : forall m s', ((ns, jName req +:+ "-cert"), s') ∈ arrivals m -> s' = s)
    (Hat : ((ns, jName req +:+ "-cert"), s) ∈ arrivals T) (Hfuel : T < fuel) :
  let '(w, r) := run step (join ns ca_name cfgTmpl fuel (Ok v)) (MkApi c 0) in
  if ed_verify (ed_public priv) (bytes_text (jMessage req)) (bytes_text (jSignature req)) then
    r = Ok (Page (ConfigResp (node_config s))) /\
    nodes (ap_cluster w) = <[(ns, jName req) := joined_node req]> (nodes c)
  else r = Ok (HttpError "Signature could not be verified" StatusBadRequest) /\ nodes (ap_cluster w) = nodes c.
Proof.
  apply (run_join fuel v req s T (MkApi c 0)); [done| |lia|cbn [ap_turn]; lia].
  constructor; cbn [ap_cluster]; [by exists ca, sec|done|done|done|].
  split; cbn [ap_cluster ap_turn joined_node oSpec SecretName]; [intros s' Hs'; by rewrite Hnone in Hs'|lia].
Qed.
End Join.

(** ** The theorems at concrete inputs *)

Definition demo_req : processNodeReq := MkProcessNode (Some "key") (Some "certificate") "phone" None "".

Definition demo_body (ip : string) : json :=
  Client.encode_sign_req (Client.MkSignNode "key" "certificate" "phone" None ip).

Lemma node_address_lost_witness :
  (processNode (H := DemoCert.demo_cert) (E := certE) (Ok (demo_body "111.0.0.15/24")) : go certE (reply nebula_page)) =
  processNode (H := DemoCert.demo_cert) (E := certE) (Ok (demo_body "111.0.0.14/24")).
Proof.
  destruct (node_address_lost (H := DemoCert.demo_cert) (E := certE) 111 0 0 14 24 demo_req (demo_body "111.0.0.14/24")) as [_ H].
  - repeat constructor; lia.
  - lia.
  - vm_compute. reflexivity.
  - apply (H 111 0 0 15)%Z; [repeat constructor; lia|reflexivity|vm_compute; reflexivity].
Defined.

#[export] Instance demo_crypto : Crypto kubeE := {|
  rsa_key := string;
  ParsePKCS1PublicKey := Ok;
  EncryptOAEP := fun _ m => mret m;
  Seal := fun _ _ m => m;
  ed_sign := fun k m => DemoCert.public_of k +:+ m;
  ed_public := DemoCert.public_of;
  ed_verify := fun pub m s => String.eqb s (pub +:+ m);
|}.

Definition demo_template : list (string * json) := [("lighthouse", JBool false); ("pki", JObj [("key", JStr "host.key")])].

Definition demo_node_secret : Secret := MkSecret true {[ "ca.crt" := "CA"; "host.crt" := "HOST"; "host.key" := "" ]}.

Definition demo_cluster : cluster :=
  MkCluster {[ ("vpn", "mesh") := MkObject ("vpn", "mesh") 2 (MkCASpec "ca-secret") (MkStatus "Ready" "") ]} ∅
    {[ ("vpn", "ca-secret") := MkSecret true {[ "ca.key" := "key of ca" ]} ]}.

Definition demo_arrivals (n : nat) : list (key * Secret) :=
  match n with 5 => [(("vpn", "phone-cert"), demo_node_secret)] | _ => [] end.

Definition demo_join : joinReq := MkJoin (Some "hello") (Some "cahello") "phone" None "111.0.0.14/24".

Definition demo_join_body : json :=
  JObj [("message", JStr (EncodeToString "hello")); ("signature", JStr (EncodeToString "cahello")); ("name", JStr "phone");
        ("ip_cidr", JStr "111.0.0.14/24")].

Lemma join_request_witness :
  (run (api_step demo_arrivals)
     (join (H := DemoCert.demo_cert) "vpn" "mesh" demo_template 6 (Ok demo_join_body)) (MkApi demo_cluster 0)).2 =
  Ok (Page (ConfigResp [("lighthouse", JBool false);
    ("pki", JObj [("key", JStr "host.key"); ("ca", JStr "CA"); ("cert", JStr "HOST")])])).
Proof.
  pose proof (join_request (H := DemoCert.demo_cert) "vpn" "mesh" demo_template [("key", JStr "host.key")] eq_refl demo_arrivals
    "key of ca" "key of ca" eq_refl 6 demo_join_body demo_join demo_cluster
    (MkObject ("vpn", "mesh") 2 (MkCASpec "ca-secret") (MkStatus "Ready" "")) (MkSecret true {[ "ca.key" := "key of ca" ]})
    demo_node_secret 5) as H.
  specialize (H ltac:(vm_compute; reflexivity) eq_refl eq_refl eq_refl eq_refl eq_refl).
  assert (Honly : forall m s', (("vpn", "phone-cert"), s') ∈ demo_arrivals m -> s' = demo_node_secret).
  { intros m s' Hin. do 5 (destruct m as [|m]; [by apply not_elem_of_nil in Hin|]).
    destruct m as [|m]; [|by apply not_elem_of_nil in Hin]. apply list_elem_of_singleton in Hin. by injection Hin. }
  specialize (H Honly (list_elem_of_here _ _) ltac:(lia)).
  destruct (run _ _ _) as [w r]. cbn [snd]. by destruct H as [-> _].
Defined.
