(* ===== verification/VpnClient.v ===== *)
(** * The client of the mesh (core/client/cmd/pcloud)

    The configuration a device keeps, the client of the API, and what the
    processor does with scanned codes and with the buttons of its window. *)
From S2P Require Import Prelude GoLib GoStrings GoBase64 GoNet NebulaCert NebulaApi.
From Stdlib Require Import Ascii.
Open Scope string_scope.
Open Scope list_scope.

(** ** config.go *)

Record Config := MkConfig {
  ApiAddr : string;
  encPublicKey : option string;
  encPrivateKey : option string;
  netPublicKey : option string;
  netPrivateKey : option string;
  netConfig : option string;
}.

Definition zero_config : Config := MkConfig "" None None None None None.

Definition omit_bytes (k : string) (b : option string) : list (string * json) :=
  match b with None | Some "" => [] | Some s => [(k, JStr (EncodeToString s))] end.

Definition encode_config (c : Config) : json :=
  JObj (omit_str "api_addr" (ApiAddr c) ++
    [("encyption", JObj (omit_bytes "public_key" (encPublicKey c) ++ omit_bytes "private_key" (encPrivateKey c)));
     ("network", JObj (omit_bytes "public_key" (netPublicKey c) ++ omit_bytes "private_key" (netPrivateKey c) ++
                       omit_bytes "network" (netConfig c)))]).

Definition decode_keys (v : json) : outcome (option string * option string) :=
  p ← json_field "public_key" json_bytes None v;
  s ← json_field "private_key" json_bytes None v;
  Ok (p, s).

Definition decode_network (v : json) : outcome (option string * option string * option string) :=
  k ← decode_keys v;
  n ← json_field "network" json_bytes None v;
  Ok (k.1, k.2, n).

Definition decode_config (v : json) : outcome Config :=
  a ← json_field "api_addr" json_string "" v;
  e ← json_field "encyption" decode_keys (None, None) v;
  n ← json_field "network" decode_network (None, None, None) v;
  Ok (MkConfig a e.1 e.2 n.1.1 n.1.2 n.2).

(** ** What the client calls *)

Record http_answer := MkAnswer { haStatus : Z; haText : string; haJson : outcome json }.

Inductive clientE : Type -> Type :=
  | PostUrl (url : string) (body : json) : clientE (outcome http_answer)
  | GetUrl (url : string) : clientE (outcome http_answer)
  | QueryItem : clientE (outcome (list (outcome json)))           (* the keychain *)
  | UpdateItem (v : json) : clientE (outcome unit)
  | AddItem (v : json) : clientE (outcome unit)
  | RandomBytes (n : nat) : clientE (outcome string)
  | GenerateRSA : clientE (outcome (string * string))             (* public and private key, marshalled *)
  | GetHostname : clientE (outcome string)
  | LaunchBarcodeScanner : clientE (outcome unit)
  | TriggerService : clientE (outcome unit)
  | UpdateService : clientE (outcome unit)
  | Connect (c : Config) : clientE (outcome unit)
  | OnView : clientE (outcome unit)
  | SleepSecond : clientE unit.

(** Keys, codes and texts: crypto/rsa, crypto/aes, qrcode and yaml; a picture is
    the text that is read from it. *)
Class ClientLib := {
  MarshalX25519PublicKey : string -> string;
  ParsePKCS1PrivateKey : string -> outcome string;
  DecryptOAEP : string -> string -> outcome string;            (* private key, message *)
  NewCipher : string -> outcome unit;                          (* lengths of keys *)
  Open_ : string -> string -> string -> outcome string;        (* key, nonce, data *)
  qr_encode : json -> outcome json;
  yaml_unmarshal : string -> outcome (option (list (string * json)));
  yaml_marshal : list (string * json) -> string;
}.

Section Client.
Context `{!CertLib, !ClientLib}.

(** ** storage_darwin.go *)

Definition Get : go clientE Config :=
  results ← call QueryItem;
  match results with
  | [d] => lift (mbind (M := outcome) decode_config d)
  | _ => mret zero_config
  end.

(** An item that is not there is added. *)
Definition Store (config : Config) : go clientE unit :=
  check _u := call (UpdateItem (encode_config config)) onerr e =>
    (if decide (ekind e = KNotFound) then call (AddItem (encode_config config)) else fail e) in
  mret tt.

(** ** client.go *)

Definition Sign (apiAddr message : string) : go clientE (option string) :=
  r ← call (PostUrl (apiAddr +:+ "/api/sign") (JObj [("message", JStr (EncodeToString message))]));
  lift (v ← haJson r; json_field "signature" json_bytes None v).

(** The status of an answer is never looked at. *)
Definition with_private_key (cfgMap : option (list (string * json))) (privateKey : string) : go clientE string :=
  match cfgMap with
  | None => panic "Must not reach"
  | Some fs =>
      match object_fields (get_field "pki" fs) with
      | None => panic "Must not reach"
      | Some pki => mret (yaml_marshal (set_field "pki" (JObj (set_field "key" (JStr (MarshalX25519PrivateKey privateKey)) pki)) fs))
      end
  end.

Definition encode_join (r : joinReq) : json :=
  JObj [("message", bytes_json (jMessage r)); ("signature", bytes_json (jSignature r)); ("name", JStr (jName r));
        ("public_key", bytes_json (jPublicKey r)); ("ip_cidr", JStr (jIPCidr r))].

(** Every device asks for the same address. *)
Definition Join (apiAddr hostname : string) (publicKey privateKey message signature : option string) : go clientE string :=
  let req := MkJoin message signature hostname (Some (MarshalX25519PublicKey (bytes_text publicKey))) "111.0.0.13/24" in
  r ← call (PostUrl (apiAddr +:+ "/api/join") (encode_join req));
  cfgYaml ← lift (DecodeString (haText r));
  cfgMap ← lift (yaml_unmarshal cfgYaml);
  with_private_key cfgMap (bytes_text privateKey).

Definition encode_approve (r : approveReq) : json :=
  JObj [("enc_public_key", bytes_json (aEncPublicKey r)); ("name", JStr (aName r));
        ("net_public_key", bytes_json (aNetPublicKey r)); ("ip_cidr", JStr (aIPCidr r))].

(** An answer of any status is a success. *)
Definition Approve (apiAddr hostname ipCidr : string) (encPublicKey netPublicKey : option string) : go clientE unit :=
  let req := MkApprove encPublicKey hostname (Some (MarshalX25519PublicKey (bytes_text netPublicKey))) ipCidr in
  _ ← call (PostUrl (apiAddr +:+ "/api/approve") (encode_approve req));
  mret tt.

Definition decode_get (v : json) : outcome (string * string * string) :=
  k ← json_field "key" json_bytes None v;
  n ← json_field "nonce" json_bytes None v;
  d ← json_field "data" json_bytes None v;
  Ok (bytes_text k, bytes_text n, bytes_text d).

Definition GetConfig (apiAddr hostname encPrivateKey : string) (netPrivateKey : option string) : go clientE string :=
  r ← call (GetUrl (apiAddr +:+ "/api/get/" +:+ hostname));
  '(keyEnc, nonceEnc, dataEnc) ← lift (v ← haJson r; decode_get v);
  key ← lift (DecryptOAEP encPrivateKey keyEnc);
  nonce ← lift (DecryptOAEP encPrivateKey nonceEnc);
  _ ← lift (NewCipher key);
  cfgYaml ← lift (Open_ key nonce dataEnc);
  cfgMap ← lift (yaml_unmarshal cfgYaml);
  with_private_key cfgMap (bytes_text netPrivateKey).

Definition x25519Keypair : go clientE (string * string) :=
  privkey ← call (RandomBytes 32);
  mret (ScalarBaseMult privkey, privkey).

(** ** main.go: the processor *)

Definition sanitizeHostname (hostname : string) : string :=
  ToLower (ReplaceAll (ReplaceAll hostname " "%char "-") "."%char "-").

(** A device with keys keeps them. *)
Definition generatePublicPrivateKey : go clientE unit :=
  config ← Get;
  match encPrivateKey config with
  | Some _ => mret tt
  | None =>
      check keys := call GenerateRSA onerr e => panic (emsg e) in
      net ← x25519Keypair;
      Store (MkConfig (ApiAddr config) (Some keys.1) (Some keys.2) (Some net.1) (Some net.2) (netConfig config))
  end.

Record inviteQrCodeData := MkInvite { VPNApiAddr : string; inMessage : option string; inSignature : option string }.

Definition encode_invite (c : inviteQrCodeData) : json :=
  JObj [("vpn_api_addr", JStr (VPNApiAddr c)); ("message", bytes_json (inMessage c)); ("signature", bytes_json (inSignature c))].

Definition decode_invite (v : json) : outcome inviteQrCodeData :=
  a ← json_field "vpn_api_addr" json_string "" v;
  m ← json_field "message" json_bytes None v;
  s ← json_field "signature" json_bytes None v;
  Ok (MkInvite a m s).

Record joinQrCodeData := MkJoinCode { jqEncPublicKey : option string; jqName : string; jqNetPublicKey : option string; jqIPCidr : string }.

Definition encode_join_code (c : joinQrCodeData) : json :=
  JObj [("enc_public_key", bytes_json (jqEncPublicKey c)); ("name", JStr (jqName c));
        ("net_public_key", bytes_json (jqNetPublicKey c)); ("ip_cidr", JStr (jqIPCidr c))].

Definition decode_join_code (v : json) : outcome joinQrCodeData :=
  e ← json_field "enc_public_key" json_bytes None v;
  n ← json_field "name" json_string "" v;
  k ← json_field "net_public_key" json_bytes None v;
  i ← json_field "ip_cidr" json_string "" v;
  Ok (MkJoinCode e n k i).

Definition invite_message : string := "Hello PCloud".

Definition generateInviteQRCode : go clientE json :=
  config ← Get;
  signature ← Sign (ApiAddr config) invite_message;
  lift (qr_encode (encode_invite (MkInvite (ApiAddr config) (Some invite_message) signature))).

Definition hostname : go clientE string :=
  h ← call GetHostname; mret (sanitizeHostname h).

Definition generateJoinQRCode : go clientE json :=
  config ← Get;
  name ← hostname;
  lift (qr_encode (encode_join_code (MkJoinCode (encPublicKey config) name (netPublicKey config) "111.0.0.14/24"))).

(** Up to the notice on onConfigCh, which the window's loop sends to itself. *)
Definition JoinAndGetNetworkConfig (code : outcome json) : go clientE unit :=
  config ← Get;
  invite ← lift (v ← code; decode_invite v);
  name ← hostname;
  network ← Join (VPNApiAddr invite) name (netPublicKey config) (netPrivateKey config) (inMessage invite) (inSignature invite);
  Store (MkConfig (VPNApiAddr invite) (encPublicKey config) (encPrivateKey config) (netPublicKey config) (netPrivateKey config) (Some network)).

Definition ApproveOther (code : outcome json) : go clientE unit :=
  config ← Get;
  approve ← lift (v ← code; decode_join_code v);
  Approve (ApiAddr config) (jqName approve) (jqIPCidr approve) (jqEncPublicKey approve) (jqNetPublicKey approve).

Definition vpn_address : string := "https://vpn.lekva.me".

(** One of the attempts of a device that waits to be approved. *)
Definition poll_once : go clientE unit :=
  config ← Get;
  privKey ← lift (ParsePKCS1PrivateKey (bytes_text (encPrivateKey config)));
  name ← hostname;
  network ← GetConfig vpn_address name privKey (netPrivateKey config);
  Store (MkConfig vpn_address (encPublicKey config) (encPrivateKey config) (netPublicKey config) (netPrivateKey config) (Some network)).

(** The goroutine behind a join code: at most five attempts, a second apart; the
    answer tells whether there is a configuration now. *)
Fixpoint poll (attempts : nat) : go clientE bool :=
  match attempts with
  | 0 => mret false
  | S attempts' =>
      Vis SleepSecond (fun _ => check _u := poll_once onerr _e => poll attempts' in mret true)
  end.
End Client.

(** ** The loop of the window *)

Inductive ScanQRFor := ScanQRForJoin | ScanQRForApprove.

Inductive UIEvent := EventScanBarcode | EventGetInviteQRCode | EventGetJoinQRCode | EventApproveOther.

(** The state the loop works on: what the next scanned code is for, and whether
    the channel onConfigCh, which holds one notice, holds one. *)
Record loop_state := MkLoop { scanQRFor : ScanQRFor; config_notice : bool; goroutines : list UIEvent }.

Inductive window_event :=
  | ViewEvent
  | FrameEvent (events : list UIEvent)
  | QrScanned (code : outcome json)
  | OnConfigCh
  | OnConnectCh.

Section Loop.
Context `{!CertLib, !ClientLib}.

(** A send on onConfigCh by the loop that alone receives from it. *)
Definition notify (s : loop_state) : go clientE loop_state :=
  if config_notice s then lift Diverge else mret (MkLoop (scanQRFor s) true (goroutines s)).

Fixpoint processUIEvents (s : loop_state) (events : list UIEvent) : go clientE loop_state :=
  match events with
  | [] => mret s
  | (EventGetInviteQRCode | EventGetJoinQRCode) as e :: events' =>
      processUIEvents (MkLoop (scanQRFor s) (config_notice s) (goroutines s ++ [e])) events'
  | EventApproveOther :: events' =>
      _ ← call LaunchBarcodeScanner;
      processUIEvents (MkLoop ScanQRForApprove (config_notice s) (goroutines s)) events'
  | EventScanBarcode :: events' =>
      _ ← call LaunchBarcodeScanner;
      processUIEvents (MkLoop ScanQRForJoin (config_notice s) (goroutines s)) events'
  end.

Definition on_event (s : loop_state) (e : window_event) : go clientE loop_state :=
  match e with
  | ViewEvent =>
      _ ← call OnView;
      config ← Get;
      match netConfig config with Some _ => notify s | None => mret s end
  | FrameEvent events => processUIEvents s events
  | QrScanned code =>
      match scanQRFor s with
      | ScanQRForJoin => _ ← JoinAndGetNetworkConfig code; notify s
      | ScanQRForApprove => _ ← ApproveOther code; mret s
      end
  | OnConfigCh => _ ← call TriggerService; mret (MkLoop (scanQRFor s) false (goroutines s))
  | OnConnectCh => _ ← call UpdateService; config ← Get; _ ← call (Connect config); mret s
  end.

(** run, for the events in the order the select picks them. *)
Fixpoint run_loop (s : loop_state) (events : list window_event) : go clientE loop_state :=
  match events with
  | [] => mret s
  | e :: events' => s' ← on_event s e; run_loop s' events'
  end.

Definition run_window (events : list window_event) : go clientE loop_state :=
  _ ← generatePublicPrivateKey;
  run_loop (MkLoop ScanQRForJoin false []) events.
End Loop.

(** ** ui.go *)

(** Which panel is open. *)
Record UI := MkUI { invite_show : bool; approve_show : bool; join_show : bool }.

Inductive click := ClickInvite | ClickApprove | ClickJoin | NoClick.

Definition OnBack (ui : UI) : UI * bool :=
  if invite_show ui then (MkUI false (approve_show ui) (join_show ui), true)
  else if approve_show ui then (MkUI (invite_show ui) false (join_show ui), true)
  else if join_show ui then (MkUI (invite_show ui) (approve_show ui) false, true)
  else (ui, false).

Definition Layout (HasCamera : bool) (ui : UI) (c : click) : UI * list UIEvent :=
  match c with
  | ClickInvite => (MkUI true false false, [EventGetInviteQRCode])
  | ClickApprove => (ui, [EventApproveOther])
  | ClickJoin => if HasCamera then (ui, [EventScanBarcode]) else (MkUI false false true, [EventGetJoinQRCode])
  | NoClick => (ui, [])
  end.
