(* ===== verification/VpnTheorems.v ===== *)
(** * Devices and the API of the mesh

    The programs of the client talk to those of the API: what a device posts is
    what the routed handler decodes, and what the handler writes is what the
    device reads. *)
From S2P Require Import Prelude GoLib GoStrings GoBase64 GoNet InstallerTypes NebulaCert NebulaKube NebulaApi NebulaApiTheorems VpnClient.
From Stdlib Require Import Ascii.
Open Scope string_scope.
Open Scope list_scope.

(** ** What is stored is read back *)

(** A slice of no bytes is stored as nil. *)
Definition nil_if_empty (b : option string) : option string := match b with Some "" => None | _ => b end.

Definition normal_config (c : Config) : Config :=
  MkConfig (ApiAddr c) (nil_if_empty (encPublicKey c)) (nil_if_empty (encPrivateKey c)) (nil_if_empty (netPublicKey c))
    (nil_if_empty (netPrivateKey c)) (nil_if_empty (netConfig c)).

Ltac stored_bytes := repeat (json_simp; rewrite ?json_field_nil, ?json_bytes_text; cbn [mbind outcome_bind fst snd]); done.

Lemma decode_encode_keys p s :
  decode_keys (JObj (omit_bytes "public_key" p ++ omit_bytes "private_key" s)) = Ok (nil_if_empty p, nil_if_empty s).
Proof. unfold decode_keys, omit_bytes. destruct p as [[|]|], s as [[|]|]; cbn [app nil_if_empty]; stored_bytes. Qed.

Lemma decode_encode_network p s n :
  decode_network (JObj (omit_bytes "public_key" p ++ omit_bytes "private_key" s ++ omit_bytes "network" n)) =
    Ok (nil_if_empty p, nil_if_empty s, nil_if_empty n).
Proof.
  unfold decode_network, decode_keys, omit_bytes. destruct p as [[|]|], s as [[|]|], n as [[|]|]; cbn [app nil_if_empty]; stored_bytes.
Qed.

(** Storing a configuration and reading it gives it back. *)
Lemma config_roundtrip c : decode_config (encode_config c) = Ok (normal_config c).
Proof.
  unfold decode_config, encode_config, omit_str. destruct c as [a ep es np ns n].
  cbn [ApiAddr encPublicKey encPrivateKey netPublicKey netPrivateKey netConfig].
  destruct (String.eqb_spec a "") as [->|Hne]; cbn [app];
    repeat (json_simp; rewrite ?decode_encode_keys, ?decode_encode_network; cbn [mbind outcome_bind json_string fst snd]); done.
Qed.

Lemma bytes_json_field k b fs : json_field k json_bytes None (JObj ((k, bytes_json b) :: fs)) = Ok b.
Proof.
  destruct b as [s|]; cbn [bytes_json].
  - rewrite json_field_hit by done. apply json_bytes_text.
  - unfold json_field. cbn [list_find fst]. by rewrite decide_True.
Qed.

Ltac json_fields := repeat (first [rewrite bytes_json_field | rewrite json_field_hit by done | rewrite json_field_miss by done];
  cbn [mbind outcome_bind json_string]).

Lemma decode_encode_invite c : decode_invite (encode_invite c) = Ok c.
Proof. destruct c as [x y z]. unfold decode_invite, encode_invite. cbn [VPNApiAddr inMessage inSignature]. by json_fields. Qed.

Lemma decode_encode_join_code c : decode_join_code (encode_join_code c) = Ok c.
Proof. destruct c as [x y z u]. unfold decode_join_code, encode_join_code. cbn [jqEncPublicKey jqName jqNetPublicKey jqIPCidr]. by json_fields. Qed.

Lemma decode_encode_join r : decode_join (encode_join r) = Ok r.
Proof. destruct r as [x y z u v]. unfold decode_join, encode_join. cbn [jMessage jSignature jName jPublicKey jIPCidr]. by json_fields. Qed.

Lemma decode_encode_approve r : decode_approve (encode_approve r) = Ok r.
Proof. destruct r as [x y z u]. unfold decode_approve, encode_approve. cbn [aEncPublicKey aName aNetPublicKey aIPCidr]. by json_fields. Qed.

Lemma decode_get_sent k n d :
  (v ← Ok (JObj [("key", JStr (EncodeToString k)); ("nonce", JStr (EncodeToString n)); ("data", JStr (EncodeToString d))]); decode_get v) =
    Ok (k, n, d).
Proof.
  cbn [mbind outcome_bind]. unfold decode_get.
  do 3 (rewrite ?json_field_miss by done; rewrite json_field_hit by done; rewrite json_bytes_text; cbn [mbind outcome_bind]). done.
Qed.

(** ** Routes *)

Lemma forall_char_none p c s : forall_char p s = true -> p c = false -> no_char c s.
Proof.
  intros Hs Hc. induction s as [|d s IH]; [done|]. cbn [forall_char] in Hs. apply andb_true_iff in Hs as [Hd Hs].
  apply no_char_cons. split; [|by apply IH]. intros ->. by rewrite Hd in Hc.
Qed.

Lemma route_get name : name_var name = true -> route_of ("/api/get/" +:+ name) = Some (RGet name).
Proof.
  intros Hn. unfold route_of.
  assert (Hf : list_find (fun r => r.1 = "/api/get/" +:+ name) static_routes = None).
  { apply list_find_None. unfold static_routes. by repeat (apply Forall_cons; split; [discriminate|]). }
  rewrite Hf. pose proof Hn as Hc. unfold name_var in Hc. apply andb_true_iff in Hc as [_ Hc].
  assert (Hs : Split ("/api/get/" +:+ name) "/"%char = ["" ; "api"; "get"; name]).
  { change (Split ("/api/get/" +:+ name) "/"%char) with ("" :: (Split ("api/get/" +:+ name) "/"%char)).
    change ("api/get/" +:+ name) with ("api" +:+ String "/"%char ("get" +:+ String "/"%char name)).
    rewrite !Split_app by done. rewrite Split_none; [done|]. by apply (forall_char_none name_char). }
  rewrite Hs. by rewrite Hn.
Qed.

(** ** A device in front of the API *)

Record device := MkDevice {
  dv_api : api_world;
  dv_item : option json;             (* what the keychain holds *)
  dv_host : string;
}.

Definition with_api (a : api_world) (d : device) : device := MkDevice a (dv_item d) (dv_host d).
Definition with_item (v : json) (d : device) : device := MkDevice (dv_api d) (Some v) (dv_host d).

(** Of the answers the client reads: the status, the text and the JSON in it. *)
Definition answer_of `{!ClientLib} (r : outcome (reply nebula_page)) : outcome http_answer :=
  match r with
  | Ok (Page (SignResp s)) => Ok (MkAnswer StatusOK "" (Ok (JObj [("signature", JStr (EncodeToString s))])))
  | Ok (Page (ConfigResp cfg)) => Ok (MkAnswer StatusOK (EncodeToString (yaml_marshal cfg)) (Err err_json))
  | Ok (Page (GetResp k n d)) =>
      Ok (MkAnswer StatusOK "" (Ok (JObj [("key", JStr (EncodeToString k)); ("nonce", JStr (EncodeToString n)); ("data", JStr (EncodeToString d))])))
  | Ok (Page _) => Ok (MkAnswer StatusOK "" (Err err_json))
  | Ok Empty => Ok (MkAnswer StatusOK "" (Err (MkErr KEOF "EOF")))
  | Ok (HttpError msg code) => Ok (MkAnswer code (msg +:+ String (ascii_of_nat 10) "") (Err err_json))
  | Ok (Redirect _ code) => Ok (MkAnswer code "" (Err err_json))
  | Err e => Err e
  | Panic _ => Err (MkErr KEOF "EOF")
  | Diverge => Diverge
  end.

Section Net.
Context `{!CertLib, !ClientLib, !Entropy kubeE, !Crypto kubeE}.
Context (addr ns ca_name : string) (cfgTmpl pki : list (string * json)) (Hpki : get_field "pki" cfgTmpl = Some (JObj pki)).
Context (arrivals : nat -> list (key * Secret)) (fuel : nat) (random : string).
#[local] Set Default Proof Using "Type*".

Definition serve_url (url : string) (body : outcome json) (d : device) : device * outcome http_answer :=
  if HasPrefix url addr then
    match route_of (TrimPrefix url addr) with
    | Some rt =>
        let '(a, r) := run (api_step arrivals) (serve_nebula ns ca_name cfgTmpl (fun _ => Ok tt) yaml_marshal fuel rt body) (dv_api d) in
        (with_api a d, answer_of r)
    | None => (d, Ok (MkAnswer StatusNotFound "404 page not found" (Err err_json)))
    end
  else (d, Err (errorf "no such host")).

Definition device_step : handler clientE device := fun X e d =>
  match e in clientE X return device * X with
  | PostUrl url body => serve_url url (Ok body) d
  | GetUrl url => serve_url url (Err (MkErr KEOF "EOF")) d
  | QueryItem => (d, Ok (match dv_item d with Some v => [Ok v] | None => [] end))
  | UpdateItem v => match dv_item d with Some _ => (with_item v d, Ok tt) | None => (d, Err (MkErr KNotFound "not found")) end
  | AddItem v => (with_item v d, Ok tt)
  | RandomBytes _ => (d, Ok random)
  | GenerateRSA => (d, Ok ("public " +:+ random, "private " +:+ random))
  | GetHostname => (d, Ok (dv_host d))
  | LaunchBarcodeScanner | TriggerService | UpdateService | OnView => (d, Ok tt)
  | Connect _ => (d, Ok tt)
  | SleepSecond => (d, tt)
  end.

Abbreviation step := device_step.

Lemma run_Store c d : run step (Store c) d = (with_item (encode_config c) d, Ok tt).
Proof. unfold Store. rewrite run_handle, run_call. cbn [device_step]. by destruct (dv_item d). Qed.

Lemma run_Get_config c d : dv_item d = Some (encode_config c) -> run step Get d = (d, Ok (normal_config c)).
Proof. intros Hd. unfold Get. rewrite run_mbind, run_call. cbn [device_step]. rewrite Hd. cbn [run lift mbind outcome_bind]. by rewrite config_roundtrip. Qed.

Lemma run_hostname d : run step hostname d = (d, Ok (sanitizeHostname (dv_host d))).
Proof. reflexivity. Qed.

Lemma serve_route path rt body d : route_of path = Some rt ->
  serve_url (addr +:+ path) body d =
    let '(a, r) := run (api_step arrivals) (serve_nebula ns ca_name cfgTmpl (fun _ => Ok tt) yaml_marshal fuel rt body) (dv_api d) in
    (with_api a d, answer_of r).
Proof. intros Hr. unfold serve_url. by rewrite HasPrefix_app, TrimPrefix_app, Hr. Qed.

(** What the device keeps of a configuration of the API. *)
Definition own_config (cfg : list (string * json)) (netPrivate : option string) : option string :=
  match object_fields (get_field "pki" cfg) with
  | Some fs => Some (yaml_marshal (set_field "pki" (JObj (set_field "key" (JStr (MarshalX25519PrivateKey (bytes_text netPrivate))) fs)) cfg))
  | None => None
  end.

Lemma get_set_field k v fs : get_field k (set_field k v fs) = Some v.
Proof.
  unfold get_field. induction fs as [|[k' v'] fs IH]; cbn [set_field list_find fst]; [by rewrite decide_True|].
  destruct (String.eqb_spec k' k) as [->|Hne]; cbn [list_find fst]; [by rewrite decide_True|].
  rewrite decide_False by done. by destruct (list_find _ (set_field k v fs)) as [[i [k2 v2]]|].
Qed.

Lemma bytes_text_nil (b : option string) : bytes_text (nil_if_empty b) = bytes_text b.
Proof. by destruct b as [[|]|]. Qed.

Section Invitation.
Context (keytext priv : string) (Hkeytext : UnmarshalEd25519PrivateKey keytext = Ok priv).
Context (Hqr : forall v, qr_encode v = Ok v).
Context (Hverify : forall m, ed_verify (ed_public priv) m (ed_sign priv m) = true).

(** What the invited device asks the API for. *)
Definition invited (cB : Config) (hostB : string) : joinReq :=
  MkJoin (Some invite_message) (Some (ed_sign priv invite_message)) (sanitizeHostname hostB)
    (Some (MarshalX25519PublicKey (bytes_text (netPublicKey cB)))) "111.0.0.13/24".

(** The member's device makes the code. *)
Lemma run_invite cA d req s T :
  dv_item d = Some (encode_config cA) -> ApiAddr cA = addr -> joinable ns ca_name arrivals keytext req s T (dv_api d) ->
  exists a, run step generateInviteQRCode d =
      (with_api a d, Ok (encode_invite (MkInvite addr (Some invite_message) (Some (ed_sign priv invite_message))))) /\
    joinable ns ca_name arrivals keytext req s T a /\ ap_turn a = S (S (ap_turn (dv_api d))) /\ nodes (ap_cluster a) = nodes (ap_cluster (dv_api d)).
Proof.
  intros Hd Haddr Hj. unfold generateInviteQRCode. rewrite run_mbind, (run_Get_config cA) by done.
  rewrite run_mbind. unfold Sign. rewrite run_mbind, run_call. cbn [device_step normal_config ApiAddr]. rewrite Haddr.
  rewrite (serve_route "/api/sign" RSign) by reflexivity. cbn [serve_nebula].
  destruct d as [[c t] item host]. cbn [dv_api ap_cluster ap_turn] in *.
  destruct (jb_ca _ _ _ _ _ _ _ _ Hj) as (ca & sec & Hca & Hsec & Hdata). cbn [ap_cluster] in *.
  unfold sign. rewrite run_handle. cbn [run lift mbind outcome_bind].
  assert (Hdec : decode_sign (JObj [("message", JStr (EncodeToString invite_message))]) = Ok (Some invite_message)) by (vm_compute; reflexivity).
  rewrite Hdec, run_handle. unfold NebulaApi.Sign.
  rewrite (run_ca_key ns ca_name arrivals keytext priv Hkeytext _ ca sec c t Hca Hsec Hdata). cbn [run mret go_ret answer_of haJson lift mbind outcome_bind].
  rewrite json_field_hit by done. rewrite json_bytes_text. cbn [run lift]. rewrite Hqr.
  eexists. split; [reflexivity|]. split; [|split; [done|]].
  - by apply joinable_next, joinable_next.
  - cbn [ap_cluster]. destruct (stored_rest (arrivals (S t)) (foldl store_secret c (arrivals t))) as (_ & -> & _).
    by destruct (stored_rest (arrivals t) c) as (_ & -> & _).
Qed.

(** C34. An invitation joins: the code a member's device shows lets another device
    join the mesh.  Once the controller has stored the secret of the new node,
    the device ends up with the configuration the API keeps for it, completed
    with its own private key, under the address of the member's API, and the
    mesh has one more node, named after the device. *)
Theorem invitation_joins (cA cB : Config) (dA : device) (hostB : string) (s : Secret) (T : nat)
    (HA : dv_item dA = Some (encode_config cA)) (Haddr : ApiAddr cA = addr)
    (Hj : joinable ns ca_name arrivals keytext (invited cB hostB) s T (dv_api dA))
    (Hyaml : yaml_unmarshal (yaml_marshal (node_config cfgTmpl pki s)) = Ok (Some (node_config cfgTmpl pki s)))
    (Hpos : 0 < fuel) (Hfuel : T < ap_turn (dv_api dA) + fuel) :
  exists dA' code, run step generateInviteQRCode dA = (dA', Ok code) /\
  exists dB', run step (JoinAndGetNetworkConfig (Ok code)) (MkDevice (dv_api dA') (Some (encode_config cB)) hostB) = (dB', Ok tt) /\
    nodes (ap_cluster (dv_api dB')) =
      <[(ns, sanitizeHostname hostB) := joined_node ns ca_name (invited cB hostB)]> (nodes (ap_cluster (dv_api dA))) /\
    (run step Get dB').2 = Ok (normal_config (MkConfig addr (nil_if_empty (encPublicKey cB)) (nil_if_empty (encPrivateKey cB))
      (nil_if_empty (netPublicKey cB)) (nil_if_empty (netPrivateKey cB)) (own_config (node_config cfgTmpl pki s) (netPrivateKey cB)))).
Proof.
  destruct (run_invite cA dA (invited cB hostB) s T HA Haddr Hj) as (a & Hrun & Hj2 & Hturn & Hnodes).
  do 2 eexists. split; [exact Hrun|]. cbn [dv_api with_api].
  set (dB := MkDevice a (Some (encode_config cB)) hostB).
  pose proof (run_join ns ca_name cfgTmpl pki Hpki arrivals keytext priv Hkeytext fuel (encode_join (invited cB hostB)) (invited cB hostB) s T a
    (decode_encode_join _) Hj2 Hpos ltac:(lia)) as Hjoin.
  destruct (run (api_step arrivals) (join ns ca_name cfgTmpl fuel (Ok (encode_join (invited cB hostB)))) a) as [a' r] eqn:Ha.
  cbn [invited jMessage jSignature bytes_text default] in Hjoin. rewrite Hverify in Hjoin. destruct Hjoin as [-> Hn].
  set (cB' := MkConfig addr _ _ _ _ _).
  exists (with_item (encode_config cB') (with_api a' dB)).
  split; [|split; [by rewrite <- Hnodes|by rewrite (run_Get_config cB') by done]].
  unfold JoinAndGetNetworkConfig. rewrite run_mbind, (run_Get_config cB) by done.
  rewrite run_mbind. cbn [run lift mbind outcome_bind]. rewrite decode_encode_invite, run_mbind, run_hostname.
  cbn [VPNApiAddr inMessage inSignature normal_config netPublicKey netPrivateKey encPublicKey encPrivateKey dv_host dB].
  rewrite run_mbind. unfold Join. rewrite run_mbind, run_call, !bytes_text_nil. fold (invited cB hostB). cbn [device_step].
  rewrite (serve_route "/api/join" RJoin) by reflexivity. cbn [serve_nebula]. change (dv_api dB) with a. rewrite Ha. cbn [answer_of haText].
  rewrite run_mbind. cbn [run lift]. rewrite DecodeString_EncodeToString, run_mbind. cbn [run lift]. rewrite Hyaml.
  unfold cB', with_private_key, own_config, node_config. rewrite get_set_field. cbn [object_fields run mret go_ret].
  by rewrite run_Store.
Qed.
End Invitation.

(** ** Approving a device *)

Section Approval.
Context (Hqr : forall v, qr_encode v = Ok v).
(** The keys of the device, as the two ends know them, and the randomness of an answer. *)
Context (pub priv : string) (rsa_pub : rsa_key (E := kubeE)) (rsa_priv : string).
Context (Hpub : ParsePKCS1PublicKey pub = Ok rsa_pub) (Hpriv : ParsePKCS1PrivateKey priv = Ok rsa_priv).
Context (enc : string -> string) (Henc : forall m, EncryptOAEP rsa_pub m = mret (enc m)) (Hdec : forall m, DecryptOAEP rsa_priv (enc m) = Ok m).
Context (aes_key nonce : string) (Haes : ReadRandom 32 = mret aes_key) (Hnonce : ReadRandom 12 = mret nonce).
Context (Hcipher : NewCipher aes_key = Ok tt) (Hseal : forall t, Open_ aes_key nonce (Seal (E := kubeE) aes_key nonce t) = Ok t).

(** The node that the approval of a device makes. *)
Definition approved_node (cB : Config) (hostB : string) : NebulaNode :=
  MkObject (ns, sanitizeHostname hostB) 1
    (MkNodeSpec ca_name ns "111.0.0.14/24" (MarshalX25519PublicKey (bytes_text (nil_if_empty (netPublicKey cB))))
       (EncodeToString pub) (sanitizeHostname hostB +:+ "-cert")) no_status.

Lemma run_approve req c t n :
  decode_approve (encode_approve req) = Ok req -> nodes c !! (ns, aName req) = None ->
  n = MkObject (ns, aName req) 1 (MkNodeSpec ca_name ns (aIPCidr req) (bytes_text (aNetPublicKey req))
    (match aEncPublicKey req with Some k => EncodeToString k | None => "" end) (aName req +:+ "-cert")) no_status ->
  run (api_step arrivals) (approve ns ca_name (Ok (encode_approve req))) (MkApi c t) =
    (MkApi (with_nodes (insert (ns, aName req) n) (foldl store_secret c (arrivals t))) (S t), Ok Empty).
Proof.
  intros Hd Hfree Hn. unfold approve. rewrite run_handle. cbn [mbind outcome_bind lift run]. rewrite Hd, run_handle.
  unfold CreateNode. cbn [Nodes_Create kube_client client_in]. rewrite run_mbind, run_api. cbn [ap_cluster ap_turn kube_step oKey oSpec].
  destruct (stored_rest (arrivals t) c) as (_ & Hnodes & _). unfold create. rewrite Hnodes, Hfree. cbn [run mret go_ret].
  unfold with_nodes. rewrite Hnodes. by rewrite Hn.
Qed.

Lemma run_get n s T w name :
  (oKey n).2 = name -> nodes (ap_cluster w) !! (ns, name) = Some n -> EncPubKey (oSpec n) = EncodeToString pub ->
  (forall m s', ((ns, SecretName (oSpec n)), s') ∈ arrivals m -> s' = s) -> ((ns, SecretName (oSpec n)), s) ∈ arrivals T ->
  awaiting ns n s T w -> 0 < fuel -> T < ap_turn w + fuel ->
  exists w', run (api_step arrivals) (get ns cfgTmpl yaml_marshal fuel name) w =
      (w', Ok (Page (GetResp (enc aes_key) (enc nonce) (Seal (E := kubeE) aes_key nonce (yaml_marshal (node_config cfgTmpl pki s)))))) /\
    nodes (ap_cluster w') = nodes (ap_cluster w).
Proof.
  intros Hname Hn Hkey Honly Hat Haw Hpos Hfuel. destruct w as [c t]. cbn [ap_cluster ap_turn] in *.
  unfold get. rewrite run_handle. unfold GetNodeEncryptionPublicKey. cbn [Nodes_Get kube_client client_in].
  rewrite run_mbind, run_api. cbn [ap_cluster ap_turn kube_step].
  destruct (stored_rest (arrivals t) c) as (_ & Hnodes & _). unfold lookup_or. rewrite Hnodes, Hn.
  rewrite run_mbind. cbn [run lift]. rewrite Hkey, DecodeString_EncodeToString. cbn [run lift]. rewrite Hpub.
  rewrite run_handle, Haes. cbn [run mret go_ret]. rewrite run_handle, Hnonce. cbn [run mret go_ret].
  set (w1 := MkApi (foldl store_secret c (arrivals t)) (S t)). match goal with |- context [wait_config ns cfgTmpl fuel name ?k] => set (K := k) end.
  destruct (run_wait_config ns cfgTmpl pki Hpki arrivals n s T Honly Hat fuel w1 K) as (w2 & Hw2 & Hn2).
  - rewrite Hname. unfold w1. cbn [ap_cluster]. by rewrite Hnodes.
  - unfold w1. by apply awaiting_next.
  - unfold w1. cbn [ap_turn]. lia.
  - done.
  - rewrite Hname in Hw2. rewrite Hw2. unfold K. rewrite !run_handle, !Henc. cbn [run mret go_ret]. rewrite run_handle. cbn [run mret go_ret].
    eexists. split; [reflexivity|]. rewrite Hn2. unfold w1. cbn [ap_cluster]. by rewrite Hnodes.
Qed.

(** Approving a device configures it: the code a new device shows carries its
    keys to a member's device, whose approval makes a node for it; the new device
    then fetches the configuration of that node, which only it can decrypt, and
    keeps it with its own private key.  The name of the device must be one the
    route of the API takes. *)
Theorem approval_configures (cA cB : Config) (dA dB : device) (s : Secret) (T : nat)
    (HA : dv_item dA = Some (encode_config cA)) (Haddr : ApiAddr cA = addr) (Hvpn : addr = vpn_address)
    (HB : dv_item dB = Some (encode_config cB)) (HencB : encPublicKey cB = Some pub /\ encPrivateKey cB = Some priv)
    (Hkeys : pub <> "" /\ priv <> "") (Hname : name_var (sanitizeHostname (dv_host dB)) = true)
    (Hfree : nodes (ap_cluster (dv_api dA)) !! (ns, sanitizeHostname (dv_host dB)) = None)
    (Honly : forall m s', ((ns, sanitizeHostname (dv_host dB) +:+ "-cert"), s') ∈ arrivals m -> s' = s)
    (Hat : ((ns, sanitizeHostname (dv_host dB) +:+ "-cert"), s) ∈ arrivals T)
    (Haw : awaiting ns (approved_node cB (dv_host dB)) s T (dv_api dA))
    (Hyaml : yaml_unmarshal (yaml_marshal (node_config cfgTmpl pki s)) = Ok (Some (node_config cfgTmpl pki s)))
    (Hpos : 0 < fuel) (Hfuel : T < ap_turn (dv_api dA) + fuel) :
  exists code dA' dB', run step generateJoinQRCode dB = (dB, Ok code) /\ run step (ApproveOther (Ok code)) dA = (dA', Ok tt) /\
    run step (poll 5) (MkDevice (dv_api dA') (dv_item dB) (dv_host dB)) = (dB', Ok true) /\
    nodes (ap_cluster (dv_api dB')) =
      <[(ns, sanitizeHostname (dv_host dB)) := approved_node cB (dv_host dB)]> (nodes (ap_cluster (dv_api dA))) /\
    (run step Get dB').2 = Ok (normal_config (MkConfig addr (Some pub) (Some priv)
      (nil_if_empty (netPublicKey cB)) (nil_if_empty (netPrivateKey cB)) (own_config (node_config cfgTmpl pki s) (netPrivateKey cB)))).
Proof.
  destruct HencB as [He1 He2], Hkeys as [Hk1 Hk2].
  assert (Hn1 : nil_if_empty (Some pub) = Some pub) by by destruct pub.
  assert (Hn2 : nil_if_empty (Some priv) = Some priv) by by destruct priv.
  set (name := sanitizeHostname (dv_host dB)) in *. set (n := approved_node cB (dv_host dB)) in *.
  set (req := MkApprove (Some pub) name (Some (MarshalX25519PublicKey (bytes_text (nil_if_empty (netPublicKey cB))))) "111.0.0.14/24").
  set (code := encode_join_code (MkJoinCode (Some pub) name (nil_if_empty (netPublicKey cB)) "111.0.0.14/24")).
  set (a1 := MkApi (with_nodes (insert (ns, name) n) (foldl store_secret (ap_cluster (dv_api dA)) (arrivals (ap_turn (dv_api dA))))) (S (ap_turn (dv_api dA)))).
  destruct (stored_rest (arrivals (ap_turn (dv_api dA))) (ap_cluster (dv_api dA))) as (_ & Hnodes & _).
  assert (Haw1 : awaiting ns n s T a1).
  { destruct (dv_api dA) as [c t]. unfold a1. cbn [ap_cluster ap_turn]. exact (awaiting_next ns arrivals n s T Honly Hat c t Haw). }
  destruct (run_get n s T a1 name) as (a2 & Hget & Hna); [done|by apply lookup_insert_eq|done..|unfold a1; cbn [ap_turn]; lia|].
  set (cB' := MkConfig addr (Some pub) (Some priv) _ _ _).
  exists code, (with_api a1 dA), (with_item (encode_config cB') (MkDevice a2 (dv_item dB) (dv_host dB))). split_and!.
  - unfold generateJoinQRCode. rewrite run_mbind, (run_Get_config cB) by done. rewrite run_mbind, run_hostname.
    cbn [normal_config encPublicKey netPublicKey]. rewrite Hqr, He1, Hn1. reflexivity.
  - unfold ApproveOther. rewrite run_mbind, (run_Get_config cA) by done. rewrite run_mbind. cbn [run lift mbind outcome_bind].
    unfold code. rewrite decode_encode_join_code. cbn [jqName jqIPCidr jqEncPublicKey jqNetPublicKey normal_config ApiAddr].
    unfold Approve. fold req. rewrite run_mbind, run_call. cbn [device_step]. rewrite Haddr.
    rewrite (serve_route "/api/approve" RApprove) by reflexivity. cbn [serve_nebula].
    destruct (dv_api dA) as [c t] eqn:HdA. rewrite (run_approve req c t n); [done|apply decode_encode_approve|exact Hfree|done].
  - cbn [poll run device_step]. rewrite run_handle. unfold poll_once. rewrite run_mbind, (run_Get_config cB) by done.
    cbn [normal_config encPrivateKey encPublicKey netPrivateKey netPublicKey]. rewrite He1, He2, Hn1, Hn2.
    change (bytes_text (Some priv)) with priv. rewrite run_mbind. cbn [run lift]. rewrite Hpriv. rewrite run_mbind, run_hostname. cbn [dv_host with_api].
    fold name. rewrite run_mbind. unfold GetConfig. rewrite <- Hvpn, run_mbind, run_call. cbn [device_step].
    change (addr +:+ "/api/get/" +:+ name) with (addr +:+ ("/api/get/" +:+ name)).
    rewrite (serve_route ("/api/get/" +:+ name) (RGet name)) by by apply route_get. cbn [serve_nebula dv_api with_api]. rewrite Hget.
    cbn [answer_of haJson]. rewrite run_mbind. cbn [run lift]. rewrite decode_get_sent.
    rewrite run_mbind. cbn [run lift]. rewrite Hdec, run_mbind. cbn [run lift]. rewrite Hdec, run_mbind. cbn [run lift].
    rewrite Hcipher, run_mbind. cbn [run lift]. rewrite Hseal, run_mbind. cbn [run lift]. rewrite Hyaml.
    unfold cB', with_private_key, own_config, node_config. rewrite get_set_field, bytes_text_nil. cbn [object_fields run mret go_ret].
    by rewrite run_Store.
  - cbn [dv_api with_item]. rewrite Hna. unfold a1. cbn [ap_cluster with_nodes nodes]. by rewrite Hnodes.
  - by rewrite (run_Get_config cB') by done.
Qed.
End Approval.

(** A name that is taken: the API refuses the node, the member is told nothing. *)
Theorem refused_approval_hidden (cA : Config) (dA : device) (code : joinQrCodeData) (n : NebulaNode)
    (HA : dv_item dA = Some (encode_config cA)) (Haddr : ApiAddr cA = addr)
    (Htaken : nodes (ap_cluster (dv_api dA)) !! (ns, jqName code) = Some n) :
  exists dA', run step (ApproveOther (Ok (encode_join_code code))) dA = (dA', Ok tt) /\
    nodes (ap_cluster (dv_api dA')) = nodes (ap_cluster (dv_api dA)).
Proof.
  unfold ApproveOther. rewrite run_mbind, (run_Get_config cA) by done. rewrite run_mbind. cbn [run lift].
  rewrite (decode_encode_join_code code : (v ← Ok (encode_join_code code); decode_join_code v) = Ok code).
  unfold Approve. rewrite run_mbind, run_call. cbn [device_step normal_config ApiAddr]. rewrite Haddr.
  rewrite (serve_route "/api/approve" RApprove) by reflexivity. cbn [serve_nebula].
  destruct dA as [[c t] item host]. cbn [dv_api ap_cluster] in *. unfold approve. rewrite run_handle. cbn [run lift].
  set (req := MkApprove _ _ _ _).
  rewrite (decode_encode_approve req : (v ← Ok (encode_approve req); decode_approve v) = Ok req).
  rewrite run_handle. unfold CreateNode. cbn [Nodes_Create kube_client client_in]. rewrite run_mbind, run_api. cbn [ap_cluster ap_turn kube_step oKey oSpec].
  destruct (stored_rest (arrivals t) c) as (_ & Hnodes & _). unfold create. rewrite Hnodes. unfold req at 1. cbn [aName]. rewrite Htaken.
  cbn [run mret go_ret internal answer_of]. eexists. split; [reflexivity|]. cbn [dv_api with_api ap_cluster]. exact Hnodes.
Qed.
End Net.

(** ** The loop of the window *)

(** The loop sends notices to itself on a channel with room for one: while one is
    waiting, another event that sends one blocks the window for good; so does a
    device that has a configuration and is shown twice before the select picks
    the channel. *)
Theorem second_notice_blocks `{!CertLib, !ClientLib} {St} (h : handler clientE St) (s : loop_state) (st st' : St) (e : window_event)
    (s' : loop_state)
    (Hrun : run h (on_event (MkLoop (scanQRFor s) false (goroutines s)) e) st = (st', Ok s')) (Hsent : config_notice s' = true) :
  (run h (on_event (MkLoop (scanQRFor s) true (goroutines s)) e) st).2 = Diverge.
Proof.
  destruct s as [q b g], e; cbn [on_event scanQRFor goroutines] in *.
  - rewrite run_mbind in Hrun |- *. destruct (run h (call OnView) st) as [st1 [u| | |]]; [|done..].
    rewrite run_mbind in Hrun |- *. destruct (run h Get st1) as [st2 [c| | |]]; [|done..].
    destruct (netConfig c); [done|]. by injection Hrun as _ <-.
  - exfalso. enough (Hkeep : forall events q b g st st' s', run h (processUIEvents (MkLoop q b g) events) st = (st', Ok s') -> config_notice s' = b).
    { apply Hkeep in Hrun. cbn [config_notice] in Hrun. by rewrite Hrun in Hsent. }
    clear. induction events as [|e events IH]; intros q b g st st' s'; cbn [processUIEvents scanQRFor config_notice goroutines].
    + by intros [= _ <-].
    + destruct e; try apply IH; rewrite run_mbind; destruct (run h _ st) as [st1 [u| | |]]; try done; apply IH.
  - destruct q.
    + rewrite run_mbind in Hrun |- *. by destruct (run h (JoinAndGetNetworkConfig code) st) as [st1 [u| | |]].
    + rewrite run_mbind in Hrun. destruct (run h (ApproveOther code) st) as [st1 [u| | |]]; [|done..]. by injection Hrun as _ <-.
  - rewrite run_mbind in Hrun. destruct (run h (call TriggerService) st) as [st1 [u| | |]]; [|done..]. by injection Hrun as _ <-.
  - rewrite run_mbind in Hrun. destruct (run h (call UpdateService) st) as [st1 [u| | |]]; [|done..].
    rewrite run_mbind in Hrun. destruct (run h Get st1) as [st2 [c| | |]]; [|done..].
    rewrite run_mbind in Hrun. destruct (run h (call (Connect c)) st2) as [st3 [v| | |]]; [|done..]. by injection Hrun as _ <-.
Qed.

(** At most one panel is open. *)
Definition one_panel (ui : UI) : Prop :=
  (invite_show ui = true -> approve_show ui = false /\ join_show ui = false) /\ (join_show ui = true -> invite_show ui = false).

Lemma panels camera ui c : one_panel ui -> approve_show ui = false ->
  one_panel (Layout camera ui c).1 /\ approve_show (Layout camera ui c).1 = false /\ one_panel (OnBack ui).1 /\ approve_show (OnBack ui).1 = false.
Proof. destruct ui as [[] [] []], c, camera; unfold one_panel; cbn; naive_solver. Qed.

(** ** The theorems at concrete inputs *)

#[local] Existing Instance DemoCert.demo_cert.

Definition demo_ready : list (string * json) := node_config demo_template [("key", JStr "host.key")] demo_node_secret.

#[local] Instance demo_entropy : Entropy kubeE := {|
  Now := mret 0%Z;
  GenerateKey := mret ("public", "private");
  ReadRandom := fun n => mret (if (n =? 32)%nat then "aes" else "nonce");
|}.

#[local] Instance demo_lib : ClientLib := {|
  MarshalX25519PublicKey := fun k => "X25519 " +:+ k;
  ParsePKCS1PrivateKey := Ok;
  DecryptOAEP := fun _ m => Ok m;
  NewCipher := fun _ => Ok tt;
  Open_ := fun _ _ t => Ok t;
  qr_encode := Ok;
  yaml_unmarshal := fun _ => Ok (Some demo_ready);
  yaml_marshal := fun fs => match object_fields (get_field "pki" fs) with
                            | Some pki => match get_field "key" pki with Some (JStr k) => "key: " +:+ k | _ => "" end
                            | None => "" end;
|}.

Definition demo_member : Config := MkConfig vpn_address (Some "public") (Some "private") (Some "net") (Some "netkey") None.
Definition demo_new : Config := MkConfig "" (Some "pub") (Some "priv") (Some "net2") (Some "netkey2") None.
Definition demo_device : device := MkDevice (MkApi demo_cluster 0) (Some (encode_config demo_member)) "Member.local".

Abbreviation demo_step := (device_step vpn_address "vpn" "mesh" demo_template demo_arrivals 6 "random").

Lemma demo_arrivals_only : forall m s', ((("vpn", "phone-cert") : key), s') ∈ demo_arrivals m -> s' = demo_node_secret.
Proof.
  intros m s' Hin. do 5 (destruct m as [|m]; [by apply not_elem_of_nil in Hin|]).
  destruct m as [|m]; [|by apply not_elem_of_nil in Hin]. apply list_elem_of_singleton in Hin. by injection Hin.
Qed.

Lemma demo_awaiting n : SecretName (oSpec n) = "phone-cert" -> awaiting "vpn" n demo_node_secret 5 (MkApi demo_cluster 0).
Proof. intros Hn. split; cbn [ap_cluster ap_turn]; [|lia]. intros s'. rewrite Hn. vm_compute. discriminate. Qed.

Lemma demo_joinable req : jName req = "phone" -> joinable "vpn" "mesh" demo_arrivals "key of ca" req demo_node_secret 5 (MkApi demo_cluster 0).
Proof.
  intros Hn. constructor; rewrite ?Hn.
  - eexists. eexists. by split_and!.
  - reflexivity.
  - apply demo_arrivals_only.
  - by left.
  - apply demo_awaiting. unfold joined_node. cbn [oSpec SecretName]. by rewrite Hn.
Qed.

Lemma invitation_joins_witness :
  exists dA' dB' code, run demo_step generateInviteQRCode demo_device = (dA', Ok code) /\
    run demo_step (JoinAndGetNetworkConfig (Ok code)) (MkDevice (dv_api dA') (Some (encode_config demo_new)) "Phone") = (dB', Ok tt) /\
    (run demo_step Get dB').2 = Ok (MkConfig vpn_address (Some "pub") (Some "priv") (Some "net2") (Some "netkey2") (Some "key: netkey2")).
Proof.
  destruct (invitation_joins (H := DemoCert.demo_cert) (H0 := demo_lib) (Crypto0 := demo_crypto) vpn_address "vpn" "mesh" demo_template [("key", JStr "host.key")] eq_refl demo_arrivals 6 "random"
    "key of ca" "key of ca" eq_refl (fun _ => eq_refl) (fun m => String.eqb_refl _) demo_member demo_new demo_device "Phone" demo_node_secret 5
    eq_refl eq_refl ltac:(apply demo_joinable; reflexivity) eq_refl ltac:(lia) ltac:(cbn; lia)) as (dA' & code & Hcode & dB' & Hjoin & _ & Hget).
  exists dA', dB', code. split; [exact Hcode|]. split; [exact Hjoin|]. rewrite Hget. vm_compute. reflexivity.
Defined.

Lemma approval_configures_witness :
  exists dA' dB' code, run demo_step generateJoinQRCode (MkDevice (MkApi demo_cluster 0) (Some (encode_config demo_new)) "Phone") =
      (MkDevice (MkApi demo_cluster 0) (Some (encode_config demo_new)) "Phone", Ok code) /\
    run demo_step (ApproveOther (Ok code)) demo_device = (dA', Ok tt) /\
    run demo_step (poll 5) (MkDevice (dv_api dA') (Some (encode_config demo_new)) "Phone") = (dB', Ok true) /\
    (run demo_step Get dB').2 = Ok (MkConfig vpn_address (Some "pub") (Some "priv") (Some "net2") (Some "netkey2") (Some "key: netkey2")).
Proof.
  destruct (approval_configures (H := DemoCert.demo_cert) (H0 := demo_lib) (Entropy0 := demo_entropy) (Crypto0 := demo_crypto) vpn_address "vpn" "mesh" demo_template [("key", JStr "host.key")] eq_refl demo_arrivals 6 "random"
    (fun _ => eq_refl) "pub" "priv" "pub" "priv" eq_refl eq_refl (fun m => m) (fun _ => eq_refl) (fun _ => eq_refl) "aes" "nonce" eq_refl eq_refl
    eq_refl (fun _ => eq_refl) demo_member demo_new demo_device
    (MkDevice (MkApi demo_cluster 0) (Some (encode_config demo_new)) "Phone") demo_node_secret 5 eq_refl eq_refl eq_refl eq_refl
    (conj eq_refl eq_refl) ltac:(done) eq_refl eq_refl demo_arrivals_only ltac:(by left) ltac:(by apply demo_awaiting) eq_refl ltac:(lia) ltac:(cbn; lia))
    as (code & dA' & dB' & H1 & H2 & H3 & _ & H5).
  exists dA', dB', code. split; [exact H1|]. split; [exact H2|]. split; [exact H3|]. rewrite H5. vm_compute. reflexivity.
Defined.
