(* ===== verification/Android.v ===== *)
(** * The client on Android (core/client/cmd/pcloud: app_android.go,
    callbacks_android.go, storage_android.go)

    The application behind the window: the references it keeps to the activity
    and to the service, what the virtual machine calls, the encrypted
    preferences, and the tunnel. *)
From S2P Require Import Prelude GoLib GoStrings GoBase64 GoNet GoJson GoJsonText GoUtf Jni NebulaCert VpnClient.
From Stdlib Require Import Ascii.
Open Scope string_scope.
Open Scope list_scope.
Open Scope Z_scope.

(** ** net.IP.String and net.IPMask.Size *)

Fixpoint hex_fuel (fuel : nat) (n : nat) (acc : string) : string :=
  match fuel with
  | O => acc
  | S f => let acc' := String (hex_digit (n mod 16)) acc in if (n <? 16)%nat then acc' else hex_fuel f (n / 16) acc'
  end.

Definition hex (n : Z) : string := hex_fuel 8 (Z.to_nat n) "".

Fixpoint groups (ip : bytes) : list Z :=
  match ip with a :: b :: ip' => (a * 256 + b) :: groups ip' | _ => [] end.

Fixpoint zeros (gs : list Z) : nat :=
  match gs with 0 :: gs' => S (zeros gs') | _ => O end.

(** Where the first of the longest runs of zeros starts, and its length. *)
Definition longest_run (gs : list Z) : nat * nat :=
  fold_left (fun best i => let n := zeros (drop i gs) in if (best.2 <? n)%nat then (i, n) else best) (seq 0 (length gs)) (0, 0)%nat.

Definition text6 (ip : bytes) : string :=
  let gs := groups ip in
  let '(start, n) := longest_run gs in
  if (n <? 2)%nat then GoLib.Join (map hex gs) ":"
  else GoLib.Join (map hex (take start gs)) ":" +:+ "::" +:+ GoLib.Join (map hex (drop (start + n) gs)) ":".

Definition byte_hex (b : Z) : string :=
  String (hex_digit (Z.to_nat b / 16)) (String (hex_digit (Z.to_nat b mod 16)) "").

Definition IPString (ip : bytes) : string :=
  match ip with
  | [] => "<nil>"
  | _ => match addr_of_ip ip with
         | Ok a => if Is4 a then dotted a else text6 a
         | _ => "?" +:+ foldr String.append "" (map byte_hex ip)
         end
  end.

Example IPString_examples : map IPString [[111; 0; 0; 13]; [32; 1; 13; 184; 0; 0; 0; 0; 0; 0; 0; 0; 0; 0; 0; 171]] =
  ["111.0.0.13"; "2001:db8::ab"].
Proof. reflexivity. Qed.

Definition bits (b : Z) : list bool := map (Z.testbit b) [7; 6; 5; 4; 3; 2; 1; 0].

Fixpoint leading (bs : list bool) : nat := match bs with true :: bs' => S (leading bs') | _ => O end.

(** The length of the prefix; 0 for a mask that is none. *)
Definition MaskSize (mask : bytes) : Z :=
  let bs := concat (map bits mask) in
  let n := leading bs in
  if forallb negb (drop n bs) then Z.of_nat n else 0.

Example MaskSize_example : map MaskSize [[255; 255; 255; 0]; [255; 0; 255; 0]] = [24; 0].
Proof. reflexivity. Qed.

(** ** What the application calls *)

(** The configuration of nebula. *)
Class NebulaLib := {
  NebulaConfig : Type;
  LoadString : string -> outcome NebulaConfig;
  GetMap : NebulaConfig -> string -> list (string * json);     (* with nil for what is no map *)
}.

Section App.
Context `{!CertLib, !NebulaLib}.

Inductive androidE : Type -> Type :=
  | InJvm {X} (e : jniE X) : androidE X
  | NebulaMain (c : NebulaConfig) (fd : Z) : androidE (outcome Z)
  | ControlStart (ctrl : Z) : androidE unit.

#[local] Instance android_jni : JniIO androidE := @InJvm.

Context (fuel : nat).

(** A method of an object by name and signature. *)
Definition method_of (obj : Z) (name signature : string) : go androidE Z :=
  cls ← GetObjectClass fuel obj; GetMethodID fuel cls name signature.

(** ** app_android.go *)

Record androidApp := MkAndroidApp {
  appCtx : Z;
  activity : Z;
  service : Z;
  ctrl : option Z;
}.

Definition set_activity (x : Z) (a : androidApp) : androidApp := MkAndroidApp (appCtx a) x (service a) (ctrl a).
Definition set_service (x : Z) (a : androidApp) : androidApp := MkAndroidApp (appCtx a) (activity a) x (ctrl a).
Definition set_ctrl (x : Z) (a : androidApp) : androidApp := MkAndroidApp (appCtx a) (activity a) (service a) (Some x).

Definition createApp (AppContext : Z) : androidApp := MkAndroidApp AppContext 0 0 None.

Definition LaunchBarcodeScanner (a : androidApp) : go androidE unit :=
  Do (m ← method_of (activity a) "launchBarcodeScanner" "()Ljava/lang/String;";
      _ ← must (CallObjectMethod fuel (activity a) m []);
      mret tt).

Definition deleteActivityRef (a : androidApp) : go androidE androidApp :=
  if activity a =? 0 then mret a
  else _ ← Do (DeleteGlobalRef (activity a)); mret (set_activity 0 a).

Definition contextForView (view : Z) : go androidE Z :=
  if view =? 0 then fail (errorf "Should not reach")
  else Do (m ← method_of view "getContext" "()Landroid/content/Context;";
           r ← CallObjectMethod fuel view m [];
           ctx ← NewGlobalRef r.1;
           match r.2 with Some err => fail err | None => mret ctx end).

(** The application as it is when the method returns. *)
Definition OnView (a : androidApp) (view : Z) : go androidE (androidApp * option error) :=
  a ← deleteActivityRef a;
  if view =? 0 then mret (a, None)
  else check activity := contextForView view onerr err => mret (a, Some err) in
       mret (set_activity activity a, None).

Definition TriggerService (a : androidApp) : go androidE unit :=
  Do (m ← method_of (activity a) "startVpn" "()V"; CallVoidMethod fuel (activity a) m []).

(** [serv] is a reference, or something else. *)
Definition UpdateService (a : androidApp) (serv : option Z) : go androidE androidApp :=
  match serv with
  | None => fail (errorf "Unexpected service type")
  | Some s =>
      Do (same ← IsSameObject s (service a);
          if (same : bool) then _ ← DeleteGlobalRef s; mret a
          else
            _ ← (if negb (service a =? 0) then DeleteGlobalRef (service a) else mret tt);
            mret (set_service s a))
  end.

(** The address and the route of a network; an error of addRoute is dropped. *)
Definition add_network (b addAddress addRoute : Z) (ipNet : IPNet) : go androidE unit :=
  let ip := IPString (netIP ipNet) in
  let prefix := MaskSize (netMask ipNet) in
  jip ← JavaString ip;
  _ ← must (CallObjectMethod fuel b addAddress [jip; prefix]);
  jip ← JavaString ip;
  _ ← CallObjectMethod fuel b addRoute [jip; prefix];
  mret tt.

Definition cert_text (pki : list (string * json)) : go androidE string :=
  match get_field "cert" pki with Some (JStr s) => mret s | _ => panic "interface conversion: interface {} is not string" end.

Definition mtu_of (tun : list (string * json)) : go androidE Z :=
  match get_field "mtu" tun with Some (JNum n) => mret n | _ => panic "interface conversion: interface {} is not int" end.

(** The descriptor of a tunnel for the networks of the certificate. *)
Definition open_tunnel (a : androidApp) (nebulaConfig : NebulaConfig) (hostCert : NebulaCertificate) : go androidE Z :=
  m ← method_of (service a) "newBuilder" "()Landroid/net/VpnService$Builder;";
  r ← CallObjectMethod fuel (service a) m [];
  b ← (match r.2 with Some err => fail (errorf ("PCloudVPNService.newBuilder: " +:+ emsg err)) | None => mret r.1 end);
  bcls ← GetObjectClass fuel b;
  addAddress ← GetMethodID fuel bcls "addAddress" "(Ljava/lang/String;I)Landroid/net/VpnService$Builder;";
  addRoute ← GetMethodID fuel bcls "addRoute" "(Ljava/lang/String;I)Landroid/net/VpnService$Builder;";
  _ ← foreach (add_network b addAddress addRoute) (certIps (Details hostCert));
  setMtu ← GetMethodID fuel bcls "setMtu" "(I)Landroid/net/VpnService$Builder;";
  mtu ← mtu_of (GetMap nebulaConfig "tun");
  _ ← must (CallObjectMethod fuel b setMtu [mtu]);
  establish ← GetMethodID fuel bcls "establish" "()Landroid/os/ParcelFileDescriptor;";
  parcelFD ← must (CallObjectMethod fuel b establish []);
  getFd ← method_of parcelFD "getFd" "()I";
  must (CallIntMethod fuel parcelFD getFd []).

Definition Connect (a : androidApp) (config : Config) : go androidE androidApp :=
  match netConfig config with
  | None => mret a
  | Some network =>
      nebulaConfig ← lift (LoadString network);
      cert ← cert_text (GetMap nebulaConfig "pki");
      hostCert ← (match UnmarshalNebulaCertificateFromPEM cert with Err err => panic (emsg err) | o => lift o end);
      Do (fd ← open_tunnel a nebulaConfig hostCert;
          ctrl ← call (NebulaMain nebulaConfig fd);
          Vis (ControlStart ctrl) (fun _ => Ret (Ok (set_ctrl ctrl a))))
  end.

Definition GetHostname (a : androidApp) : go androidE string :=
  Do (m ← method_of (appCtx a) "getHostname" "()Ljava/lang/String;";
      jHostname ← must (CallObjectMethod fuel (appCtx a) m []);
      GoString jHostname).

(** ** storage_android.go *)

Record androidStorage := MkStorage { stCtx : Z; st_encrypt : Z; st_decrypt : Z }.

Definition CreateStorage (ctx : Z) : go androidE androidStorage :=
  Do (appCls ← GetObjectClass fuel ctx;
      encrypt ← GetMethodID fuel appCls "encryptToPref" "(Ljava/lang/String;Ljava/lang/String;)V";
      decrypt ← GetMethodID fuel appCls "decryptFromPref" "(Ljava/lang/String;)Ljava/lang/String;";
      mret (MkStorage ctx encrypt decrypt)).

(** What is stored: nothing, or bytes, perhaps with an error of base64. *)
Definition stored_data (s : androidStorage) : go androidE (option (string * option error)) :=
  Do (jfile ← JavaString "config";
      r ← CallObjectMethod fuel (stCtx s) (st_decrypt s) [jfile];
      plain ← (match r.2 with Some err => panic (emsg err) | None => mret r.1 end);
      b64 ← GoString plain;
      if String.eqb b64 "" then mret None else mret (Some (RawDecodeString b64))).

(** The error of base64 is replaced by what the JSON decoder says of the bytes. *)
Definition Get (s : androidStorage) : go androidE Config :=
  d ← stored_data s;
  match d with
  | None => mret zero_config
  | Some (data, _) => lift (v ← Decode data; decode_config v)
  end.

Definition Store (s : androidStorage) (config : Config) : go androidE unit :=
  let bs64 := RawEncodeToString (Encode (encode_config config)) in
  Do (jfile ← JavaString "config";
      jplain ← JavaString bs64;
      CallVoidMethod fuel (stCtx s) (st_encrypt s) [jfile; jplain]).

(** ** callbacks_android.go *)

Definition PCloudActivity_qrcodeScanned (contents : Z) : go androidE string := GoString contents.
Definition PCloudVPNService_connect (this : Z) : go androidE Z := NewGlobalRef this.
Definition PCloudVPNService_disconnect (this : Z) : go androidE Z := NewGlobalRef this.

(** ** The process: main.go on Android *)

(** References on their way: connections their goroutines have not delivered, the
    one disconnection the channel has room for, and those whose thread waits. *)
Record process := MkProcess {
  papp : androidApp;
  pst : androidStorage;
  onConnect : list Z;
  onDisconnectCh : option Z;
  blocked : list Z;
}.

Definition with_app (a : androidApp) (p : process) : process := MkProcess a (pst p) (onConnect p) (onDisconnectCh p) (blocked p).

Definition ConnectRequested (s : Z) (p : process) : process :=
  MkProcess (papp p) (pst p) (onConnect p ++ [s]) (onDisconnectCh p) (blocked p).

(** Nobody receives from onDisconnectCh. *)
Definition DisconnectRequested (s : Z) (p : process) : process :=
  match onDisconnectCh p with
  | None => MkProcess (papp p) (pst p) (onConnect p) (Some s) (blocked p)
  | Some _ => MkProcess (papp p) (pst p) (onConnect p) (onDisconnectCh p) (blocked p ++ [s])
  end.

Definition delivered (i : nat) (p : process) : process :=
  MkProcess (papp p) (pst p) (delete i (onConnect p)) (onDisconnectCh p) (blocked p).

Inductive happening :=
  | View (v : Z)                          (* app.ViewEvent *)
  | ServiceConnects (this : Z)            (* native methods of the service *)
  | ServiceDisconnects (this : Z)
  | Connects (i : nat)                    (* the i-th of the waiting goroutines sends *)
  | QrCode (contents : Z)
  | Triggers | Scans | AsksHostname.

(** What each asks of the application; the notices the loop sends to itself are in
    VpnClient. *)
Definition happens (p : process) (h : happening) : go androidE process :=
  match h with
  | View v =>
      r ← OnView (papp p) v;
      a ← (match r.2 with Some err => fail err | None => mret r.1 end);
      _ ← Get (pst p);
      mret (with_app a p)
  | ServiceConnects this => s ← PCloudVPNService_connect this; mret (ConnectRequested s p)
  | ServiceDisconnects this => s ← PCloudVPNService_disconnect this; mret (DisconnectRequested s p)
  | Connects i =>
      match onConnect p !! i with
      | None => mret p
      | Some s =>
          a ← UpdateService (papp p) (Some s);
          config ← Get (pst p);
          a ← Connect a config;
          mret (with_app a (delivered i p))
      end
  | QrCode contents => _ ← PCloudActivity_qrcodeScanned contents; mret p
  | Triggers => _ ← TriggerService (papp p); mret p
  | Scans => _ ← LaunchBarcodeScanner (papp p); mret p
  | AsksHostname =>
      check _h := GetHostname (papp p) onerr _e => mret p in mret p
  end.

(** newProcessor; an error of the loop is a panic of the process. *)
Definition newProcessor (AppContext : Z) : go androidE process :=
  let a := createApp AppContext in
  st ← CreateStorage (appCtx a);
  mret (MkProcess a st [] None []).
End App.
