(* ===== verification/AndroidRefs.v ===== *)
(** * References of the Android client

    Which global references are alive, over any virtual machine: the application
    holds exactly those it has not given back, never gives one back twice, and
    never calls through one that it gave back. *)
From S2P Require Import Prelude GoLib Jni NebulaCert VpnClient Android.
Open Scope list_scope.
Open Scope Z_scope.
#[local] Set Default Proof Using "Type*".

(** ** A virtual machine that watches its references *)

Section Machine.
Context `{!CertLib, !NebulaLib} {B : Type} (base : handler androidE B).

(** The answers come from [base]; what is kept of the references is this. *)
Record machine := MkMachine {
  live : list Z;                 (* global references *)
  dead : list Z;                 (* given back, and not handed out since *)
  misused : bool;                (* a dead reference was used, or one given back that is not alive *)
  world : B;
}.

(** The objects a function of JNI is called on; arguments of methods can be numbers. *)
Definition called_on {X} (e : jniE X) : list Z :=
  match e with
  | RawObjectClass o | RawMethodID _ o _ _ | RawCall _ _ o _ _ | RawNewGlobalRef o | GetStringChars o => [o]
  | RawIsSameObject a b | IsInstanceOf a b => [a; b]
  | GetArrayLength a | GetElements _ a | ReleaseElements _ a _ | GetObjectArrayElement a _ => [a]
  | _ => []
  end.

(** The reference in an answer. *)
Definition handed_out {X} (e : jniE X) : X -> list Z :=
  match e in jniE X return X -> list Z with
  | ExceptionOccurred => fun x => [x]
  | RawObjectClass _ => fun x => [x]
  | RawCall _ RObject _ _ _ => fun x => [x]
  | NewString _ => fun x => [x]
  | FindClass _ => fun x => [x]
  | GetObjectArrayElement _ _ => fun x => [x]
  | RawNewByteArray _ => fun x => [x]
  | RawNewGlobalRef _ => fun x => [x]
  | _ => fun _ => []
  end.

(** A reference is not one of those that are alive. *)
Definition new_ref (l : list Z) (x : Z) : Z := if decide (x ∈ l) then foldr Z.max 0 l + 1 else x.

(** Null has no references. *)
Definition answer {X} (e : jniE X) (s : machine) : X -> X :=
  match e in jniE X return X -> X with
  | RawNewGlobalRef o => fun x => if o =? 0 then 0 else new_ref (live s) x
  | _ => fun x => x
  end.

Definition settle {X} (e : jniE X) (x : X) (s : machine) : list Z * list Z * bool :=
  match e in jniE X return X -> list Z * list Z * bool with
  | RawNewGlobalRef _ => fun x => (if x =? 0 then live s else x :: live s, dead s, misused s)
  | RawDeleteGlobalRef o => fun _ =>
      if o =? 0 then (live s, dead s, misused s)
      else if decide (o ∈ live s) then (filter (fun x => x <> o) (live s), o :: dead s, misused s) else (live s, dead s, true)
  | _ => fun _ => (live s, dead s, misused s)
  end x.

Definition jvm_step {X} (e : jniE X) (s : machine) : machine * X :=
  let '(w, x) := base X (InJvm e) (world s) in
  let x := answer e s x in
  let '(l, d, m) := settle e x s in
  (MkMachine l (filter (fun y => y ∉ handed_out e x) d) (m || bool_decide (Exists (fun o => o ∈ dead s) (called_on e))) w, x).

Definition machine_step : handler androidE machine := fun X e s =>
  match e in androidE X return machine * X with
  | InJvm e => jvm_step e s
  | NebulaMain c fd =>
      let '(w, x) := base _ (NebulaMain c fd) (world s) in (MkMachine (live s) (dead s) (misused s) w, x)
  | ControlStart c => let '(w, x) := base _ (ControlStart c) (world s) in (MkMachine (live s) (dead s) (misused s) w, x)
  end.

(** ** What the application owns *)

(** [G] are the references alive, and [L] more that can be used. *)
Record own (G L : list Z) (s : machine) : Prop := {
  own_live : live s ≡ₚ G;
  own_right : misused s = false;
  own_distinct : NoDup G;
  own_nonnull : 0 ∉ G;
  own_usable : forall x, x ∈ 0 :: G ++ L -> x ∉ dead s;
}.

Lemma own_fewer G L L' s : (forall x, x ∈ L' -> x ∈ 0 :: G ++ L) -> own G L s -> own G L' s.
Proof. intros HL [H1 H2 H3 H4 H5]. constructor; try done. intros x Hx. apply H5. set_solver. Qed.

Lemma own_perm G G' L s : G ≡ₚ G' -> own G L s -> own G' L s.
Proof.
  intros HG [H1 H2 H3 H4 H5]. constructor; [by rewrite H1|done|by rewrite <- HG|by rewrite <- HG|].
  intros x Hx. apply H5. by rewrite HG.
Qed.

Definition neutral {X} (e : jniE X) : bool := match e with RawNewGlobalRef _ | RawDeleteGlobalRef _ => false | _ => true end.

Lemma own_step {X} (e : jniE X) G L s : neutral e = true -> (forall o, o ∈ called_on e -> o ∈ 0 :: G ++ L) -> own G L s ->
  let '(s', x) := jvm_step e s in own G (handed_out e x ++ L) s'.
Proof.
  intros Hn Hon [H1 H2 H3 H4 H5]. unfold jvm_step. destruct (base X (InJvm e) (world s)) as [w x0].
  set (x := answer e s x0). assert (Hs : settle e x s = (live s, dead s, misused s)) by (by destruct e). rewrite Hs.
  constructor; cbn [live misused dead]; [done| |done|done|].
  - rewrite H2. cbn [orb]. apply bool_decide_eq_false_2. intros Hex. apply Exists_exists in Hex as (o & Ho & Hd). exact (H5 o (Hon o Ho) Hd).
  - intros y Hy Hd. apply list_elem_of_filter in Hd as [Hout Hd]. apply (H5 y); [set_solver|done].
Qed.

#[local] Instance android_io : JniIO androidE := fun X e => InJvm e.

(** ** Programs that keep to their references *)

(** From [G] and [L], [m] ends with the same references alive; its result can be
    used for [h]. *)
Definition safe {A} (G L : list Z) (m : go androidE A) (h : A -> list Z) : Prop :=
  hoare machine_step (own G L) m (fun o s => match o with Ok a => own G (h a ++ L) s | _ => own G L s end).

Definition none {A} (_ : A) : list Z := [].

Lemma safe_bind {A C} G L (m : go androidE A) (f : A -> go androidE C) h k :
  safe G L m h -> (forall a, safe G (h a ++ L) (f a) k) -> safe G L (m ≫= f) k.
Proof.
  intros Hm Hf s Hs. rewrite run_mbind. specialize (Hm s Hs). destruct (run machine_step m s) as [s1 [a|e|w|]]; cbn [fst snd] in *; [|done..].
  specialize (Hf a s1 Hm). destruct (run machine_step (f a) s1) as [s2 [c|e|w|]]; cbn [fst snd] in *;
    (eapply own_fewer; [|exact Hf]); set_solver.
Qed.

Lemma safe_handle {A C} G L (m : go androidE A) (c : error -> go androidE C) (f : A -> go androidE C) h k :
  safe G L m h -> (forall e, safe G L (c e) k) -> (forall a, safe G (h a ++ L) (f a) k) -> safe G L (handle m c f) k.
Proof.
  intros Hm Hc Hf s Hs. rewrite run_handle. specialize (Hm s Hs). destruct (run machine_step m s) as [s1 [a|e|w|]]; cbn [fst snd] in *;
    [|by apply Hc|done..].
  specialize (Hf a s1 Hm). destruct (run machine_step (f a) s1) as [s2 [x|e|w|]]; cbn [fst snd] in *;
    (eapply own_fewer; [|exact Hf]); set_solver.
Qed.

Lemma safe_ret {A} G L (a : A) h : (forall x, x ∈ h a -> x ∈ 0 :: G ++ L) -> safe G L (mret a) h.
Proof. intros Hh s Hs. cbn. eapply own_fewer; [|exact Hs]. set_solver. Qed.

Lemma safe_fail {A} G L e (h : A -> list Z) : safe G L (fail e) h.
Proof. by intros s Hs. Qed.

Lemma safe_panic {A} G L w (h : A -> list Z) : safe G L (panic w) h.
Proof. by intros s Hs. Qed.

Lemma safe_lift {A} G L (o : outcome A) : safe G L (lift o) none.
Proof. intros s Hs. cbn. by destruct o. Qed.

Lemma safe_jvm {X} (e : jniE X) G L : neutral e = true -> (forall o, o ∈ called_on e -> o ∈ 0 :: G ++ L) ->
  safe G L (jvm e) (handed_out e).
Proof.
  intros Hn Hon s Hs. unfold jvm. cbn. pose proof (own_step e G L s Hn Hon Hs) as Hstep.
  destruct (jvm_step e s). exact Hstep.
Qed.

Lemma safe_more {A} G L (m : go androidE A) h k : safe G L m h -> (forall a x, x ∈ k a -> x ∈ 0 :: G ++ h a ++ L) -> safe G L m k.
Proof.
  intros Hm Hk s Hs. specialize (Hm s Hs). destruct (run machine_step m s) as [s1 [a|e|w|]]; cbn [fst snd] in *; [|done..].
  eapply own_fewer; [|exact Hm]. set_solver.
Qed.

(** ** The functions of jni_android.go *)

Ltac refs := cbn [called_on handed_out none app]; set_solver.
Ltac safe_step :=
  match goal with
  | |- forall _, _ => intro
  | |- safe _ _ (_ ≫= _) _ => eapply safe_bind
  | |- safe _ _ (mret _) _ => apply safe_ret; refs
  | |- safe _ _ (fail _) _ => apply safe_fail
  | |- safe _ _ (panic _) _ => apply safe_panic
  | |- safe _ _ (jvm _) _ => apply safe_jvm; [done|refs]
  | |- safe _ _ (if ?b then _ else _) _ => destruct b
  end.

Lemma safe_GoString G L str : str ∈ 0 :: G ++ L -> safe G L (GoString str) none.
Proof. intros Hs. unfold GoString. repeat safe_step. Qed.

Lemma safe_JavaString G L str : safe G L (JavaString str) (fun x => [x]).
Proof. unfold JavaString. repeat safe_step. Qed.

Lemma safe_must G L m : safe G L m (fun r => [r.1]) -> safe G L (must m) (fun x => [x]).
Proof. intros Hm. unfold must. eapply safe_bind; [exact Hm|]. intros [x []]; cbn [fst snd]; repeat safe_step. Qed.

Lemma safe_must_none G L m : safe G L m none -> safe G L (must m) none.
Proof. intros Hm. unfold must. eapply safe_bind; [exact Hm|]. intros [x []]; cbn [fst snd]; repeat safe_step. Qed.
Section Exceptions.
Context (exc : go androidE unit) (Hexc : forall G L, safe G L exc none).

Lemma safe_or_panic G L res : res ∈ 0 :: G ++ L -> safe G L (or_panic exc res) (fun x => [x]).
Proof. intros Hres. unfold or_panic. eapply safe_handle; [apply Hexc|repeat safe_step..]. Qed.

Lemma safe_or_panic_none G L res : safe G L (or_panic exc res) none.
Proof. unfold or_panic. eapply safe_handle; [apply Hexc|repeat safe_step..]. Qed.

Lemma safe_object_class G L obj : obj ∈ 0 :: G ++ L -> safe G L (object_class exc obj) (fun x => [x]).
Proof. intros Ho. unfold object_class. repeat safe_step. apply safe_or_panic. refs. Qed.

Lemma safe_method_id G L static cls name signature : cls ∈ 0 :: G ++ L -> safe G L (method_id exc static cls name signature) none.
Proof. intros Hc. unfold method_id. repeat safe_step. apply safe_or_panic_none. Qed.

Lemma safe_call_method G L static o m args : o ∈ 0 :: G ++ L ->
  safe G L (call_method exc static RObject o m args) (fun r => [r.1]).
Proof.
  intros Ho. unfold call_method. repeat safe_step. unfold with_error. eapply safe_handle; [apply Hexc|repeat safe_step..].
Qed.

Lemma safe_call_other G L static r o m args : o ∈ 0 :: G ++ L -> safe G L (call_method exc static r o m args) none.
Proof.
  intros Ho. unfold call_method. repeat safe_step. unfold with_error. eapply safe_handle; [apply Hexc|repeat safe_step..].
Qed.

End Exceptions.

Lemma safe_exception n : forall G L, safe G L (exception n) none.
Proof.
  induction n as [|n IH]; intros G L; [by intros s Hs|]. cbn [exception].
  eapply safe_bind; [by safe_step|]. intros thr. destruct (thr =? 0); [by safe_step|].
  eapply safe_bind; [by safe_step|]. intros _u.
  eapply safe_bind; [apply safe_object_class; [exact IH|refs]|]. intros cls.
  eapply safe_bind; [apply safe_method_id; [exact IH|refs]|]. intros m.
  eapply safe_bind; [apply safe_must, safe_call_method; [exact IH|refs]|]. intros msg.
  eapply safe_bind; [apply safe_GoString; refs|]. intros text. safe_step.
Qed.

Context (fuel : nat).

Lemma safe_method_of G L obj name signature : obj ∈ 0 :: G ++ L -> safe G L (method_of fuel obj name signature) none.
Proof.
  intros Ho. unfold method_of. eapply safe_bind; [apply safe_object_class; [apply safe_exception|done]|]. intros cls.
  apply safe_method_id; [apply safe_exception|refs].
Qed.

Lemma safe_object G L o m args : o ∈ 0 :: G ++ L -> safe G L (CallObjectMethod fuel o m args) (fun r => [r.1]).
Proof. apply safe_call_method, safe_exception. Qed.

Lemma safe_class G L o : o ∈ 0 :: G ++ L -> safe G L (GetObjectClass fuel o) (fun x => [x]).
Proof. apply safe_object_class, safe_exception. Qed.

Lemma safe_method G L cls name signature : cls ∈ 0 :: G ++ L -> safe G L (GetMethodID fuel cls name signature) none.
Proof. apply safe_method_id, safe_exception. Qed.

Lemma safe_void G L o m args : o ∈ 0 :: G ++ L -> safe G L (CallVoidMethod fuel o m args) none.
Proof.
  intros Ho. unfold CallVoidMethod. eapply safe_bind; [apply safe_must_none, safe_call_other; [apply safe_exception|done]|].
  intros _u. safe_step.
Qed.

Lemma safe_int G L o m args : o ∈ 0 :: G ++ L -> safe G L (CallIntMethod fuel o m args) none.
Proof. apply safe_call_other, safe_exception. Qed.

(** A part of [Do] that may change which references are alive. *)
Lemma hoare_Do {A} G L (f : go androidE A) (Q : outcome A -> machine -> Prop) :
  hoare machine_step (own G L) f Q ->
  (forall o s, Q o s -> Q o (machine_step _ (InJvm DetachCurrentThread) s).1) ->
  (forall w s, own G L s -> Q (Panic w) s) ->
  hoare machine_step (own G L) (Do f) Q.
Proof.
  intros Hf Hstable Hpanic. unfold Do.
  assert (Hjvm : forall e, neutral e = true -> called_on e = [] -> hoare machine_step (own G L) (jvm (X := Z) e) (or_else (fun _ => own G L) Q)).
  { intros e Hn Hon s Hs. pose proof (safe_jvm e G L Hn ltac:(rewrite Hon; set_solver) s Hs) as Hr. unfold jvm in *. cbn in *.
    destruct (jvm_step e s) as [s1 x]. cbn in *. eapply own_fewer; [|exact Hr]. set_solver. }
  eapply hoare_mbind; [by apply Hjvm|]. intros res. destruct (res =? JNI_OK); [exact Hf|].
  destruct (negb (res =? JNI_EDETACHED)); [by intros s Hs; apply Hpanic|].
  eapply hoare_mbind; [by apply Hjvm|]. intros r. destruct (negb (r =? JNI_OK)); [by intros s Hs; apply Hpanic|].
  intros s Hs. rewrite run_deferred. specialize (Hf s Hs). destruct (run machine_step f s) as [s1 o]. by apply Hstable.
Qed.

Lemma own_detach G L s : own G L s -> own G L (machine_step _ (InJvm DetachCurrentThread) s).1.
Proof.
  intros Hs. pose proof (own_step DetachCurrentThread G L s eq_refl ltac:(set_solver) Hs) as Hd. cbn [machine_step].
  destruct (jvm_step DetachCurrentThread s). exact Hd.
Qed.

Lemma safe_Do {A} G L (f : go androidE A) h : safe G L f h -> safe G L (Do f) h.
Proof.
  intros Hf. apply hoare_Do; [exact Hf| |by intros w s Hs]. intros [a|e|w|] s Hs; by apply own_detach.
Qed.

Ltac safe_call :=
  first [ safe_step
        | apply safe_Do
        | apply safe_method_of; refs
        | apply safe_must, safe_object; refs
        | apply safe_must_none, safe_int; refs
        | apply safe_object; refs
        | apply safe_class; refs
        | apply safe_method; refs
        | apply safe_void; refs
        | apply safe_JavaString
        | apply safe_GoString; refs
        | apply safe_lift ].
Ltac solve_safe := repeat safe_call.

(** ** The methods of the application *)

Lemma safe_GetHostname G L a : appCtx a ∈ 0 :: G ++ L -> safe G L (GetHostname fuel a) none.
Proof. intros Ha. unfold GetHostname. solve_safe. Qed.

Lemma safe_TriggerService G L a : activity a ∈ 0 :: G ++ L -> safe G L (TriggerService fuel a) none.
Proof. intros Ha. unfold TriggerService. solve_safe. Qed.

Lemma safe_LaunchBarcodeScanner G L a : activity a ∈ 0 :: G ++ L -> safe G L (LaunchBarcodeScanner fuel a) none.
Proof. intros Ha. unfold LaunchBarcodeScanner. solve_safe. Qed.

(** ** New references, and those given back *)

Definition refs_in (l : list Z) : list Z := filter (fun x => x <> 0) l.

Lemma new_ref_fresh l x : new_ref l x ∉ l.
Proof.
  unfold new_ref. case_decide as Hx; [|done]. intros Hin.
  assert (Hmax : forall y, y ∈ l -> y <= foldr Z.max 0 l).
  { clear. induction l as [|z l IH]; intros y Hy; [by apply elem_of_nil in Hy|]. cbn [foldr].
    apply elem_of_cons in Hy as [->|Hy]; [lia|]. specialize (IH y Hy). lia. }
  specialize (Hmax _ Hin). lia.
Qed.

(** A new reference is owned, unless it is null. *)
Lemma hoare_NewGlobalRef l L o : o ∈ 0 :: refs_in l ++ L ->
  hoare machine_step (own (refs_in l) L) (NewGlobalRef o)
    (fun r s => exists x, r = Ok x /\ own (refs_in (x :: l)) L s).
Proof.
  intros Ho s [H1 H2 H3 H4 H5]. unfold NewGlobalRef, jvm. cbn [run in_jvm android_io machine_step].
  unfold jvm_step. cbn [answer settle called_on handed_out]. destruct (base Z _ (world s)) as [w x0].
  set (x := if o =? 0 then 0 else new_ref (live s) x0). eexists. split; [reflexivity|].
  assert (Hx : x = 0 \/ x ∉ live s) by (unfold x; destruct (o =? 0); [by left|right; apply new_ref_fresh]).
  unfold refs_in. rewrite filter_cons. fold (refs_in l).
  constructor; cbn [fst snd live dead misused].
  - destruct (Z.eqb_spec x 0) as [->|Hne]; [by rewrite decide_False by tauto|]. rewrite decide_True by done. by rewrite H1.
  - rewrite H2. cbn [orb]. apply bool_decide_eq_false_2. intros Hex. apply Exists_exists in Hex as (y & Hy & Hd).
    apply list_elem_of_singleton in Hy as ->. exact (H5 o Ho Hd).
  - case_decide; [|done]. constructor; [|done]. rewrite <- H1. by destruct Hx.
  - case_decide; [|done]. apply not_elem_of_cons. done.
  - intros y Hy Hd. apply list_elem_of_filter in Hd as [Hout Hd]. apply (H5 y); [|done].
    case_decide; set_solver.
Qed.

(** A reference that is owned can be given back; the others remain. *)
Lemma hoare_DeleteGlobalRef x l L : (x <> 0 -> x ∉ L) ->
  hoare machine_step (own (refs_in (x :: l)) L) (DeleteGlobalRef x) (fun r s => r = Ok tt /\ own (refs_in l) L s).
Proof.
  intros HL s [H1 H2 H3 H4 H5]. unfold DeleteGlobalRef, jvm. cbn [run in_jvm android_io machine_step].
  unfold jvm_step. cbn [answer settle called_on handed_out]. destruct (base unit _ (world s)) as [w []].
  unfold refs_in in *. rewrite filter_cons in *. fold (refs_in l) in *.
  destruct (Z.eqb_spec x 0) as [->|Hne].
  - rewrite decide_False in * by tauto. split; [done|]. constructor; cbn [fst snd live dead misused]; [done| |done|done|].
    + rewrite H2. cbn [orb]. apply bool_decide_eq_false_2. by intros Hex%Exists_nil.
    + intros y Hy Hd. apply list_elem_of_filter in Hd as [_ Hd]. by apply (H5 y).
  - rewrite decide_True in * by done. rewrite decide_True by (rewrite H1; by left). split; [done|]. specialize (HL Hne).
    invc H3. assert (Hne' : 0 ∉ refs_in l) by set_solver.
    constructor; cbn [fst snd live dead misused]; [| |done|done|].
    + rewrite H1, filter_cons, decide_False by tauto. rewrite filter_all; [done|]. intros y Hy ->. done.
    + rewrite H2. cbn [orb]. apply bool_decide_eq_false_2. by intros Hex%Exists_nil.
    + intros y Hy Hd. apply list_elem_of_filter in Hd as [_ Hd]. apply elem_of_cons in Hd as [->|Hd].
      * apply elem_of_cons in Hy as [->|Hy]; [done|]. apply elem_of_app in Hy as [Hy|Hy]; done.
      * apply (H5 y); [|done]. set_solver.
Qed.

(** ** What the application holds *)

Definition app_refs (a : androidApp) : list Z := [appCtx a; activity a; service a].

(** A result with [Q]; otherwise nothing was misused. *)
Definition yields {A} (Q : A -> machine -> Prop) (o : outcome A) (s : machine) : Prop :=
  match o with Ok a => Q a s | _ => misused s = false end.

Lemma refs_perm l l' L s : l ≡ₚ l' -> own (refs_in l) L s -> own (refs_in l') L s.
Proof. intros Hl. apply own_perm. unfold refs_in. by rewrite Hl. Qed.

Lemma refs_in_or x l : x ∈ l -> x ∈ 0 :: refs_in l.
Proof. intros Hx. destruct (decide (x = 0)) as [->|Hne]; [by left|]. right. by apply list_elem_of_filter. Qed.

Lemma refs_usable x l L : x ∈ l -> x ∈ 0 :: refs_in l ++ L.
Proof. intros Hx. apply refs_in_or in Hx. set_solver. Qed.

Lemma safe_yields {A} G L (m : go androidE A) h : safe G L m h -> hoare machine_step (own G L) m (yields (fun a => own G (h a ++ L))).
Proof. intros Hm s Hs. specialize (Hm s Hs). unfold yields. destruct (run machine_step m s) as [s1 []]; by try apply Hm. Qed.

Lemma yields_bind {A C} (P : machine -> Prop) (m : go androidE A) (f : A -> go androidE C) R Q :
  hoare machine_step P m (yields R) -> (forall a, hoare machine_step (R a) (f a) (yields Q)) -> hoare machine_step P (m ≫= f) (yields Q).
Proof.
  intros Hm Hf. eapply hoare_mbind; [|exact Hf]. eapply hoare_conseq; [exact Hm|done|]. by intros [].
Qed.

Lemma misused_detach s : misused s = false -> misused (machine_step _ (InJvm DetachCurrentThread) s).1 = false.
Proof.
  intros Hs. cbn [machine_step]. unfold jvm_step. cbn [settle called_on]. destruct (base Z _ (world s)) as [w x]. cbn [fst misused].
  rewrite Hs. cbn [orb]. apply bool_decide_eq_false_2. by intros Hex%Exists_nil.
Qed.

Lemma yields_Do {A} G L L' (f : go androidE A) (phi : A -> Prop) (G' : A -> list Z) :
  hoare machine_step (own G L) f (yields (fun a s => phi a /\ own (G' a) L' s)) ->
  hoare machine_step (own G L) (Do f) (yields (fun a s => phi a /\ own (G' a) L' s)).
Proof.
  intros Hf. apply hoare_Do; [exact Hf| |by intros w s []].
  intros [a|e|w|] s Hs; [destruct Hs; split; [done|by apply own_detach]|by apply misused_detach..].
Qed.

Lemma yields_delete {A} x l L (f : go androidE A) Q : (x <> 0 -> x ∉ L) ->
  hoare machine_step (own (refs_in l) L) f (yields Q) ->
  hoare machine_step (own (refs_in (x :: l)) L) (DeleteGlobalRef x ≫= fun _ => f) (yields Q).
Proof.
  intros HL Hf. apply (yields_bind _ _ _ (fun _ => own (refs_in l) L)); [|by intros _u].
  eapply hoare_conseq; [by apply (hoare_DeleteGlobalRef x l L)|done|]. intros o s [-> Hs]. exact Hs.
Qed.

Lemma yields_new {A} o l L (f : Z -> go androidE A) Q : o ∈ 0 :: refs_in l ++ L ->
  (forall x, hoare machine_step (own (refs_in (x :: l)) L) (f x) (yields Q)) ->
  hoare machine_step (own (refs_in l) L) (NewGlobalRef o ≫= f) (yields Q).
Proof.
  intros Ho Hf. apply (yields_bind _ _ _ (fun x => own (refs_in (x :: l)) L)); [|exact Hf].
  eapply hoare_conseq; [by apply hoare_NewGlobalRef|done|]. intros r s (x & -> & Hs). exact Hs.
Qed.

Lemma yields_refs {A} l l' L (m : go androidE A) Q : l ≡ₚ l' ->
  hoare machine_step (own (refs_in l') L) m (yields Q) -> hoare machine_step (own (refs_in l) L) m (yields Q).
Proof. intros Hl Hm. eapply hoare_conseq; [exact Hm| |done]. intros s. by apply refs_perm. Qed.

Lemma refs_null l : refs_in (0 :: l) = refs_in l.
Proof. done. Qed.

(** The application after a step, which keeps its context. *)
Definition app_after (a : androidApp) (l : list Z) (a' : androidApp) (s : machine) : Prop :=
  appCtx a' = appCtx a /\ own (refs_in (app_refs a' ++ l)) [] s.

(** Of two references to the service the second is given back when they are the
    same, else the first. *)
Lemma hoare_UpdateService a s l :
  hoare machine_step (own (refs_in (s :: app_refs a ++ l)) []) (UpdateService a (Some s)) (yields (app_after a l)).
Proof.
  cbn [UpdateService]. apply (yields_Do _ _ _ _ (fun a' => appCtx a' = appCtx a) (fun a' => refs_in (app_refs a' ++ l))).
  eapply yields_bind.
  { apply safe_yields, safe_jvm; [done|]. cbn [called_on]. intros o Ho. apply refs_usable. unfold app_refs. set_solver. }
  intros []; cbn [handed_out app].
  - apply yields_delete; [set_solver|]. by intros st Hs.
  - destruct (Z.eqb_spec (service a) 0) as [Hz|Hz]; cbn [negb].
    + apply (yields_refs _ (0 :: appCtx a :: activity a :: s :: l)).
      { unfold app_refs. rewrite Hz. cbn [app]. solve_Permutation. }
      rewrite refs_null. by intros st Hs.
    + apply (yields_refs _ (service a :: appCtx a :: activity a :: s :: l)); [unfold app_refs; cbn [app]; solve_Permutation|].
      apply yields_delete; [set_solver|]. by intros st Hs.
Qed.

Lemma hoare_deleteActivityRef a l L : (activity a <> 0 -> activity a ∉ L) ->
  hoare machine_step (own (refs_in (app_refs a ++ l)) L) (deleteActivityRef a)
    (yields (fun a' s => (appCtx a' = appCtx a /\ activity a' = 0) /\ own (refs_in (app_refs a' ++ l)) L s)).
Proof.
  intros HL. unfold deleteActivityRef. destruct (Z.eqb_spec (activity a) 0) as [Hz|Hz]; [by intros s Hs|].
  apply (yields_bind _ _ _ (fun _ => own (refs_in (appCtx a :: service a :: l)) L)); [|by intros _u s Hs].
  eapply hoare_conseq; [eapply (yields_Do _ L L _ (fun _ => True) (fun _ => refs_in (appCtx a :: service a :: l)))|done|].
  - apply (yields_refs _ (activity a :: appCtx a :: service a :: l)); [unfold app_refs; cbn [app]; solve_Permutation|].
    eapply hoare_conseq; [by apply hoare_DeleteGlobalRef|done|]. by intros o s [-> Hs].
  - intros [] s; cbn [yields]; tauto.
Qed.

(** A method of an object, and then a global reference to its result. *)
Lemma hoare_contextForView l L view : view ∈ L ->
  hoare machine_step (own (refs_in l) L) (contextForView fuel view)
    (yields (fun ctx => own (refs_in (ctx :: l)) [])).
Proof.
  intros Hv. unfold contextForView. destruct (view =? 0); [by intros s []|].
  eapply hoare_conseq; [eapply (yields_Do _ L [] _ (fun _ => True) (fun ctx => refs_in (ctx :: l)))|done|].
  - eapply yields_bind; [apply safe_yields, safe_method_of; set_solver|]. intros m. cbn [none app].
    eapply yields_bind; [apply safe_yields, safe_object; set_solver|]. intros [r err]. cbn [fst snd].
    apply yields_new; [set_solver|]. intros ctx s Hs. destruct err; cbn; [apply Hs|]. split; [done|].
    eapply own_fewer; [|exact Hs]. set_solver.
  - intros [] s; cbn [yields]; tauto.
Qed.

Lemma hoare_OnView a l view : (activity a <> 0 -> view <> activity a) ->
  hoare machine_step (own (refs_in (app_refs a ++ l)) [view]) (OnView fuel a view)
    (fun o s => match o with Ok (a', None) => app_after a l a' s | _ => misused s = false end).
Proof.
  intros Hv s Hs. unfold OnView. rewrite run_mbind.
  pose proof (hoare_deleteActivityRef a l [view] ltac:(set_solver) s Hs) as Hd.
  destruct (run machine_step (deleteActivityRef a) s) as [s1 [a1|e|w|]]; cbn [fst snd yields] in *; [|done..].
  destruct Hd as [[Hctx Hz] Ho]. destruct (Z.eqb_spec view 0) as [->|Hne].
  { cbn. split; [done|]. eapply own_fewer; [|exact Ho]. set_solver. }
  rewrite run_handle. assert (Ho' : own (refs_in (appCtx a1 :: service a1 :: l)) [view] s1).
  { revert Ho. apply (refs_perm (app_refs a1 ++ l) (0 :: appCtx a1 :: service a1 :: l)). unfold app_refs. rewrite Hz. cbn [app]. solve_Permutation. }
  pose proof (hoare_contextForView _ [view] view ltac:(set_solver) s1 Ho') as Hc.
  destruct (run machine_step (contextForView fuel view) s1) as [s2 [ctx|e|w|]]; cbn [fst snd yields] in *; [|done..].
  split; [done|]. revert Hc. apply refs_perm. unfold app_refs. cbn [set_activity appCtx activity service app]. solve_Permutation.
Qed.

(** ** The rest of the process *)

Lemma safe_foreach {A} G L (f : A -> go androidE unit) xs : (forall x, safe G L (f x) none) -> safe G L (foreach f xs) none.
Proof.
  intros Hf. induction xs as [|x xs IH]; cbn [foreach]; [apply safe_ret; refs|]. eapply safe_bind; [apply Hf|]. by intros _u.
Qed.

Lemma safe_add_network G L b m1 m2 n : b ∈ 0 :: G ++ L -> safe G L (add_network fuel b m1 m2 n) none.
Proof. intros Hb. unfold add_network. solve_safe. Qed.

Lemma safe_NebulaMain G L c fd : safe G L (call (NebulaMain c fd)) none.
Proof. intros s [H1 H2 H3 H4 H5]. rewrite run_call. cbn. destruct (base _ _ (world s)) as [w []]; by constructor. Qed.

Lemma safe_open_tunnel G L a c crt : service a ∈ 0 :: G ++ L -> safe G L (open_tunnel fuel a c crt) none.
Proof.
  intros Ha. unfold open_tunnel, mtu_of. eapply safe_bind; [apply safe_method_of; refs|]. intros m.
  eapply safe_bind; [apply safe_object; refs|]. intros [b err]. cbn [fst snd].
  eapply (safe_bind G _ _ _ (fun x => [x])); [destruct err; repeat safe_step|]. intros b'.
  eapply safe_bind; [apply safe_class; refs|]. intros bcls. eapply safe_bind; [apply safe_method; refs|]. intros m1.
  eapply safe_bind; [apply safe_method; refs|]. intros m2.
  eapply safe_bind; [apply safe_foreach; intros n; apply safe_add_network; refs|]. intros _u.
  eapply safe_bind; [apply safe_method; refs|]. intros m3.
  eapply (safe_bind G _ _ _ none); [repeat case_match; repeat safe_step|]. intros mtu.
  eapply safe_bind; [apply safe_must, safe_object; refs|]. intros _r. eapply safe_bind; [apply safe_method; refs|]. intros m4.
  eapply safe_bind; [apply safe_must, safe_object; refs|]. intros fd. eapply safe_bind; [apply safe_method_of; refs|]. intros m5.
  apply safe_must_none, safe_int. refs.
Qed.

Lemma safe_Connect G L a c : service a ∈ 0 :: G ++ L -> safe G L (Connect fuel a c) none.
Proof.
  intros Ha. unfold Connect, cert_text. destruct (netConfig c) as [n|]; [|apply safe_ret; refs].
  eapply safe_bind; [apply safe_lift|]. intros nc. eapply (safe_bind G _ _ _ none); [repeat case_match; repeat safe_step|]. intros crt.
  eapply (safe_bind G _ _ _ none); [destruct (UnmarshalNebulaCertificateFromPEM crt); solve [apply safe_lift|apply safe_panic]|]. intros host.
  apply safe_Do. eapply safe_bind; [apply safe_open_tunnel; refs|]. intros fd. eapply safe_bind; [apply safe_NebulaMain|]. intros ctl.
  intros s [H1 H2 H3 H4 H5]. cbn. destruct (base _ _ (world s)) as [w []]. by constructor.
Qed.

Lemma safe_Get G L st : stCtx st ∈ 0 :: G ++ L -> safe G L (Get fuel st) none.
Proof.
  intros Hst. unfold Get. eapply (safe_bind G L _ _ none).
  - unfold stored_data. apply safe_Do. eapply safe_bind; [apply safe_JavaString|]. intros jf. eapply safe_bind; [apply safe_object; refs|].
    intros [r err]. cbn [fst snd]. eapply (safe_bind G _ _ _ (fun x => [x])); [destruct err; repeat safe_step|]. intros plain.
    eapply safe_bind; [apply safe_GoString; refs|]. intros b64. repeat safe_step.
  - intros [[data err]|]; [apply safe_lift|apply safe_ret; refs].
Qed.

Lemma safe_CreateStorage G L ctx : ctx ∈ 0 :: G ++ L -> safe G L (CreateStorage fuel ctx) none.
Proof. intros Hc. unfold CreateStorage. solve_safe. Qed.

(** What a result is, whatever the machine does. *)
Definition gives {A} (phi : A -> Prop) (m : go androidE A) : Prop :=
  forall s, match (run machine_step m s).2 with Ok a => phi a | _ => True end.

Lemma gives_bind {A C} phi (m : go androidE A) (f : A -> go androidE C) : (forall a, gives phi (f a)) -> gives phi (m ≫= f).
Proof. intros Hf s. rewrite run_mbind. destruct (run machine_step m s) as [s1 []]; [apply Hf|done..]. Qed.

Lemma gives_Do {A} phi (f : go androidE A) : gives phi f -> gives phi (Do f).
Proof.
  intros Hf. unfold Do. apply gives_bind. intros res. destruct (res =? JNI_OK); [done|]. destruct (negb (res =? JNI_EDETACHED)); [by intros s|].
  apply gives_bind. intros r. destruct (negb (r =? JNI_OK)); [by intros s|]. intros s. rewrite run_deferred.
  specialize (Hf s). by destruct (run machine_step f s).
Qed.

Lemma Connect_refs a c : gives (fun a' => app_refs a' = app_refs a) (Connect fuel a c).
Proof.
  unfold Connect. destruct (netConfig c) as [n|]; [|done]. do 3 (apply gives_bind; intros ?). apply gives_Do.
  do 2 (apply gives_bind; intros ?). intros s. cbn. by destruct (base _ _ (world s)).
Qed.

Lemma CreateStorage_ctx ctx : gives (fun st => stCtx st = ctx) (CreateStorage fuel ctx).
Proof. unfold CreateStorage. apply gives_Do. do 3 (apply gives_bind; intros ?). done. Qed.

Lemma hoare_gives {A} phi P (m : go androidE A) Q : gives phi m -> hoare machine_step P m (yields Q) ->
  hoare machine_step P m (yields (fun a s => phi a /\ Q a s)).
Proof.
  intros Hg Hm s Hs. specialize (Hg s). specialize (Hm s Hs). by destruct (run machine_step m s) as [s1 []].
Qed.

(** ** The invariant *)

Definition pending (p : process) : list Z := onConnect p ++ option_list (onDisconnectCh p) ++ blocked p.

(** The references a process has to give back one day. *)
Definition held (p : process) : list Z := refs_in (app_refs (papp p) ++ pending p).

Record tidy (L : list Z) (p : process) (s : machine) : Prop := {
  tidy_own : own (held p) L s;
  tidy_ctx : stCtx (pst p) = appCtx (papp p);
}.

Definition incoming (h : happening) : list Z :=
  match h with View v => [v] | ServiceConnects t | ServiceDisconnects t => [t] | QrCode c => [c] | _ => [] end.

Lemma tidy_app a p s : app_after (papp p) (pending p) a s -> stCtx (pst p) = appCtx (papp p) -> tidy [] (with_app a p) s.
Proof. intros [Hctx Ho] Hst. constructor; [exact Ho|]. cbn. congruence. Qed.

Lemma own_none G L s : own G L s -> own G [] s.
Proof. apply own_fewer. set_solver. Qed.

Lemma safe_keeps {A} p L (m : go androidE A) h : safe (held p) L m h -> hoare machine_step (tidy L p) (m ≫= fun _ => mret p) (yields (tidy [])).
Proof.
  intros Hm s [Ho Hst]. assert (Hp : hoare machine_step (own (held p) L) (m ≫= fun _ => mret p) (yields (fun p' s => p' = p /\ own (held p) [] s))).
  { eapply yields_bind; [by apply safe_yields|]. intros a s' Hs. split; [done|]. by eapply own_none. }
  specialize (Hp s Ho). destruct (run machine_step _ s) as [s1 [p'| | |]]; cbn [fst snd yields] in *; [|done..].
  destruct Hp as [-> Ho']. by constructor.
Qed.

Lemma app_ctx_held p L : appCtx (papp p) ∈ 0 :: held p ++ L.
Proof. apply refs_usable. unfold app_refs. set_solver. Qed.

Lemma activity_held p L : activity (papp p) ∈ 0 :: held p ++ L.
Proof. apply refs_usable. unfold app_refs. set_solver. Qed.

(** A view gives the application another activity. *)
Lemma tidy_View p v : v ∉ held p -> hoare machine_step (tidy [v] p) (happens fuel p (View v)) (yields (tidy [])).
Proof.
  intros Hv s [Ho Hst]. cbn [happens]. rewrite run_mbind.
  assert (Hne : activity (papp p) <> 0 -> v <> activity (papp p)).
  { intros Hz ->. apply Hv. unfold held. apply list_elem_of_filter. split; [done|]. unfold app_refs. set_solver. }
  pose proof (hoare_OnView (papp p) (pending p) v Hne s Ho) as Hr.
  destruct (run machine_step (OnView fuel (papp p) v) s) as [s1 [[a [err|]]|e|w|]]; cbn [fst snd yields] in *; [done| |done..].
  rewrite run_mbind. cbn [run mret go_ret]. pose proof (tidy_app a p s1 Hr Hst) as Ht.
  revert s1 Ht Hr. intros s1 Ht _.
  assert (Hget : safe (held (with_app a p)) [] (Get fuel (pst p)) none).
  { apply safe_Get. rewrite Hst. pose proof (tidy_ctx _ _ _ Ht) as Hc. cbn in Hc. rewrite <- Hst, Hc. apply (app_ctx_held (with_app a p)). }
  exact (safe_keeps (with_app a p) [] _ _ Hget s1 Ht).
Qed.

(** The service hands over a reference to itself. *)
Lemma tidy_new p this (f : Z -> process) : (forall x, papp (f x) = papp p /\ pst (f x) = pst p /\ pending (f x) ≡ₚ x :: pending p) ->
  hoare machine_step (tidy [this] p) (s ← NewGlobalRef this; mret (f s)) (yields (tidy [])).
Proof.
  intros Hf s [Ho Hst].
  assert (Hn : hoare machine_step (own (held p) [this]) (s ← NewGlobalRef this; mret (f s))
    (yields (fun p' s => stCtx (pst p') = appCtx (papp p') /\ own (held p') [] s))).
  { unfold held. apply yields_new; [set_solver|]. intros x s' Hs. destruct (Hf x) as (Ha & Hb & Hp). cbn [run mret go_ret fst snd yields].
    unfold held. rewrite Ha, Hb. split; [done|].
    apply own_none with [this]. revert Hs. apply refs_perm. rewrite Hp. solve_Permutation. }
  specialize (Hn s Ho). destruct (run machine_step _ s) as [s1 [p'| | |]]; cbn [fst snd yields] in *; [|done..]. by destruct Hn; constructor.
Qed.

(** The connection is taken, the application has the reference. *)
Lemma tidy_Connects p i : hoare machine_step (tidy [] p) (happens fuel p (Connects i)) (yields (tidy [])).
Proof.
  cbn [happens]. destruct (onConnect p !! i) as [sv|] eqn:Hi; [|by intros s Hs].
  assert (Hpend : pending p ≡ₚ sv :: pending (delivered i p)).
  { unfold pending. cbn [onConnect onDisconnectCh blocked delivered]. rewrite (delete_Permutation _ _ _ Hi) at 1. done. }
  intros s [Ho Hst]. assert (Ho' : own (refs_in (sv :: app_refs (papp p) ++ pending (delivered i p))) [] s).
  { revert Ho. apply refs_perm. rewrite Hpend. solve_Permutation. }
  rewrite run_mbind. pose proof (hoare_UpdateService (papp p) sv _ s Ho') as Hu.
  destruct (run machine_step (UpdateService (papp p) (Some sv)) s) as [s1 [a|e|w|]]; cbn [fst snd yields] in *; [|done..].
  destruct Hu as [Hctx Hown]. set (q := with_app a (delivered i p)). fold (held q) in Hown.
  assert (Hrest : hoare machine_step (own (held q) []) (config ← Get fuel (pst p); a' ← Connect fuel a config; mret (with_app a' (delivered i p)))
    (yields (fun p' s => app_refs (papp p') = app_refs a /\ pst p' = pst p /\ own (held q) [] s /\ pending p' = pending q))).
  { eapply yields_bind.
    - apply safe_yields, safe_Get. rewrite Hst, <- Hctx. apply (app_ctx_held q).
    - intros config. cbn [none app]. eapply yields_bind.
      + apply (hoare_gives (fun a' => app_refs a' = app_refs a)); [apply Connect_refs|]. apply safe_yields, safe_Connect.
        apply refs_usable. unfold app_refs. cbn. set_solver.
      + intros a' s' [Hr Hs]. cbn. by split_and!. }
  specialize (Hrest s1 Hown). destruct (run machine_step _ s1) as [s2 [p'| | |]]; cbn [fst snd yields] in *; [|done..].
  destruct Hrest as (Hr & Hp & Hs & Hpe). constructor.
  - unfold held in *. by rewrite Hr, Hpe.
  - unfold app_refs in Hr. injection Hr as Hr _ _. congruence.
Qed.

Lemma tidy_happens p h : (forall x, x ∈ incoming h -> x ∉ held p) ->
  hoare machine_step (tidy (incoming h) p) (happens fuel p h) (yields (tidy [])).
Proof.
  intros Hin. destruct h as [v|this|this|i|c| | |]; cbn [incoming] in *.
  - apply tidy_View. set_solver.
  - apply tidy_new. intros x. split_and!; [done|done|]. unfold pending. cbn. solve_Permutation.
  - apply tidy_new. intros x. unfold DisconnectRequested. destruct (onDisconnectCh p) as [d|] eqn:Hd; (split_and!; [done|done|]);
      unfold pending; cbn; rewrite ?Hd; cbn; solve_Permutation.
  - apply tidy_Connects.
  - eapply (safe_keeps p [c]), safe_GoString. set_solver.
  - eapply safe_keeps, safe_TriggerService, activity_held.
  - eapply safe_keeps, safe_LaunchBarcodeScanner, activity_held.
  - intros s [Ho Hst]. cbn [happens]. pose proof (safe_GetHostname _ [] _ (app_ctx_held p []) s Ho) as Hg. rewrite run_handle.
    destruct (run machine_step (GetHostname fuel (papp p)) s) as [s1 [n|e|w|]]; cbn [fst snd yields] in *; try by constructor. by destruct Hg.
    by destruct Hg.
Qed.

(** ** A life of the process *)

(** The machine passes references of its own. *)
Definition passed (s : machine) (x : Z) : Z := if x =? 0 then 0 else new_ref (live s) x.

Definition pass (s : machine) (h : happening) : happening :=
  match h with
  | View v => View (passed s v)
  | ServiceConnects t => ServiceConnects (passed s t)
  | ServiceDisconnects t => ServiceDisconnects (passed s t)
  | QrCode c => QrCode (passed s c)
  | _ => h
  end.

Definition receive (h : happening) (s : machine) : machine :=
  MkMachine (live s) (filter (fun x => x ∉ incoming h) (dead s)) (misused s) (world s).

Fixpoint lives (hs : list happening) (p : process) (s : machine) : machine * outcome process :=
  match hs with
  | [] => (s, Ok p)
  | h :: hs' =>
      let h := pass s h in
      match run machine_step (happens fuel p h) (receive h s) with
      | (s1, Ok p') => lives hs' p' s1
      | r => r
      end
  end.

(** The process from its start on; it is given its context. *)
Definition whole_life (AppContext : Z) (hs : list happening) (w : B) : machine * outcome process :=
  match run machine_step (newProcessor fuel AppContext) (MkMachine [AppContext] [] false w) with
  | (s, Ok p) => lives hs p s
  | r => r
  end.

Lemma receive_tidy p h s : tidy [] p s -> tidy (incoming (pass s h)) p (receive (pass s h) s) /\ forall x, x ∈ incoming (pass s h) -> x ∉ held p.
Proof.
  intros [[H1 H2 H3 H4 H5] Hst]. split.
  - constructor; [|done]. constructor; cbn [receive live dead misused]; [done..|].
    intros x Hx Hd. apply list_elem_of_filter in Hd as [Hout Hd]. apply (H5 x); [set_solver|done].
  - assert (Hp : forall x, passed s x ∉ held p).
    { intros x. unfold passed. destruct (x =? 0); [done|]. rewrite <- H1. apply new_ref_fresh. }
    intros x. destruct h; cbn [pass incoming]; try (by intros Hx%elem_of_nil); intros ->%list_elem_of_singleton; apply Hp.
Qed.

Lemma lives_tidy hs p s : tidy [] p s -> yields (tidy []) (lives hs p s).2 (lives hs p s).1.
Proof.
  revert p s. induction hs as [|h hs IH]; intros p s Hs; cbn [lives]; [exact Hs|].
  destruct (receive_tidy p h s Hs) as [Ht Hin]. pose proof (tidy_happens p (pass s h) Hin _ Ht) as Hh.
  destruct (run machine_step _ _) as [s1 [p'| | |]]; cbn [fst snd yields] in *; [by apply IH|done..].
Qed.

(** ** Disconnections *)

(** The disconnections that wait to be received. *)
Definition disconnections (p : process) : list Z := option_list (onDisconnectCh p) ++ blocked p.

Definition is_disconnect (h : happening) : bool := match h with ServiceDisconnects _ => true | _ => false end.

Lemma gives_ret {A} (phi : A -> Prop) a : phi a -> gives phi (mret a).
Proof. by intros Ha s. Qed.

Lemma happens_disconnections p h :
  gives (fun p' => length (disconnections p') = (length (disconnections p) + (if is_disconnect h then 1 else 0))%nat) (happens fuel p h).
Proof.
  destruct h; cbn [happens is_disconnect]; rewrite ?Nat.add_0_r.
  - do 3 (apply gives_bind; intros ?). by apply gives_ret.
  - apply gives_bind. intros x. by apply gives_ret.
  - apply gives_bind. intros x. apply gives_ret. unfold disconnections, DisconnectRequested. destruct (onDisconnectCh p) as [d|] eqn:Hd;
      cbn [onDisconnectCh blocked option_list]; rewrite ?Hd; rewrite !length_app; cbn; lia.
  - destruct (onConnect p !! i); [|by apply gives_ret]. do 3 (apply gives_bind; intros ?). by apply gives_ret.
  - apply gives_bind. intros x. by apply gives_ret.
  - apply gives_bind. intros x. by apply gives_ret.
  - apply gives_bind. intros x. by apply gives_ret.
  - intros s. rewrite run_handle. by destruct (run machine_step _ s) as [s1 []].
Qed.

Lemma lives_disconnections hs p s p' : (lives hs p s).2 = Ok p' ->
  length (disconnections p') = (length (disconnections p) + length (filter is_disconnect hs))%nat.
Proof.
  revert p s. induction hs as [|h hs IH]; intros p s Hr; cbn [lives] in Hr.
  - injection Hr as <-. by rewrite Nat.add_0_r.
  - pose proof (happens_disconnections p (pass s h) (receive (pass s h) s)) as Hg.
    destruct (run machine_step _ _) as [s1 [q| | |]]; cbn [fst snd] in *; [|done..]. rewrite (IH q s1 Hr), Hg, filter_cons.
    assert (Hd : is_disconnect (pass s h) = is_disconnect h) by (by destruct h). rewrite Hd.
    destruct (is_disconnect h); cbn [Is_true]; [rewrite decide_True by done|rewrite decide_False by tauto]; cbn [length]; lia.
Qed.

(** C31. No reference is lost or used after its end. Over any virtual machine and
    whatever happens - views come and go, the service connects and disconnects,
    the loop takes the connections in any order - a global reference is given
    back once and never used afterwards, and those alive are exactly the context,
    the present activity and service, the connections under way and one for
    each disconnection of the service: nobody receives these. *)
Theorem references_balanced (AppContext : Z) (hs : list happening) (w : B) (Hctx : AppContext <> 0) :
  let '(s, o) := whole_life AppContext hs w in
  misused s = false /\
  match o with
  | Ok p => live s ≡ₚ refs_in ([appCtx (papp p); activity (papp p); service (papp p)] ++ onConnect p ++ disconnections p) /\
            length (disconnections p) = length (filter is_disconnect hs)
  | _ => True
  end.
Proof.
  unfold whole_life, newProcessor. rewrite run_mbind.
  assert (H0s : own (refs_in [AppContext]) [] (MkMachine [AppContext] [] false w)).
  { unfold refs_in. rewrite filter_cons, decide_True by done. constructor; cbn; [done|done|apply NoDup_singleton|set_solver|].
    intros x _ Hd. by apply elem_of_nil in Hd. }
  pose proof (hoare_gives (fun st => stCtx st = AppContext) _ _ _ (CreateStorage_ctx AppContext)
    (safe_yields _ _ _ _ (safe_CreateStorage (refs_in [AppContext]) [] AppContext ltac:(apply refs_usable; set_solver))) _ H0s) as Hc.
  cbn [createApp appCtx]. destruct (run machine_step (CreateStorage fuel AppContext) _) as [s1 [st|e|x|]]; cbn [fst snd yields] in Hc; [|done..].
  destruct Hc as [Hst Ho]. cbn [run mret go_ret]. set (p0 := MkProcess _ _ _ _ _).
  assert (Ht : tidy [] p0 s1).
  { constructor; [|exact Hst]. unfold held, app_refs, refs_in. cbn. exact Ho. }
  pose proof (lives_tidy hs p0 s1 Ht) as Hl. pose proof (lives_disconnections hs p0 s1) as Hd.
  destruct (lives hs p0 s1) as [s [p|e|x|]]; cbn [fst snd yields] in *; [|done..].
  destruct Hl as [[H1 H2 _ _ _] _]. split; [done|]. split; [exact H1|]. by rewrite (Hd p eq_refl).
Qed.
End Machine.

(** ** A life *)

#[local] Existing Instance DemoCert.demo_cert.

#[local] Instance demo_nebula : NebulaLib := {|
  NebulaConfig := list (string * json);
  LoadString _ := Ok [];
  GetMap c k := default [] (object_fields (get_field k c));
|}.

(** Every object is 7, and new references are asked for as 9. *)
Definition demo_jvm : handler androidE unit := fun X e w =>
  match e in androidE X return unit * X with
  | InJvm e =>
      (w, match e in jniE X return X with
          | ExceptionClear => tt | RawDeleteGlobalRef _ => tt | DeleteLocalRef _ => tt | ReleaseElements _ _ _ => tt
          | RawIsSameObject a b => a =? b
          | GetStringChars _ => [] | GetElements _ _ => []
          | IsInstanceOf _ _ => true
          | FindClass _ | RawObjectClass _ | RawCall _ _ _ _ _ | NewString _ => 7
          | RawNewGlobalRef _ => 9
          | GetEnv | AttachCurrentThread | DetachCurrentThread | ExceptionOccurred | RawMethodID _ _ _ _ | RawNewByteArray _
          | GetArrayLength _ | GetObjectArrayElement _ _ => 0
          end)
  | NebulaMain _ _ => (w, Ok 1)
  | ControlStart _ => (w, tt)
  end.

Definition demo_life : list happening :=
  [View 5; ServiceConnects 6; Connects 0; ServiceConnects 6; ServiceDisconnects 6; View 8; Connects 0; ServiceDisconnects 6; View 0].

Lemma references_balanced_witness :
  exists s p, whole_life demo_jvm 3 1 demo_life tt = (s, Ok p) /\ misused s = false /\
    length (live s) = 4%nat /\ length (disconnections p) = 2%nat.
Proof.
  pose proof (references_balanced demo_jvm 3 1 demo_life tt ltac:(done)) as Hb.
  destruct (whole_life demo_jvm 3 1 demo_life tt) as [s o] eqn:Hl. destruct Hb as [Hm Hb].
  destruct o as [p|e|x|]; [|vm_compute in Hl; discriminate Hl..]. exists s, p. destruct Hb as [Hlive Hd].
  split; [reflexivity|]. split; [exact Hm|]. split; [|exact Hd]. vm_compute in Hl. injection Hl as <- _. reflexivity.
Defined.
