(* ===== verification/AndroidStorage.v ===== *)
(** * What an Android device keeps

    The preferences of PCloudApp.java behind the virtual machine: a configuration
    that was stored is read back, in this process or a later one. *)
From S2P Require Import Prelude GoLib GoStrings GoBase64 GoJson GoJsonText GoUtf Jni NebulaCert VpnClient VpnTheorems Android.
From Stdlib Require Import Ascii.
Open Scope string_scope.
Open Scope list_scope.
Open Scope Z_scope.

(** ** The device *)

Record phone := MkPhone {
  attached : bool;                       (* the thread of the caller *)
  strings : gmap Z (list Z);             (* the strings of Java, by reference *)
  made : nat;                            (* strings made so far *)
  prefs : gmap (list Z) (list Z);        (* the encrypted preferences *)
}.

Definition encryptToPref : Z := 1.
Definition decryptFromPref : Z := 2.

Definition new_string (us : list Z) (d : phone) : phone * Z :=
  let r := Z.of_nat (S (made d)) in (MkPhone (attached d) (<[r := us]> (strings d)) (S (made d)) (prefs d), r).

(** PCloudApp: the preference under a key is put, or got with null for none. *)
Definition app_method (m : Z) (args : list Z) (d : phone) : phone * Z :=
  let text r := default [] (strings d !! r) in
  match args with
  | [key; plain] =>
      if m =? encryptToPref then (MkPhone (attached d) (strings d) (made d) (<[text key := text plain]> (prefs d)), 0) else (d, 0)
  | [key] =>
      if m =? decryptFromPref then match prefs d !! text key with Some t => new_string t d | None => (d, 0) end else (d, 0)
  | _ => (d, 0)
  end.

Definition phone_jvm {X} (e : jniE X) (d : phone) : phone * X :=
  match e in jniE X return phone * X with
  | GetEnv => (d, if attached d then JNI_OK else JNI_EDETACHED)
  | AttachCurrentThread => (MkPhone true (strings d) (made d) (prefs d), JNI_OK)
  | DetachCurrentThread => (MkPhone false (strings d) (made d) (prefs d), JNI_OK)
  | RawMethodID _ _ name _ =>
      (d, if String.eqb name "encryptToPref" then encryptToPref else if String.eqb name "decryptFromPref" then decryptFromPref else 0)
  | RawCall _ _ _ m args => app_method m args d
  | NewString us => new_string us d
  | GetStringChars r => (d, default [] (strings d !! r))
  | RawObjectClass o => (d, o)
  | RawNewGlobalRef o => (d, o)
  | RawIsSameObject a b => (d, a =? b)
  | IsInstanceOf _ _ => (d, true)
  | FindClass _ | ExceptionOccurred | RawNewByteArray _ | GetArrayLength _ | GetObjectArrayElement _ _ => (d, 0)
  | GetElements _ _ => (d, [])
  | ExceptionClear | RawDeleteGlobalRef _ | DeleteLocalRef _ | ReleaseElements _ _ _ => (d, tt)
  end.

Section Phone.
Context `{!CertLib, !NebulaLib}.

Definition phone_step : handler androidE phone := fun X e d =>
  match e in androidE X return phone * X with
  | InJvm e => phone_jvm e d
  | NebulaMain _ _ => (d, Ok 0)
  | ControlStart _ => (d, tt)
  end.

#[local] Instance android_io : JniIO androidE := fun X e => InJvm e.

Context (fuel : nat).
Abbreviation step := phone_step.

Lemma run_jvm {X} (e : jniE X) d : run step (jvm e) d = let '(d', x) := phone_jvm e d in (d', Ok x).
Proof. done. Qed.

Lemma run_exception d : run step (exception (S fuel)) d = (d, Ok tt).
Proof. done. Qed.

(** [Do] changes nothing but whether the thread is attached, and that not for long. *)
Lemma run_Do_phone {A} (f : go androidE A) d (P : phone -> outcome A -> Prop) :
  (forall d' o, P d' o -> P (MkPhone false (strings d') (made d') (prefs d')) o) ->
  (forall b, let '(d', o) := run step f (MkPhone b (strings d) (made d) (prefs d)) in P d' o) ->
  let '(d', o) := run step (Do f) d in P d' o.
Proof.
  intros Hdetach Hf. unfold Do. rewrite run_mbind, run_jvm. cbn [phone_jvm]. destruct (attached d) eqn:Ha; cbn [Z.eqb JNI_OK JNI_EDETACHED].
  - specialize (Hf true). destruct d as [at0 ss n ps]. cbn in Ha. subst at0. exact Hf.
  - cbn [Pos.eqb negb]. rewrite run_mbind, run_jvm. cbn [phone_jvm Z.eqb JNI_OK negb]. rewrite run_deferred.
    specialize (Hf true). destruct (run step f _) as [d' o]. cbn. by apply Hdetach.
Qed.

Lemma run_JavaString s d : s <> "" ->
  run step (JavaString s) d = let '(d', r) := new_string (utf16.Encode (runes_of s)) d in (d', Ok r).
Proof. intros Hs. unfold JavaString. apply String.eqb_neq in Hs. by rewrite Hs. Qed.

Lemma run_GoString r us d : r <> 0 -> strings d !! r = Some us ->
  run step (GoString r) d = (d, Ok (text_of_runes (utf16.Decode us))).
Proof. intros Hr Hs. unfold GoString. rewrite (proj2 (Z.eqb_neq _ _) Hr), run_mbind, run_jvm. cbn [phone_jvm]. by rewrite Hs. Qed.

Lemma run_call_object o m args d :
  run step (CallObjectMethod (S fuel) o m args) d = let '(d', x) := app_method m args d in (d', Ok (x, None)).
Proof.
  unfold CallObjectMethod, call_method. rewrite run_mbind, run_jvm. cbn [phone_jvm]. by destruct (app_method m args d).
Qed.

Lemma run_call_void o m args d :
  run step (CallVoidMethod (S fuel) o m args) d = let '(d', x) := app_method m args d in (d', Ok tt).
Proof.
  unfold CallVoidMethod, must, call_method. rewrite !run_mbind, run_jvm. cbn [phone_jvm]. by destruct (app_method m args d).
Qed.

Lemma run_CreateStorage ctx d : ctx <> 0 ->
  let '(d', r) := run step (CreateStorage (S fuel) ctx) d in prefs d' = prefs d /\ r = Ok (MkStorage ctx encryptToPref decryptFromPref).
Proof.
  intros Hctx. unfold CreateStorage. apply run_Do_phone; [done|]. intros b.
  unfold GetObjectClass, object_class. rewrite (proj2 (Z.eqb_neq _ _) Hctx). done.
Qed.

(** The key of the configuration. *)
Definition config_key : list Z := utf16.Encode (runes_of "config").

Definition config_text (c : Config) : string := RawEncodeToString (Encode (encode_config c)).

Lemma raw_nonempty s : s <> "" -> RawEncodeToString s <> "".
Proof. by destruct s as [|x [|y [|z s]]]. Qed.

Lemma config_text_nonempty c : config_text c <> "".
Proof. apply raw_nonempty. unfold Encode, encode_config. cbn [Marshal]. by rewrite str_app_assoc, str_app_cons. Qed.

Lemma raw_ascii s : ascii_text (RawEncodeToString s).
Proof.
  assert (He : forall t, (ascii_code (encode_sextet t) <? 128)%nat = true) by (intros [[] [] [] [] [] []]; reflexivity).
  unfold ascii_text. induction s as [|x|x y|x y z s IH] using string_ind3; cbn [RawEncodeToString forall_char]; rewrite ?He; done.
Qed.

Lemma run_Store_phone ctx c d :
  let '(d', r) := run step (Store (S fuel) (MkStorage ctx encryptToPref decryptFromPref) c) d in
  r = Ok tt /\ prefs d' = <[config_key := utf16.Encode (runes_of (config_text c))]> (prefs d).
Proof.
  unfold Store. cbv zeta. apply run_Do_phone; [done|]. intros b. fold (config_text c). rewrite run_mbind, run_JavaString by done.
  fold config_key. cbn [new_string]. rewrite run_mbind, run_JavaString by apply config_text_nonempty. cbn [new_string].
  rewrite run_call_void. unfold app_method. cbn [st_encrypt stCtx strings made prefs attached].
  change (encryptToPref =? encryptToPref) with true. cbn iota. split; [done|]. cbn [prefs].
  rewrite lookup_insert_eq, lookup_insert_ne, lookup_insert_eq by lia. done.
Qed.

Lemma run_stored_data ctx d t : prefs d !! config_key = Some (utf16.Encode (runes_of t)) -> ascii_text t -> t <> "" ->
  let '(_, o) := run step (stored_data (S fuel) (MkStorage ctx encryptToPref decryptFromPref)) d in o = Ok (Some (RawDecodeString t)).
Proof.
  intros Hp Ht Hne. unfold stored_data. apply (run_Do_phone _ d (fun _ o => o = Ok (Some (RawDecodeString t)))); [done|]. intros b.
  rewrite run_mbind, run_JavaString by done. fold config_key. cbn [new_string]. rewrite run_mbind, run_call_object.
  unfold app_method. cbn [st_decrypt strings made prefs attached]. change (decryptFromPref =? decryptFromPref) with true. cbn iota.
  rewrite lookup_insert_eq. cbn [default from_option id]. rewrite Hp. cbn [new_string strings made prefs attached].
  rewrite run_mbind. cbn [run mret go_ret snd fst]. rewrite run_mbind.
  rewrite (run_GoString _ (utf16.Encode (runes_of t))) by (cbn [strings]; apply lookup_insert_eq || lia).
  rewrite utf16_text, clean_ascii by done. apply String.eqb_neq in Hne. by rewrite Hne.
Qed.

Lemma run_Get_phone ctx d t : prefs d !! config_key = Some (utf16.Encode (runes_of t)) -> ascii_text t -> t <> "" ->
  (run step (Get (S fuel) (MkStorage ctx encryptToPref decryptFromPref)) d).2 =
    (v ← Decode (RawDecodeString t).1; decode_config v).
Proof.
  intros Hp Ht Hne. unfold Get. rewrite run_mbind. pose proof (run_stored_data ctx d t Hp Ht Hne) as Hd.
  destruct (run step (stored_data _ _) d) as [d' o]. subst o. cbn [run lift]. by destruct (RawDecodeString t).
Qed.

(** C32. What the device keeps is what was stored. A configuration that was stored
    is read back by this process and by every later one with the same
    preferences, whatever strings it has made: the JSON text goes through base64,
    UTF-16 and the virtual machine unharmed. *)
Theorem stored_config_survives (ctx : Z) (c : Config) (d : phone) (Hctx : ctx <> 0) :
  let '(d1, r) := run step (st ← CreateStorage (S fuel) ctx; Store (S fuel) st c) d in
  r = Ok tt /\ forall d2, prefs d2 = prefs d1 ->
    (run step (st ← CreateStorage (S fuel) ctx; Get (S fuel) st) d2).2 = Ok (normal_config c).
Proof.
  rewrite run_mbind. pose proof (run_CreateStorage ctx d Hctx) as Hc. destruct (run step (CreateStorage _ _) d) as [d0 r0].
  destruct Hc as [_ ->]. pose proof (run_Store_phone ctx c d0) as Hs. destruct (run step (Store _ _ _) d0) as [d1 r]. destruct Hs as [-> Hp].
  split; [done|]. intros d2 Hd2. rewrite run_mbind. pose proof (run_CreateStorage ctx d2 Hctx) as Hc.
  destruct (run step (CreateStorage _ _) d2) as [d3 r3]. destruct Hc as [Hd3 ->].
  rewrite (run_Get_phone ctx d3 (config_text c)); [|by rewrite Hd3, Hd2, Hp, lookup_insert_eq|apply raw_ascii|apply config_text_nonempty].
  unfold config_text. rewrite RawDecode_Encode. cbn [fst]. unfold encode_config at 1. rewrite Decode_Encode. apply config_roundtrip.
Qed.
End Phone.

(** ** A telephone *)

#[local] Existing Instance DemoCert.demo_cert.

#[local] Instance demo_nebula : NebulaLib := {|
  NebulaConfig := list (string * json);
  LoadString _ := Ok [];
  GetMap c k := default [] (object_fields (get_field k c));
|}.

Definition demo_phone : phone := MkPhone false ∅ 0 ∅.
Definition demo_config : Config := MkConfig "https://vpn.lekva.me" (Some "pub") None (Some "net") (Some "") None.

Lemma stored_config_survives_witness :
  let '(d1, r) := run phone_step (st ← CreateStorage 1 3; Store 1 st demo_config) demo_phone in
  r = Ok tt /\ (run phone_step (st ← CreateStorage 1 3; Get 1 st) d1).2 = Ok (normal_config demo_config).
Proof.
  pose proof (stored_config_survives 0 3 demo_config demo_phone ltac:(done)) as Hs.
  destruct (run phone_step _ demo_phone) as [d1 r]. destruct Hs as [Hr Hs]. split; [exact Hr|]. exact (Hs d1 eq_refl).
Defined.
(** A text that is no base64 is read as what comes before its fault. *)
Example corrupt_text_accepted :
  (run phone_step (st ← CreateStorage 1 3; Get 1 st) (MkPhone true ∅ 0 {[ config_key := utf16.Encode (runes_of "e30K!") ]})).2 = Ok zero_config /\
  RawDecodeString "e30K!" = (String "{" (String "}" (String (ascii_of_nat 10) "")), Some corrupt).
Proof. split; vm_compute; reflexivity. Qed.
